(* ===== verification/_CoqProject ===== *)
-Q . S2P
Prelude.v
Ringbuf.v
Buffer.v
Protocol.v
Crc.v
Hashmap.v
Memory.v
Chain.v
Lists.v
Queues.v
Network.v
Receive.v
Util.v
Sizigy.v
Demo.v
Server.v
Calm.v
Broker.v
Publish.v
Subscribe.v
Steps.v
Delivery.v
Retained.v
Connect.v
Accept.v
Shutdown.v
Guard.v
Invariant.v
Reachable.v
Cleanup.v
Takeover.v
Readline.v
Main.v
