(* ===== verification/Prelude.v ===== *)
(** * Sizigy, a publish/subscribe broker: its model and its correctness

    Sizigy is a small broker in C.  Clients connect over TCP and exchange packets: a byte
    of opcode, four bytes of length, and the fields of the packet.  CONNECT names a client,
    SUBSCRIBE enters it into the list of a topic, PUBLISH is forwarded to that list, PINGREQ
    is answered.  Worker threads wait on one epoll instance; a descriptor is armed for one
    event at a time (EPOLLONESHOT), so at most one worker serves a client, and a client
    alternates between two states: reading a request (the handler leaves a reply in the
    client and arms it for writing) and writing the reply (the handler frees the reply and
    arms it for reading).  A keepalive thread scans the clients.

    This library models the C files function by function and proves what they do.  It also
    proves where they do something else than they mean to: such theorems say so in their
    comments.

    ** The files

    The general ones:
    - [Prelude]: results of C code ([res], an outcome or a fault), state-and-error
      commands ([M]), machine integers ([wrap8] to [wrap64], [to_int]), big-endian bytes,
      C strings, and lemmas on them.
    - [Memory]: a heap of typed objects; allocation, access and release.  An access through
      NULL, to a freed object or at another type is a fault.
    - [Chain]: sequences of cells linked by [next] pointers.
    - [Demo]: small states at which the theorems are instantiated.

    The components, with the source they model:
    - [Ringbuf] (ringbuf.c): a byte ring, shown to be a bounded FIFO queue.
    - [Buffer], [Protocol] (protocol.c, protocol.h; htonll and ntohll of network.c): cursor
      reads and writes, packets, packing and unpacking.  Packing lays down a byte string
      given by an encoder, unpacking is a parser, and round trips follow where the two
      agree.
    - [Crc], [Hashmap] (hashmap.c): the hash, shown to be CRC-32 followed by a mix, and the
      table of open addressing, shown to be a finite map as long as it need not grow.
    - [Lists] (list.c), [Queues] (queue.c): on the heap, as sequences.
    - [Network] (network.c): descriptors and epoll lists as a table of the kernel; sending
      all of a block and receiving what there is, against traces of system calls.
    - [Receive] (recv_packet of server.c): a frame from a socket through the ring.
    - [Util] (util.c): counters, random names, numbers, log lines.
    - [Sizigy] (sizigy.c, sizigy.h): clients, topics, subscriptions, messages, and the state
      [World]: heap, kernel, database, configuration, clock, random numbers.
    - [Server] (server.c, server.h): the handler of every packet, the request, reply and
      accept handlers, publishing and retaining, the keepalive scan, the worker's loop,
      start and release of the server.
    - [Main] (main.c): options, the node to join, the configuration.
    - [Shutdown] (main.c, and the loops of worker and keepalive in server.c): the signal
      handler and how the threads leave their loops.
    - [Readline] (sizigypub.c): reading a line into a block that grows.

    The correctness of the broker:
    - [Broker]: the two events of an exchange that ends in an acknowledgement
      ([ack_exchange]), PINGREQ, and the requests that stall their connection.
    - [Publish]: distribution to the subscribers, retained messages.
    - [Subscribe]: the map of topics as a finite map ([topics_repr]), finding or making a
      topic, registering a subscriber.
    - [Calm]: operations that do not lock a mutex twice.
    - [Steps]: runs of the broker as a step relation, and the invariants of every run.
    - [Delivery]: a SUBSCRIBE and a PUBLISH from the bytes one client sent to the bytes
      another one is offered.
    - [Connect]: the map of clients as a finite map ([clients_repr]), a CONNECT from its
      bytes to its acknowledgement.
    - [Retained]: a PUBLISH that is to be retained, and the SUBSCRIBE that is sent the
      retained message later.
    - [Accept]: a connection becomes a client.
    - [Guard]: the objects that are never freed while the broker runs, and the commands
      that leave them alone ([quiet]).
    - [Invariant]: what holds of the topics, their subscribers and the retained messages
      after any event ([topics_inv]), and its proof for every handler.
    - [Reachable]: the states a broker can reach, and what is served in all of them.
    - [Cleanup]: the release of the topics when the broker stops.
    - [Takeover]: names of clients that are taken over, and the freed key that is left in
      the map of clients.

    ** How the code is read

    A C function is a command of [M World] (or of any state with a heap or a kernel, by the
    classes [HasHeap] and [HasKernel]), with its statements in the order of the source.
    A pointer is a location or NULL.  Structures are records; the union in a reply is a
    pointer to an object of either type.  A field that was not written is [None], and branching on
    it is the fault [Indeterminate].  What the operating system returns is a parameter or
    part of the state: the traces of a socket, the results of accept and its companions
    ([accept_env]), the clock, rand(3), which sizes calloc can provide.  Allocation
    otherwise succeeds, because the code ends the process when it does not.

    Threads interleave at whole handlers.  Mutexes are modelled where one thread can
    deadlock on its own lock (the maps, the database); [Steps] shows them free between two
    steps.  Every lock is taken and given back inside one operation.  [Shutdown] looks at
    the threads alone: there a move of a thread is a wait, a read of the event descriptor
    or a turn of its loop, and the moves interleave in any order.

    ** Bounds

    Loops over memory take the number of objects as fuel ([heap_fuel]), which no chain
    exceeds.  Loops over system calls take the length of the trace, each turn consuming an
    event ([tx_fuel]; [request_handler] takes its fuel as an argument, and the theorems
    instantiate it by the length of the trace).  [hashmap_put] nests at most three deep:
    the nested call finds the mutex taken.  A list counts its nodes on 64 bits, so the runs
    of [Reachable] are those that allocated fewer than 2^64 objects.  The theorems state
    that a result is produced at these bounds, except where the code loops for ever, which is proved for every fuel
    ([recv_packet_spins]).

    ** What the theorems show

    - Refinement: the ring is a bounded queue, the table a finite map, the queue a FIFO, and
      a CONNECT moves the registered clients as a function on finite maps says.
    - End to end: a SUBSCRIBE followed by another client's PUBLISH makes the broker offer the
      subscriber the SUBACK and then the packet, and nothing else ([subscriber_receives]);
      each exchange ends with the client armed for its next request.
      A retained message reaches a client that subscribes later, after its SUBACK
      ([retained_reaches_later_subscriber]).
    - Invariants of every run: between two steps no lock is held, and no event deadlocks on
      a lock of its own thread but in a map that has to grow; descriptors and configuration
      stay as they were set ([locks_between_steps]);
      the map of topics, the lists, the subscriptions and the retained messages are sound
      ([topics_stay_sound]), so that distribution cannot fault ([distribution_safe]) and a
      SUBSCRIBE is served in every state that can be reached ([subscribe_always_served]).
    - Stopping: one signal stops every thread when it interrupts a waiting worker and the
      writes of its handler are read one by one ([paced_signal_stops]), and may fail to
      otherwise ([one_signal_may_not_stop]).  The release of the topics then frees each of
      their objects once, whatever happened before ([topics_released]).
    - Formats: CRC-32, integers, packets, frames.
    - Errors: requests that stall their connection, packets read past their end, a freed name
      left as a key of the map of clients and a client freed twice at the end
      ([takeover_leaves_freed_key]; by a run from the start, [takeover_run]), a retained message used after it was freed (by a run
      from the start, [stale_reply_reachable]), a list that cannot be released, an accept
      that fails, a table that deadlocks instead of growing.

    ** Not modelled

    - Interleaving inside a handler, and the memory model of the machine: the handlers race
      on topics and clients, and the model has only whole handlers.
    - Log lines (their formatting is, in [Util]), the stack (recv_packet has an array of
      variable length), the release of a hash map's own memory.
    - UNSUBSCRIBE and DISCONNECT packets have handlers, which are modelled, but no request
      reaches them.
    - What only the kernel sees: that EPOLLONESHOT disarms a descriptor when its event is
      delivered (the interest of a descriptor is what epoll_ctl set last), and that the
      event descriptors and the epoll descriptors are never closed.
    - In [Shutdown], a thread that is inside a handler which never returns (recv_packet can
      loop, [recv_packet_spins]): serving an event is one move.
    - get_client_last_action, which passes a number where a pointer is taken and which
      nothing calls.
    - The programs sizigysub.c and sizigypub.c but for readline: they use an older
      protocol.h and do not compile. *)
From stdpp Require Import base numbers option list.
From Stdlib Require Import ZArith Lia.

Local Open Scope Z_scope.

(** * Outcomes of C code *)

(** What the C standard (or POSIX) leaves undefined, or what stops a thread:
    every partial operation of the model names the reason it has no result. *)
Inductive fault :=
  | NullDeref      (* a NULL pointer is dereferenced *)
  | Dangling       (* a freed object is accessed or freed again *)
  | BadCast        (* an object is read at a type it does not have *)
  | OutOfBounds    (* an access outside its object *)
  | Indeterminate  (* a branch or a store on a never written value *)
  | AssertFailure  (* assert(3) *)
  | SelfDeadlock   (* relocking a default mutex already held *)
  | Blocked        (* waiting on a condition nobody can signal *)
  | IntOverflow    (* signed overflow *)
  | Aborted        (* abort(3) or exit(3) *)
  | NoFuel.        (* the bound of a loop was reached *)

Inductive res (A : Type) :=
  | Ok (a : A)
  | Err (e : fault).
Global Arguments Ok {A} a.
Global Arguments Err {A} e.

#[global] Instance res_ret : MRet res := λ A a, Ok a.
#[global] Instance res_bind : MBind res := λ A B f m,
  match m with Ok a => f a | Err e => Err e end.
#[global] Instance res_fmap : FMap res := λ A B f m,
  match m with Ok a => Ok (f a) | Err e => Err e end.

Definition of_option {A} (e : fault) (o : option A) : res A :=
  match o with Some a => Ok a | None => Err e end.

Definition require (b : bool) (e : fault) : res () :=
  if b then Ok () else Err e.

(** * Stateful code: explicit state passing with faults *)

Definition M (S A : Type) : Type := S → res (A * S).

#[global] Instance M_ret {S} : MRet (M S) := λ A a s, Ok (a, s).
#[global] Instance M_bind {S} : MBind (M S) := λ A B f m s,
  match m s with Ok (a, s') => f a s' | Err e => Err e end.
#[global] Instance M_fmap {S} : FMap (M S) := λ A B f m s,
  match m s with Ok (a, s') => Ok (f a, s') | Err e => Err e end.

Definition get {S} : M S S := λ s, Ok (s, s).
Definition modify {S} (f : S → S) : M S () := λ s, Ok ((), f s).
Definition lift {S A} (r : res A) : M S A := λ s,
  match r with Ok a => Ok (a, s) | Err e => Err e end.
Definition when {S} (b : bool) (m : M S ()) : M S () :=
  if b then m else mret ().

(** * Machine integers *)

Definition wrap (w z : Z) : Z := z mod 2 ^ w.
Abbreviation wrap8 := (wrap 8).
Abbreviation wrap16 := (wrap 16).
Abbreviation wrap32 := (wrap 32).
Abbreviation wrap64 := (wrap 64).

Definition urange (w z : Z) : Prop := 0 ≤ z < 2 ^ w.
Abbreviation is_byte := (urange 8).

(** [a + b] at type [int]. *)
Definition int_add (a b : Z) : res Z :=
  _ ← require (bool_decide (- 2 ^ 31 ≤ a + b < 2 ^ 31)) IntOverflow;
  Ok (a + b).

(** Conversion to [int]. *)
Definition to_int (z : Z) : Z := (z + 2 ^ 31) mod 2 ^ 32 - 2 ^ 31.

(** The object representation of unsigned integers on the little-endian
    host, and the byte swaps of [arpa/inet.h] on such a host. *)
Fixpoint le_split (n : nat) (v : Z) : list Z :=
  match n with
  | O => []
  | S n => v mod 256 :: le_split n (v / 256)
  end.

Fixpoint le_combine (bs : list Z) : Z :=
  match bs with
  | [] => 0
  | b :: bs => b + 256 * le_combine bs
  end.

Definition bswap (n : nat) (v : Z) : Z := le_combine (rev (le_split n v)).
Definition htons (v : Z) : Z := bswap 2 v.
Definition ntohs (v : Z) : Z := bswap 2 v.
Definition htonl (v : Z) : Z := bswap 4 v.
Definition ntohl (v : Z) : Z := bswap 4 v.

(** Big-endian, the network order. *)
Definition be_split (n : nat) (v : Z) : list Z := rev (le_split n v).
Definition be_combine (bs : list Z) : Z := le_combine (rev bs).

(** * C strings *)

(** The bytes of a [char *] object up to its terminator; reading on past the
    end of an object that holds no terminator is out of bounds. *)
Fixpoint cstr (obj : list Z) : res (list Z) :=
  match obj with
  | [] => Err OutOfBounds
  | c :: obj => if decide (c = 0) then Ok [] else cs ← cstr obj; Ok (c :: cs)
  end.

Definition strlen (obj : list Z) : res nat := s ← cstr obj; Ok (length s).

(** The object that holds the string [s]. *)
Definition cobj (s : list Z) : list Z := s ++ [0].

(** A string: non-zero bytes. *)
Definition is_str (s : list Z) : Prop := Forall (λ c, 0 < c < 256) s.
#[global] Instance is_str_dec s : Decision (is_str s).
Proof. unfold is_str. apply _. Defined.

(** No terminator inside: all that the length of a string depends on. *)
Definition no_nul (s : list Z) : Prop := Forall (λ c, c ≠ 0) s.

(** [memcpy] of [x] at offset [p] of an object. *)
Definition splice {A} (p : nat) (x l : list A) : list A :=
  take p l ++ x ++ drop (p + length x) l.

(** * Lemmas and tactics *)

Lemma splice_app {A} (a b x : list A) :
  splice (length a) x (a ++ b) = a ++ x ++ drop (length x) b.
Proof.
  unfold splice. rewrite take_app_length.
  by rewrite <- drop_drop, drop_app_length.
Qed.

Lemma splice_splice {A} p (x y l : list A) : (p ≤ length l)%nat →
  splice (p + length x) y (splice p x l) = splice p (x ++ y) l.
Proof.
  intros Hp. assert (∃ a b, l = a ++ b ∧ p = length a) as (a & b & -> & ->).
  { exists (take p l), (drop p l). rewrite take_drop, length_take. split; [done|lia]. }
  rewrite !splice_app, (assoc_L (++)), <- length_app, splice_app.
  by rewrite drop_drop, length_app, <- !(assoc_L (++)).
Qed.

Lemma length_splice {A} p (x l : list A) : (p + length x ≤ length l)%nat →
  length (splice p x l) = length l.
Proof. intros. unfold splice. rewrite !length_app, length_take, length_drop. lia. Qed.

Lemma bind_Ok {A B} (m : res A) (f : A → res B) b :
  (m ≫= f) = Ok b ↔ ∃ a, m = Ok a ∧ f a = Ok b.
Proof. destruct m; cbn; naive_solver. Qed.

Lemma M_bind_Ok {S A B} (m : M S A) (f : A → M S B) s b s' :
  (m ≫= f) s = Ok (b, s') ↔ ∃ a s1, m s = Ok (a, s1) ∧ f a s1 = Ok (b, s').
Proof. unfold mbind, M_bind. destruct (m s) as [[a s1]|]; naive_solver. Qed.

Lemma M_bind_run {S A B} (m : M S A) (f : A → M S B) s a s1 :
  m s = Ok (a, s1) → (m ≫= f) s = f a s1.
Proof. unfold mbind, M_bind. by intros ->. Qed.

Lemma M_bind_err {S A B} (m : M S A) (f : A → M S B) s e :
  m s = Err e → (m ≫= f) s = Err e.
Proof. unfold mbind, M_bind. by intros ->. Qed.

Lemma require_Ok b e : require b e = Ok () ↔ b = true.
Proof. destruct b; naive_solver. Qed.

Lemma int_add_run a b : - 2 ^ 31 ≤ a + b < 2 ^ 31 → int_add a b = Ok (a + b).
Proof. intros. unfold int_add. by rewrite bool_decide_eq_true_2. Qed.

Lemma to_int_small z : - 2 ^ 31 ≤ z < 2 ^ 31 → to_int z = z.
Proof. intros. unfold to_int. rewrite Z.mod_small by lia. lia. Qed.

(** Splits the successful run of a sequence into the runs of its parts. *)
Ltac inv_res :=
  repeat match goal with
  | H : Ok _ = Ok _ |- _ => injection H as H
  | H : Ok _ = Err _ |- _ => discriminate H
  | H : Err _ = Ok _ |- _ => discriminate H
  | H : mret _ = Ok _ |- _ => injection H as H
  | H : of_option _ ?o = Ok _ |- _ => destruct o eqn:?; cbn in H
  | H : require _ _ = Ok ?u |- _ => destruct u; apply require_Ok in H
  | H : (@mbind res _ _ _ _ _) = Ok _ |- _ => apply bind_Ok in H as (? & ? & H)
  end.

(** [lia] with the equations of [/] and [mod]. *)
Ltac zlia := Z.div_mod_to_equations; lia.

(** A remainder of a number less than one modulus away. *)
Lemma mod_near a m : - m < a < m → a mod m = if decide (a < 0) then a + m else a.
Proof.
  intros. case_decide; [|by rewrite Z.mod_small by lia].
  symmetry. apply Z.mod_unique with (-1); lia.
Qed.

(** The next index of a circular array. *)
Lemma mod_succ a m : 0 ≤ a < m → (a + 1) mod m = if decide (a + 1 = m) then 0 else a + 1.
Proof.
  intros. case_decide as He; [by rewrite He, Z.mod_same by lia|].
  by rewrite Z.mod_small by lia.
Qed.

Lemma wrap_range w z : 0 ≤ w → urange w (wrap w z).
Proof. intros. apply Z.mod_pos_bound. apply Z.pow_pos_nonneg; lia. Qed.

Lemma testbit_high w z n : 0 ≤ w ≤ n → urange w z → Z.testbit z n = false.
Proof.
  intros Hn Hz. rewrite <- (Z.mod_small z (2 ^ w)) by exact Hz.
  apply Z.mod_pow2_bits_high. lia.
Qed.

Lemma lxor_range w a b : 0 ≤ w → urange w a → urange w b → urange w (Z.lxor a b).
Proof.
  intros Hw Ha Hb. replace (Z.lxor a b) with (Z.lxor a b mod 2 ^ w).
  { apply Z.mod_pos_bound. lia. }
  apply Z.bits_inj'. intros n Hn. destruct (decide (n < w)).
  - by rewrite Z.mod_pow2_bits_low by lia.
  - rewrite Z.mod_pow2_bits_high, Z.lxor_spec by lia.
    by rewrite !(testbit_high w) by (done || lia).
Qed.

Lemma wrap_small w z : urange w z → wrap w z = z.
Proof. apply Z.mod_small. Qed.

Lemma length_le_split n v : length (le_split n v) = n.
Proof. revert v. induction n; cbn; auto. Qed.

Lemma le_split_bytes n v : Forall is_byte (le_split n v).
Proof.
  revert v. induction n; intros v; cbn; constructor; [|done].
  unfold urange. change (2 ^ 8) with 256. zlia.
Qed.

Lemma le_split_combine bs :
  Forall is_byte bs → le_split (length bs) (le_combine bs) = bs.
Proof.
  induction 1 as [|b bs Hb _ IH]; cbn [length le_split le_combine]; [done|].
  unfold urange in Hb. change (2 ^ 8) with 256 in Hb.
  f_equal; [zlia|]. by replace ((b + 256 * le_combine bs) / 256) with (le_combine bs) by zlia.
Qed.

Lemma le_combine_split n v : le_combine (le_split n v) = v mod 2 ^ (8 * Z.of_nat n).
Proof.
  revert v. induction n as [|n IH]; intros v; cbn [le_split le_combine].
  { rewrite Z.mul_0_r. cbn. by rewrite Z.mod_1_r. }
  rewrite IH. replace (2 ^ (8 * Z.of_nat (S n))) with (256 * 2 ^ (8 * Z.of_nat n)).
  - rewrite Z.rem_mul_r by lia. lia.
  - replace (8 * Z.of_nat (S n)) with (8 + 8 * Z.of_nat n) by lia.
    by rewrite Z.pow_add_r by lia.
Qed.

Lemma le_combine_range bs :
  Forall is_byte bs → urange (8 * Z.of_nat (length bs)) (le_combine bs).
Proof.
  intros H. rewrite <- (le_split_combine bs H) at 2.
  rewrite le_combine_split. apply Z.mod_pos_bound. lia.
Qed.

(** Swapping the host representation of a loaded integer reads it big-endian. *)
Lemma bswap_combine bs :
  Forall is_byte bs → bswap (length bs) (le_combine bs) = be_combine bs.
Proof. intros. unfold bswap, be_combine. by rewrite le_split_combine. Qed.

Lemma length_be_split n v : length (be_split n v) = n.
Proof. unfold be_split. by rewrite length_rev, length_le_split. Qed.

Lemma be_split_bytes n v : Forall is_byte (be_split n v).
Proof. unfold be_split. apply Forall_rev, le_split_bytes. Qed.

(** Storing a swapped integer lays its bytes out big-endian. *)
Lemma split_bswap n v : le_split n (bswap n v) = be_split n v.
Proof.
  unfold bswap, be_split. rewrite <- (length_le_split n v) at 1.
  rewrite <- length_rev. apply le_split_combine, Forall_rev, le_split_bytes.
Qed.

Lemma be_combine_split n v : be_combine (be_split n v) = v mod 2 ^ (8 * Z.of_nat n).
Proof. unfold be_combine, be_split. rewrite rev_involutive. apply le_combine_split. Qed.

Lemma is_str_no_nul s : is_str s → no_nul s.
Proof. intros H. eapply Forall_impl; [exact H|]. cbn. lia. Qed.

Lemma cstr_no_nul obj s : cstr obj = Ok s → no_nul s.
Proof.
  revert s. induction obj as [|c obj IH]; cbn; intros s H; [done|].
  case_decide; inv_res; subst; [constructor|]. constructor; [done|]. by apply IH.
Qed.

Lemma cstr_nul s r : no_nul s → cstr (s ++ 0 :: r) = Ok s.
Proof.
  induction 1 as [|c s Hc _ IH]; cbn; [done|].
  rewrite decide_False by done. by rewrite IH.
Qed.

Lemma cstr_cobj_nul s : no_nul s → cstr (cobj s) = Ok s.
Proof. apply cstr_nul. Qed.

Lemma strlen_nul s : no_nul s → strlen (cobj s) = Ok (length s).
Proof. intros. unfold strlen, cobj. by rewrite cstr_nul. Qed.

Lemma cstr_cobj s r : is_str s → cstr (s ++ 0 :: r) = Ok s.
Proof. intros. by apply cstr_nul, is_str_no_nul. Qed.

Lemma strlen_cobj s : is_str s → strlen (cobj s) = Ok (length s).
Proof. intros. by apply strlen_nul, is_str_no_nul. Qed.

Lemma is_str_bytes s : is_str s → Forall is_byte s.
Proof. intros H. eapply Forall_impl; [exact H|]. unfold urange. cbn. lia. Qed.

(** Every object with a terminator holds a string, a prefix of it. *)
Lemma cstr_prefix obj s : cstr obj = Ok s → ∃ r, obj = s ++ 0 :: r.
Proof.
  revert s. induction obj as [|c obj IH]; cbn; intros s H; [done|].
  case_decide; subst; inv_res; [by exists obj; subst|].
  subst. destruct (IH _ H1) as [r ->]. by exists r.
Qed.

(** An object that ends in a terminator always holds a string. *)
Lemma cstr_terminated bs : ∃ s, cstr (bs ++ [0]) = Ok s ∧ (length s ≤ length bs)%nat.
Proof.
  induction bs as [|c bs (s & E & Hl)]; [by exists []|]. cbn [app cstr].
  case_decide; [exists []; cbn; split; [done|lia]|].
  exists (c :: s). rewrite E. cbn. split; [done|lia].
Qed.

Lemma cstr_take obj s : cstr obj = Ok s → take (length s) obj = s.
Proof. intros [r ->]%cstr_prefix. by rewrite take_app_length. Qed.

Lemma cstr_str s : is_str s → cstr (cobj s) = Ok s.
Proof. apply cstr_cobj. Qed.

Lemma cstr_is_str obj s : cstr obj = Ok s → Forall is_byte obj → is_str s.
Proof.
  revert s. induction obj as [|c obj IH]; cbn; intros s H Hb; [done|].
  apply Forall_cons in Hb as [Hc Hb]. unfold urange in Hc.
  case_decide; inv_res; subst; [constructor|].
  constructor; [cbn in *; lia|]. by eapply IH.
Qed.

Create HintDb c_model discriminated.
#[export] Hint Resolve le_split_bytes be_split_bytes is_str_bytes is_str_no_nul cstr_no_nul cstr_str : c_model.
#[export] Hint Rewrite length_le_split length_be_split : c_model.
