(* ===== verification/Ringbuf.v ===== *)
(** The byte ring buffer of [ringbuf.c]: its state, its operations, and the
    proof that they implement a bounded FIFO queue of bytes.

    The array the ring is laid over belongs to the caller; cells that were
    never written are indeterminate, so the array is a finite map from index
    to byte, indexed below [rb_max]. *)
From stdpp Require Import base numbers option list gmap.
From Stdlib Require Import ZArith Lia.
From S2P Require Import Prelude.

Local Open Scope Z_scope.

(** * State and operations *)

Record Ringbuffer := mk_ringbuf {
  rb_buffer : gmap Z Z;
  rb_head : Z;
  rb_tail : Z;
  rb_max : Z;
  rb_full : bool
}.

Definition ringbuf_reset (r : Ringbuffer) : Ringbuffer :=
  mk_ringbuf (rb_buffer r) 0 0 (rb_max r) false.

Definition ringbuf_full (r : Ringbuffer) : bool := rb_full r.

Definition ringbuf_empty (r : Ringbuffer) : bool :=
  negb (rb_full r) && bool_decide (rb_head r = rb_tail r).

Definition ringbuf_capacity (r : Ringbuffer) : Z := rb_max r.

Definition ringbuf_size (r : Ringbuffer) : Z :=
  if negb (rb_full r) then
    if decide (rb_tail r ≤ rb_head r) then wrap64 (rb_head r - rb_tail r)
    else wrap64 (rb_max r + rb_head r - rb_tail r)
  else rb_max r.

(** [buffer] is the caller's array, none of whose cells need be written. *)
Definition ringbuf_init (buffer : gmap Z Z) (size : Z) : res Ringbuffer :=
  _ ← require (bool_decide (size ≠ 0)) AssertFailure;
  let rbuf := ringbuf_reset (mk_ringbuf buffer 0 0 size false) in
  _ ← require (ringbuf_empty rbuf) AssertFailure;
  Ok rbuf.

Definition advance_pointer (r : Ringbuffer) : Ringbuffer :=
  let tail := if rb_full r then wrap64 (rb_tail r + 1) mod rb_max r else rb_tail r in
  let head := wrap64 (rb_head r + 1) mod rb_max r in
  mk_ringbuf (rb_buffer r) head tail (rb_max r) (bool_decide (head = tail)).

Definition retreat_pointer (r : Ringbuffer) : Ringbuffer :=
  mk_ringbuf (rb_buffer r) (rb_head r) (wrap64 (rb_tail r + 1) mod rb_max r)
    (rb_max r) false.

Definition set_buffer (r : Ringbuffer) (i v : Z) : res Ringbuffer :=
  _ ← require (bool_decide (0 ≤ i < rb_max r)) OutOfBounds;
  Ok (mk_ringbuf (<[i := v]> (rb_buffer r)) (rb_head r) (rb_tail r)
        (rb_max r) (rb_full r)).

Definition get_buffer (r : Ringbuffer) (i : Z) : res Z :=
  _ ← require (bool_decide (0 ≤ i < rb_max r)) OutOfBounds;
  of_option Indeterminate (rb_buffer r !! i).

Definition ringbuf_push (r : Ringbuffer) (data : Z) : res (Z * Ringbuffer) :=
  if negb (ringbuf_full r) then
    r ← set_buffer r (rb_head r) data;
    Ok (0, advance_pointer r)
  else Ok (-1, r).

(** The loop from index [i] on, [n] iterations left; [rc] is the status of
    the last push. *)
Fixpoint bulk_push_loop (r : Ringbuffer) (data : list Z) (i n : nat) (rc : Z)
    : res (Z * Ringbuffer) :=
  match n with
  | O => Ok (rc, r)
  | S n =>
      d ← of_option OutOfBounds (data !! i);
      '(rc, r) ← ringbuf_push r d;
      if decide (rc = -1) then Ok (rc, r)
      else bulk_push_loop r data (S i) n rc
  end.

Definition ringbuf_bulk_push (r : Ringbuffer) (data : list Z) (size : nat)
    : res (Z * Ringbuffer) :=
  bulk_push_loop r data 0 size 0.

(** The second component is the byte stored through the out parameter. *)
Definition ringbuf_pop (r : Ringbuffer) : res (Z * option Z * Ringbuffer) :=
  if negb (ringbuf_empty r) then
    d ← get_buffer r (rb_tail r);
    Ok (0, Some d, retreat_pointer r)
  else Ok (-1, None, r).

(** * Invariant and abstraction *)

Record rb_wf (r : Ringbuffer) : Prop := {
  wf_max : 0 < rb_max r < 2 ^ 64;
  wf_head : 0 ≤ rb_head r < rb_max r;
  wf_tail : 0 ≤ rb_tail r < rb_max r;
  wf_full : rb_full r = true → rb_head r = rb_tail r
}.

Definition slot (r : Ringbuffer) (i : nat) : Z :=
  (rb_tail r + Z.of_nat i) mod rb_max r.

(** The bytes held, oldest first. *)
Definition contents (r : Ringbuffer) : option (list Z) :=
  mapM (λ i, rb_buffer r !! slot r i) (seq 0 (Z.to_nat (ringbuf_size r))).

Definition rb_repr (r : Ringbuffer) (l : list Z) : Prop :=
  rb_wf r ∧ contents r = Some l.

(** * The contract: a bounded queue of bytes *)

Class ByteQueue (Q : Type) := {
  bq_repr : Q → nat → list Z → Prop;
  bq_push : Q → Z → res (Z * Q);
  bq_pop : Q → res (Z * option Z * Q);
  bq_size : Q → Z;
  bq_push_law q cap l v : bq_repr q cap l →
    ∃ q', bq_push q v = Ok ((if decide (length l < cap)%nat then 0 else -1), q')
      ∧ bq_repr q' cap (if decide (length l < cap)%nat then l ++ [v] else l);
  bq_pop_law q cap l : bq_repr q cap l →
    ∃ q', bq_pop q = Ok ((if l is [] then -1 else 0), head l, q')
      ∧ bq_repr q' cap (tail l);
  bq_size_law q cap l : bq_repr q cap l → bq_size q = Z.of_nat (length l)
}.

Inductive bq_op := Push (v : Z) | Pop | Size.

(** The observations a client makes along a sequence of operations. *)
Section Run.
Context {Q : Type} {BQ : ByteQueue Q}.

Definition bq_step (q : Q) (o : bq_op) : res (Z * option Z * Q) :=
  match o with
  | Push v => '(rc, q) ← bq_push q v; Ok (rc, None, q)
  | Pop => bq_pop q
  | Size => Ok (bq_size q, None, q)
  end.

Fixpoint bq_run (q : Q) (os : list bq_op) : res (list (Z * option Z)) :=
  match os with
  | [] => Ok []
  | o :: os =>
      '(rc, d, q) ← bq_step q o;
      obs ← bq_run q os;
      Ok ((rc, d) :: obs)
  end.

End Run.

(** The specification itself: a list and its capacity. *)
Definition spec_step (cap : nat) (l : list Z) (o : bq_op) : Z * option Z * list Z :=
  match o with
  | Push v => if decide (length l < cap)%nat then (0, None, l ++ [v]) else (-1, None, l)
  | Pop => (if l is [] then -1 else 0, head l, tail l)
  | Size => (Z.of_nat (length l), None, l)
  end.

Fixpoint spec_run (cap : nat) (l : list Z) (os : list bq_op) : list (Z * option Z) :=
  match os with
  | [] => []
  | o :: os => let '(rc, d, l) := spec_step cap l o in (rc, d) :: spec_run cap l os
  end.

(** * Lemmas *)

Lemma bq_run_spec {Q} {BQ : ByteQueue Q} (q : Q) cap l os :
  bq_repr q cap l → bq_run q os = Ok (spec_run cap l os).
Proof.
  revert q l. induction os as [|o os IH]; intros q l Hq; [done|].
  cbn [bq_run spec_run]. destruct o as [v| |]; cbn [bq_step spec_step].
  - destruct (bq_push_law q cap l v Hq) as (q' & -> & Hq').
    cbn. case_decide; by rewrite (IH _ _ Hq').
  - destruct (bq_pop_law q cap l Hq) as (q' & -> & Hq').
    cbn. by rewrite (IH _ _ Hq').
  - cbn. by rewrite (bq_size_law q cap l Hq), (IH _ _ Hq).
Qed.

Lemma contents_Forall2 r l :
  contents r = Some l ↔
  Z.to_nat (ringbuf_size r) = length l ∧
  ∀ i v, l !! i = Some v → rb_buffer r !! slot r i = Some v.
Proof.
  unfold contents. rewrite mapM_Some. split.
  - intros H. pose proof (Forall2_length _ _ _ H) as Hl. rewrite length_seq in Hl.
    split; [done|]. intros i v Hi.
    destruct (Forall2_lookup_r _ _ _ _ _ H Hi) as (j & Hj & Hv).
    by apply lookup_seq in Hj as [-> _].
  - intros [Hl H]. apply Forall2_same_length_lookup_2; [by rewrite length_seq|].
    intros i j v Hj Hi. apply lookup_seq in Hj as [-> _]. by apply H.
Qed.

Lemma size_eq r : rb_wf r →
  ringbuf_size r =
    if rb_full r then rb_max r else (rb_head r - rb_tail r) mod rb_max r.
Proof.
  intros [? ? ? _]. unfold ringbuf_size. destruct (rb_full r); cbn; [done|].
  rewrite mod_near by lia.
  repeat case_decide; rewrite wrap_small by (unfold urange; lia); lia.
Qed.

Lemma size_range r : rb_wf r → 0 ≤ ringbuf_size r ≤ rb_max r.
Proof. intros H. pose proof H as [? ? ? _]. rewrite size_eq by done. destruct (rb_full r); zlia. Qed.

Lemma repr_size r l : rb_repr r l → ringbuf_size r = Z.of_nat (length l).
Proof.
  intros [Hwf Hc]. apply contents_Forall2 in Hc as [Hl _].
  pose proof (size_range r Hwf). lia.
Qed.

Lemma repr_full r l : rb_repr r l → rb_full r = bool_decide (Z.of_nat (length l) = rb_max r).
Proof.
  intros H. pose proof (repr_size r l H) as Hs. destruct H as [Hwf _].
  rewrite size_eq in Hs by done. destruct Hwf as [? ? ? _].
  destruct (rb_full r); case_bool_decide; zlia.
Qed.

Lemma repr_empty r l : rb_repr r l → ringbuf_empty r = bool_decide (l = []).
Proof.
  intros H. pose proof (repr_size r l H) as Hs. destruct H as [Hwf _].
  rewrite size_eq in Hs by done. destruct Hwf as [? ? ? _]. unfold ringbuf_empty.
  rewrite mod_near in Hs by lia.
  destruct l, (rb_full r); cbn in *; repeat case_bool_decide; try case_decide; (done || lia).
Qed.

Lemma push_repr r l v : rb_repr r l → Z.of_nat (length l) < rb_max r →
  ∃ r', ringbuf_push r v = Ok (0, r') ∧ rb_repr r' (l ++ [v]) ∧ rb_max r' = rb_max r.
Proof.
  intros H Hlt. pose proof (repr_full r l H) as Hf. pose proof (repr_size r l H) as Hs.
  rewrite bool_decide_eq_false_2 in Hf by lia.
  destruct H as [Hwf Hc]. rewrite size_eq, Hf in Hs by done.
  pose proof Hwf as [Hm Hh Ht _]. apply contents_Forall2 in Hc as [_ Hc].
  unfold ringbuf_push, ringbuf_full, set_buffer. rewrite Hf. cbn [negb].
  rewrite bool_decide_eq_true_2 by lia. cbn. eexists; split; [done|].
  unfold advance_pointer; cbn [rb_full rb_head rb_tail rb_buffer rb_max].
  rewrite wrap_small by (unfold urange; lia).
  pose proof (mod_succ (rb_head r) (rb_max r) Hh) as Heqh.
  set (h := (rb_head r + 1) mod rb_max r) in *.
  assert (Hh' : 0 ≤ h < rb_max r) by (case_decide; lia).
  rewrite mod_near in Hs by lia.
  assert (Hwf' : rb_wf (mk_ringbuf (<[rb_head r:=v]> (rb_buffer r)) h (rb_tail r)
    (rb_max r) (bool_decide (h = rb_tail r)))).
  { split; cbn; try done. apply bool_decide_eq_true_1. }
  split; [|done]. split; [done|]. apply contents_Forall2. split.
  - rewrite size_eq by done. cbn. rewrite length_app. cbn. rewrite mod_near by lia.
    case_bool_decide; repeat case_decide; lia.
  - assert (Hslot : (rb_tail r + Z.of_nat (length l)) mod rb_max r = rb_head r).
    { rewrite <- Hs. destruct (decide (rb_head r - rb_tail r < 0)); [|rewrite Z.mod_small; lia].
      symmetry. apply Z.mod_unique with 1; lia. }
    intros i x Hi. unfold slot; cbn. apply lookup_app_Some in Hi as [Hi|[Hge Hi]].
    + rewrite lookup_insert_ne; [by apply Hc|].
      apply lookup_lt_Some in Hi. rewrite <- Hslot. intros Heq.
      assert (((rb_tail r + Z.of_nat (length l)) - (rb_tail r + Z.of_nat i)) mod rb_max r = 0)
        as Hz by (rewrite Zminus_mod, Heq, Z.sub_diag; apply Z.mod_0_l; lia).
      rewrite Z.mod_small in Hz by lia. lia.
    + apply list_lookup_singleton_Some in Hi as [Hi ->].
      replace i with (length l) by lia. rewrite Hslot. by rewrite lookup_insert_eq.
Qed.

Lemma push_full r l v : rb_repr r l → rb_max r ≤ Z.of_nat (length l) →
  ringbuf_push r v = Ok (-1, r).
Proof.
  intros H Hge. pose proof (repr_size r l H) as Hs. pose proof (size_range r (proj1 H)).
  unfold ringbuf_push, ringbuf_full. rewrite (repr_full r l H).
  by rewrite bool_decide_eq_true_2 by lia.
Qed.

Lemma pop_repr r v l : rb_repr r (v :: l) →
  ∃ r', ringbuf_pop r = Ok (0, Some v, r') ∧ rb_repr r' l ∧ rb_max r' = rb_max r.
Proof.
  intros H. pose proof (repr_empty r _ H) as He. pose proof (repr_size r _ H) as Hs.
  rewrite bool_decide_eq_false_2 in He by done.
  destruct H as [Hwf Hc]. pose proof Hwf as [Hm Hh Ht Hful].
  apply contents_Forall2 in Hc as [_ Hc].
  unfold ringbuf_pop, get_buffer. rewrite He. cbn [negb].
  rewrite bool_decide_eq_true_2 by lia.
  specialize (Hc 0%nat v eq_refl) as Hv. unfold slot in Hv.
  rewrite Z.add_0_r, Z.mod_small in Hv by lia. cbn. rewrite Hv. cbn.
  eexists; split; [done|]. unfold retreat_pointer.
  rewrite wrap_small by (unfold urange; lia).
  assert (Hwf' : rb_wf (mk_ringbuf (rb_buffer r) (rb_head r)
    ((rb_tail r + 1) mod rb_max r) (rb_max r) false)) by (split; cbn; [done|done|zlia|done]).
  split; [|done]. split; [done|]. apply contents_Forall2. split.
  - rewrite size_eq in Hs by done. rewrite size_eq by done. cbn in *.
    rewrite mod_near in Hs by lia. rewrite mod_succ, mod_near by (repeat case_decide; lia).
    destruct (rb_full r); [rewrite Hful by done|]; repeat case_decide; lia.
  - intros i x Hi. unfold slot; cbn. specialize (Hc (S i) x Hi). unfold slot in Hc.
    rewrite Zplus_mod_idemp_l.
    by replace (rb_tail r + 1 + Z.of_nat i) with (rb_tail r + Z.of_nat (S i)) by lia.
Qed.

Lemma pop_empty r : rb_repr r [] → ringbuf_pop r = Ok (-1, None, r).
Proof. intros H. unfold ringbuf_pop. by rewrite (repr_empty r _ H). Qed.

Lemma reset_repr r : 0 < rb_max r < 2 ^ 64 → rb_repr (ringbuf_reset r) [].
Proof. intros. split; [split; cbn; done || lia|]. apply contents_Forall2. split; done. Qed.

Lemma bulk_push_loop_repr r l data i n :
  rb_repr r l → (i + n ≤ length data)%nat →
  ∃ r', bulk_push_loop r data i n 0 =
      Ok ((if decide (Z.of_nat (length l + n) ≤ rb_max r) then 0 else -1), r')
    ∧ rb_repr r' (l ++ take (Z.to_nat (rb_max r) - length l) (take n (drop i data)))
    ∧ rb_max r' = rb_max r.
Proof.
  revert r l i. induction n as [|n IH]; intros r l i H Hin; cbn [bulk_push_loop].
  { pose proof (repr_size r l H). pose proof (size_range r (proj1 H)).
    rewrite decide_True by lia. exists r. rewrite take_0, take_nil, app_nil_r. done. }
  destruct (lookup_lt_is_Some_2 data i) as [d Hd]; [lia|].
  rewrite Hd. cbn. rewrite (drop_S data d i Hd). cbn [take].
  destruct (decide (Z.of_nat (length l) < rb_max r)) as [Hlt|Hge].
  - destruct (push_repr r l d H Hlt) as (r' & -> & H' & Hm). cbn.
    destruct (IH r' (l ++ [d]) (S i) H') as (r'' & -> & H'' & Hm'); [lia|].
    exists r''. rewrite length_app in *. cbn [length] in *. rewrite Hm in *. split_and!.
    + repeat f_equal. repeat case_decide; lia.
    + rewrite <- app_assoc in H''.
      by replace (Z.to_nat (rb_max r) - length l)%nat
        with (S (Z.to_nat (rb_max r) - (length l + 1))) by lia.
    + lia.
  - rewrite (push_full r l d H) by lia. cbn. exists r.
    replace (Z.to_nat (rb_max r) - length l)%nat with 0%nat by lia.
    rewrite take_0, app_nil_r. rewrite decide_True, decide_False by lia. done.
Qed.

Lemma bulk_push_repr r l data :
  rb_repr r l →
  ∃ r', ringbuf_bulk_push r data (length data) =
      Ok ((if decide (Z.of_nat (length l + length data) ≤ rb_max r) then 0 else -1), r')
    ∧ rb_repr r' (l ++ take (Z.to_nat (rb_max r) - length l) data)
    ∧ rb_max r' = rb_max r.
Proof.
  intros H. destruct (bulk_push_loop_repr r l data 0 (length data) H) as (r' & E & H' & Hm); [lia|].
  rewrite drop_0, firstn_all in H'. by exists r'.
Qed.

Lemma init_repr buffer size : 0 < size < 2 ^ 64 →
  ∃ r, ringbuf_init buffer size = Ok r ∧ rb_repr r [] ∧ rb_max r = size.
Proof.
  intros Hs. unfold ringbuf_init. rewrite bool_decide_eq_true_2 by lia.
  eexists; split; [done|]. split; [|done].
  by apply (reset_repr (mk_ringbuf buffer 0 0 size false)).
Qed.

#[export] Instance ringbuf_queue : ByteQueue Ringbuffer.
Proof.
  refine {|
    bq_repr r cap l := rb_repr r l ∧ rb_max r = Z.of_nat cap;
    bq_push := ringbuf_push; bq_pop := ringbuf_pop; bq_size := ringbuf_size |}.
  - intros r cap l v [H Hc]. case_decide.
    + destruct (push_repr r l v H) as (r' & E & ? & ?); [lia|].
      exists r'. split_and!; [done|done|lia].
    + exists r. split; [|done]. apply (push_full r l v H). lia.
  - intros r cap [|v l] [H Hc].
    + exists r. by rewrite (pop_empty r H).
    + destruct (pop_repr r v l H) as (r' & E & ? & ?).
      exists r'. split_and!; [done|done|cbn; lia].
  - intros r cap l [H _]. by apply repr_size.
Defined.

(** * Properties *)

(** C2. A ring buffer laid over any array of [size] cells behaves, along
    every sequence of pushes, pops and size queries, as an empty FIFO queue of
    capacity [size]: same statuses, same popped bytes, same sizes. *)
Theorem ringbuf_refines_queue (buffer : gmap Z Z) (size : Z) (os : list bq_op) :
  0 < size < 2 ^ 64 →
  ∃ r, ringbuf_init buffer size = Ok r
    ∧ bq_run r os = Ok (spec_run (Z.to_nat size) [] os).
Proof.
  intros Hs. destruct (init_repr buffer size Hs) as (r & E & H & Hm).
  exists r. split; [done|]. apply bq_run_spec. split; [done|]. lia.
Qed.

Lemma ringbuf_refines_queue_witness :
  let os := [Push 1; Push 2; Push 3; Pop; Push 4; Size; Pop; Pop; Pop] in
  spec_run 2 [] os =
    [(0, None); (0, None); (-1, None); (0, Some 1); (0, None); (2, None);
     (0, Some 2); (0, Some 4); (-1, None)]
  ∧ ∃ r, ringbuf_init ∅ 2 = Ok r ∧ bq_run r os = Ok (spec_run 2 [] os).
Proof.
  split; [reflexivity|].
  apply (ringbuf_refines_queue ∅ 2 [Push 1; Push 2; Push 3; Pop; Push 4; Size; Pop; Pop; Pop]).
  lia.
Defined.

(** Bulk insertion keeps exactly the longest prefix of the data that
    fits, in order, and reports -1 precisely when a byte had to be dropped. *)
Theorem ringbuf_bulk_push_prefix (r : Ringbuffer) (l data : list Z) :
  rb_repr r l →
  ∃ r', ringbuf_bulk_push r data (length data) =
      Ok ((if decide (Z.of_nat (length l + length data) ≤ ringbuf_capacity r)
           then 0 else -1), r')
    ∧ rb_repr r' (l ++ take (Z.to_nat (ringbuf_capacity r) - length l) data)
    ∧ ringbuf_size r' =
        Z.min (ringbuf_capacity r) (Z.of_nat (length l + length data)).
Proof.
  intros H. destruct (bulk_push_repr r l data H) as (r' & E & H' & Hm).
  exists r'. split_and!; [done..|]. rewrite (repr_size _ _ H').
  pose proof (size_range r (proj1 H)). pose proof (repr_size r l H).
  rewrite length_app, length_take. unfold ringbuf_capacity. lia.
Qed.

Lemma ringbuf_bulk_push_prefix_witness :
  let r := mk_ringbuf {[ 2 := 7 ]} 0 2 3 false in
  rb_repr r [7] ∧
  ∃ r', ringbuf_bulk_push r [8; 9; 10] 3 = Ok (-1, r') ∧ rb_repr r' [7; 8; 9]
    ∧ ringbuf_size r' = 3.
Proof.
  assert (H : rb_repr (mk_ringbuf {[ 2 := 7 ]} 0 2 3 false) [7]).
  { split; [split; cbn; done || lia|]. vm_compute. reflexivity. }
  split; [exact H|].
  exact (ringbuf_bulk_push_prefix (mk_ringbuf {[ 2 := 7 ]} 0 2 3 false) [7] [8; 9; 10] H).
Defined.
