(* ===== verification/Buffer.v ===== *)
(** The byte buffers of [protocol.c]: a cursor over a heap block of [b_size]
    bytes, the typed reads and writes at the cursor, and the two relations the
    codec proofs are made of: [emits] (a writer lays down a fixed byte string)
    and [parses] (a reader implements a parser on byte strings).

    A byte of the block that was never written is [None].  Sizes and positions
    ([size_t]) are [nat]: they only ever index an allocated block. *)
From stdpp Require Import base numbers option list.
From Stdlib Require Import ZArith Lia.
From S2P Require Import Prelude.

Local Open Scope Z_scope.

(** * State and operations *)

Record Buffer := mk_buffer {
  b_size : nat;
  b_pos : nat;
  b_data : list (option Z)
}.

Definition buffer_init (len : nat) : Buffer := mk_buffer len 0 (replicate len None).

(** [n] bytes loaded from, and a byte string stored to, the cursor; the cursor
    moves on past them. *)
Definition load (n : nat) : M Buffer (list Z) := λ b,
  _ ← require (bool_decide (b_pos b + n ≤ length (b_data b))%nat) OutOfBounds;
  bs ← of_option Indeterminate (mapM id (take n (drop (b_pos b) (b_data b))));
  Ok (bs, mk_buffer (b_size b) (b_pos b + n) (b_data b)).

Definition store (bs : list Z) : M Buffer () := λ b,
  _ ← require (bool_decide (b_pos b + length bs ≤ length (b_data b))%nat) OutOfBounds;
  Ok ((), mk_buffer (b_size b) (b_pos b + length bs)
    (splice (b_pos b) (Some <$> bs) (b_data b))).

#[global] Arguments load n b : simpl never.
#[global] Arguments store bs b : simpl never.

Definition read_uint8 : M Buffer Z :=
  bs ← load 1; mret (le_combine bs).

Definition read_uint16 : M Buffer Z :=
  bs ← load 2; mret (ntohs (le_combine bs)).

Definition read_uint32 : M Buffer Z :=
  bs ← load 4; mret (ntohl (le_combine bs)).

(** The object returned is the [len] bytes and the terminator added. *)
Definition read_string (len : nat) : M Buffer (list Z) :=
  str ← load len; mret (str ++ [0]).

(** The parameter conversions to [uint8_t], [uint16_t] and [uint32_t] are part
    of the writes. *)
Definition write_uint8 (val : Z) : M Buffer () :=
  store (le_split 1 (wrap8 val)).

Definition write_uint16 (val : Z) : M Buffer () :=
  store (le_split 2 (htons (wrap16 val))).

Definition write_uint32 (val : Z) : M Buffer () :=
  store (le_split 4 (htonl (wrap32 val))).

Definition write_string (str : list Z) : M Buffer () :=
  len ← lift (strlen str); store (take len str).

(** [network.c]: the 64-bit conversions, on the bytes of a block. *)
Definition htonll (num : Z) : list Z :=
  [ Z.land (Z.shiftr num 56) 255; Z.land (Z.shiftr num 48) 255;
    Z.land (Z.shiftr num 40) 255; Z.land (Z.shiftr num 32) 255;
    Z.land (Z.shiftr num 24) 255; Z.land (Z.shiftr num 16) 255;
    Z.land (Z.shiftr num 8) 255; Z.land (Z.shiftr num 0) 255 ].

Definition ntohll (block : list Z) : res Z :=
  match block with
  | [b0; b1; b2; b3; b4; b5; b6; b7] =>
      Ok (Z.lor (Z.lor (Z.lor (Z.lor (Z.lor (Z.lor (Z.lor
        (wrap64 (Z.shiftl b0 56)) (wrap64 (Z.shiftl b1 48)))
        (wrap64 (Z.shiftl b2 40))) (wrap64 (Z.shiftl b3 32)))
        (wrap64 (Z.shiftl b4 24))) (wrap64 (Z.shiftl b5 16)))
        (wrap64 (Z.shiftl b6 8))) (wrap64 (Z.shiftl b7 0)))
  | _ => Err OutOfBounds
  end.

Definition read_uint64 : M Buffer Z :=
  bs ← load 8; lift (ntohll bs).

Definition write_uint64 (val : Z) : M Buffer () :=
  store (htonll (wrap64 val)).

Definition advance_pos (offset : nat) : M Buffer () := λ b,
  _ ← require (bool_decide (b_pos b + offset ≤ b_size b)%nat) AssertFailure;
  Ok ((), mk_buffer (b_size b) (b_pos b + offset) (b_data b)).

(** * Writers that lay down a byte string *)

(** On a buffer of declared size [sz], [m] writes exactly the bytes [bs] at the
    cursor, or overruns the block when they do not fit. *)
Definition emits (sz : nat) (m : M Buffer ()) (bs : list Z) : Prop :=
  ∀ b, b_size b = sz → (b_pos b ≤ length (b_data b))%nat → m b = store bs b.

(** * Readers that implement a parser *)

Definition parser (A : Type) : Type := list Z → option (A * list Z).

#[export] Instance parser_ret : MRet parser := λ A a bs, Some (a, bs).
#[export] Instance parser_bind : MBind parser := λ A B f p bs,
  '(a, bs) ← p bs; f a bs.

Definition p_bytes (n : nat) : parser (list Z) := λ bs,
  if decide (n ≤ length bs)%nat then Some (take n bs, drop n bs) else None.

Definition p_uint (n : nat) : parser Z :=
  bs ← p_bytes n; mret (be_combine bs).

(** On a block whose bytes from the cursor on are [bs], [m] returns what the
    parser does and leaves the cursor at the unparsed rest; where the parser
    fails, [m] reads out of bounds. *)
Definition parses {A} (m : M Buffer A) (p : parser A) : Prop :=
  ∀ b bs, (b_pos b ≤ length (b_data b))%nat → Forall is_byte bs →
    drop (b_pos b) (b_data b) = Some <$> bs →
    match p bs with
    | Some (a, rest) => Forall is_byte rest ∧ ∃ pos, (pos ≤ length (b_data b))%nat ∧
        m b = Ok (a, mk_buffer (b_size b) pos (b_data b)) ∧
        drop pos (b_data b) = Some <$> rest
    | None => m b = Err OutOfBounds
    end.

(** * Lemmas *)

Lemma mapM_id_fmap_Some {A} (l : list A) : mapM id (Some <$> l) = Some l.
Proof. induction l as [|x l IH]; [done|]. rewrite fmap_cons. cbn. by rewrite IH. Qed.

Lemma emits_store sz bs : emits sz (store bs) bs.
Proof. by intros b. Qed.

Lemma emits_nil sz : emits sz (mret ()) [].
Proof.
  intros [s p d] ? Hp. unfold store. cbn in *.
  rewrite Nat.add_0_r, bool_decide_eq_true_2 by done. cbn. unfold splice; cbn.
  by rewrite ?Nat.add_0_r, take_drop.
Qed.

Lemma emits_bind sz m k bs1 bs2 :
  emits sz m bs1 → emits sz k bs2 → emits sz (m ≫= λ _, k) (bs1 ++ bs2).
Proof.
  intros H1 H2 b Hsz Hp. unfold mbind, M_bind. rewrite (H1 b Hsz Hp). unfold store at 1.
  case_bool_decide as Hb; cbn.
  2: { unfold store. rewrite length_app, bool_decide_eq_false_2 by lia. done. }
  rewrite H2; cbn; [|done|rewrite length_splice; rewrite ?length_fmap; lia].
  unfold store; cbn. rewrite length_splice, length_app by (rewrite length_fmap; lia).
  repeat case_bool_decide; try (exfalso; lia); cbn; [|done].
  rewrite Nat.add_assoc, fmap_app, <- splice_splice by done. by rewrite (length_fmap Some bs1).
Qed.

Lemma le_split_wrap n v : le_split n (v mod 2 ^ (8 * Z.of_nat n)) = le_split n v.
Proof.
  rewrite <- le_combine_split, <- (length_le_split n v) at 1.
  apply le_split_combine, le_split_bytes.
Qed.

Lemma emits_uint8 sz v : emits sz (write_uint8 v) (be_split 1 v).
Proof.
  unfold write_uint8, wrap, be_split.
  rewrite (le_split_wrap 1 v : le_split 1 (v mod 2 ^ 8) = _). apply emits_store.
Qed.

Lemma emits_uint16 sz v : emits sz (write_uint16 v) (be_split 2 v).
Proof.
  unfold write_uint16, htons, wrap. rewrite split_bswap. unfold be_split.
  rewrite (le_split_wrap 2 v : le_split 2 (v mod 2 ^ 16) = _). apply emits_store.
Qed.

Lemma emits_uint32 sz v : emits sz (write_uint32 v) (be_split 4 v).
Proof.
  unfold write_uint32, htonl, wrap. rewrite split_bswap. unfold be_split.
  rewrite (le_split_wrap 4 v : le_split 4 (v mod 2 ^ 32) = _). apply emits_store.
Qed.

Lemma emits_string sz obj s : cstr obj = Ok s → emits sz (write_string obj) s.
Proof.
  intros H b ? ?. unfold write_string, mbind, M_bind, lift, strlen. rewrite H. cbn.
  by rewrite (cstr_take _ _ H).
Qed.

(** A writer whose bytes fit in a fresh block leaves the rest of it unwritten. *)
Lemma emits_fresh sz m bs : emits sz m bs → (length bs ≤ sz)%nat →
  m (buffer_init sz) =
    Ok ((), mk_buffer sz (length bs) ((Some <$> bs) ++ replicate (sz - length bs) None)).
Proof.
  intros H Hl. rewrite H; [|done|cbn; lia]. unfold store, buffer_init; cbn.
  rewrite length_replicate, bool_decide_eq_true_2 by lia. unfold splice; cbn.
  by rewrite length_fmap, drop_replicate.
Qed.

Lemma emits_overrun sz m bs : emits sz m bs → (sz < length bs)%nat →
  m (buffer_init sz) = Err OutOfBounds.
Proof.
  intros H Hl. rewrite H; [|done|cbn; lia]. unfold store, buffer_init; cbn.
  by rewrite length_replicate, bool_decide_eq_false_2 by lia.
Qed.

Lemma parses_ret {A} (a : A) : parses (mret a) (mret a).
Proof. intros [s p d] bs Hp Hbs Hd. cbn in *. split; [done|]. by exists p. Qed.

Lemma parses_bind {A B} (m : M Buffer A) (f : A → M Buffer B) (p : parser A) (g : A → parser B) :
  parses m p → (∀ a, parses (f a) (g a)) → parses (m ≫= f) (p ≫= g).
Proof.
  intros Hm Hf b bs Hp Hbs Hd. specialize (Hm b bs Hp Hbs Hd).
  unfold mbind at 1, parser_bind. destruct (p bs) as [[a rest]|]; cbn.
  - destruct Hm as (Hrest & pos & Hpos & E & Hd').
    specialize (Hf a (mk_buffer (b_size b) pos (b_data b)) rest Hpos Hrest Hd').
    unfold mbind, M_bind. rewrite E. exact Hf.
  - unfold mbind, M_bind. by rewrite Hm.
Qed.

Lemma parses_load n : parses (load n) (p_bytes n).
Proof.
  intros b bs Hp Hbs Hd. unfold p_bytes, load.
  pose proof (f_equal length Hd) as Hl. rewrite length_drop, length_fmap in Hl.
  rewrite Hd, <- fmap_take, mapM_id_fmap_Some. case_decide.
  - rewrite bool_decide_eq_true_2 by lia. split; [by apply Forall_drop|].
    exists (b_pos b + n)%nat. split; [lia|]. split; [done|].
    by rewrite <- drop_drop, Hd, fmap_drop.
  - by rewrite bool_decide_eq_false_2 by lia.
Qed.

Lemma parses_load_map {A} n (f : list Z → A) (g : list Z → A) :
  (∀ bs, length bs = n → Forall is_byte bs → f bs = g bs) →
  parses (bs ← load n; mret (f bs)) (bs ← p_bytes n; mret (g bs)).
Proof.
  intros Hfg b bs Hp Hbs Hd. pose proof (parses_load n b bs Hp Hbs Hd) as H.
  unfold mbind, parser_bind, M_bind. unfold p_bytes in *. case_decide; cbn.
  - destruct H as (? & pos & ? & E & ?). split; [done|]. exists pos. split; [done|].
    rewrite E. split; [|done]. cbn. rewrite Hfg; [done| |by apply Forall_take].
    rewrite length_take. lia.
  - by rewrite H.
Qed.

Lemma parses_uint8 : parses read_uint8 (p_uint 1).
Proof. apply parses_load_map. intros [|x [|]] Hl; by try discriminate Hl. Qed.

Lemma parses_uint16 : parses read_uint16 (p_uint 2).
Proof.
  apply parses_load_map. intros bs Hl Hbs. unfold ntohs. rewrite <- Hl.
  by apply bswap_combine.
Qed.

Lemma parses_uint32 : parses read_uint32 (p_uint 4).
Proof.
  apply parses_load_map. intros bs Hl Hbs. unfold ntohl. rewrite <- Hl.
  by apply bswap_combine.
Qed.

Lemma parses_string n : parses (read_string n) (bs ← p_bytes n; mret (bs ++ [0])).
Proof. by apply parses_load_map. Qed.

(** A whole block: the outcome of a reader that implements [p]. *)
Lemma parses_block {A} (m : M Buffer A) p sz bs : parses m p → Forall is_byte bs →
  fst <$> m (mk_buffer sz 0 (Some <$> bs)) = of_option OutOfBounds (fst <$> p bs).
Proof.
  intros Hm Hbs. specialize (Hm (mk_buffer sz 0 (Some <$> bs)) bs ltac:(cbn; lia) Hbs eq_refl).
  destruct (p bs) as [[a rest]|]; cbn.
  - destruct Hm as (_ & pos & _ & E & _). by rewrite E.
  - by rewrite Hm.
Qed.

Lemma p_bytes_app n bs rest : length bs = n → p_bytes n (bs ++ rest) = Some (bs, rest).
Proof.
  intros <-. unfold p_bytes. rewrite decide_True by (rewrite length_app; lia).
  by rewrite take_app_length, drop_app_length.
Qed.

Lemma p_uint_app n v rest :
  urange (8 * Z.of_nat n) v → p_uint n (be_split n v ++ rest) = Some (v, rest).
Proof.
  intros Hv. unfold p_uint, mbind, parser_bind.
  rewrite p_bytes_app by apply length_be_split. cbn.
  by rewrite be_combine_split, Z.mod_small.
Qed.

(** ** The 64-bit conversions *)

Lemma land_shiftr_byte num k : 0 ≤ k → Z.land (Z.shiftr num k) 255 = num / 2 ^ k mod 256.
Proof. intros. rewrite Z.shiftr_div_pow2 by done. by apply (Z.land_ones _ 8). Qed.

Lemma htonll_be num : htonll num = be_split 8 num.
Proof.
  unfold htonll, be_split. rewrite !land_shiftr_byte by lia. cbn [le_split rev app].
  rewrite !Z.div_div by lia. rewrite Z.div_1_r. reflexivity.
Qed.

Lemma lor_shift_add a b k : 0 ≤ k → 0 ≤ b < 2 ^ k → Z.lor (a * 2 ^ k) b = a * 2 ^ k + b.
Proof.
  intros Hk Hb. rewrite <- Z.shiftl_mul_pow2 by done.
  assert (Hd : Z.land (Z.shiftl a k) b = 0).
  { apply Z.bits_inj'. intros n Hn. rewrite Z.land_spec, Z.bits_0.
    destruct (decide (n < k)); [by rewrite Z.shiftl_spec_low|].
    rewrite <- (Z.mod_small b (2 ^ k)), Z.mod_pow2_bits_high by lia. apply andb_false_r. }
  by rewrite <- Z.lxor_lor, <- Z.add_nocarry_lxor by done.
Qed.

Lemma shift_byte b k : is_byte b → 0 ≤ k ≤ 56 → wrap64 (Z.shiftl b k) = b * 2 ^ k.
Proof.
  unfold urange. intros Hb Hk. rewrite Z.shiftl_mul_pow2 by lia. apply wrap_small.
  unfold urange. assert (2 ^ k ≤ 2 ^ 56) by (apply Z.pow_le_mono_r; lia).
  assert (0 < 2 ^ k) by (apply Z.pow_pos_nonneg; lia). nia.
Qed.

(** One step of accumulating bytes from the most significant down. *)
Lemma lor_step acc b k : 0 ≤ k → is_byte b →
  Z.lor (acc * 2 ^ (k + 8)) (b * 2 ^ k) = (acc * 256 + b) * 2 ^ k.
Proof.
  unfold urange. intros Hk Hb. rewrite lor_shift_add by (rewrite ?Z.pow_add_r by lia; nia).
  rewrite Z.pow_add_r by lia. change (2 ^ 8) with 256. lia.
Qed.

Lemma ntohll_be bs : length bs = 8%nat → Forall is_byte bs → ntohll bs = Ok (be_combine bs).
Proof.
  intros Hl Hbs. do 9 (destruct bs as [|? bs]; [try discriminate Hl|]); [|discriminate Hl].
  repeat match goal with H : Forall _ (_ :: _) |- _ => apply Forall_cons in H as [? H] end.
  cbn [ntohll]. rewrite !shift_byte by (done || lia). f_equal.
  rewrite (lor_step _ _ 48), (lor_step _ _ 40), (lor_step _ _ 32), (lor_step _ _ 24),
    (lor_step _ _ 16), (lor_step _ _ 8), (lor_step _ _ 0) by (done || lia).
  unfold be_combine; cbn [rev app le_combine]. lia.
Qed.

Lemma parses_uint64 : parses read_uint64 (p_uint 8).
Proof.
  intros b bs Hp Hbs Hd. pose proof (parses_load 8 b bs Hp Hbs Hd) as H.
  unfold read_uint64, p_uint, mbind, parser_bind, M_bind, lift. unfold p_bytes in *.
  case_decide as Hle; cbn.
  - destruct H as (? & pos & ? & -> & ?).
    rewrite ntohll_be by (apply Forall_take || rewrite length_take; done || lia).
    split; [done|]. by exists pos.
  - by rewrite H.
Qed.

Lemma emits_uint64 sz v : emits sz (write_uint64 v) (be_split 8 v).
Proof.
  unfold write_uint64, wrap. rewrite htonll_be. unfold be_split.
  rewrite (le_split_wrap 8 v : le_split 8 (v mod 2 ^ 64) = _). apply emits_store.
Qed.

#[export] Hint Resolve parses_ret parses_bind parses_uint8 parses_uint16 parses_uint32
  parses_uint64 parses_string emits_nil emits_bind emits_uint8 emits_uint16 emits_uint32
  emits_uint64 emits_string : c_model.

(** * Properties *)

Inductive width := W8 | W16 | W32 | W64.

Definition width_bytes (w : width) : nat :=
  match w with W8 => 1 | W16 => 2 | W32 => 4 | W64 => 8 end.

Definition write_uint (w : width) : Z → M Buffer () :=
  match w with
  | W8 => write_uint8 | W16 => write_uint16 | W32 => write_uint32 | W64 => write_uint64
  end.

Definition read_uint (w : width) : M Buffer Z :=
  match w with
  | W8 => read_uint8 | W16 => read_uint16 | W32 => read_uint32 | W64 => read_uint64
  end.

(** The value a read makes of the bytes it loads is their big-endian value. *)
Lemma read_uint_load w b bs b' : Forall is_byte bs →
  load (width_bytes w) b = Ok (bs, b') → length bs = width_bytes w →
  read_uint w b = Ok (be_combine bs, b').
Proof.
  intros Hb E Hl. pose proof (bswap_combine bs Hb) as Hs. rewrite Hl in Hs.
  destruct w; cbn [read_uint width_bytes] in *;
    unfold read_uint8, read_uint16, read_uint32, read_uint64, mbind, M_bind;
    rewrite E; unfold ntohs, ntohl, lift; rewrite ?Hs; try done.
  - destruct bs as [|x [|]]; try discriminate Hl. unfold be_combine; cbn. done.
  - by rewrite ntohll_be.
Qed.

Lemma emits_uint sz w v : emits sz (write_uint w v) (be_split (width_bytes w) v).
Proof. destruct w; cbn [write_uint width_bytes]; auto with c_model. Qed.

Lemma load_splice b sz bs : (b_pos b + length bs ≤ length (b_data b))%nat →
  load (length bs) (mk_buffer sz (b_pos b) (splice (b_pos b) (Some <$> bs) (b_data b))) =
    Ok (bs, mk_buffer sz (b_pos b + length bs) (splice (b_pos b) (Some <$> bs) (b_data b))).
Proof.
  intros Hl. unfold load; cbn [b_pos b_data b_size].
  rewrite length_splice, bool_decide_eq_true_2 by (rewrite ?length_fmap; lia). cbn.
  unfold splice. rewrite drop_app_length' by (rewrite length_take; lia).
  rewrite take_app_length' by (by rewrite length_fmap). by rewrite mapM_id_fmap_Some.
Qed.

(** C28. Every integer write that fits stores the value so that the matching read
    at the same position returns it and stops where the write did; the bytes
    before and after it are untouched. *)
Theorem uint_roundtrip (w : width) (b : Buffer) (v : Z) :
  let n := width_bytes w in
  urange (8 * Z.of_nat n) v → (b_pos b + n ≤ length (b_data b))%nat →
  ∃ b', write_uint w v b = Ok ((), b')
    ∧ read_uint w (mk_buffer (b_size b') (b_pos b) (b_data b')) = Ok (v, b')
    ∧ b_pos b' = (b_pos b + n)%nat
    ∧ take (b_pos b) (b_data b') = take (b_pos b) (b_data b)
    ∧ drop (b_pos b + n) (b_data b') = drop (b_pos b + n) (b_data b).
Proof.
  intros n Hv Hfit. set (bs := be_split n v).
  assert (Hn : length bs = n) by apply length_be_split.
  exists (mk_buffer (b_size b) (b_pos b + length bs) (splice (b_pos b) (Some <$> bs) (b_data b))).
  cbn [b_size b_pos b_data]. split_and!.
  - rewrite (emits_uint (b_size b) w v b eq_refl) by lia. fold n bs. unfold store.
    by rewrite bool_decide_eq_true_2 by lia.
  - rewrite <- (Z.mod_small v _ Hv), <- be_combine_split. fold bs.
    apply read_uint_load; [apply be_split_bytes| |done].
    fold n. rewrite <- Hn. apply load_splice. lia.
  - lia.
  - unfold splice. rewrite take_app_le by (rewrite length_take; lia).
    by rewrite take_take, Nat.min_id.
  - unfold splice. rewrite drop_app_ge by (rewrite length_take; lia).
    rewrite length_take, drop_app_ge by (rewrite length_fmap; lia).
    rewrite drop_drop, !length_fmap. f_equal. lia.
Qed.

Lemma uint_roundtrip_witness :
  let b := mk_buffer 4 1 [None; None; None; Some 9] in
  ∃ b', write_uint W16 4660 b = Ok ((), b')
    ∧ b_data b' = [None; Some 18; Some 52; Some 9]
    ∧ read_uint W16 (mk_buffer (b_size b') 1 (b_data b')) = Ok (4660, b').
Proof.
  destruct (uint_roundtrip W16 (mk_buffer 4 1 [None; None; None; Some 9]) 4660)
    as (b' & E & R & _); [done|cbn; lia|].
  exists b'. split; [exact E|]. split; [|exact R].
  vm_compute in E. injection E as <-. reflexivity.
Defined.
