(* ===== verification/Protocol.v ===== *)
(** The wire protocol of [protocol.c] and [protocol.h]: packets, their
    constructors, [pack_*] and [unpack_*], over the buffers of [Buffer].

    The second half states the wire formats as pure encoders and parsers on
    byte strings, shows that the C routines implement them, and derives from
    that which packets survive a round trip. *)
From stdpp Require Import base numbers option list.
From Stdlib Require Import ZArith Lia.
From S2P Require Import Prelude Buffer.

Local Open Scope Z_scope.

(** * Data *)

Definition OK : Z := 0.
Definition EOOM : Z := 1.

Definition CONNECT : Z := 0x10.
Definition CONNACK : Z := 0x20.
Definition PUBLISH : Z := 0x30.
Definition PUBACK : Z := 0x40.
Definition PUBREC : Z := 0x50.
Definition PUBREL : Z := 0x60.
Definition PUBCOMP : Z := 0x70.
Definition SUBSCRIBE : Z := 0x80.
Definition SUBACK : Z := 0x90.
Definition UNSUBSCRIBE : Z := 0xA0.
Definition UNSUBACK : Z := 0xB0.
Definition PINGREQ : Z := 0xC0.
Definition PINGRESP : Z := 0xD0.
Definition DISCONNECT : Z := 0xF0.

Definition HEADERLEN : Z := 1 + 4.

Record Header := mk_header { opcode : Z; hsize : Z }.

(** A [uint8_t *] field is the object it points to, terminator included. *)
Record Connect := mk_connect {
  c_header : Header; c_idlen : Z; c_id : list Z; c_keepalive : Z; c_clean_session : Z
}.

Record Subscribe := mk_subscribe {
  s_header : Header; s_topic_len : Z; s_qos : Z; s_topic : list Z
}.

Record Unsubscribe := mk_unsubscribe {
  u_header : Header; u_topic_len : Z; u_topic : list Z
}.

Record Publish := mk_publish {
  p_header : Header; p_topic_len : Z; p_message_len : Z; p_qos : Z; p_retain : Z;
  p_dup : Z; p_topic : list Z; p_message : list Z
}.

Record Ack := mk_ack { a_header : Header; a_id : Z; a_rc : Z }.

(** * Packing and unpacking *)

Definition pack_header (h : Header) : M Buffer () :=
  write_uint8 (opcode h);;
  b ← get;
  write_uint32 (Z.of_nat (b_size b)).

Definition unpack_header : M Buffer Header :=
  op ← read_uint8;
  size ← read_uint32;
  mret (mk_header op size).

(** [malloc_ok] is the outcome of allocating the header; when it fails the
    fields of the packet are left as they were. *)
Definition unpack_connect (malloc_ok : bool) : M Buffer (Z * option Connect) :=
  if negb malloc_ok then mret (- EOOM, None) else
  header ← unpack_header;
  idlen ← read_uint16;
  clean_session ← read_uint8;
  keepalive ← read_uint16;
  id ← read_string (Z.to_nat idlen);
  mret (OK, Some (mk_connect header idlen id keepalive clean_session)).

Definition unpack_subscribe (malloc_ok : bool) : M Buffer (Z * option Subscribe) :=
  if negb malloc_ok then mret (- EOOM, None) else
  header ← unpack_header;
  topic_len ← read_uint16;
  qos ← read_uint8;
  topic ← read_string (Z.to_nat topic_len);
  mret (OK, Some (mk_subscribe header topic_len qos topic)).

Definition unpack_unsubscribe (malloc_ok : bool) : M Buffer (Z * option Unsubscribe) :=
  if negb malloc_ok then mret (- EOOM, None) else
  header ← unpack_header;
  topic_len ← read_uint16;
  topic ← read_string (Z.to_nat topic_len);
  mret (OK, Some (mk_unsubscribe header topic_len topic)).

Definition unpack_publish (malloc_ok : bool) : M Buffer (Z * option Publish) :=
  if negb malloc_ok then mret (- EOOM, None) else
  header ← unpack_header;
  topic_len ← read_uint16;
  message_len ← read_uint32;
  qos ← read_uint8;
  retain ← read_uint8;
  dup ← read_uint8;
  topic ← read_string (Z.to_nat topic_len);
  message ← read_string (Z.to_nat message_len);
  mret (OK, Some (mk_publish header topic_len message_len qos retain dup topic message)).

Definition unpack_ack (malloc_ok : bool) : M Buffer (Z * option Ack) :=
  if negb malloc_ok then mret (- EOOM, None) else
  header ← unpack_header;
  id ← read_uint16;
  rc ← read_uint8;
  mret (OK, Some (mk_ack header id rc)).

(** The constructors; an allocation that fails ends the process. *)
Definition connect_pkt (id : list Z) (keepalive clean_session : Z) : res Connect :=
  len ← strlen id;
  Ok (mk_connect (mk_header CONNECT (wrap32 (HEADERLEN + Z.of_nat len + 2 * 2 + 2 * 1)))
        (wrap16 (Z.of_nat len)) id (wrap8 keepalive) (wrap8 clean_session)).

Definition subscribe_pkt (topic : list Z) (qos : Z) : res Subscribe :=
  len ← strlen topic;
  Ok (mk_subscribe (mk_header SUBSCRIBE (wrap32 (HEADERLEN + Z.of_nat len + 2 + 3 * 1)))
        (wrap16 (Z.of_nat len)) (wrap8 qos) topic).

Definition unsubscribe_pkt (topic : list Z) : res Unsubscribe :=
  len ← strlen topic;
  Ok (mk_unsubscribe (mk_header UNSUBSCRIBE (wrap32 (HEADERLEN + Z.of_nat len + 2 + 1)))
        (wrap16 (Z.of_nat len)) topic).

Definition publish_pkt (topic message : list Z) (qos retain dup : Z) : res Publish :=
  tlen ← strlen topic;
  mlen ← strlen message;
  Ok (mk_publish
        (mk_header PUBLISH
           (wrap32 (HEADERLEN + Z.of_nat tlen + Z.of_nat mlen + 2 + 4 + 5 * 1)))
        (wrap16 (Z.of_nat tlen)) (wrap32 (Z.of_nat mlen))
        (wrap8 qos) (wrap8 retain) (wrap8 dup) topic message).

Definition ack_pkt (op id rc : Z) : Ack :=
  mk_ack (mk_header (wrap8 op) (HEADERLEN + 2 + 1)) (wrap16 id) (wrap8 rc).

Definition pack_connect (pkt : Connect) : M Buffer () :=
  pack_header (c_header pkt);;
  len ← lift (strlen (c_id pkt));
  write_uint16 (Z.of_nat len);;
  write_string (c_id pkt);;
  write_uint16 (c_keepalive pkt);;
  write_uint8 (c_clean_session pkt).

Definition pack_subscribe (pkt : Subscribe) : M Buffer () :=
  pack_header (s_header pkt);;
  len ← lift (strlen (s_topic pkt));
  write_uint16 (Z.of_nat len);;
  write_uint8 (s_qos pkt);;
  write_string (s_topic pkt).

Definition pack_unsubscribe (u : Unsubscribe) : M Buffer () :=
  pack_header (u_header u);;
  write_uint16 (u_topic_len u);;
  write_string (u_topic u).

Definition pack_publish (pkt : Publish) : M Buffer () :=
  pack_header (p_header pkt);;
  tlen ← lift (strlen (p_topic pkt));
  write_uint16 (Z.of_nat tlen);;
  mlen ← lift (strlen (p_message pkt));
  write_uint32 (Z.of_nat mlen);;
  write_uint8 (p_qos pkt);;
  write_uint8 (p_retain pkt);;
  write_uint8 (p_dup pkt);;
  write_string (p_topic pkt);;
  write_string (p_message pkt).

Definition pack_ack (pkt : Ack) : M Buffer () :=
  pack_header (a_header pkt);;
  write_uint16 (a_id pkt);;
  write_uint8 (a_rc pkt).

(** A packet packed into a fresh buffer of the size its header announces: the
    bytes a sender hands to [sendall]. *)
Definition packed (h : Header) (pack : M Buffer ()) : res (list (option Z)) :=
  '(_, b) ← pack (buffer_init (Z.to_nat (hsize h)));
  Ok (b_data b).

(** * The wire formats *)

Definition enc_header (op : Z) (size : nat) : list Z :=
  be_split 1 op ++ be_split 4 (Z.of_nat size).

Definition enc_connect (op : Z) (size : nat) (id : list Z) (keepalive clean : Z) : list Z :=
  enc_header op size ++ be_split 2 (Z.of_nat (length id)) ++ id ++
  be_split 2 keepalive ++ be_split 1 clean.

Definition enc_subscribe (op : Z) (size : nat) (qos : Z) (topic : list Z) : list Z :=
  enc_header op size ++ be_split 2 (Z.of_nat (length topic)) ++ be_split 1 qos ++ topic.

Definition enc_unsubscribe (op : Z) (size : nat) (tlen : Z) (topic : list Z) : list Z :=
  enc_header op size ++ be_split 2 tlen ++ topic.

Definition enc_publish (op : Z) (size : nat) (qos retain dup : Z) (topic message : list Z)
    : list Z :=
  enc_header op size ++ be_split 2 (Z.of_nat (length topic)) ++
  be_split 4 (Z.of_nat (length message)) ++ be_split 1 qos ++ be_split 1 retain ++
  be_split 1 dup ++ topic ++ message.

Definition enc_ack (op : Z) (size : nat) (id rc : Z) : list Z :=
  enc_header op size ++ be_split 2 id ++ be_split 1 rc.

Definition dec_header : parser Header :=
  op ← p_uint 1; size ← p_uint 4; mret (mk_header op size).

Definition dec_string (n : Z) : parser (list Z) :=
  bs ← p_bytes (Z.to_nat n); mret (bs ++ [0]).

Definition dec_connect : parser Connect :=
  h ← dec_header; idlen ← p_uint 2; clean ← p_uint 1; keepalive ← p_uint 2;
  id ← dec_string idlen; mret (mk_connect h idlen id keepalive clean).

Definition dec_subscribe : parser Subscribe :=
  h ← dec_header; tlen ← p_uint 2; qos ← p_uint 1; topic ← dec_string tlen;
  mret (mk_subscribe h tlen qos topic).

Definition dec_unsubscribe : parser Unsubscribe :=
  h ← dec_header; tlen ← p_uint 2; topic ← dec_string tlen;
  mret (mk_unsubscribe h tlen topic).

Definition dec_publish : parser Publish :=
  h ← dec_header; tlen ← p_uint 2; mlen ← p_uint 4; qos ← p_uint 1; retain ← p_uint 1;
  dup ← p_uint 1; topic ← dec_string tlen; message ← dec_string mlen;
  mret (mk_publish h tlen mlen qos retain dup topic message).

Definition dec_ack : parser Ack :=
  h ← dec_header; id ← p_uint 2; rc ← p_uint 1; mret (mk_ack h id rc).

(** * The C routines implement the wire formats *)

Lemma parses_ext {A} (m : M Buffer A) (p q : parser A) :
  (∀ bs, p bs = q bs) → parses m p → parses m q.
Proof. intros Hpq Hm b bs ? ? ?. rewrite <- Hpq. by apply Hm. Qed.

(** Both sides of an equation between parsers run the same first reads. *)
Ltac parser_eq :=
  unfold mbind, parser_bind, mbind, option_bind, mret, parser_ret;
  repeat match goal with
  | |- context [match ?e with _ => _ end] =>
      lazymatch e with context [match _ with _ => _ end] => fail | _ => idtac end;
      destruct e as [[? ?]|]
  end; try done.

Ltac parses_steps := repeat (apply parses_bind; [auto with c_model|intros ?]).

Lemma parses_header : parses unpack_header dec_header.
Proof. unfold unpack_header, dec_header. parses_steps. auto with c_model. Qed.
#[export] Hint Resolve parses_header : c_model.

Lemma parses_dec_string n : parses (read_string (Z.to_nat n)) (dec_string n).
Proof. apply parses_string. Qed.
#[export] Hint Resolve parses_dec_string : c_model.

(** The shape of every [unpack_*] whose header allocation succeeds. *)
Ltac unpack_refines :=
  eapply parses_ext; [|parses_steps; apply parses_ret]; intros bs; cbv beta; parser_eq.

Lemma unpack_connect_parses :
  parses (unpack_connect true) (p ← dec_connect; mret (OK, Some p)).
Proof. unfold unpack_connect, dec_connect. cbn [negb]. unpack_refines. Qed.

Lemma unpack_subscribe_parses :
  parses (unpack_subscribe true) (p ← dec_subscribe; mret (OK, Some p)).
Proof. unfold unpack_subscribe, dec_subscribe. cbn [negb]. unpack_refines. Qed.

Lemma unpack_unsubscribe_parses :
  parses (unpack_unsubscribe true) (p ← dec_unsubscribe; mret (OK, Some p)).
Proof. unfold unpack_unsubscribe, dec_unsubscribe. cbn [negb]. unpack_refines. Qed.

Lemma unpack_publish_parses :
  parses (unpack_publish true) (p ← dec_publish; mret (OK, Some p)).
Proof. unfold unpack_publish, dec_publish. cbn [negb]. unpack_refines. Qed.

Lemma unpack_ack_parses :
  parses (unpack_ack true) (p ← dec_ack; mret (OK, Some p)).
Proof. unfold unpack_ack, dec_ack. cbn [negb]. unpack_refines. Qed.

Lemma emits_header sz h : emits sz (pack_header h) (enc_header (opcode h) sz).
Proof.
  intros b Hb Hp. unfold pack_header, enc_header.
  change ((write_uint8 (opcode h);; b ← get; write_uint32 (Z.of_nat (b_size b))) b =
    store (be_split 1 (opcode h) ++ be_split 4 (Z.of_nat sz)) b).
  rewrite <- (emits_bind sz _ _ _ _ (emits_uint8 sz (opcode h))
    (emits_uint32 sz (Z.of_nat sz)) b Hb Hp).
  unfold mbind, M_bind. rewrite (emits_uint8 sz _ b Hb Hp). unfold store.
  case_bool_decide; cbn; [|done]. by rewrite Hb.
Qed.
#[export] Hint Resolve emits_header : c_model.

(** A [strlen] of an object that holds the string [s] is its length. *)
Lemma emits_strlen sz obj s (k : nat → M Buffer ()) bs :
  cstr obj = Ok s → emits sz (k (length s)) bs → emits sz (len ← lift (strlen obj); k len) bs.
Proof. intros Hs Hk b ? ?. unfold mbind, M_bind, lift, strlen. rewrite Hs. by apply Hk. Qed.

Ltac emits_steps :=
  repeat first
    [ solve [eauto with c_model]
    | apply emits_bind; [solve [eauto with c_model]|]
    | eapply emits_strlen; [eassumption|] ].

Lemma pack_connect_emits sz p id : cstr (c_id p) = Ok id →
  emits sz (pack_connect p)
    (enc_connect (opcode (c_header p)) sz id (c_keepalive p) (c_clean_session p)).
Proof. intros. unfold pack_connect, enc_connect. emits_steps. Qed.

Lemma pack_subscribe_emits sz p topic : cstr (s_topic p) = Ok topic →
  emits sz (pack_subscribe p) (enc_subscribe (opcode (s_header p)) sz (s_qos p) topic).
Proof. intros. unfold pack_subscribe, enc_subscribe. emits_steps. Qed.

Lemma pack_unsubscribe_emits sz p topic : cstr (u_topic p) = Ok topic →
  emits sz (pack_unsubscribe p)
    (enc_unsubscribe (opcode (u_header p)) sz (u_topic_len p) topic).
Proof. intros. unfold pack_unsubscribe, enc_unsubscribe. emits_steps. Qed.

Lemma pack_publish_emits sz p topic message :
  cstr (p_topic p) = Ok topic → cstr (p_message p) = Ok message →
  emits sz (pack_publish p)
    (enc_publish (opcode (p_header p)) sz (p_qos p) (p_retain p) (p_dup p) topic message).
Proof. intros. unfold pack_publish, enc_publish. emits_steps. Qed.

Lemma pack_ack_emits sz p :
  emits sz (pack_ack p) (enc_ack (opcode (a_header p)) sz (a_id p) (a_rc p)).
Proof. unfold pack_ack, enc_ack. emits_steps. Qed.

(** ** Lengths and contents of the encodings *)

Ltac enc_length :=
  repeat (progress rewrite ?length_app, ?length_be_split); lia.

Lemma length_enc_connect op sz id ka cs :
  length (enc_connect op sz id ka cs) = (10 + length id)%nat.
Proof. unfold enc_connect, enc_header. enc_length. Qed.

Lemma length_enc_subscribe op sz qos t :
  length (enc_subscribe op sz qos t) = (8 + length t)%nat.
Proof. unfold enc_subscribe, enc_header. enc_length. Qed.

Lemma length_enc_unsubscribe op sz l t :
  length (enc_unsubscribe op sz l t) = (7 + length t)%nat.
Proof. unfold enc_unsubscribe, enc_header. enc_length. Qed.

Lemma length_enc_publish op sz q r d t m :
  length (enc_publish op sz q r d t m) = (14 + length t + length m)%nat.
Proof. unfold enc_publish, enc_header. enc_length. Qed.

Lemma length_enc_ack op sz id rc : length (enc_ack op sz id rc) = 8%nat.
Proof. unfold enc_ack, enc_header. enc_length. Qed.

(** Parsing back what the encoders lay down, one field at a time. *)
Ltac dec_steps :=
  unfold mbind, parser_bind, mbind, option_bind, mret, parser_ret;
  rewrite <- ?(assoc_L (++));
  repeat first
    [ rewrite p_uint_app by (unfold urange in *; cbn; lia)
    | progress cbn [fst snd] ].

Lemma dec_header_app op sz rest :
  is_byte op → Z.of_nat sz < 2 ^ 32 →
  dec_header (enc_header op sz ++ rest) = Some (mk_header op (Z.of_nat sz), rest).
Proof. intros. unfold dec_header, enc_header. by dec_steps. Qed.

Lemma dec_string_app n s rest : n = Z.of_nat (length s) →
  dec_string n (s ++ rest) = Some (cobj s, rest).
Proof.
  intros ->. unfold dec_string, mbind, parser_bind, mbind, option_bind.
  by rewrite p_bytes_app by lia.
Qed.

Ltac dec_packet :=
  intros; unfold mbind, parser_bind, mbind, option_bind, mret, parser_ret;
  rewrite <- !(assoc_L (++)), dec_header_app by done; dec_steps;
  rewrite ?dec_string_app by done; done.

Lemma dec_subscribe_app op sz qos t rest :
  is_byte op → Z.of_nat sz < 2 ^ 32 → is_byte qos → Z.of_nat (length t) < 2 ^ 16 →
  dec_subscribe (enc_subscribe op sz qos t ++ rest) =
    Some (mk_subscribe (mk_header op (Z.of_nat sz)) (Z.of_nat (length t)) qos (cobj t), rest).
Proof. unfold dec_subscribe, enc_subscribe. dec_packet. Qed.

Lemma dec_unsubscribe_app op sz t rest :
  is_byte op → Z.of_nat sz < 2 ^ 32 → Z.of_nat (length t) < 2 ^ 16 →
  dec_unsubscribe (enc_unsubscribe op sz (Z.of_nat (length t)) t ++ rest) =
    Some (mk_unsubscribe (mk_header op (Z.of_nat sz)) (Z.of_nat (length t)) (cobj t), rest).
Proof. unfold dec_unsubscribe, enc_unsubscribe. dec_packet. Qed.

Lemma dec_publish_app op sz q r d t m rest :
  is_byte op → Z.of_nat sz < 2 ^ 32 → is_byte q → is_byte r → is_byte d →
  Z.of_nat (length t) < 2 ^ 16 → Z.of_nat (length m) < 2 ^ 32 →
  dec_publish (enc_publish op sz q r d t m ++ rest) =
    Some (mk_publish (mk_header op (Z.of_nat sz)) (Z.of_nat (length t))
            (Z.of_nat (length m)) q r d (cobj t) (cobj m), rest).
Proof. unfold dec_publish, enc_publish. dec_packet. Qed.

Lemma dec_ack_app op sz id rc rest :
  is_byte op → Z.of_nat sz < 2 ^ 32 → urange 16 id → is_byte rc →
  dec_ack (enc_ack op sz id rc ++ rest) =
    Some (mk_ack (mk_header op (Z.of_nat sz)) id rc, rest).
Proof. unfold dec_ack, enc_ack. dec_packet. Qed.

Lemma p_uint_1 x rest : p_uint 1 (x :: rest) = Some (x, rest).
Proof.
  change (x :: rest) with ([x] ++ rest). unfold p_uint, mbind, parser_bind.
  rewrite p_bytes_app by done. cbn. unfold be_combine; cbn. by rewrite Z.add_0_r.
Qed.

Lemma p_uint_2 x y rest : p_uint 2 (x :: y :: rest) = Some (x * 256 + y, rest).
Proof.
  change (x :: y :: rest) with ([x; y] ++ rest). unfold p_uint, mbind, parser_bind.
  rewrite p_bytes_app by done. unfold be_combine, mret, parser_ret, mbind, option_bind.
  cbn [rev app le_combine].
  by replace (y + 256 * (x + 256 * 0)) with (x * 256 + y) by lia.
Qed.

(** What the CONNECT reader makes of what the CONNECT writer lays down. *)
Lemma dec_connect_app op sz x k1 k0 s rest ka cs tl :
  is_byte op → Z.of_nat sz < 2 ^ 32 → is_byte x → is_byte k1 → is_byte k0 →
  Z.of_nat (length s) < 2 ^ 16 →
  s ++ be_split 2 ka ++ be_split 1 cs ++ tl = x :: k1 :: k0 :: rest →
  dec_connect (enc_connect op sz s ka cs ++ tl) =
    Some (mk_connect (mk_header op (Z.of_nat sz)) (Z.of_nat (length s))
      (take (length s) rest ++ [0]) (k1 * 256 + k0) x, drop (length s) rest).
Proof.
  intros ? ? ? ? ? ? Heq. unfold dec_connect, enc_connect.
  unfold mbind, parser_bind, mbind, option_bind, mret, parser_ret.
  rewrite <- !(assoc_L (++)), dec_header_app by done.
  rewrite p_uint_app by (unfold urange in *; cbn; lia). rewrite Heq.
  assert (Hl : length rest = (length s + length tl)%nat).
  { pose proof (f_equal length Heq) as Hl. revert Hl.
    rewrite !length_app, !length_be_split. cbn. lia. }
  rewrite (p_uint_1 x), (p_uint_2 k1 k0).
  unfold dec_string, p_bytes, mbind, parser_bind, mbind, option_bind.
  rewrite Nat2Z.id, decide_True by lia. done.
Qed.

Lemma p_uint_take n bs : (n ≤ length bs)%nat →
  p_uint n bs = Some (be_combine (take n bs), drop n bs).
Proof.
  intros. unfold p_uint, p_bytes, mbind, parser_bind, mbind, option_bind.
  by rewrite decide_True.
Qed.

Lemma dec_string_take n bs :
  dec_string n bs =
    if decide (Z.to_nat n ≤ length bs)%nat
    then Some (take (Z.to_nat n) bs ++ [0], drop (Z.to_nat n) bs) else None.
Proof.
  unfold dec_string, p_bytes, mbind, parser_bind, mbind, option_bind.
  by case_decide.
Qed.

(** The announced lengths of a PUBLISH frame. *)
Definition announced_topic (bs : list Z) : nat := Z.to_nat (be_combine (take 2 (drop 5 bs))).
Definition announced_message (bs : list Z) : nat := Z.to_nat (be_combine (take 4 (drop 7 bs))).

Lemma dec_publish_cases bs : (14 ≤ length bs)%nat →
  dec_publish bs =
    if decide (14 + announced_topic bs + announced_message bs ≤ length bs)%nat
    then Some (mk_publish
      (mk_header (be_combine (take 1 bs)) (be_combine (take 4 (drop 1 bs))))
      (be_combine (take 2 (drop 5 bs))) (be_combine (take 4 (drop 7 bs)))
      (be_combine (take 1 (drop 11 bs))) (be_combine (take 1 (drop 12 bs)))
      (be_combine (take 1 (drop 13 bs)))
      (take (announced_topic bs) (drop 14 bs) ++ [0])
      (take (announced_message bs) (drop (14 + announced_topic bs) bs) ++ [0]),
      drop (14 + announced_topic bs + announced_message bs) bs)
    else None.
Proof.
  intros Hl. unfold dec_publish, dec_header, mbind, parser_bind, mbind, option_bind, mret, parser_ret.
  do 7 (rewrite p_uint_take by (rewrite ?length_drop; lia)). rewrite !drop_drop.
  rewrite !dec_string_take, length_drop.
  change (Z.to_nat (be_combine (take 2 (drop (1 + 4) bs)))) with (announced_topic bs).
  destruct (decide (14 + announced_topic bs + announced_message bs ≤ length bs)%nat) as [H|H].
  - rewrite decide_True by lia. rewrite dec_string_take, !length_drop.
    change (Z.to_nat (be_combine (take 4 (drop (1 + 4 + 2) bs)))) with (announced_message bs).
    rewrite decide_True by lia. by rewrite !drop_drop.
  - case_decide; [|done]. rewrite dec_string_take, !length_drop.
    change (Z.to_nat (be_combine (take 4 (drop (1 + 4 + 2) bs)))) with (announced_message bs).
    by rewrite decide_False by lia.
Qed.

(** ** Packets on the wire *)

(** The block a packet is unpacked from. *)
Definition block (bs : list Z) : Buffer := mk_buffer (length bs) 0 (Some <$> bs).

Lemma packed_emits h pack enc k :
  emits (Z.to_nat (hsize h)) pack enc → Z.to_nat (hsize h) = (length enc + k)%nat →
  packed h pack = Ok ((Some <$> enc) ++ replicate k None).
Proof.
  intros He Hl. unfold packed. rewrite (emits_fresh _ _ _ He) by lia. cbn.
  by replace (Z.to_nat (hsize h) - length enc)%nat with k by lia.
Qed.

Lemma unpack_block {A} (unpack : M Buffer (Z * option A)) (dec : parser A) bs :
  parses unpack (p ← dec; mret (OK, Some p)) → Forall is_byte bs →
  fst <$> unpack (block bs) =
    (λ p, (OK, Some p)) <$> of_option OutOfBounds (fst <$> dec bs).
Proof.
  intros Hp Hb. etransitivity; [by apply (parses_block _ _ (length bs) bs Hp)|].
  unfold mbind, parser_bind. by destruct (dec bs) as [[p rest]|].
Qed.

Lemma Forall_bytes_1 x : is_byte x → Forall is_byte [x].
Proof. intros. by apply Forall_singleton. Qed.
#[export] Hint Resolve Forall_bytes_1 : c_model.

Ltac bytes_ok := unfold enc_header; rewrite ?Forall_app; split_and?; auto with c_model.

Lemma header_size_ok n : 0 ≤ n < 2 ^ 32 → Z.of_nat (Z.to_nat (wrap32 n)) = n.
Proof. intros. rewrite wrap_small by done. lia. Qed.

Lemma u16_small n : Z.of_nat n < 2 ^ 16 → wrap16 (Z.of_nat n) = Z.of_nat n.
Proof. intros. apply wrap_small. unfold urange. lia. Qed.

(** * Properties *)

(** C16. Unpacking is total on received blocks: each [unpack_*] returns exactly the
    packet its wire format describes, and reads beyond the block exactly when
    the block is shorter than the lengths it announces. *)
Theorem unpack_refines_format (bs : list Z) :
  Forall is_byte bs →
  fst <$> unpack_connect true (block bs) =
    (λ p, (OK, Some p)) <$> of_option OutOfBounds (fst <$> dec_connect bs) ∧
  fst <$> unpack_subscribe true (block bs) =
    (λ p, (OK, Some p)) <$> of_option OutOfBounds (fst <$> dec_subscribe bs) ∧
  fst <$> unpack_unsubscribe true (block bs) =
    (λ p, (OK, Some p)) <$> of_option OutOfBounds (fst <$> dec_unsubscribe bs) ∧
  fst <$> unpack_publish true (block bs) =
    (λ p, (OK, Some p)) <$> of_option OutOfBounds (fst <$> dec_publish bs) ∧
  fst <$> unpack_ack true (block bs) =
    (λ p, (OK, Some p)) <$> of_option OutOfBounds (fst <$> dec_ack bs).
Proof.
  intros Hb. split_and!; apply unpack_block; try done.
  - apply unpack_connect_parses.
  - apply unpack_subscribe_parses.
  - apply unpack_unsubscribe_parses.
  - apply unpack_publish_parses.
  - apply unpack_ack_parses.
Qed.

Lemma unpack_refines_format_witness :
  fst <$> unpack_ack true (block [0xC0; 0; 0; 0; 8; 1; 2; 3]) =
    Ok (OK, Some (mk_ack (mk_header PINGREQ 8) 258 3)) ∧
  fst <$> unpack_ack true (block [0xC0; 0; 0; 0; 8; 1; 2]) = Err OutOfBounds.
Proof.
  assert (H1 : Forall is_byte [0xC0; 0; 0; 0; 8; 1; 2; 3])
    by (repeat (constructor; [done|]); constructor).
  assert (H2 : Forall is_byte [0xC0; 0; 0; 0; 8; 1; 2])
    by (repeat (constructor; [done|]); constructor).
  split; [rewrite (proj2 (proj2 (proj2 (proj2 (unpack_refines_format _ H1)))))
         |rewrite (proj2 (proj2 (proj2 (proj2 (unpack_refines_format _ H2)))))]; reflexivity.
Defined.

(** C17. A PUBLISH built by [publish_pkt] and packed is unpacked to the same
    packet, for every topic and message whose lengths fit their fields, and
    whatever the two slack bytes at the end of the frame hold: the frame is two
    bytes longer than its contents, and those are never written. *)
Theorem publish_roundtrip (t m : list Z) (q r d : Z) :
  is_str t → is_str m → is_byte q → is_byte r → is_byte d →
  Z.of_nat (length t) < 2 ^ 16 → Z.of_nat (16 + length t + length m) < 2 ^ 32 →
  ∃ p wire, publish_pkt (cobj t) (cobj m) q r d = Ok p
    ∧ packed (p_header p) (pack_publish p) = Ok ((Some <$> wire) ++ [None; None])
    ∧ ∀ x y, is_byte x → is_byte y →
        fst <$> unpack_publish true (block (wire ++ [x; y])) = Ok (OK, Some p).
Proof.
  intros Ht Hm Hq Hr Hd Hlt Hlm. unfold publish_pkt. rewrite !strlen_cobj by done. cbn [mbind res_bind].
  eexists _, (enc_publish PUBLISH (16 + length t + length m) q r d t m).
  split; [done|]. rewrite !(wrap_small 8), u16_small, !(wrap_small 32)
    by (done || unfold urange, HEADERLEN; lia). split.
  - apply (packed_emits _ _ _ 2); cbn [p_header hsize].
    + replace (16 + length t + length m)%nat with (Z.to_nat
        (HEADERLEN + Z.of_nat (length t) + Z.of_nat (length m) + 2 + 4 + 5 * 1))
        by (unfold HEADERLEN; lia).
      by apply (pack_publish_emits _ (mk_publish (mk_header _ _) _ _ _ _ _ _ _)); apply cstr_cobj.
    + rewrite length_enc_publish. unfold HEADERLEN. lia.
  - intros x y Hx Hy. rewrite (unpack_block _ _ _ unpack_publish_parses).
    + rewrite dec_publish_app by (done || lia). cbn.
      do 5 f_equal; unfold HEADERLEN; lia.
    + unfold enc_publish. bytes_ok.
Qed.

Lemma publish_roundtrip_witness :
  let t := [116; 47; 97] in let m := [104; 105] in
  is_str t ∧ is_str m ∧
  ∃ p wire, publish_pkt (cobj t) (cobj m) 1 0 0 = Ok p
    ∧ packed (p_header p) (pack_publish p) = Ok ((Some <$> wire) ++ [None; None])
    ∧ ∀ x y, is_byte x → is_byte y →
        fst <$> unpack_publish true (block (wire ++ [x; y])) = Ok (OK, Some p).
Proof.
  assert (Ht : is_str [116; 47; 97]) by (eapply bool_decide_unpack; vm_compute; exact I).
  assert (Hm : is_str [104; 105]) by (eapply bool_decide_unpack; vm_compute; exact I).
  split; [exact Ht|split; [exact Hm|]].
  apply (publish_roundtrip [116; 47; 97] [104; 105] 1 0 0 Ht Hm); done.
Defined.

(** C18. SUBSCRIBE, UNSUBSCRIBE and acknowledgement packets survive packing
    and unpacking too; their frames carry two, one and no unwritten bytes. *)
Theorem control_roundtrip (t : list Z) (q op id rc : Z) :
  is_str t → is_byte q → is_byte op → urange 16 id → is_byte rc →
  Z.of_nat (length t) < 2 ^ 16 →
  (∃ p wire, subscribe_pkt (cobj t) q = Ok p
    ∧ packed (s_header p) (pack_subscribe p) = Ok ((Some <$> wire) ++ [None; None])
    ∧ ∀ x y, is_byte x → is_byte y →
        fst <$> unpack_subscribe true (block (wire ++ [x; y])) = Ok (OK, Some p)) ∧
  (∃ p wire, unsubscribe_pkt (cobj t) = Ok p
    ∧ packed (u_header p) (pack_unsubscribe p) = Ok ((Some <$> wire) ++ [None])
    ∧ ∀ x, is_byte x →
        fst <$> unpack_unsubscribe true (block (wire ++ [x])) = Ok (OK, Some p)) ∧
  (∃ wire, packed (a_header (ack_pkt op id rc)) (pack_ack (ack_pkt op id rc)) = Ok (Some <$> wire)
    ∧ fst <$> unpack_ack true (block wire) = Ok (OK, Some (ack_pkt op id rc))).
Proof.
  intros Ht Hq Hop Hid Hrc Hlt.
  unfold subscribe_pkt, unsubscribe_pkt. rewrite !strlen_cobj by done.
  cbn [mbind res_bind].
  rewrite !(wrap_small 8), u16_small, !(wrap_small 32)
    by (done || unfold urange, HEADERLEN; lia). split_and!.
  - eexists _, (enc_subscribe SUBSCRIBE (10 + length t) q t). split; [done|]. split.
    + apply (packed_emits _ _ _ 2); cbn [s_header hsize].
      * replace (10 + length t)%nat with (Z.to_nat
          (HEADERLEN + Z.of_nat (length t) + 2 + 3 * 1)) by (unfold HEADERLEN; lia).
        apply (pack_subscribe_emits _ (mk_subscribe (mk_header _ _) _ _ _)). by apply cstr_cobj.
      * rewrite length_enc_subscribe. unfold HEADERLEN. lia.
    + intros x y Hx Hy. rewrite (unpack_block _ _ _ unpack_subscribe_parses).
      * rewrite dec_subscribe_app by (done || lia). cbn. do 5 f_equal; unfold HEADERLEN; lia.
      * unfold enc_subscribe. bytes_ok.
  - eexists _, (enc_unsubscribe UNSUBSCRIBE (8 + length t) (Z.of_nat (length t)) t).
    split; [done|]. split.
    + apply (packed_emits _ _ _ 1); cbn [u_header hsize].
      * replace (8 + length t)%nat with (Z.to_nat
          (HEADERLEN + Z.of_nat (length t) + 2 + 1)) by (unfold HEADERLEN; lia).
        apply (pack_unsubscribe_emits _ (mk_unsubscribe (mk_header _ _) _ _)). by apply cstr_cobj.
      * rewrite length_enc_unsubscribe. unfold HEADERLEN. lia.
    + intros x Hx. rewrite (unpack_block _ _ _ unpack_unsubscribe_parses).
      * rewrite dec_unsubscribe_app by (done || lia). cbn. do 5 f_equal; unfold HEADERLEN; lia.
      * unfold enc_unsubscribe. bytes_ok.
  - exists (enc_ack op 8 id rc). unfold ack_pkt.
    rewrite !(wrap_small 8), (wrap_small 16) by done. split.
    + rewrite <- (app_nil_r (Some <$> _)). apply (packed_emits _ _ _ 0); cbn [a_header hsize].
      * apply (pack_ack_emits _ (mk_ack (mk_header _ _) _ _)).
      * by rewrite length_enc_ack.
    + rewrite (unpack_block _ _ _ unpack_ack_parses).
      * rewrite <- (app_nil_r (enc_ack _ _ _ _)), dec_ack_app by (done || lia). done.
      * unfold enc_ack. bytes_ok.
Qed.

Lemma control_roundtrip_witness :
  let t := [116; 101; 115; 116] in
  is_str t ∧
  ∃ p wire, subscribe_pkt (cobj t) 1 = Ok p
    ∧ packed (s_header p) (pack_subscribe p) = Ok ((Some <$> wire) ++ [None; None])
    ∧ ∀ x y, is_byte x → is_byte y →
        fst <$> unpack_subscribe true (block (wire ++ [x; y])) = Ok (OK, Some p).
Proof.
  assert (Ht : is_str [116; 101; 115; 116]) by (eapply bool_decide_unpack; vm_compute; exact I).
  split; [exact Ht|].
  exact (proj1 (control_roundtrip [116; 101; 115; 116] 1 SUBACK 7 0 Ht
    ltac:(done) ltac:(done) ltac:(done) ltac:(done) ltac:(done))).
Defined.

(** C23. CONNECT does not survive a round trip: [pack_connect] writes the id
    before the keepalive and the flag, [unpack_connect] reads it after them.  The
    reader of a CONNECT with a non-empty id takes the first byte of the id for the
    flag, the next two bytes for the keepalive, and an id shifted by three. *)
Theorem connect_fields_shifted (id : list Z) (ka cs : Z) :
  is_str id → id ≠ [] → is_byte ka → is_byte cs → Z.of_nat (length id) < 2 ^ 16 →
  ∃ p wire, connect_pkt (cobj id) ka cs = Ok p
    ∧ packed (c_header p) (pack_connect p) = Ok ((Some <$> wire) ++ [None])
    ∧ ∀ x, is_byte x → let s := id ++ [0; ka; cs; x] in
        fst <$> unpack_connect true (block (wire ++ [x])) =
          Ok (OK, Some (mk_connect (c_header p) (c_idlen p)
            (take (length id) (drop 3 s) ++ [0]) (be_combine (take 2 (drop 1 s))) (hd 0 id))).
Proof.
  intros Hid Hne Hka Hcs Hl. unfold connect_pkt. rewrite strlen_cobj by done.
  cbn [mbind res_bind].
  rewrite !(wrap_small 8), u16_small, !(wrap_small 32)
    by (done || unfold urange, HEADERLEN; lia).
  assert (Hkb : be_split 2 ka = [0; ka]).
  { unfold be_split, urange in *. change (2 ^ 8) with 256 in *. cbn.
    rewrite (Z.div_small ka 256), (Z.mod_small ka 256) by lia. done. }
  assert (Hcb : be_split 1 cs = [cs]) by (unfold be_split; cbn; by rewrite Z.mod_small).
  eexists _, (enc_connect CONNECT (11 + length id) id ka cs). split; [done|]. split.
  - apply (packed_emits _ _ _ 1); cbn [c_header hsize].
    + replace (11 + length id)%nat with (Z.to_nat
        (HEADERLEN + Z.of_nat (length id) + 2 * 2 + 2 * 1)) by (unfold HEADERLEN; lia).
      apply (pack_connect_emits _ (mk_connect (mk_header _ _) _ _ _ _)). by apply cstr_cobj.
    + rewrite length_enc_connect. unfold HEADERLEN. lia.
  - intros x Hx. cbv zeta. rewrite (unpack_block _ _ _ unpack_connect_parses).
    2: { unfold enc_connect. bytes_ok. }
    remember (id ++ [0; ka; cs; x]) as s eqn:Es0.
    assert (Hs : Forall is_byte s).
    { subst s. apply Forall_app; split; [auto with c_model|]. by repeat (constructor; [done|]). }
    assert (Hsl : length s = (length id + 4)%nat) by (by rewrite Es0, length_app).
    destruct id as [|i0 id]; [done|]. destruct s as [|s0 [|s1 [|s2 rest]]];
      cbn in Hsl; try (exfalso; lia).
    injection Es0 as -> Es. rewrite !Forall_cons in Hs. destruct Hs as (? & ? & ? & ?).
    rewrite (dec_connect_app _ _ i0 s1 s2 (i0 :: id) rest); try done; [|lia|].
    + cbn [fst of_option fmap option_fmap option_map res_fmap c_header c_idlen drop take].
      rewrite drop_0, take_0. unfold be_combine. cbn [rev app le_combine hd].
      replace (s2 + 256 * (s1 + 256 * 0)) with (s1 * 256 + s2) by lia.
      replace (Z.of_nat (11 + length (i0 :: id))) with
        (HEADERLEN + Z.of_nat (length (i0 :: id)) + 2 * 2 + 2 * 1)
        by (unfold HEADERLEN; lia). done.
    + rewrite Hkb, Hcb. cbn. by rewrite Es.
Qed.

Lemma connect_fields_shifted_witness :
  let id := [97; 98; 99; 100] in
  is_str id ∧
  ∃ p wire, connect_pkt (cobj id) 60 1 = Ok p
    ∧ packed (c_header p) (pack_connect p) = Ok ((Some <$> wire) ++ [None])
    ∧ ∀ x, is_byte x → let s := id ++ [0; 60; 1; x] in
        fst <$> unpack_connect true (block (wire ++ [x])) =
          Ok (OK, Some (mk_connect (c_header p) (c_idlen p)
            (take 4 (drop 3 s) ++ [0]) (be_combine (take 2 (drop 1 s))) 97)).
Proof.
  assert (Hi : is_str [97; 98; 99; 100]) by (eapply bool_decide_unpack; vm_compute; exact I).
  split; [exact Hi|].
  exact (connect_fields_shifted [97; 98; 99; 100] 60 1 Hi ltac:(done) ltac:(done) ltac:(done)
    ltac:(done)).
Defined.

(** [unpack_publish] never consults the frame size: on a frame that holds
    the fixed fields it runs off the end of the block exactly when the topic and
    message lengths the sender announces add up to more than the frame. *)
Theorem unpack_publish_overread (bs : list Z) :
  Forall is_byte bs → (14 ≤ length bs)%nat →
  fst <$> unpack_publish true (block bs) = Err OutOfBounds ↔
  (length bs < 14 + announced_topic bs + announced_message bs)%nat.
Proof.
  intros Hb Hl. rewrite (unpack_block _ _ _ unpack_publish_parses) by done.
  rewrite dec_publish_cases by done. case_decide; cbn; split; (done || lia).
Qed.

Lemma unpack_publish_overread_witness :
  let bs := [0x30; 0; 0; 0; 14; 0; 1; 0; 0; 0; 0; 0; 0; 0] in
  fst <$> unpack_publish true (block bs) = Err OutOfBounds.
Proof.
  apply (unpack_publish_overread [0x30; 0; 0; 0; 14; 0; 1; 0; 0; 0; 0; 0; 0; 0]).
  - repeat (constructor; [done|]). constructor.
  - cbn. lia.
  - eapply bool_decide_unpack. vm_compute. exact I.
Defined.

(** C24. A received PUBLISH can always be packed again into a buffer of its own
    frame size, as [publish_message] does to forward it, without overrunning it.
    But the strings written stop at the first zero byte of topic and message, so
    every byte of the frame after them goes out unwritten: a publisher chooses
    how many bytes of uninitialised heap each subscriber is sent. *)
Theorem publish_forward_in_bounds (bs : list Z) (p : Publish) :
  Forall is_byte bs → (14 ≤ length bs)%nat →
  fst <$> unpack_publish true (block bs) = Ok (OK, Some p) →
  hsize (p_header p) = Z.of_nat (length bs) →
  ∃ t m k, cstr (p_topic p) = Ok t ∧ cstr (p_message p) = Ok m
    ∧ (14 + length t + length m + k = length bs)%nat
    ∧ packed (p_header p) (pack_publish p) =
        Ok ((Some <$> enc_publish (opcode (p_header p)) (length bs)
               (p_qos p) (p_retain p) (p_dup p) t m) ++ replicate k None).
Proof.
  intros Hb Hl Hu Hs. rewrite (unpack_block _ _ _ unpack_publish_parses) in Hu by done.
  rewrite dec_publish_cases in Hu by done. case_decide as Hd; [|done].
  injection Hu as Hp.
  destruct (cstr_terminated (take (announced_topic bs) (drop 14 bs))) as (t & Et & Hlt).
  destruct (cstr_terminated (take (announced_message bs)
    (drop (14 + announced_topic bs) bs))) as (m & Em & Hlm).
  rewrite length_take in Hlt, Hlm.
  assert (cstr (p_topic p) = Ok t) as Et' by (by subst p).
  assert (cstr (p_message p) = Ok m) as Em' by (by subst p). clear Hp Et Em.
  exists t, m, (length bs - (14 + length t + length m))%nat.
  split_and!; [done|done|lia|].
  apply packed_emits; rewrite Hs, Nat2Z.id.
  - by apply pack_publish_emits.
  - rewrite length_enc_publish. lia.
Qed.

Lemma publish_forward_in_bounds_witness :
  let bs := [0x30; 0; 0; 0; 18; 0; 1; 0; 0; 0; 3; 0; 0; 0; 97; 0; 7; 7] in
  ∃ p t m k, fst <$> unpack_publish true (block bs) = Ok (OK, Some p) ∧
    cstr (p_topic p) = Ok t ∧ cstr (p_message p) = Ok m
    ∧ (14 + length t + length m + k = length bs)%nat
    ∧ packed (p_header p) (pack_publish p) =
        Ok ((Some <$> enc_publish (opcode (p_header p)) (length bs)
               (p_qos p) (p_retain p) (p_dup p) t m) ++ replicate k None).
Proof.
  eexists. destruct (publish_forward_in_bounds
    [0x30; 0; 0; 0; 18; 0; 1; 0; 0; 0; 3; 0; 0; 0; 97; 0; 7; 7]
    (mk_publish (mk_header 0x30 18) 1 3 0 0 0 [97; 0] [0; 7; 7; 0])) as (t & m & k & H).
  - repeat (constructor; [done|]). constructor.
  - cbn. lia.
  - vm_compute. reflexivity.
  - reflexivity.
  - exists t, m, k. split; [vm_compute; reflexivity|exact H].
Defined.
