(* ===== verification/Crc.v ===== *)
(** The hash of [hashmap.c]: the table-driven CRC-32 over the key, mixed by
    Jenkins' and Knuth's steps on 64-bit words.  The CRC is shown to be the
    bitwise division by the reflected polynomial 0xEDB88320. *)
From stdpp Require Import base numbers option list.
From Stdlib Require Import ZArith Lia.
From S2P Require Import Prelude.

Local Open Scope Z_scope.

(** * Definitions *)

Definition crc32_tab : list Z :=
  [0x00000000; 0x77073096; 0xee0e612c; 0x990951ba; 0x076dc419; 0x706af48f;
   0xe963a535; 0x9e6495a3; 0x0edb8832; 0x79dcb8a4; 0xe0d5e91e; 0x97d2d988;
   0x09b64c2b; 0x7eb17cbd; 0xe7b82d07; 0x90bf1d91; 0x1db71064; 0x6ab020f2;
   0xf3b97148; 0x84be41de; 0x1adad47d; 0x6ddde4eb; 0xf4d4b551; 0x83d385c7;
   0x136c9856; 0x646ba8c0; 0xfd62f97a; 0x8a65c9ec; 0x14015c4f; 0x63066cd9;
   0xfa0f3d63; 0x8d080df5; 0x3b6e20c8; 0x4c69105e; 0xd56041e4; 0xa2677172;
   0x3c03e4d1; 0x4b04d447; 0xd20d85fd; 0xa50ab56b; 0x35b5a8fa; 0x42b2986c;
   0xdbbbc9d6; 0xacbcf940; 0x32d86ce3; 0x45df5c75; 0xdcd60dcf; 0xabd13d59;
   0x26d930ac; 0x51de003a; 0xc8d75180; 0xbfd06116; 0x21b4f4b5; 0x56b3c423;
   0xcfba9599; 0xb8bda50f; 0x2802b89e; 0x5f058808; 0xc60cd9b2; 0xb10be924;
   0x2f6f7c87; 0x58684c11; 0xc1611dab; 0xb6662d3d; 0x76dc4190; 0x01db7106;
   0x98d220bc; 0xefd5102a; 0x71b18589; 0x06b6b51f; 0x9fbfe4a5; 0xe8b8d433;
   0x7807c9a2; 0x0f00f934; 0x9609a88e; 0xe10e9818; 0x7f6a0dbb; 0x086d3d2d;
   0x91646c97; 0xe6635c01; 0x6b6b51f4; 0x1c6c6162; 0x856530d8; 0xf262004e;
   0x6c0695ed; 0x1b01a57b; 0x8208f4c1; 0xf50fc457; 0x65b0d9c6; 0x12b7e950;
   0x8bbeb8ea; 0xfcb9887c; 0x62dd1ddf; 0x15da2d49; 0x8cd37cf3; 0xfbd44c65;
   0x4db26158; 0x3ab551ce; 0xa3bc0074; 0xd4bb30e2; 0x4adfa541; 0x3dd895d7;
   0xa4d1c46d; 0xd3d6f4fb; 0x4369e96a; 0x346ed9fc; 0xad678846; 0xda60b8d0;
   0x44042d73; 0x33031de5; 0xaa0a4c5f; 0xdd0d7cc9; 0x5005713c; 0x270241aa;
   0xbe0b1010; 0xc90c2086; 0x5768b525; 0x206f85b3; 0xb966d409; 0xce61e49f;
   0x5edef90e; 0x29d9c998; 0xb0d09822; 0xc7d7a8b4; 0x59b33d17; 0x2eb40d81;
   0xb7bd5c3b; 0xc0ba6cad; 0xedb88320; 0x9abfb3b6; 0x03b6e20c; 0x74b1d29a;
   0xead54739; 0x9dd277af; 0x04db2615; 0x73dc1683; 0xe3630b12; 0x94643b84;
   0x0d6d6a3e; 0x7a6a5aa8; 0xe40ecf0b; 0x9309ff9d; 0x0a00ae27; 0x7d079eb1;
   0xf00f9344; 0x8708a3d2; 0x1e01f268; 0x6906c2fe; 0xf762575d; 0x806567cb;
   0x196c3671; 0x6e6b06e7; 0xfed41b76; 0x89d32be0; 0x10da7a5a; 0x67dd4acc;
   0xf9b9df6f; 0x8ebeeff9; 0x17b7be43; 0x60b08ed5; 0xd6d6a3e8; 0xa1d1937e;
   0x38d8c2c4; 0x4fdff252; 0xd1bb67f1; 0xa6bc5767; 0x3fb506dd; 0x48b2364b;
   0xd80d2bda; 0xaf0a1b4c; 0x36034af6; 0x41047a60; 0xdf60efc3; 0xa867df55;
   0x316e8eef; 0x4669be79; 0xcb61b38c; 0xbc66831a; 0x256fd2a0; 0x5268e236;
   0xcc0c7795; 0xbb0b4703; 0x220216b9; 0x5505262f; 0xc5ba3bbe; 0xb2bd0b28;
   0x2bb45a92; 0x5cb36a04; 0xc2d7ffa7; 0xb5d0cf31; 0x2cd99e8b; 0x5bdeae1d;
   0x9b64c2b0; 0xec63f226; 0x756aa39c; 0x026d930a; 0x9c0906a9; 0xeb0e363f;
   0x72076785; 0x05005713; 0x95bf4a82; 0xe2b87a14; 0x7bb12bae; 0x0cb61b38;
   0x92d28e9b; 0xe5d5be0d; 0x7cdcefb7; 0x0bdbdf21; 0x86d3d2d4; 0xf1d4e242;
   0x68ddb3f8; 0x1fda836e; 0x81be16cd; 0xf6b9265b; 0x6fb077e1; 0x18b74777;
   0x88085ae6; 0xff0f6a70; 0x66063bca; 0x11010b5c; 0x8f659eff; 0xf862ae69;
   0x616bffd3; 0x166ccf45; 0xa00ae278; 0xd70dd2ee; 0x4e048354; 0x3903b3c2;
   0xa7672661; 0xd06016f7; 0x4969474d; 0x3e6e77db; 0xaed16a4a; 0xd9d65adc;
   0x40df0b66; 0x37d83bf0; 0xa9bcae53; 0xdebb9ec5; 0x47b2cf7f; 0x30b5ffe9;
   0xbdbdf21c; 0xcabac28a; 0x53b39330; 0x24b4a3a6; 0xbad03605; 0xcdd70693;
   0x54de5729; 0x23d967bf; 0xb3667a2e; 0xc4614ab8; 0x5d681b02; 0x2a6f2b94;
   0xb40bbe37; 0xc30c8ea1; 0x5a05df1b; 0x2d02ef8d].

(** The loop from index [i] on, [n] iterations left. *)
Fixpoint crc32_loop (s : list Z) (i n : nat) (crc32val : Z) : res Z :=
  match n with
  | O => Ok crc32val
  | S n =>
      c ← of_option OutOfBounds (s !! i);
      t ← of_option OutOfBounds (crc32_tab !! Z.to_nat (Z.land (Z.lxor crc32val c) 0xff));
      crc32_loop s (S i) n (Z.lxor t (Z.shiftr crc32val 8))
  end.

Definition crc32 (s : list Z) (len : nat) : res Z := crc32_loop s 0 len 0.

(** [hashmap_hash_int], on the bytes of the key and the size of the table;
    [unsigned long] has 64 bits and [unsigned int] 32. *)
Definition hashmap_hash_int (table_size : Z) (keystr : list Z) : res Z :=
  len ← strlen keystr;
  key ← crc32 keystr (Z.to_nat (wrap32 (Z.of_nat len)));
  let key := wrap64 (key + wrap64 (Z.shiftl key 12)) in
  let key := Z.lxor key (Z.shiftr key 22) in
  let key := wrap64 (key + wrap64 (Z.shiftl key 4)) in
  let key := Z.lxor key (Z.shiftr key 9) in
  let key := wrap64 (key + wrap64 (Z.shiftl key 10)) in
  let key := Z.lxor key (Z.shiftr key 2) in
  let key := wrap64 (key + wrap64 (Z.shiftl key 7)) in
  let key := Z.lxor key (Z.shiftr key 12) in
  let key := wrap64 (Z.shiftr key 3 * 2654435761) in
  Ok (wrap32 (key mod table_size)).

(** ** The reference: one bit at a time *)

Definition crc_bit (c : Z) : Z :=
  if Z.odd c then Z.lxor (Z.shiftr c 1) 0xEDB88320 else Z.shiftr c 1.

Definition crc_byte (c b : Z) : Z := Nat.iter 8 crc_bit (Z.lxor c b).

Definition crc_spec (bs : list Z) : Z := foldl crc_byte 0 bs.

(** * Lemmas *)

Lemma crc32_tab_iter i : (i < 256)%nat →
  crc32_tab !! i = Some (Nat.iter 8 crc_bit (Z.of_nat i)).
Proof.
  intros Hi. assert (crc32_tab = (λ i, Nat.iter 8 crc_bit (Z.of_nat i)) <$> seq 0 256) as ->
    by (vm_compute; reflexivity).
  by rewrite list_lookup_fmap, lookup_seq_lt.
Qed.

Lemma crc_bit_lxor a b : crc_bit (Z.lxor a b) = Z.lxor (crc_bit a) (crc_bit b).
Proof.
  unfold crc_bit. rewrite !Z.shiftr_lxor, <- !Z.bit0_odd, Z.lxor_spec.
  destruct (Z.testbit a 0), (Z.testbit b 0); cbn [xorb];
    generalize (Z.shiftr a 1), (Z.shiftr b 1), 0xEDB88320; intros x y p;
    apply Z.bits_inj'; intros n _; rewrite ?Z.lxor_spec;
    destruct (Z.testbit x n), (Z.testbit y n), (Z.testbit p n); done.
Qed.

Lemma crc_iter_lxor n a b :
  Nat.iter n crc_bit (Z.lxor a b) = Z.lxor (Nat.iter n crc_bit a) (Nat.iter n crc_bit b).
Proof. induction n as [|n IH]; [done|]. by rewrite !Nat.iter_succ, IH, crc_bit_lxor. Qed.

Lemma crc_iter_shiftl n x : Nat.iter n crc_bit (Z.shiftl x (Z.of_nat n)) = x.
Proof.
  induction n as [|n IH]; [apply Z.shiftl_0_r|].
  rewrite Nat.iter_succ_r. etransitivity; [|exact IH]. f_equal. unfold crc_bit.
  rewrite <- Z.bit0_odd, Z.shiftl_spec_low by lia.
  rewrite Z.shiftr_shiftl_l by lia. f_equal. lia.
Qed.

(** Dividing by eight bits: the low byte through the table, the rest shifted. *)
Lemma crc_iter_split c : 0 ≤ c →
  Nat.iter 8 crc_bit c = Z.lxor (Nat.iter 8 crc_bit (Z.land c 0xff)) (Z.shiftr c 8).
Proof.
  intros Hc. rewrite <- (crc_iter_shiftl 8 (Z.shiftr c 8)), <- crc_iter_lxor. f_equal.
  apply Z.bits_inj'. intros n Hn. rewrite Z.lxor_spec, Z.land_spec.
  change 0xff with (Z.ones 8). change (Z.of_nat 8) with 8.
  destruct (decide (n < 8)).
  - rewrite Z.ones_spec_low, Z.shiftl_spec_low, andb_true_r, xorb_false_r by lia. done.
  - rewrite Z.ones_spec_high, Z.shiftl_spec, Z.shiftr_spec, andb_false_r, xorb_false_l by lia.
    f_equal. lia.
Qed.

Lemma land_ff_range z : 0 ≤ Z.land z 0xff < 256.
Proof. change 0xff with (Z.ones 8). rewrite Z.land_ones by lia. apply Z.mod_pos_bound. lia. Qed.

Lemma crc_bit_range c : urange 32 c → urange 32 (crc_bit c).
Proof.
  intros Hc. assert (Hs : urange 32 (Z.shiftr c 1)).
  { unfold urange in *. rewrite Z.shiftr_div_pow2 by lia. change (2 ^ 1) with 2. zlia. }
  unfold crc_bit. destruct (Z.odd c); [|done]. by apply lxor_range.
Qed.

Lemma byte_u32 b : is_byte b → urange 32 b.
Proof. unfold urange. lia. Qed.

Lemma crc_byte_range c b : urange 32 c → is_byte b → urange 32 (crc_byte c b).
Proof.
  intros Hc Hb. unfold crc_byte.
  assert (Hx : urange 32 (Z.lxor c b)) by (apply lxor_range; [done|done|by apply byte_u32]).
  revert Hx. generalize (Z.lxor c b). generalize 8%nat.
  induction n as [|n IH]; intros z Hz; [done|].
  rewrite Nat.iter_succ. by apply crc_bit_range, IH.
Qed.

Lemma crc_foldl_range bs c : Forall is_byte bs → urange 32 c → urange 32 (foldl crc_byte c bs).
Proof.
  intros Hbs. revert c. induction Hbs as [|b bs Hb _ IH]; intros c Hc; [done|].
  cbn. by apply IH, crc_byte_range.
Qed.

Lemma crc_step c b : urange 32 c → is_byte b →
  ∃ t, crc32_tab !! Z.to_nat (Z.land (Z.lxor c b) 0xff) = Some t
    ∧ Z.lxor t (Z.shiftr c 8) = crc_byte c b.
Proof.
  intros Hc Hb. pose proof (land_ff_range (Z.lxor c b)).
  eexists. split; [apply crc32_tab_iter; lia|].
  unfold urange in Hc, Hb. rewrite Z2Nat.id by lia. unfold crc_byte.
  rewrite (crc_iter_split (Z.lxor c b)) by (apply Z.lxor_nonneg; lia). f_equal.
  rewrite Z.shiftr_lxor. replace (Z.shiftr b 8) with 0; [by rewrite Z.lxor_0_r|].
  rewrite Z.shiftr_div_pow2, Z.div_small by lia. done.
Qed.

Lemma crc32_loop_spec s i n c :
  Forall is_byte s → (i + n ≤ length s)%nat → urange 32 c →
  crc32_loop s i n c = Ok (foldl crc_byte c (take n (drop i s))).
Proof.
  intros Hs. revert i c. induction n as [|n IH]; intros i c Hn Hc; [done|].
  cbn [crc32_loop]. destruct (lookup_lt_is_Some_2 s i) as [b Hb]; [lia|].
  rewrite Hb, (drop_S s b i Hb). cbn [of_option mbind res_bind take foldl].
  pose proof (Forall_lookup_1 _ _ _ _ Hs Hb) as Hbb.
  destruct (crc_step c b Hc Hbb) as (t & -> & Ht). cbn. rewrite Ht.
  apply IH; [lia|]. by apply crc_byte_range.
Qed.

Lemma crc32_spec s : Forall is_byte s → crc32 s (length s) = Ok (crc_spec s).
Proof.
  intros Hs. unfold crc32. rewrite crc32_loop_spec by (done || lia).
  by rewrite drop_0, firstn_all.
Qed.

Lemma crc32_loop_app s t i n c : (i + n ≤ length s)%nat →
  crc32_loop (s ++ t) i n c = crc32_loop s i n c.
Proof.
  revert i c. induction n as [|n IH]; intros i c Hn; [done|]. cbn [crc32_loop].
  rewrite lookup_app_l by lia. destruct (s !! i) as [x|]; [|done]. cbn.
  destruct (crc32_tab !! _); [|done]. cbn. apply IH. lia.
Qed.

(** The hash as a function of the string alone. *)
Definition hash_str (table_size : Z) (s : list Z) : Z :=
  match hashmap_hash_int table_size (cobj s) with Ok h => h | Err _ => 0 end.

(** The loop always returns: the index into the table is reduced to eight bits, and the
    length is never more than the string's. *)
Lemma crc32_loop_total s i n c : (i + n ≤ length s)%nat → ∃ v, crc32_loop s i n c = Ok v.
Proof.
  revert i c. induction n as [|n IH]; intros i c Hn; [by eexists|]. cbn [crc32_loop].
  destruct (lookup_lt_is_Some_2 s i) as [b ->]; [lia|]. cbn [of_option mbind res_bind].
  pose proof (land_ff_range (Z.lxor c b)). rewrite crc32_tab_iter by lia. cbn [of_option mbind res_bind].
  apply IH. lia.
Qed.

Lemma hashmap_hash_int_Ok ts s : no_nul s → 0 < ts ≤ 2 ^ 31 →
  hashmap_hash_int ts (cobj s) = Ok (hash_str ts s) ∧ 0 ≤ hash_str ts s < ts.
Proof.
  intros Hs Hts. unfold hash_str, hashmap_hash_int. rewrite strlen_nul by done. cbn [mbind res_bind].
  pose proof (Z.mod_le (Z.of_nat (length s)) (2 ^ 32)) as Hw.
  destruct (crc32_loop_total (cobj s) 0 (Z.to_nat (wrap32 (Z.of_nat (length s)))) 0) as [v Hv].
  { unfold cobj, wrap. rewrite length_app. cbn [length]. lia. }
  unfold crc32. rewrite Hv. cbn [mbind res_bind]. split; [done|]. set (k := wrap64 _). pose proof (Z.mod_pos_bound k ts).
  rewrite wrap_small by (unfold urange; lia). lia.
Qed.

(** * Properties *)

(** C27. The table-driven [crc32] computes the bitwise CRC of the whole key (no
    initial or final inversion), and the hash of a key is a position of the
    table, for every table of at most 2^31 entries. *)
Theorem crc32_hash_correct (s : list Z) (ts : Z) :
  is_str s → Z.of_nat (length s) < 2 ^ 32 → 0 < ts ≤ 2 ^ 31 →
  crc32 (cobj s) (length s) = Ok (crc_spec s) ∧ urange 32 (crc_spec s) ∧
  ∃ h, hashmap_hash_int ts (cobj s) = Ok h ∧ 0 ≤ h < ts.
Proof.
  intros Hs Hl Hts. split_and!.
  - unfold crc32, cobj. rewrite crc32_loop_app by lia. apply crc32_spec; auto with c_model.
  - apply crc_foldl_range; [auto with c_model|done].
  - exists (hash_str ts s). apply hashmap_hash_int_Ok; [by apply is_str_no_nul|done].
Qed.

(** The check value of the plain CRC: "123456789". *)
Lemma crc32_hash_correct_witness :
  let s := [49; 50; 51; 52; 53; 54; 55; 56; 57] in
  crc32 (cobj s) 9 = Ok (crc_spec s) ∧ crc_spec s = 771566984 ∧
  ∃ h, hashmap_hash_int 256 (cobj s) = Ok h ∧ 0 ≤ h < 256.
Proof.
  assert (Hs : is_str [49; 50; 51; 52; 53; 54; 55; 56; 57])
    by (eapply bool_decide_unpack; vm_compute; exact I).
  destruct (crc32_hash_correct [49; 50; 51; 52; 53; 54; 55; 56; 57] 256 Hs) as (H1 & _ & H3);
    [done|lia|].
  split; [exact H1|split; [vm_compute; reflexivity|exact H3]].
Defined.
