(* ===== verification/Hashmap.v ===== *)
(** The hash map of [hashmap.c]: open addressing with at most
    [MAX_CHAIN_LENGTH] linear probes, growth by rehashing, and the mutex every
    operation but the iterators takes.

    Keys and values are pointers of the caller: [K] is the type of non-null key
    pointers and [cstr_of] the string a live key pointer designates (the map keeps
    the pointer, not a copy, so a key freed by its owner dangles), [V] that of
    non-null value pointers.  [calloc_ok] tells which table sizes can be
    allocated. *)
From stdpp Require Import base numbers option list gmap.
From Stdlib Require Import ZArith Lia.
From S2P Require Import Prelude Crc.

Local Open Scope Z_scope.

(** * State *)

Definition HASHMAP_OK : Z := 0.
Definition HASHMAP_ERR : Z := -1.
Definition HASHMAP_FULL : Z := -2.
Definition INITIAL_SIZE : nat := 256.
Definition MAX_CHAIN_LENGTH : nat := 8.

Record hashmap_entry (K V : Type) := mk_entry {
  e_key : option K;
  e_val : option V;
  e_in_use : bool
}.
Global Arguments mk_entry {K V}.
Global Arguments e_key {K V}.
Global Arguments e_val {K V}.
Global Arguments e_in_use {K V}.

(** [m_lock]: the mutex is held. *)
Record Hashmap (K V : Type) := mk_hashmap {
  m_table_size : Z;
  m_size : Z;
  m_entries : list (hashmap_entry K V);
  m_lock : bool
}.
Global Arguments mk_hashmap {K V}.
Global Arguments m_table_size {K V}.
Global Arguments m_size {K V}.
Global Arguments m_entries {K V}.
Global Arguments m_lock {K V}.

(** What [calloc] fills a table with. *)
Definition no_entry {K V} : hashmap_entry K V := mk_entry None None false.

(** * Operations *)

Section Operations.
Context {K V : Type} (cstr_of : K → option (list Z)) (calloc_ok : Z → bool).

Notation Map := (Hashmap K V).

(** A default mutex: locking it again from the thread that holds it deadlocks. *)
Definition mutex_lock (m : Map) : res Map :=
  if m_lock m then Err SelfDeadlock
  else Ok (mk_hashmap (m_table_size m) (m_size m) (m_entries m) true).

Definition mutex_unlock (m : Map) : Map :=
  mk_hashmap (m_table_size m) (m_size m) (m_entries m) false.

Definition key_string (key : K) : res (list Z) := of_option Dangling (cstr_of key).

Definition entry_at (m : Map) (curr : Z) : res (hashmap_entry K V) :=
  of_option OutOfBounds (m_entries m !! Z.to_nat curr).

(** [strcmp(entries[curr].key, key) == 0] *)
Definition key_equals (e : hashmap_entry K V) (key : K) : res bool :=
  k ← of_option NullDeref (e_key e);
  s1 ← key_string k;
  s2 ← key_string key;
  Ok (bool_decide (s1 = s2)).

Definition next_slot (m : Map) (curr : Z) : Z := (curr + 1) mod m_table_size m.

(** The position of a key: [hashmap_hash_int] on its string. *)
Definition hash_key (m : Map) (key : K) : res Z :=
  s ← key_string key;
  hashmap_hash_int (m_table_size m) (cobj s).

Fixpoint probe_free (m : Map) (key : K) (curr : Z) (n : nat) : res Z :=
  match n with
  | O => Ok HASHMAP_FULL
  | S n =>
      e ← entry_at m curr;
      if negb (e_in_use e) then Ok curr else
      eq ← key_equals e key;
      if eq : bool then Ok curr else probe_free m key (next_slot m curr) n
  end.

Definition hashmap_hash (m : Map) (key : K) : res Z :=
  if decide (m_table_size m / 2 ≤ m_size m) then Ok HASHMAP_FULL else
  curr ← hash_key m key;
  probe_free m key curr MAX_CHAIN_LENGTH.

(** Putting back the entries of the old table, [put] being [hashmap_put]. *)
Fixpoint rehash_loop (put : Map → K → option V → res (Z * Map))
    (old : list (hashmap_entry K V)) (m : Map) : res (Z * Map) :=
  match old with
  | [] => Ok (HASHMAP_OK, m)
  | e :: old =>
      if negb (e_in_use e) then rehash_loop put old m else
      k ← of_option NullDeref (e_key e);
      '(status, m) ← put m k (e_val e);
      if decide (status ≠ HASHMAP_OK) then Ok (status, m)
      else rehash_loop put old m
  end.

Definition hashmap_rehash (put : Map → K → option V → res (Z * Map)) (m : Map)
    : res (Z * Map) :=
  if negb (calloc_ok (2 * m_table_size m)) then Ok (HASHMAP_ERR, m) else
  let temp := replicate (Z.to_nat (2 * m_table_size m)) no_entry in
  rehash_loop put (m_entries m) (mk_hashmap (2 * m_table_size m) 0 temp (m_lock m)).

(** [while (index == HASHMAP_FULL)]: [None] when the rehash failed. *)
Fixpoint grow_loop (rehash : Map → res (Z * Map)) (fuel : nat) (m : Map) (key : K)
    (index : Z) : res (option Z * Map) :=
  if decide (index ≠ HASHMAP_FULL) then Ok (Some index, m) else
  match fuel with
  | O => Err NoFuel
  | S fuel =>
      '(status, m) ← rehash m;
      if decide (status = HASHMAP_ERR) then Ok (None, m) else
      index ← hashmap_hash m key;
      grow_loop rehash fuel m key index
  end.

Definition set_entry (m : Map) (index : Z) (key : K) (val : option V) : res Map :=
  e ← entry_at m index;
  Ok (mk_hashmap (m_table_size m)
        (if negb (e_in_use e) then m_size m + 1 else m_size m)
        (<[Z.to_nat index := mk_entry (Some key) val true]> (m_entries m)) (m_lock m)).

(** [fuel] bounds the nesting of [hashmap_put] and [hashmap_rehash]. *)
Fixpoint hashmap_put (fuel : nat) (m : Map) (key : K) (val : option V) : res (Z * Map) :=
  match fuel with
  | O => Err NoFuel
  | S fuel =>
      m ← mutex_lock m;
      index ← hashmap_hash m key;
      '(found, m) ← grow_loop (hashmap_rehash (hashmap_put fuel)) fuel m key index;
      match found with
      | None => Ok (HASHMAP_ERR, mutex_unlock m)
      | Some index =>
          m ← set_entry m index key val;
          Ok (HASHMAP_OK, mutex_unlock m)
      end
  end.

(** The lookup loop: the slot where the key is found. *)
Fixpoint probe_key (m : Map) (key : K) (curr : Z) (n : nat) : res (option Z) :=
  match n with
  | O => Ok None
  | S n =>
      e ← entry_at m curr;
      eq ← (if e_in_use e then key_equals e key else Ok false);
      if eq : bool then Ok (Some curr) else probe_key m key (next_slot m curr) n
  end.

(** Returns the value pointer, [None] for NULL. *)
Definition hashmap_get (m : Map) (key : K) : res (option V * Map) :=
  m ← mutex_lock m;
  curr ← hash_key m key;
  found ← probe_key m key curr MAX_CHAIN_LENGTH;
  match found with
  | Some curr => e ← entry_at m curr; Ok (e_val e, mutex_unlock m)
  | None => Ok (None, mutex_unlock m)
  end.

(** The entry itself; this one takes no lock. *)
Definition hashmap_get_entry (m : Map) (key : K) : res (option (hashmap_entry K V)) :=
  curr ← hash_key m key;
  found ← probe_key m key curr MAX_CHAIN_LENGTH;
  match found with
  | Some curr => e ← entry_at m curr; Ok (Some e)
  | None => Ok None
  end.

Definition hashmap_del (m : Map) (key : K) : res (Z * Map) :=
  m ← mutex_lock m;
  curr ← hash_key m key;
  found ← probe_key m key curr MAX_CHAIN_LENGTH;
  match found with
  | Some curr =>
      e ← entry_at m curr;
      let m := mk_hashmap (m_table_size m) (m_size m - 1)
        (<[Z.to_nat curr := mk_entry (e_key e) (e_val e) false]> (m_entries m))
        (m_lock m) in
      Ok (HASHMAP_OK, mutex_unlock m)
  | None => Ok (HASHMAP_ERR, mutex_unlock m)
  end.

End Operations.

(** A map as [hashmap_create] initialises it. *)
Definition created {K V} : Hashmap K V :=
  mk_hashmap (Z.of_nat INITIAL_SIZE) 0 (replicate INITIAL_SIZE no_entry) false.

(** [table_ok] and [entries_ok]: the two allocations succeed.  When the second
    fails, [hashmap_release] iterates over a map whose size was never set. *)
Definition hashmap_create {K V} (table_ok entries_ok : bool) : res (option (Hashmap K V)) :=
  if negb table_ok then Ok None else
  if negb entries_ok then Err Indeterminate else
  Ok (Some created).

(** [hashmap_iterate2] and [hashmap_iterate3], in the state the callback runs
    in: the entries are read from the map once, in table order, up to the first
    status that is not [HASHMAP_OK]. *)
Fixpoint iterate_loop {S K V} (f : hashmap_entry K V → M S Z)
    (es : list (hashmap_entry K V)) : M S Z :=
  match es with
  | [] => mret HASHMAP_OK
  | e :: es =>
      if e_in_use e then
        status ← f e;
        if decide (status ≠ HASHMAP_OK) then mret status else iterate_loop f es
      else iterate_loop f es
  end.

Definition hashmap_iterate2 {S K V} (m : Hashmap K V) (f : hashmap_entry K V → M S Z) : M S Z :=
  if decide (m_size m ≤ 0) then mret HASHMAP_ERR else iterate_loop f (m_entries m).

Definition hashmap_iterate3 {S K V A B} (m : Hashmap K V)
    (f : A → B → hashmap_entry K V → M S Z) (arg1 : A) (arg2 : B) : M S Z :=
  if decide (m_size m ≤ 0) then mret HASHMAP_ERR
  else iterate_loop (f arg1 arg2) (m_entries m).

(** * Invariant and abstract view *)

Definition in_use_count {K V} (es : list (hashmap_entry K V)) : nat :=
  length (filter (λ e, e_in_use e = true) es).

Section View.
Context {K V : Type} (cstr_of : K → option (list Z)).

Notation Map := (Hashmap K V).

(** A key pointer that designates the string [s]. *)
Definition key_is (key : K) (s : list Z) : Prop :=
  cstr_of key = Some s ∧ no_nul s.

Record hm_wf (m : Map) : Prop := {
  hm_table : m_table_size m = Z.of_nat (length (m_entries m));
  hm_range : 8 ≤ m_table_size m ≤ 2 ^ 31;
  hm_size : m_size m = Z.of_nat (in_use_count (m_entries m));
  hm_keys i e : m_entries m !! i = Some e → e_in_use e = true →
    ∃ k s, e_key e = Some k ∧ key_is k s
}.

(** The string held at a slot, [None] for a free slot. *)
Definition slot_str (m : Map) (i : nat) : option (list Z) :=
  e ← m_entries m !! i;
  if e_in_use e then k ← e_key e; cstr_of k else None.

(** The [d]-th slot probed for a key that hashes to [h]. *)
Definition pos (m : Map) (h : Z) (d : nat) : nat :=
  Z.to_nat ((h + Z.of_nat d) mod m_table_size m).

(** The first slot, from the [d]-th probe on and among [n], whose content
    satisfies [P]. *)
Fixpoint scan (P : option (list Z) → bool) (m : Map) (h : Z) (d n : nat) : option nat :=
  match n with
  | O => None
  | S n => if P (slot_str m (pos m h d)) then Some (pos m h d) else scan P m h (S d) n
  end.

Definition holds (s : list Z) (o : option (list Z)) : bool := bool_decide (o = Some s).
Definition takes (s : list Z) (o : option (list Z)) : bool :=
  bool_decide (o = None ∨ o = Some s).

(** Where a key is found, and where it would be put. *)
Definition found (m : Map) (s : list Z) : option nat :=
  scan (holds s) m (hash_str (m_table_size m) s) 0 MAX_CHAIN_LENGTH.

Definition place (m : Map) (s : list Z) : option nat :=
  if decide (m_table_size m / 2 ≤ m_size m) then None
  else scan (takes s) m (hash_str (m_table_size m) s) 0 MAX_CHAIN_LENGTH.

(** The value the map associates with a string; [Some None] is a stored NULL. *)
Definition mlookup (m : Map) (s : list Z) : option (option V) :=
  i ← found m s; e_val <$> m_entries m !! i.

(** The map after storing at, or clearing, slot [i]. *)
Definition after_put (m : Map) (i : nat) (key : K) (val : option V) : Map :=
  mk_hashmap (m_table_size m)
    (m_size m + (if decide (slot_str m i = None) then 1 else 0))
    (<[i := mk_entry (Some key) val true]> (m_entries m)) (m_lock m).

Definition after_del (m : Map) (i : nat) : Map :=
  mk_hashmap (m_table_size m) (m_size m - 1)
    (alter (λ e, mk_entry (e_key e) (e_val e) false) i (m_entries m)) (m_lock m).

(** ** Scanning *)

Lemma pos_lt m h d : hm_wf m → (pos m h d < length (m_entries m))%nat.
Proof.
  intros [Ht Hr _ _]. unfold pos.
  pose proof (Z.mod_pos_bound (h + Z.of_nat d) (m_table_size m)). lia.
Qed.

Lemma slot_str_None m i : hm_wf m → (i < length (m_entries m))%nat → slot_str m i = None →
  ∃ e, m_entries m !! i = Some e ∧ e_in_use e = false.
Proof.
  intros Hwf Hi. destruct (lookup_lt_is_Some_2 _ _ Hi) as [e He].
  unfold slot_str. rewrite He. cbn. destruct (e_in_use e) eqn:Hu; [|by exists e].
  destruct (hm_keys m Hwf i e He Hu) as (k & s & -> & Hk & _). cbn. by rewrite Hk.
Qed.

Lemma slot_str_Some m i s : slot_str m i = Some s →
  ∃ e k, m_entries m !! i = Some e ∧ e_in_use e = true ∧ e_key e = Some k ∧ cstr_of k = Some s.
Proof.
  unfold slot_str. intros H. apply bind_Some in H as (e & He & H).
  destruct (e_in_use e) eqn:Hu; [|done]. apply bind_Some in H as (k & Hk & H). eauto 6.
Qed.

Lemma scan_Some P m h d n i : scan P m h d n = Some i →
  ∃ d', (d ≤ d' < d + n)%nat ∧ i = pos m h d' ∧ P (slot_str m i) = true
    ∧ ∀ d'', (d ≤ d'' < d')%nat → P (slot_str m (pos m h d'')) = false.
Proof.
  revert d. induction n as [|n IH]; intros d; [done|]. cbn [scan].
  destruct (P (slot_str m (pos m h d))) eqn:HP.
  - intros [= <-]. exists d. split_and!; [lia|lia|done|done|]. intros. lia.
  - intros (d' & ? & -> & ? & Hn)%IH. exists d'. split_and!; [lia|lia|done|done|].
    intros d'' Hd. destruct (decide (d'' = d)) as [->|]; [done|]. apply Hn. lia.
Qed.

Lemma scan_None P m h d n : scan P m h d n = None →
  ∀ d', (d ≤ d' < d + n)%nat → P (slot_str m (pos m h d')) = false.
Proof.
  revert d. induction n as [|n IH]; intros d; [lia|]. cbn [scan].
  destruct (P (slot_str m (pos m h d))) eqn:HP; [done|].
  intros H d' Hd. destruct (decide (d' = d)) as [->|]; [done|]. apply (IH _ H). lia.
Qed.

Lemma scan_first P m h d n d' : (d ≤ d' < d + n)%nat →
  P (slot_str m (pos m h d')) = true →
  (∀ d'', (d ≤ d'' < d')%nat → P (slot_str m (pos m h d'')) = false) →
  scan P m h d n = Some (pos m h d').
Proof.
  revert d. induction n as [|n IH]; intros d Hd HP Hn; [lia|]. cbn [scan].
  destruct (decide (d' = d)) as [->|]; [by rewrite HP|].
  rewrite Hn by lia. apply IH; [lia|done|]. intros. apply Hn. lia.
Qed.

(** Two maps of one size scan alike when the contents of their slots do. *)
Lemma scan_ext P m m' h d n : m_table_size m' = m_table_size m →
  (∀ i, P (slot_str m' i) = P (slot_str m i)) → scan P m' h d n = scan P m h d n.
Proof.
  intros Ht HP. revert d. induction n as [|n IH]; intros d; [done|]. cbn [scan].
  assert (pos m' h d = pos m h d) as -> by (unfold pos; by rewrite Ht). by rewrite HP, IH.
Qed.

(** Where one scan succeeds, so does one that accepts more. *)
Lemma scan_mono P P' m m' h d n : m_table_size m' = m_table_size m →
  (∀ i, P (slot_str m i) = true → P' (slot_str m' i) = true) →
  is_Some (scan P m h d n) → is_Some (scan P' m' h d n).
Proof.
  intros Ht HP. revert d. induction n as [|n IH]; intros d; [by intros []|]. cbn [scan].
  assert (pos m' h d = pos m h d) as -> by (unfold pos; by rewrite Ht).
  destruct (P (slot_str m (pos m h d))) eqn:E; [rewrite (HP _ E); by eexists|].
  intros Hs. destruct (P' _); [by eexists|by apply IH].
Qed.

(** ** The loops scan *)

Definition with_lock (m : Map) (b : bool) : Map :=
  mk_hashmap (m_table_size m) (m_size m) (m_entries m) b.

Lemma with_lock_wf m b : hm_wf m → hm_wf (with_lock m b).
Proof. by intros [? ? ? ?]. Qed.

Lemma with_lock_id m : m_lock m = false → with_lock m false = m.
Proof. destruct m; cbn. by intros ->. Qed.

Lemma unlock_lock m : m_lock m = false → mutex_unlock (with_lock m true) = m.
Proof. apply with_lock_id. Qed.

Lemma scan_with_lock P m b h d n : scan P (with_lock m b) h d n = scan P m h d n.
Proof. by apply scan_ext. Qed.

Lemma mutex_lock_free m : m_lock m = false → mutex_lock m = Ok (with_lock m true).
Proof. unfold mutex_lock. by intros ->. Qed.

Lemma entry_at_nat (m : Map) i : entry_at m (Z.of_nat i) = of_option OutOfBounds (m_entries m !! i).
Proof. unfold entry_at. by rewrite Nat2Z.id. Qed.

Lemma entry_at_pos m h d : hm_wf m →
  ∃ e, entry_at m (Z.of_nat (pos m h d)) = Ok e ∧ m_entries m !! pos m h d = Some e.
Proof.
  intros Hwf. destruct (lookup_lt_is_Some_2 _ _ (pos_lt m h d Hwf)) as [e He].
  exists e. by rewrite entry_at_nat, He.
Qed.

Lemma next_slot_pos m h d : hm_wf m →
  next_slot m (Z.of_nat (pos m h d)) = Z.of_nat (pos m h (S d)).
Proof.
  intros [_ Hr _ _]. unfold next_slot, pos.
  pose proof (Z.mod_pos_bound (h + Z.of_nat d) (m_table_size m)).
  pose proof (Z.mod_pos_bound (h + Z.of_nat (S d)) (m_table_size m)).
  rewrite !Z2Nat.id, Zplus_mod_idemp_l by lia. f_equal. lia.
Qed.

Lemma hash_key_pos m key s : hm_wf m → key_is key s →
  hash_key cstr_of m key = Ok (Z.of_nat (pos m (hash_str (m_table_size m) s) 0)).
Proof.
  intros [_ Hr _ _] [Hk Hs]. unfold hash_key, key_string. rewrite Hk. cbn.
  destruct (hashmap_hash_int_Ok (m_table_size m) s Hs) as [-> Hh]; [lia|].
  unfold pos. rewrite Z.add_0_r, Z.mod_small, Z2Nat.id by lia. done.
Qed.

(** Comparing an occupied entry with a key. *)
Lemma key_equals_slot m i e key s : hm_wf m → key_is key s →
  m_entries m !! i = Some e → e_in_use e = true →
  key_equals cstr_of e key = Ok (holds s (slot_str m i)).
Proof.
  intros Hwf [Hk _] He Hu. destruct (hm_keys m Hwf i e He Hu) as (k & s' & Hek & Hs' & _).
  unfold key_equals, key_string, slot_str. rewrite He. cbn. rewrite Hu, Hek. cbn.
  rewrite Hs', Hk. cbn. unfold holds. f_equal. apply bool_decide_ext. split; congruence.
Qed.

Lemma slot_str_free m i e : m_entries m !! i = Some e → e_in_use e = false → slot_str m i = None.
Proof. intros He Hu. unfold slot_str. rewrite He. cbn. by rewrite Hu. Qed.

Lemma slot_str_used m i e : hm_wf m → m_entries m !! i = Some e → e_in_use e = true →
  slot_str m i ≠ None.
Proof.
  intros Hwf He Hu. destruct (hm_keys m Hwf i e He Hu) as (k & s' & Hek & Hs' & _).
  unfold slot_str. rewrite He. cbn. rewrite Hu, Hek. cbn. by rewrite Hs'.
Qed.

Lemma probe_key_scan m key s h d n : hm_wf m → key_is key s →
  probe_key cstr_of m key (Z.of_nat (pos m h d)) n = Ok (Z.of_nat <$> scan (holds s) m h d n).
Proof.
  intros Hwf Hk. revert d. induction n as [|n IH]; intros d; [done|]. cbn [probe_key scan].
  destruct (entry_at_pos m h d Hwf) as (e & -> & He). cbn [mbind res_bind].
  destruct (e_in_use e) eqn:Hu.
  - rewrite (key_equals_slot m _ e key s Hwf Hk He Hu). cbn [mbind res_bind].
    destruct (holds s _); [done|]. by rewrite next_slot_pos, IH.
  - rewrite (slot_str_free m _ e He Hu). cbn. by rewrite next_slot_pos, IH.
Qed.

Lemma probe_free_scan m key s h d n : hm_wf m → key_is key s →
  probe_free cstr_of m key (Z.of_nat (pos m h d)) n =
    Ok (match scan (takes s) m h d n with Some i => Z.of_nat i | None => HASHMAP_FULL end).
Proof.
  intros Hwf Hk. revert d. induction n as [|n IH]; intros d; [done|]. cbn [probe_free scan].
  destruct (entry_at_pos m h d Hwf) as (e & -> & He). cbn [mbind res_bind].
  destruct (e_in_use e) eqn:Hu; cbn [negb].
  - rewrite (key_equals_slot m _ e key s Hwf Hk He Hu). cbn [mbind res_bind].
    pose proof (slot_str_used m _ e Hwf He Hu). unfold holds, takes.
    destruct (decide (slot_str m (pos m h d) = Some s)) as [Hd|Hd].
    + by rewrite !bool_decide_eq_true_2 by auto.
    + rewrite !bool_decide_eq_false_2 by naive_solver. by rewrite next_slot_pos, IH.
  - rewrite (slot_str_free m _ e He Hu). done.
Qed.

Lemma hashmap_hash_place m key s : hm_wf m → key_is key s →
  hashmap_hash cstr_of m key =
    Ok (match place m s with Some i => Z.of_nat i | None => HASHMAP_FULL end).
Proof.
  intros Hwf Hk. unfold hashmap_hash, place. case_decide; [done|].
  rewrite (hash_key_pos m key s Hwf Hk). cbn [mbind res_bind]. by apply probe_free_scan.
Qed.

(** A found slot holds an entry. *)
Lemma found_entry m s i : found m s = Some i → slot_str m i = Some s.
Proof.
  intros (d & _ & _ & H & _)%scan_Some. by apply bool_decide_eq_true_1 in H.
Qed.

(** ** What each operation does *)

Lemma hashmap_get_lookup m key s : hm_wf m → m_lock m = false → key_is key s →
  hashmap_get cstr_of m key = Ok (mjoin (mlookup m s), m).
Proof.
  intros Hwf Hl Hk. unfold hashmap_get. rewrite mutex_lock_free by done. cbn [mbind res_bind].
  rewrite (hash_key_pos (with_lock m true) key s) by (done || by apply with_lock_wf).
  cbn [mbind res_bind].
  rewrite (probe_key_scan (with_lock m true) key s) by (done || by apply with_lock_wf).
  rewrite scan_with_lock. change (m_table_size (with_lock m true)) with (m_table_size m).
  fold (found m s). unfold mlookup. cbn [mbind res_bind].
  destruct (found m s) as [i|] eqn:Hf; cbn [fmap option_fmap option_map].
  - apply found_entry in Hf. apply slot_str_Some in Hf as (e & k & He & _).
    rewrite entry_at_nat. cbn. rewrite He. cbn.
    by rewrite (unlock_lock m Hl).
  - by rewrite (unlock_lock m Hl).
Qed.

Lemma hashmap_del_found m key s : hm_wf m → m_lock m = false → key_is key s →
  hashmap_del cstr_of m key =
    Ok (match found m s with
        | Some i => (HASHMAP_OK, after_del m i)
        | None => (HASHMAP_ERR, m)
        end).
Proof.
  intros Hwf Hl Hk. unfold hashmap_del. rewrite mutex_lock_free by done. cbn [mbind res_bind].
  rewrite (hash_key_pos (with_lock m true) key s) by (done || by apply with_lock_wf).
  cbn [mbind res_bind].
  rewrite (probe_key_scan (with_lock m true) key s) by (done || by apply with_lock_wf).
  rewrite scan_with_lock. change (m_table_size (with_lock m true)) with (m_table_size m).
  fold (found m s). cbn [mbind res_bind].
  destruct (found m s) as [i|] eqn:Hf; cbn [fmap option_fmap option_map].
  - apply found_entry in Hf. apply slot_str_Some in Hf as (e & k & He & _).
    rewrite entry_at_nat. cbn. rewrite He. cbn. unfold mutex_unlock, after_del; cbn.
    rewrite Hl, Nat2Z.id. do 4 f_equal.
    rewrite list_insert_alter. apply list_eq. intros j. rewrite !list_lookup_alter.
    case_decide; [subst; by rewrite He|done].
  - by rewrite (unlock_lock m Hl).
Qed.

(** ** Putting *)

(** Rehashing under the lock deadlocks on the first entry to put back. *)
Lemma rehash_loop_deadlock (put : Map → K → option V → res (Z * Map)) old m :
  (∀ m k v, m_lock m = true → put m k v = Err SelfDeadlock) →
  (∀ e, e ∈ old → e_in_use e = true → is_Some (e_key e)) →
  (∃ e, e ∈ old ∧ e_in_use e = true) → m_lock m = true →
  rehash_loop put old m = Err SelfDeadlock.
Proof.
  intros Hput Hkeys (e & He & Hu) Hl. induction old as [|e0 old IH]; [by apply not_elem_of_nil in He|].
  cbn [rehash_loop]. destruct (e_in_use e0) eqn:Hu0; cbn [negb].
  - destruct (Hkeys e0) as [k Hk]; [left|done|]. rewrite Hk. cbn. by rewrite Hput.
  - apply IH; [intros; apply Hkeys; [by right|done]|].
    apply elem_of_cons in He as [->|He]; [congruence|done].
Qed.

Lemma in_use_count_pos (es : list (hashmap_entry K V)) :
  (0 < in_use_count es)%nat → ∃ e, e ∈ es ∧ e_in_use e = true.
Proof.
  unfold in_use_count. intros H. destruct (filter _ es) as [|e l] eqn:Hf; [cbn in H; lia|].
  exists e. assert (He : e ∈ filter (λ e, e_in_use e = true) es) by (rewrite Hf; left).
  by apply list_elem_of_filter in He as [? ?].
Qed.

(** When no slot can take the key, some entry is in use. *)
Lemma place_None_used m s : hm_wf m → place m s = None →
  ∃ e, e ∈ m_entries m ∧ e_in_use e = true.
Proof.
  intros Hwf. unfold place. case_decide as Hfull.
  - intros _. apply in_use_count_pos. destruct Hwf as [? ? ? _].
    assert (4 ≤ m_table_size m / 2) by zlia. lia.
  - intros Hn. pose proof (scan_None _ _ _ _ _ Hn 0%nat ltac:(unfold MAX_CHAIN_LENGTH; lia)) as H0.
    apply bool_decide_eq_false_1 in H0. set (i := pos _ _ _) in H0.
    destruct (lookup_lt_is_Some_2 (m_entries m) i) as [e He]; [by apply pos_lt|].
    exists e. split; [by eapply list_elem_of_lookup_2|].
    destruct (e_in_use e) eqn:Hu; [done|]. destruct H0. left. by eapply slot_str_free.
Qed.

Context (calloc_ok : Z → bool).

Lemma hashmap_put_cases fuel m key s v : hm_wf m → m_lock m = false → key_is key s →
  hashmap_put cstr_of calloc_ok (S (S fuel)) m key v =
    match place m s with
    | Some i => Ok (HASHMAP_OK, after_put m i key v)
    | None => if calloc_ok (2 * m_table_size m) then Err SelfDeadlock
              else Ok (HASHMAP_ERR, m)
    end.
Proof.
  intros Hwf Hl Hk. set (f := S fuel). cbn [hashmap_put].
  rewrite mutex_lock_free by done. cbn [mbind res_bind].
  rewrite (hashmap_hash_place (with_lock m true) key s) by (done || by apply with_lock_wf).
  assert (place (with_lock m true) s = place m s) as -> by reflexivity.
  destruct (place m s) as [i|] eqn:Hp; cbn [mbind res_bind].
  - unfold grow_loop, f. rewrite decide_True by (unfold HASHMAP_FULL; lia).
    cbn [mbind res_bind]. unfold set_entry. rewrite entry_at_nat. cbn [with_lock m_entries].
    assert (Hi : (i < length (m_entries m))%nat).
    { unfold place in Hp. case_decide; [done|].
      apply scan_Some in Hp as (d & _ & -> & _). by apply pos_lt. }
    destruct (lookup_lt_is_Some_2 _ _ Hi) as [e He]. rewrite He. cbn.
    unfold mutex_unlock, after_put; cbn. rewrite Hl, Nat2Z.id.
    destruct (e_in_use e) eqn:Hu; cbn.
    + rewrite decide_False by (by eapply slot_str_used). do 3 f_equal. lia.
    + rewrite decide_True by (by eapply slot_str_free). done.
  - unfold grow_loop, f. rewrite decide_False by (by intros []). cbn [mbind res_bind].
    unfold hashmap_rehash. cbn [with_lock m_table_size m_entries m_lock].
    destruct (calloc_ok _); cbn [negb].
    + rewrite rehash_loop_deadlock; [done| | |by eapply place_None_used|done].
      * intros m' k' v' Hl'. cbn. unfold mutex_lock. by rewrite Hl'.
      * intros e [i He]%list_elem_of_lookup Hu.
        destruct (hm_keys m Hwf i e He Hu) as (k & ? & -> & _). eauto.
    + cbn [mbind res_bind]. rewrite decide_True by done.
      cbn [mbind res_bind]. by rewrite (unlock_lock m Hl).
Qed.

(** ** The maps after an operation *)

Lemma filter_insert_count (es : list (hashmap_entry K V)) i e e' : es !! i = Some e →
  (in_use_count (<[i := e']> es) + (if e_in_use e then 1 else 0) =
   in_use_count es + (if e_in_use e' then 1 else 0))%nat.
Proof.
  intros He. pose proof (lookup_lt_Some _ _ _ He) as Hi. unfold in_use_count.
  rewrite <- (take_drop_middle es i e He) at 2. rewrite insert_take_drop by done.
  rewrite !filter_app, !filter_cons, !length_app.
  destruct (e_in_use e), (e_in_use e'); repeat case_decide; try done; cbn; lia.
Qed.

Lemma place_lt m s i : hm_wf m → place m s = Some i →
  (i < length (m_entries m))%nat ∧ m_size m < m_table_size m / 2
  ∧ (slot_str m i = None ∨ slot_str m i = Some s)
  ∧ ∃ d, (d < MAX_CHAIN_LENGTH)%nat ∧ i = pos m (hash_str (m_table_size m) s) d
    ∧ ∀ d', (d' < d)%nat → ¬ (slot_str m (pos m (hash_str (m_table_size m) s) d') = None ∨
                              slot_str m (pos m (hash_str (m_table_size m) s) d') = Some s).
Proof.
  intros Hwf. unfold place. case_decide as Hs; [done|].
  intros (d & Hd & -> & HP & Hn)%scan_Some. split; [by apply pos_lt|]. split; [lia|].
  split; [by apply bool_decide_eq_true_1 in HP|]. exists d. split; [lia|]. split; [done|].
  intros d' Hd'. specialize (Hn d' ltac:(lia)). by apply bool_decide_eq_false_1 in Hn.
Qed.

Lemma slot_str_after_put m i key s v j : (i < length (m_entries m))%nat → key_is key s →
  slot_str (after_put m i key v) j = if decide (i = j) then Some s else slot_str m j.
Proof.
  intros Hi [Hk _]. unfold slot_str, after_put; cbn. case_decide as Hij.
  - subst j. by rewrite list_lookup_insert_eq.
  - by rewrite list_lookup_insert_ne.
Qed.

Lemma slot_str_after_del m i j :
  slot_str (after_del m i) j = if decide (i = j) then None else slot_str m j.
Proof.
  unfold slot_str, after_del; cbn. rewrite list_lookup_alter. case_decide; [|done].
  subst. by destruct (m_entries m !! j).
Qed.

Lemma after_put_wf m i key s v : hm_wf m → (i < length (m_entries m))%nat → key_is key s →
  hm_wf (after_put m i key v).
Proof.
  intros Hwf Hi Hk. destruct (lookup_lt_is_Some_2 _ _ Hi) as [e He]. split; cbn.
  - rewrite length_insert. apply Hwf.
  - apply Hwf.
  - pose proof (filter_insert_count _ _ _ (mk_entry (Some key) v true) He) as Hc. cbn in Hc.
    rewrite (hm_size m Hwf). destruct (e_in_use e) eqn:Hu; try rewrite Hu in Hc.
    + rewrite decide_False by (by eapply slot_str_used). unfold in_use_count in *. lia.
    + rewrite decide_True by (by eapply slot_str_free). unfold in_use_count in *. lia.
  - intros j e' He' Hu'. apply list_lookup_insert_Some in He' as [(-> & <- & _)|[_ He']].
    + by exists key, s.
    + by eapply hm_keys.
Qed.

Lemma after_del_wf m i s : hm_wf m → slot_str m i = Some s → hm_wf (after_del m i).
Proof.
  intros Hwf (e & k & He & Hu & _)%slot_str_Some. split; cbn.
  - rewrite length_alter. apply Hwf.
  - apply Hwf.
  - assert (alter (λ e, mk_entry (e_key e) (e_val e) false) i (m_entries m) =
      <[i := mk_entry (e_key e) (e_val e) false]> (m_entries m)) as ->.
    { rewrite list_insert_alter. apply list_eq. intros j. rewrite !list_lookup_alter.
      case_decide; [subst; by rewrite He|done]. }
    pose proof (filter_insert_count _ _ _ (mk_entry (e_key e) (e_val e) false) He) as Hc.
    rewrite Hu in Hc. cbn in Hc. rewrite (hm_size m Hwf). unfold in_use_count in *. lia.
  - intros j e' He' Hu'. rewrite list_lookup_alter in He'. case_decide as Hij; [|by eapply hm_keys].
    subst j. rewrite He in He'. injection He' as <-. done.
Qed.

Lemma mlookup_put_same m i key s v : hm_wf m → key_is key s → place m s = Some i →
  mlookup (after_put m i key v) s = Some v.
Proof.
  intros Hwf Hk Hp. destruct (place_lt m s i Hwf Hp) as (Hi & _ & _ & d & Hd & Hpos & Hn).
  unfold mlookup, found. cbn [after_put m_table_size].
  assert (scan (holds s) (after_put m i key v) (hash_str (m_table_size m) s) 0 MAX_CHAIN_LENGTH
    = Some i) as ->.
  { rewrite Hpos. apply (scan_first _ (after_put m _ key v) _ _ _ d); [lia| |]; unfold holds.
    - rewrite <- Hpos. change (pos (after_put m i key v)) with (pos m). rewrite <- Hpos.
      rewrite (slot_str_after_put m i key s) by done. by rewrite decide_True, bool_decide_eq_true_2.
    - intros d' Hd'. specialize (Hn d' ltac:(lia)). rewrite <- Hpos.
      change (pos (after_put m i key v)) with (pos m).
      rewrite (slot_str_after_put m i key s) by done. apply bool_decide_eq_false_2.
      case_decide as Heq; [|naive_solver]. destruct Hn. rewrite <- Heq.
      by destruct (place_lt m s i Hwf Hp) as (_ & _ & ? & _). }
  cbn. by rewrite list_lookup_insert_eq.
Qed.

(** An operation that only changes what slot [i] holds, from nothing or [s] to
    nothing or [s], does not change the lookup of another string. *)
Lemma mlookup_frame m m' i s s' : s' ≠ s → m_table_size m' = m_table_size m →
  (∀ j, i ≠ j → m_entries m' !! j = m_entries m !! j) →
  (slot_str m i = None ∨ slot_str m i = Some s) →
  (slot_str m' i = None ∨ slot_str m' i = Some s) →
  mlookup m' s' = mlookup m s'.
Proof.
  intros Hs Ht He H H'. unfold mlookup, found. rewrite Ht.
  rewrite (scan_ext _ m m'); [|done|].
  2: { intros j. unfold holds. destruct (decide (i = j)) as [->|Hij].
       - rewrite !bool_decide_eq_false_2; naive_solver.
       - unfold slot_str. by rewrite He. }
  destruct (scan _ m _ _ _) as [j|] eqn:Hj; [|done]. cbn. rewrite He; [done|].
  intros <-. apply found_entry in Hj. naive_solver.
Qed.

Lemma mlookup_put_other m i key s s' v : hm_wf m → key_is key s → place m s = Some i →
  s' ≠ s → mlookup (after_put m i key v) s' = mlookup m s'.
Proof.
  intros Hwf Hk Hp Hs. destruct (place_lt m s i Hwf Hp) as (Hi & _ & Hslot & _).
  apply (mlookup_frame _ _ i s); try done.
  - intros j Hij. cbn. by rewrite list_lookup_insert_ne.
  - right. rewrite (slot_str_after_put m i key s) by done. by rewrite decide_True.
Qed.

Lemma mlookup_del_other m i s s' : slot_str m i = Some s → s' ≠ s →
  mlookup (after_del m i) s' = mlookup m s'.
Proof.
  intros Hi Hs. apply (mlookup_frame _ _ i s); try done.
  - intros j Hij. cbn. by rewrite list_lookup_alter_ne.
  - by right.
  - left. by rewrite slot_str_after_del, decide_True.
Qed.

(** Deleting an entry leaves room for every key there was room for. *)
Lemma place_after_del m i s : hm_wf m → is_Some (place m s) → is_Some (place (after_del m i) s).
Proof.
  intros Hwf. unfold place. cbn [after_del m_table_size m_size].
  case_decide; [by intros []|]. rewrite decide_False by lia.
  apply scan_mono; [done|]. intros j. rewrite slot_str_after_del. case_decide; [|done].
  intros _. by apply bool_decide_eq_true_2; left.
Qed.

(** ** The finite map a table represents *)

Record hm_repr (m : Map) (g : gmap (list Z) (option V)) : Prop := {
  repr_wf : hm_wf m;
  repr_lock : m_lock m = false;
  repr_chain i s : slot_str m i = Some s →
    ∃ d, (d < MAX_CHAIN_LENGTH)%nat ∧ i = pos m (hash_str (m_table_size m) s) d;
  repr_unique i j s : slot_str m i = Some s → slot_str m j = Some s → i = j;
  repr_lookup s : mlookup m s = g !! s
}.

Lemma mlookup_None m s : hm_wf m → mlookup m s = None ↔ found m s = None.
Proof.
  intros Hwf. unfold mlookup. destruct (found m s) as [i|] eqn:Hf; cbn; [|done].
  apply found_entry, slot_str_Some in Hf as (e & k & -> & _). done.
Qed.

Lemma repr_absent m g i s : hm_repr m g → g !! s = None → slot_str m i ≠ Some s.
Proof.
  intros Hr Hg Hi. rewrite <- (repr_lookup _ _ Hr), mlookup_None in Hg by apply Hr.
  destruct (repr_chain _ _ Hr i s Hi) as (d & Hd & ->).
  pose proof (scan_None _ _ _ _ _ Hg d ltac:(lia)) as Hn.
  by apply bool_decide_eq_false_1 in Hn.
Qed.

Lemma hm_repr_put m g i key s v : hm_repr m g → key_is key s → g !! s = None →
  place m s = Some i → hm_repr (after_put m i key v) (<[s := v]> g).
Proof.
  intros Hr Hk Hg Hp. pose proof (repr_wf _ _ Hr) as Hwf.
  destruct (place_lt m s i Hwf Hp) as (Hi & _ & Hslot & d & Hd & Hpos & _).
  split; [by eapply after_put_wf|apply Hr| | |].
  - intros j s'. rewrite (slot_str_after_put m i key s) by done. case_decide as Hij.
    + intros [= <-]. subst j. by exists d.
    + apply (repr_chain _ _ Hr).
  - intros j1 j2 s'. rewrite !(slot_str_after_put m i key s) by done.
    repeat case_decide; subst; try done; intros H1 H2; simplify_eq;
      try by (exfalso; eapply repr_absent).
    by eapply (repr_unique _ _ Hr).
  - intros s'. destruct (decide (s' = s)) as [->|Hs].
    + by rewrite lookup_insert_eq, (mlookup_put_same m i key s).
    + by rewrite lookup_insert_ne, (mlookup_put_other m i key s), (repr_lookup _ _ Hr).
Qed.

Lemma hm_repr_del m g i s : hm_repr m g → found m s = Some i →
  hm_repr (after_del m i) (delete s g).
Proof.
  intros Hr Hf%found_entry. pose proof (repr_wf _ _ Hr) as Hwf.
  split; [by eapply after_del_wf|apply Hr| | |].
  - intros j s'. rewrite slot_str_after_del. case_decide; [done|]. apply (repr_chain _ _ Hr).
  - intros j1 j2 s'. rewrite !slot_str_after_del. repeat case_decide; try done.
    apply (repr_unique _ _ Hr).
  - intros s'. destruct (decide (s' = s)) as [->|Hs].
    + rewrite lookup_delete_eq. apply mlookup_None; [by eapply after_del_wf|].
      destruct (found (after_del m i) s) as [j|] eqn:Hj; [|done].
      apply found_entry in Hj. rewrite slot_str_after_del in Hj. case_decide as Hij; [done|].
      destruct Hij. by apply (repr_unique _ _ Hr i j s).
    + by rewrite lookup_delete_ne, (mlookup_del_other m i s), (repr_lookup _ _ Hr).
Qed.

End View.

Global Arguments hm_repr {K V} cstr_of m g.
Global Arguments hm_wf {K V} cstr_of m.

(** * Clients of the map *)

(** What the broker does with a topic table: look a key up, create an entry
    when there is none (the idiom of [subscribe_handler] and [reply_handler]),
    remove an entry. *)
Inductive hm_op (K V : Type) := Get (k : K) | Ensure (k : K) (v : V) | Del (k : K).
Global Arguments Get {K V}.
Global Arguments Ensure {K V}.
Global Arguments Del {K V}.

Definition hm_step {K V} (cstr_of : K → option (list Z)) (calloc_ok : Z → bool)
    (m : Hashmap K V) (o : hm_op K V) : res (Z * option V * Hashmap K V) :=
  match o with
  | Get k => '(v, m) ← hashmap_get cstr_of m k; Ok (0, v, m)
  | Ensure k v =>
      '(raw, m) ← hashmap_get cstr_of m k;
      match raw with
      | Some v => Ok (0, Some v, m)
      | None => '(rc, m) ← hashmap_put cstr_of calloc_ok 2 m k (Some v); Ok (rc, Some v, m)
      end
  | Del k => '(rc, m) ← hashmap_del cstr_of m k; Ok (rc, None, m)
  end.

Fixpoint hm_run {K V} (cstr_of : K → option (list Z)) (calloc_ok : Z → bool)
    (m : Hashmap K V) (os : list (hm_op K V)) : res (list (Z * option V) * Hashmap K V) :=
  match os with
  | [] => Ok ([], m)
  | o :: os =>
      '(rc, v, m) ← hm_step cstr_of calloc_ok m o;
      '(obs, m) ← hm_run cstr_of calloc_ok m os;
      Ok ((rc, v) :: obs, m)
  end.

(** The same operations on a finite map from strings, the key pointers being
    read by [str]. *)
Definition gm_step {K V} (str : K → list Z) (g : gmap (list Z) V) (o : hm_op K V)
    : Z * option V * gmap (list Z) V :=
  match o with
  | Get k => (0, g !! str k, g)
  | Ensure k v =>
      match g !! str k with
      | Some v => (0, Some v, g)
      | None => (HASHMAP_OK, Some v, <[str k := v]> g)
      end
  | Del k => (if g !! str k is Some _ then HASHMAP_OK else HASHMAP_ERR, None, delete (str k) g)
  end.

Fixpoint gm_run {K V} (str : K → list Z) (g : gmap (list Z) V) (os : list (hm_op K V))
    : list (Z * option V) * gmap (list Z) V :=
  match os with
  | [] => ([], g)
  | o :: os =>
      let '(rc, v, g) := gm_step str g o in
      let '(obs, g) := gm_run str g os in ((rc, v) :: obs, g)
  end.

Definition op_key {K V} (o : hm_op K V) : K :=
  match o with Get k | Ensure k _ | Del k => k end.

(** How many entries operations can make. *)
Definition inserts {K V} (o : hm_op K V) : nat := match o with Ensure _ _ => 1 | _ => 0 end.
Definition insertions {K V} (os : list (hm_op K V)) : nat := sum_list (inserts <$> os).
Global Arguments insertions : simpl never.

(** ** Lemmas *)

(** A key pointer stored in a table. *)
Definition stored_key {K V} (m : Hashmap K V) (k : K) : Prop :=
  ∃ i e, m_entries m !! i = Some e ∧ e_in_use e = true ∧ e_key e = Some k.

(** The strings the stored keys designate are all that matters of the memory. *)
Section Frame.
Context {K V : Type} (cstr_of cstr_of' : K → option (list Z)) (m : Hashmap K V).
Context (Hsame : ∀ k, stored_key m k → cstr_of' k = cstr_of k).

Lemma slot_str_frame i : slot_str cstr_of' m i = slot_str cstr_of m i.
Proof.
  unfold slot_str. destruct (m_entries m !! i) as [e|] eqn:He; [|done]. cbn.
  destruct (e_in_use e) eqn:Hu; [|done]. destruct (e_key e) as [k|] eqn:Hk; [|done]. cbn.
  apply Hsame. by exists i, e.
Qed.

Lemma scan_frame P h d n : scan cstr_of' P m h d n = scan cstr_of P m h d n.
Proof.
  revert d. induction n as [|n IH]; intros d; [done|]. cbn [scan].
  by rewrite slot_str_frame, IH.
Qed.

Lemma place_frame s : place cstr_of' m s = place cstr_of m s.
Proof. unfold place. by rewrite scan_frame. Qed.

Lemma hm_wf_frame : hm_wf cstr_of m → hm_wf cstr_of' m.
Proof.
  intros [Ht Hr Hs Hk]. split; [done..|]. intros i e He Hu'. destruct (Hk i e He Hu') as (k & s & Hek & Hks & Hstr).
  exists k, s. split; [done|]. split; [|done]. rewrite Hsame; [done|]. by exists i, e.
Qed.

Lemma hm_repr_frame g : hm_repr cstr_of m g → hm_repr cstr_of' m g.
Proof.
  intros [Hwf Hl Hc Hu Hlk]. split.
  - by apply hm_wf_frame.
  - done.
  - intros i s. rewrite slot_str_frame. apply Hc.
  - intros i j s. rewrite !slot_str_frame. apply Hu.
  - intros s. rewrite <- Hlk. unfold mlookup, found. by rewrite scan_frame.
Qed.

End Frame.

Section Clients.
Context {K V : Type} (cstr_of : K → option (list Z)) (calloc_ok : Z → bool).
Context (str : K → list Z).

Lemma place_found (m : Hashmap K V) g s i : hm_repr cstr_of m g → place cstr_of m s = Some i →
  g !! s = None → slot_str cstr_of m i = None.
Proof.
  intros Hr Hp Hg. destruct (place_lt cstr_of m s i (repr_wf _ _ _ Hr) Hp) as (_ & _ & [?|Hs] & _);
    [done|]. by destruct (repr_absent cstr_of m g i s Hr Hg).
Qed.

(** One operation: as on the finite map, unless the table has to grow for a key that is not
    there. *)
Lemma hm_step_sim (m : Hashmap K V) (g : gmap (list Z) V) o :
  hm_repr cstr_of m (Some <$> g) → key_is cstr_of (op_key o) (str (op_key o)) →
  let '(rc, v, g') := gm_step str g o in
  (∃ m', hm_step cstr_of calloc_ok m o = Ok (rc, v, m') ∧ hm_repr cstr_of m' (Some <$> g')
    ∧ m_table_size m' = m_table_size m ∧ m_size m' ≤ m_size m + Z.of_nat (inserts o)) ∨
  (∃ k u, o = Ensure k u ∧ g !! str k = None ∧ place cstr_of m (str k) = None
    ∧ hm_step cstr_of calloc_ok m o =
        if calloc_ok (2 * m_table_size m) then Err SelfDeadlock else Ok (HASHMAP_ERR, v, m)).
Proof.
  intros Hr Hk. pose proof (repr_wf _ _ _ Hr) as Hwf. pose proof (repr_lock _ _ _ Hr) as Hl.
  destruct o as [k|k v|k]; cbn [op_key] in Hk; cbn [gm_step hm_step];
    pose proof (repr_lookup _ _ _ Hr (str k)) as Hlk; rewrite lookup_fmap in Hlk.
  - left. rewrite (hashmap_get_lookup cstr_of m k (str k)) by done. cbn [mbind res_bind]. rewrite Hlk.
    exists m. split_and!; [by destruct (g !! str k)|done|done|lia].
  - rewrite (hashmap_get_lookup cstr_of m k (str k)) by done. cbn [mbind res_bind]. rewrite Hlk.
    destruct (g !! str k) as [v'|] eqn:Hg; cbn [fmap option_fmap option_map mjoin option_join].
    { left. exists m. split_and!; [done..|lia]. }
    rewrite (hashmap_put_cases cstr_of calloc_ok 0 m k (str k)) by done.
    destruct (place cstr_of m (str k)) as [i|] eqn:Hp.
    + left. eexists. split_and!; [done| |done|cbn; case_decide; lia]. rewrite fmap_insert.
      eapply hm_repr_put; [done|done|by rewrite lookup_fmap, Hg|done].
    + right. exists k, v. split_and!; [done..|]. by destruct (calloc_ok _).
  - left. rewrite (hashmap_del_found cstr_of m k (str k)) by done. cbn [mbind res_bind].
    unfold mlookup in Hlk. destruct (found cstr_of m (str k)) as [i|] eqn:Hf.
    + assert (is_Some (g !! str k)) as [v Hg].
      { pose proof (found_entry cstr_of m _ _ Hf) as He.
        apply slot_str_Some in He as (e & ? & He & _). cbn in Hlk. rewrite He in Hlk.
        destruct (g !! str k); [by eexists|done]. }
      rewrite Hg. eexists. split; [done|]. split_and!; [|done|cbn; lia]. rewrite fmap_delete.
      by apply hm_repr_del.
    + destruct (g !! str k) as [v|] eqn:Hg; [done|]. exists m. split_and!; [done| |done|lia].
      by rewrite delete_id.
Qed.

Lemma create_repr : hm_repr cstr_of created (Some <$> (∅ : gmap (list Z) V)).
Proof.
  rewrite fmap_empty.
  assert (Hslot : ∀ i, slot_str (V := V) cstr_of created i = None).
  { intros i. unfold slot_str. cbn [m_entries created].
    destruct (replicate INITIAL_SIZE no_entry !! i) eqn:He; [|done].
    by apply lookup_replicate in He as [-> _]. }
  split.
  - split; cbn [m_table_size m_size m_entries created].
    + by rewrite length_replicate.
    + done.
    + done.
    + intros i e He. by apply lookup_replicate in He as [-> _].
  - done.
  - intros i s. by rewrite Hslot.
  - intros i j s. by rewrite Hslot.
  - intros s. rewrite lookup_empty. unfold mlookup, found.
    destruct (scan _ _ _ _ _) as [i|] eqn:Hi; [|done].
    apply scan_Some in Hi as (d & _ & _ & HP & _). rewrite Hslot in HP. done.
Qed.

End Clients.

Section Growth.
Context {K V : Type} (cstr_of : K → option (list Z)) (calloc_ok : Z → bool).

(** No slot can take the key [s]: the table is half full, or all the slots of
    the chain hold other keys. *)
Definition needs_growth (m : Hashmap K V) (s : list Z) : Prop :=
  m_table_size m / 2 ≤ m_size m ∨
  ∀ d, (d < MAX_CHAIN_LENGTH)%nat → ∃ s',
    slot_str cstr_of m (pos m (hash_str (m_table_size m) s) d) = Some s' ∧ s' ≠ s.

Lemma place_None_growth (m : Hashmap K V) s :
  place cstr_of m s = None ↔ needs_growth m s.
Proof.
  unfold place, needs_growth. case_decide as Hd; [by split; [left|]|]. split.
  - intros Hn. right. intros d Hlt. pose proof (scan_None _ _ _ _ _ _ Hn d ltac:(lia)) as H.
    apply bool_decide_eq_false_1 in H. destruct (slot_str _ _ _) as [s'|]; [|naive_solver].
    exists s'. split; [done|]. naive_solver.
  - intros [?|H]; [done|]. destruct (scan _ _ _ _ _ _) as [i|] eqn:Hs; [|done].
    apply scan_Some in Hs as (d & Hd' & -> & HP & _).
    destruct (H d) as (s' & Hs & Hne); [lia|]. rewrite Hs in HP.
    apply bool_decide_eq_true_1 in HP. naive_solver.
Qed.

(** The states a map goes through under any use of its operations that returns. *)
Inductive hm_reach : Hashmap K V → Prop :=
  | reach_create m : hashmap_create true true = Ok (Some m) → hm_reach m
  | reach_get m key s v m' : hm_reach m → key_is cstr_of key s →
      hashmap_get cstr_of m key = Ok (v, m') → hm_reach m'
  | reach_put m key s v fuel rc m' : hm_reach m → key_is cstr_of key s →
      hashmap_put cstr_of calloc_ok (S (S fuel)) m key v = Ok (rc, m') → hm_reach m'
  | reach_del m key s rc m' : hm_reach m → key_is cstr_of key s →
      hashmap_del cstr_of m key = Ok (rc, m') → hm_reach m'.

Lemma hm_reach_wf m : hm_reach m →
  hm_wf cstr_of m ∧ m_lock m = false ∧ m_table_size m = 256 ∧ m_size m ≤ 128.
Proof.
  induction 1 as [m Hc|m key s v m' _ (Hwf & Hl & Ht & Hs) Hk E|
    m key s v fuel rc m' _ (Hwf & Hl & Ht & Hs) Hk E|m key s rc m' _ (Hwf & Hl & Ht & Hs) Hk E].
  - injection Hc as <-. split; [apply (create_repr cstr_of)|done].
  - rewrite (hashmap_get_lookup cstr_of m key s) in E by done. by injection E as <- <-.
  - rewrite (hashmap_put_cases cstr_of calloc_ok fuel m key s) in E by done.
    destruct (place cstr_of m s) as [i|] eqn:Hp; [|destruct (calloc_ok _); by simplify_eq].
    injection E as <- <-. destruct (place_lt cstr_of m s i Hwf Hp) as (Hi & Hlt & _).
    split_and!; [by eapply after_put_wf|done|done|]. cbn [after_put m_size].
    rewrite Ht in Hlt. change (256 / 2) with 128 in Hlt. case_decide; lia.
  - rewrite (hashmap_del_found cstr_of m key s) in E by done.
    destruct (found cstr_of m s) as [i|] eqn:Hf; injection E as <- <-; [|done].
    apply found_entry in Hf. split_and!; [by eapply after_del_wf|done|done|]. cbn. lia.
Qed.

(** A chain that is full holds as many entries. *)
Lemma in_use_distinct (es : list (hashmap_entry K V)) js : NoDup js →
  (∀ i, i ∈ js → ∃ e, es !! i = Some e ∧ e_in_use e = true) → (length js ≤ in_use_count es)%nat.
Proof.
  intros Hnd. revert es. induction Hnd as [|i js Hi _ IH]; intros es Hes; [cbn; lia|].
  destruct (Hes i) as (e & He & Hu); [by left|].
  pose proof (filter_insert_count es i e no_entry He) as Hc. rewrite Hu in Hc. cbn in Hc.
  cbn [length]. assert (length js ≤ in_use_count (<[i:=no_entry]> es))%nat; [|lia]. apply IH.
  intros j Hj. rewrite list_lookup_insert_ne by (by intros ->). apply Hes. by right.
Qed.

Lemma growth_size (m : Hashmap K V) s : hm_wf cstr_of m → 16 ≤ m_table_size m → needs_growth m s →
  Z.of_nat MAX_CHAIN_LENGTH ≤ m_size m.
Proof.
  intros Hwf Ht Hg. unfold MAX_CHAIN_LENGTH. destruct Hg as [Hg|Hg].
  { pose proof (Z.div_le_mono 16 (m_table_size m) 2 ltac:(lia) Ht). change (16 / 2) with 8 in *. lia. }
  rewrite (hm_size _ _ Hwf). apply inj_le. set (h := hash_str (m_table_size m) s).
  rewrite <- (length_seq 8 0), <- (length_fmap (pos m h)). apply in_use_distinct.
  - apply NoDup_fmap_2_strong; [|apply NoDup_seq]. intros d1 d2 Hd1%elem_of_seq Hd2%elem_of_seq. unfold pos.
    intros Heq%Z2Nat.inj; [|apply Z.mod_pos_bound; lia..].
    pose proof (Z.div_mod (h + Z.of_nat d1) (m_table_size m) ltac:(lia)) as H1.
    pose proof (Z.div_mod (h + Z.of_nat d2) (m_table_size m) ltac:(lia)) as H2. rewrite Heq in H1.
    assert ((h + Z.of_nat d1) / m_table_size m = (h + Z.of_nat d2) / m_table_size m); nia.
  - intros i (d & -> & Hd%elem_of_seq)%list_elem_of_fmap. destruct (Hg d) as (s' & Hs & _); [unfold MAX_CHAIN_LENGTH; lia|].
    apply slot_str_Some in Hs as (e & _ & He & Hu & _). by exists e.
Qed.

(** The operations answer as on the finite map [g]. *)
Definition answers (str : K → list Z) (m : Hashmap K V) (g : gmap (list Z) V) (os : list (hm_op K V)) (m' : Hashmap K V) : Prop :=
  hm_run cstr_of calloc_ok m os = Ok (fst (gm_run str g os), m') ∧ hm_repr cstr_of m' (Some <$> snd (gm_run str g os)).

(** They do so up to an insertion of a missing key for which the table has to grow, where
    the calling thread stops for ever. *)
Definition stops_to_grow (str : K → list Z) (m : Hashmap K V) (g : gmap (list Z) V) (os : list (hm_op K V)) : Prop :=
  hm_run cstr_of calloc_ok m os = Err SelfDeadlock ∧
  ∃ os1 k v os2 m1, os = os1 ++ Ensure k v :: os2 ∧ answers str m g os1 m1
    ∧ snd (gm_run str g os1) !! str k = None ∧ needs_growth m1 (str k)
    ∧ m_size m1 ≤ m_size m + Z.of_nat (insertions os1) ∧ m_table_size m1 = m_table_size m.

Lemma hm_run_sim (str : K → list Z) (os : list (hm_op K V)) (m : Hashmap K V) (g : gmap (list Z) V) :
  calloc_ok (2 * m_table_size m) = true →
  hm_repr cstr_of m (Some <$> g) →
  Forall (λ o, key_is cstr_of (op_key o) (str (op_key o))) os →
  stops_to_grow str m g os ∨ ∃ m', answers str m g os m'.
Proof.
  intros Hc Hr Hos. revert m g Hc Hr. induction Hos as [|o os Ho _ IH]; intros m g Hc Hr.
  { right. by exists m. }
  pose proof (hm_step_sim cstr_of calloc_ok str m g o Hr Ho) as Hsim. unfold stops_to_grow, answers. cbn [hm_run gm_run].
  destruct (gm_step str g o) as [[rc v] g'] eqn:Hg. destruct Hsim as [(m1 & E & Hr1 & Ht1 & Hs1)|(k & u & -> & Hk & Hp & E)].
  - rewrite E. cbn [mbind res_bind]. rewrite <- Ht1 in Hc.
    destruct (IH m1 g' Hc Hr1) as [(E2 & os1 & k & u & os2 & m2 & -> & (E1 & Hr2) & Hk & Hgr & Hs2 & Ht2)|(m2 & E2 & Hr2)].
    + left. rewrite E2. split; [done|]. exists (o :: os1), k, u, os2, m2. cbn [hm_run gm_run]. rewrite E, Hg. cbn [mbind res_bind].
      rewrite E1. destruct (gm_run str g' os1) as [obs g2]. cbn in *. split_and!; [done..| |lia].
      change (insertions (o :: os1)) with (inserts o + insertions os1)%nat. rewrite Nat2Z.inj_add. lia.
    + right. rewrite E2. destruct (gm_run str g' os) as [obs g2]. cbn in *. by exists m2.
  - left. rewrite E, Hc. split; [done|]. exists [], k, u, os, m. cbn.
    split_and!; [done..|by apply place_None_growth|lia|done].
Qed.

End Growth.

(** * Properties *)

(** C1. Started from [hashmap_create], any sequence of lookups, insertions of missing keys
    and removals answers exactly as a finite map from strings does, up to the first
    insertion of a missing key for which the table has to grow ([needs_growth]: it is half
    full, or the eight slots of the chain hold other keys); there the calling thread
    deadlocks, provided a table of twice the size can be allocated.  A sequence with no more
    than eight insertions is answered to its end. *)
Theorem hashmap_refines_finite_map {K V} (cstr_of : K → option (list Z)) (calloc_ok : Z → bool)
    (str : K → list Z) (os : list (hm_op K V)) :
  Forall (λ o, key_is cstr_of (op_key o) (str (op_key o))) os →
  calloc_ok 512 = true →
  ∃ m, hashmap_create true true = Ok (Some m)
    ∧ (stops_to_grow cstr_of calloc_ok str m ∅ os ∨ ∃ m', answers cstr_of calloc_ok str m ∅ os m')
    ∧ ((insertions os ≤ MAX_CHAIN_LENGTH)%nat → ∃ m', answers cstr_of calloc_ok str m ∅ os m').
Proof.
  intros Hos Hc. eexists. split; [reflexivity|].
  destruct (hm_run_sim cstr_of calloc_ok str os created ∅ Hc (create_repr cstr_of) Hos) as [Hst|Ha]; [|by auto].
  split; [by left|]. intros Hle. exfalso.
  destruct Hst as (_ & os1 & k & v & os2 & m1 & -> & (_ & Hr) & _ & Hg & Hs & Ht).
  pose proof (growth_size cstr_of m1 (str k) (repr_wf _ _ _ Hr) ltac:(by rewrite Ht) Hg) as Hmin.
  revert Hle. unfold insertions. rewrite fmap_app, sum_list_with_app. cbn. unfold insertions in Hs. cbn in Hs. lia.
Qed.

(** Keys of the witnesses: every pointer designates its own bytes. *)
Definition own_bytes (k : list Z) : option (list Z) := Some k.

Lemma own_bytes_key k : no_nul k → key_is own_bytes k k.
Proof. done. Qed.

Lemma short_keys {V} (os : list (hm_op (list Z) V)) :
  forallb (λ o, bool_decide (is_str (op_key o))) os = true →
  Forall (λ o, key_is own_bytes (op_key o) (op_key o)) os.
Proof.
  intros H. apply Forall_forall. intros o Ho. apply list_elem_of_In in Ho.
  pose proof (proj1 (forallb_forall _ os) H o Ho) as Hb. cbv beta in Hb.
  apply own_bytes_key, is_str_no_nul. by apply bool_decide_eq_true_1 in Hb.
Qed.

Lemma hashmap_refines_finite_map_witness :
  let os := [Ensure [100; 106] 1; Get [100; 106]; Ensure [112; 113] 2; Ensure [100; 106] 3;
    Del [100; 106]; Get [100; 106]; Get [112; 113]] in
  fst (gm_run id (∅ : gmap (list Z) Z) os) = [(0, Some 1); (0, Some 1); (0, Some 2); (0, Some 1);
    (0, None); (0, None); (0, Some 2)] ∧
  ∃ m m', hashmap_create true true = Ok (Some m) ∧ answers own_bytes (λ _, true) id m ∅ os m'.
Proof.
  split; [vm_compute; reflexivity|].
  destruct (hashmap_refines_finite_map own_bytes (λ _, true) id
    [Ensure [100; 106] 1; Get [100; 106]; Ensure [112; 113] 2; Ensure [100; 106] 3;
     Del [100; 106]; Get [100; 106]; Get [112; 113]]) as (m & E & _ & H); [|reflexivity|].
  - apply (short_keys [Ensure [100; 106] 1; Get [100; 106]; Ensure [112; 113] 2;
      Ensure [100; 106] 3; Del [100; 106]; Get [100; 106]; Get [112; 113]]).
    vm_compute. reflexivity.
  - destruct (H ltac:(vm_compute; lia)) as [m' Ha]. exists m, m'. split; [exact E|exact Ha].
Defined.

(** C15. [hashmap_put] always returns or deadlocks, whatever nesting bound of at
    least two it is run with.  If some slot can take the key it succeeds, the
    key then maps to the value, and no other key is affected.  If the table has to
    grow it fails with [HASHMAP_ERR] when the new table cannot be allocated, and
    otherwise deadlocks: [hashmap_rehash] calls [hashmap_put] with the lock
    held. *)
Theorem hashmap_put_outcome {K V} (cstr_of : K → option (list Z)) (calloc_ok : Z → bool)
    (fuel : nat) (m : Hashmap K V) (key : K) (s : list Z) (v : option V) :
  hm_wf cstr_of m → m_lock m = false → key_is cstr_of key s →
  (¬ needs_growth cstr_of m s →
     ∃ m', hashmap_put cstr_of calloc_ok (S (S fuel)) m key v = Ok (HASHMAP_OK, m')
       ∧ hm_wf cstr_of m' ∧ m_lock m' = false
       ∧ hashmap_get cstr_of m' key = Ok (v, m')
       ∧ ∀ key' s', key_is cstr_of key' s' → s' ≠ s →
           fst <$> hashmap_get cstr_of m' key' = fst <$> hashmap_get cstr_of m key') ∧
  (needs_growth cstr_of m s →
     hashmap_put cstr_of calloc_ok (S (S fuel)) m key v =
       if calloc_ok (2 * m_table_size m) then Err SelfDeadlock else Ok (HASHMAP_ERR, m)).
Proof.
  intros Hwf Hl Hk. rewrite (hashmap_put_cases cstr_of calloc_ok fuel m key s) by done.
  split; intros Hg; rewrite <- place_None_growth in Hg.
  2: by rewrite Hg.
  destruct (place cstr_of m s) as [i|] eqn:Hp; [|done].
  destruct (place_lt cstr_of m s i Hwf Hp) as (Hi & _).
  pose proof (after_put_wf cstr_of m i key s v Hwf Hi Hk) as Hwf'.
  eexists. split; [done|]. split_and!; [done|done| |].
  - rewrite (hashmap_get_lookup cstr_of _ key s) by done.
    by rewrite (mlookup_put_same cstr_of m i key s).
  - intros key' s' Hk' Hs. rewrite !(hashmap_get_lookup cstr_of _ key' s') by done.
    by rewrite (mlookup_put_other cstr_of m i key s s').
Qed.

(** Nine topics, "aa", "ke", "r1", "s4", "tp", "t8", "v3", "zx" and "z6", share
    one hash: the ninth insertion deadlocks. *)
Definition nine_topics : list (list Z) :=
  [[97; 97]; [107; 101]; [114; 49]; [115; 52]; [116; 112]; [116; 56]; [118; 51]; [122; 120];
   [122; 54]].

Definition eight_in : Hashmap (list Z) Z :=
  match hm_run own_bytes (λ _, true)
    created
    ((λ k, Ensure k 0) <$> take 8 nine_topics) with
  | Ok (_, m) => m
  | Err _ => mk_hashmap 0 0 [] false
  end.

Lemma eight_in_repr : ∃ g, hm_repr own_bytes eight_in (Some <$> g).
Proof.
  destruct (hm_run_sim own_bytes (λ _, true) id ((λ k, Ensure k 0) <$> take 8 nine_topics)
    created ∅)
    as [[H _]|(m' & H & Hr)].
  - reflexivity.
  - apply (create_repr own_bytes).
  - apply (short_keys ((λ k, Ensure k 0) <$> take 8 nine_topics)). vm_compute. reflexivity.
  - exfalso. vm_compute in H. discriminate H.
  - exists (snd (gm_run id ∅ ((λ k, Ensure k 0) <$> take 8 nine_topics))).
    unfold eight_in. rewrite H. exact Hr.
Qed.

Lemma hashmap_put_outcome_witness :
  m_size eight_in = 8 ∧
  hashmap_put own_bytes (λ _, true) 2 eight_in [122; 54] (Some 0) = Err SelfDeadlock.
Proof.
  split; [vm_compute; reflexivity|]. destruct eight_in_repr as [g Hr].
  rewrite (proj2 (hashmap_put_outcome own_bytes (λ _, true) 0 eight_in [122; 54] [122; 54] (Some 0)
    (repr_wf _ _ _ Hr) (repr_lock _ _ _ Hr) (own_bytes_key [122; 54]
      ltac:(eapply bool_decide_unpack; vm_compute; exact I)))).
  - reflexivity.
  - apply place_None_growth. vm_compute. reflexivity.
Defined.

(** C26. Over any use of the map that returns, the table keeps its initial 256
    slots and never holds more than 128 entries: growing is unreachable. *)
Theorem hashmap_never_grows {K V} (cstr_of : K → option (list Z)) (calloc_ok : Z → bool)
    (m : Hashmap K V) :
  hm_reach cstr_of calloc_ok m →
  hm_wf cstr_of m ∧ m_lock m = false ∧ m_table_size m = 256 ∧ 0 ≤ m_size m ≤ 128
  ∧ length (m_entries m) = INITIAL_SIZE.
Proof.
  intros (Hwf & Hl & Ht & Hs)%hm_reach_wf. split_and!; try done.
  - rewrite (hm_size _ _ Hwf). lia.
  - pose proof (hm_table _ _ Hwf). unfold INITIAL_SIZE. lia.
Qed.

Lemma hashmap_never_grows_witness :
  hm_reach own_bytes (λ _, true) (created : Hashmap (list Z) Z)
  ∧ 0 ≤ m_size (created : Hashmap (list Z) Z) ≤ 128.
Proof.
  assert (H : hm_reach own_bytes (λ _, true) (created : Hashmap (list Z) Z))
    by (apply reach_create; reflexivity).
  split; [exact H|].
  exact (proj1 (proj2 (proj2 (proj2 (hashmap_never_grows own_bytes (λ _, true) _ H))))).
Defined.

(** A removal leaves a hole that later insertions of a present key fall
    into, so a key can occupy two slots: "dj" and "pq" share a hash; after
    inserting both, removing "dj" and updating "pq" to 3, removing "pq" succeeds
    and yet "pq" still maps to its old value 2. *)
Theorem hashmap_stale_after_del :
  (om ← hashmap_create true true;
   m0 ← of_option NullDeref om;
   '(put_dj, m1) ← hashmap_put own_bytes (λ _, true) 2 m0 [100; 106] (Some 1);
   '(put_pq, m2) ← hashmap_put own_bytes (λ _, true) 2 m1 [112; 113] (Some 2);
   '(del_dj, m3) ← hashmap_del own_bytes m2 [100; 106];
   '(update_pq, m4) ← hashmap_put own_bytes (λ _, true) 2 m3 [112; 113] (Some 3);
   '(got, m5) ← hashmap_get own_bytes m4 [112; 113];
   '(del_pq, m6) ← hashmap_del own_bytes m5 [112; 113];
   '(left_over, m7) ← hashmap_get own_bytes m6 [112; 113];
   Ok ([put_dj; put_pq; del_dj; update_pq; del_pq], [got; left_over], [m_size m4; m_size m7]))
  = Ok ([HASHMAP_OK; HASHMAP_OK; HASHMAP_OK; HASHMAP_OK; HASHMAP_OK],
        [Some 3; Some (2 : Z)], [2; 1]).
Proof. vm_compute. reflexivity. Qed.
