(* ===== verification/Memory.v ===== *)
(** The heap the linked structures and the broker's objects live in.

    Pointers are locations or NULL; an object that is freed leaves the heap, so
    a later access through a stale pointer faults with [Dangling] (locations are
    never reused).  [Obj] is the type of all the objects of a program; a structure
    says by an instance of [Cell] that its records are among them, and reading an
    object at another type faults with [BadCast].  A state that contains a heap
    says so by an instance of [HasHeap]: the operations of [Lists] and [Queues]
    run in any such state. *)
From stdpp Require Import base numbers option list gmap.
From Stdlib Require Import ZArith Lia.
From S2P Require Import Prelude.

(** * The heap and its interfaces *)

Definition loc : Type := positive.
Definition ptr : Type := option loc.

Record Heap (Obj : Type) := mk_heap { cells : gmap loc Obj; next_loc : loc }.
Global Arguments mk_heap {Obj}.
Global Arguments cells {Obj}.
Global Arguments next_loc {Obj}.

Class Cell (Obj A : Type) := {
  inj : A → Obj;
  prj : Obj → option A;
  prj_inj a : prj (inj a) = Some a;
  inj_prj o a : prj o = Some a → o = inj a
}.

Class HasHeap (S Obj : Type) := {
  get_heap : S → Heap Obj;
  set_heap : Heap Obj → S → S;
  get_set_heap h s : get_heap (set_heap h s) = h;
  set_set_heap h h' s : set_heap h (set_heap h' s) = set_heap h s;
  set_get_heap s : set_heap (get_heap s) s = s
}.

(** Object types are built as sums of the structures of a program. *)
#[export] Instance cell_self A : Cell A A | 0.
Proof. by refine {| inj a := a; prj := Some |}; [|intros ?? [= ->]]. Defined.
#[export] Instance cell_inl A B X `{Cell A X} : Cell (A + B) X | 1.
Proof.
  refine {| inj a := inl (inj a); prj o := match o with inl a => prj a | inr _ => None end |}.
  - intros a. apply prj_inj.
  - intros [o|o] a; [|done]. intros Hp. f_equal. by apply inj_prj.
Defined.
#[export] Instance cell_inr A B X `{Cell B X} : Cell (A + B) X | 2.
Proof.
  refine {| inj b := inr (inj b); prj o := match o with inr b => prj b | inl _ => None end |}.
  - intros a. apply prj_inj.
  - intros [o|o] a; [done|]. intros Hp. f_equal. by apply inj_prj.
Defined.

#[export] Instance heap_has_heap Obj : HasHeap (Heap Obj) Obj.
Proof. by refine {| get_heap h := h; set_heap h _ := h |}. Defined.

Section Memory.
Context {St Obj : Type} `{HasHeap St Obj}.

(** The object at a location. *)
Definition at_loc (s : St) (l : loc) : option Obj := cells (get_heap s) !! l.

Definition update (l : loc) (o : Obj) (s : St) : St :=
  set_heap (mk_heap (<[l := o]> (cells (get_heap s))) (next_loc (get_heap s))) s.

Definition remove (l : loc) (s : St) : St :=
  set_heap (mk_heap (delete l (cells (get_heap s))) (next_loc (get_heap s))) s.

(** [malloc] of an object, initialised; an allocation that fails ends the
    process, so it has no result to model. *)
Definition malloc {A} `{Cell Obj A} (a : A) : M St loc := λ s,
  let h := get_heap s in
  Ok (next_loc h, set_heap (mk_heap (<[next_loc h := inj a]> (cells h)) (Pos.succ (next_loc h))) s).

Definition deref {A} `{Cell Obj A} (p : ptr) : M St A := λ s,
  l ← of_option NullDeref p;
  o ← of_option Dangling (at_loc s l);
  a ← of_option BadCast (prj o);
  Ok (a, s).

(** [*p = a]: the object must exist, at the same type. *)
Definition assign {A} `{Cell Obj A} (p : ptr) (a : A) : M St () := λ s,
  l ← of_option NullDeref p;
  o ← of_option Dangling (at_loc s l);
  _ ← of_option BadCast (prj o : option A);
  Ok ((), update l (inj a) s).

Definition free (p : ptr) : M St () := λ s,
  match p with
  | None => Ok ((), s)
  | Some l => _ ← of_option Dangling (at_loc s l); Ok ((), remove l s)
  end.

(** Every object was allocated. *)
Definition heap_wf (s : St) : Prop :=
  ∀ l o, at_loc s l = Some o → (l < next_loc (get_heap s))%positive.

(** * Lemmas *)

Definition fresh_loc (s : St) : loc := next_loc (get_heap s).

Lemma heap_wf_fresh s : heap_wf s → at_loc s (fresh_loc s) = None.
Proof.
  intros Hwf. destruct (at_loc s (fresh_loc s)) as [o|] eqn:Ho; [|done].
  apply Hwf in Ho. unfold fresh_loc in Ho. lia.
Qed.

Lemma heap_wf_ne s l o : heap_wf s → at_loc s l = Some o → l ≠ fresh_loc s.
Proof. intros Hwf Hl ->. by rewrite heap_wf_fresh in Hl. Qed.

Lemma at_update l o s l' : at_loc (update l o s) l' = if decide (l = l') then Some o else at_loc s l'.
Proof. unfold at_loc, update. rewrite get_set_heap. apply lookup_insert. Qed.

Lemma at_update_eq l o s : at_loc (update l o s) l = Some o.
Proof. by rewrite at_update, decide_True. Qed.

Lemma at_update_ne l o s l' : l ≠ l' → at_loc (update l o s) l' = at_loc s l'.
Proof. intros. by rewrite at_update, decide_False. Qed.

Lemma at_remove l s l' : at_loc (remove l s) l' = if decide (l = l') then None else at_loc s l'.
Proof. unfold at_loc, remove. rewrite get_set_heap. apply lookup_delete. Qed.

Lemma update_wf l o s : heap_wf s → (l < fresh_loc s)%positive → heap_wf (update l o s).
Proof.
  intros Hwf Hl l' o'. rewrite at_update. unfold update. rewrite get_set_heap. cbn.
  case_decide; [by subst; intros|apply Hwf].
Qed.

Lemma remove_wf l s : heap_wf s → heap_wf (remove l s).
Proof.
  intros Hwf l' o'. rewrite at_remove. unfold remove. rewrite get_set_heap. cbn.
  case_decide; [done|apply Hwf].
Qed.

(** What is written to an object about to be freed does not matter. *)
Lemma remove_update l o s : remove l (update l o s) = remove l s.
Proof. unfold remove, update. rewrite get_set_heap, set_set_heap. cbn. by rewrite delete_insert_eq. Qed.

Lemma fresh_update l o s : fresh_loc (update l o s) = fresh_loc s.
Proof. unfold fresh_loc, update. by rewrite get_set_heap. Qed.

Lemma fresh_remove l s : fresh_loc (remove l s) = fresh_loc s.
Proof. unfold fresh_loc, remove. by rewrite get_set_heap. Qed.

(** The state after an allocation. *)
Definition alloc {A} `{Cell Obj A} (a : A) (s : St) : St :=
  set_heap (mk_heap (<[fresh_loc s := inj a]> (cells (get_heap s))) (Pos.succ (fresh_loc s))) s.

Lemma malloc_run {A} `{Cell Obj A} (a : A) s : malloc a s = Ok (fresh_loc s, alloc a s).
Proof. done. Qed.

Lemma at_alloc {A} `{Cell Obj A} (a : A) s l :
  at_loc (alloc a s) l = if decide (fresh_loc s = l) then Some (inj a) else at_loc s l.
Proof. unfold at_loc, alloc. rewrite get_set_heap. apply lookup_insert. Qed.

Lemma fresh_alloc {A} `{Cell Obj A} (a : A) s : fresh_loc (alloc a s) = Pos.succ (fresh_loc s).
Proof. unfold fresh_loc, alloc. by rewrite get_set_heap. Qed.

Lemma alloc_wf {A} `{Cell Obj A} (a : A) s : heap_wf s → heap_wf (alloc a s).
Proof.
  intros Hwf l o. change (next_loc (get_heap (alloc a s))) with (fresh_loc (alloc a s)).
  rewrite at_alloc, fresh_alloc. case_decide as Hd; [intros; subst; lia|].
  intros Hl%Hwf. unfold fresh_loc. lia.
Qed.

Lemma deref_run {A} `{Cell Obj A} l (a : A) s : at_loc s l = Some (inj a) →
  deref (Some l) s = Ok (a, s).
Proof. intros Hl. unfold deref. cbn. rewrite Hl. cbn. by rewrite prj_inj. Qed.

Lemma deref_inv {A} `{Cell Obj A} p (a : A) s s' : deref p s = Ok (a, s') →
  ∃ l, p = Some l ∧ at_loc s l = Some (inj a) ∧ s' = s.
Proof.
  unfold deref. destruct p as [l|]; [|done]. cbn.
  destruct (at_loc s l) as [o|] eqn:Ho; [|done]. cbn.
  destruct (prj o) as [a'|] eqn:Ha; [|done]. cbn. intros [= <- <-].
  exists l. rewrite (inj_prj _ _ Ha) in Ho. done.
Qed.

Lemma deref_dangling {A} `{Cell Obj A} l s : at_loc s l = None →
  deref (A := A) (Some l) s = Err Dangling.
Proof. intros Hl. unfold deref. cbn. by rewrite Hl. Qed.

Lemma assign_run {A} `{Cell Obj A} l (a a' : A) s : at_loc s l = Some (inj a) →
  assign (Some l) a' s = Ok ((), update l (inj a') s).
Proof. intros Hl. unfold assign. cbn. rewrite Hl. cbn. by rewrite prj_inj. Qed.

Lemma free_run l o s : at_loc s l = Some o → free (Some l) s = Ok ((), remove l s).
Proof. intros Hl. unfold free. by rewrite Hl. Qed.

End Memory.

Section MoreLemmas.
Context {St Obj : Type} `{HasHeap St Obj}.

Lemma at_remove_ne l (s : St) l' : l ≠ l' → at_loc (remove l s) l' = at_loc s l'.
Proof. intros. by rewrite at_remove, decide_False. Qed.

Lemma at_alloc_eq {A} `{Cell Obj A} (a : A) (s : St) :
  at_loc (alloc a s) (fresh_loc s) = Some (inj a).
Proof. by rewrite at_alloc, decide_True. Qed.

Lemma at_alloc_ne {A} `{Cell Obj A} (a : A) (s : St) l : l ≠ fresh_loc s →
  at_loc (alloc a s) l = at_loc s l.
Proof. intros. by rewrite at_alloc, decide_False. Qed.

End MoreLemmas.

(** Operations that change nothing but the heap. *)
Section HeapOnly.
Context {St Obj : Type} `{HasHeap St Obj}.

Definition heap_only {A} (m : M St A) : Prop :=
  ∀ s a s', m s = Ok (a, s') → s' = set_heap (get_heap s') s.

Lemma heap_only_state {A} (m : M St A) : (∀ s a s', m s = Ok (a, s') → s' = s) → heap_only m.
Proof. intros Hm s a s' E. apply Hm in E as ->. by rewrite set_get_heap. Qed.

Lemma heap_only_set {A} (m : M St A) : (∀ s a s', m s = Ok (a, s') → ∃ h, s' = set_heap h s) → heap_only m.
Proof. intros Hm s a s' E. destruct (Hm s a s' E) as [h ->]. by rewrite get_set_heap. Qed.

Lemma heap_only_ret {A} (a : A) : heap_only (mret a).
Proof. apply heap_only_state. by intros s b s' [= _ ->]. Qed.

Lemma heap_only_lift {A} (r : res A) : heap_only (lift r).
Proof. apply heap_only_state. intros s b s'. destruct r; [by intros [= _ ->]|done]. Qed.

Lemma heap_only_bind {A B} (m : M St A) (f : A → M St B) :
  heap_only m → (∀ a, heap_only (f a)) → heap_only (m ≫= f).
Proof.
  intros Hm Hf s b s'. unfold mbind, M_bind. destruct (m s) as [[a s1]|] eqn:E; [|done].
  intros E'. apply Hm in E. apply Hf in E'. rewrite E, set_set_heap in E'. exact E'.
Qed.

Lemma heap_only_deref {A} `{Cell Obj A} p : heap_only (deref (A := A) p).
Proof. apply heap_only_state. by intros s a s' (? & _ & _ & ->)%deref_inv. Qed.

Lemma heap_only_malloc {A} `{Cell Obj A} (a : A) : heap_only (malloc a).
Proof. apply heap_only_set. intros s l s' [= _ <-]. eauto. Qed.

Lemma heap_only_assign {A} `{Cell Obj A} p (a : A) : heap_only (assign p a).
Proof.
  apply heap_only_set. intros s l s'. unfold assign. destruct p; [|done]. cbn.
  destruct (at_loc s _) as [o|]; [|done]. cbn. destruct (prj o : option A); [|done].
  intros [= _ <-]. unfold update. eauto.
Qed.

Lemma heap_only_free p : heap_only (free p).
Proof.
  apply heap_only_set. intros s l s'. unfold free. destruct p; [|intros [= _ <-]].
  - cbn. destruct (at_loc s _); [|done]. intros [= _ <-]. unfold remove. eauto.
  - exists (get_heap s). by rewrite set_get_heap.
Qed.

End HeapOnly.

(** Proves that a sequence of commands is [heap_only]. *)
Ltac heap_only :=
  repeat first
    [ assumption | apply heap_only_ret | apply heap_only_lift | apply heap_only_deref
    | apply heap_only_malloc | apply heap_only_assign | apply heap_only_free
    | apply heap_only_bind; [|intros ?] | case_decide | case_match ].

(** Finds the object at a location through the writes, frees and allocations of
    the state. *)
Ltac heap_lookup :=
  repeat first
    [ eassumption
    | rewrite at_update_eq; reflexivity
    | rewrite at_alloc_eq; reflexivity
    | rewrite at_update_ne by (done || congruence)
    | rewrite at_remove_ne by (done || congruence)
    | rewrite at_alloc_ne by (done || congruence) ].

(** Runs the first command of a sequence. *)
Ltac run_malloc := erewrite M_bind_run; [|eapply (@malloc_run)].
Ltac run_deref := erewrite M_bind_run; [|eapply (@deref_run); heap_lookup].
Ltac run_assign := erewrite M_bind_run; [|eapply (@assign_run); heap_lookup].
Ltac run_free := erewrite M_bind_run; [|eapply (@free_run); heap_lookup].

#[export] Hint Resolve update_wf remove_wf alloc_wf : c_model.
#[export] Hint Rewrite @fresh_update @fresh_remove @fresh_alloc : c_model.
