(* ===== verification/Chain.v ===== *)
(** Chains of cells linked by their [next] pointers, shared by the lists of
    [list.c] and the queues of [queue.c].  The two have nodes of their own types:
    [node d n] is the object of a node with data [d] and successor [n]. *)
From stdpp Require Import base numbers option list gmap.
From Stdlib Require Import ZArith Lia.
From S2P Require Import Prelude Memory.

Section Chain.
Context {St Obj : Type} `{HasHeap St Obj} (node : ptr → ptr → Obj).

(** [xs] lists the nodes from [p] to [q] with their data. *)
Fixpoint chain (s : St) (p : ptr) (xs : list (loc * ptr)) (q : ptr) : Prop :=
  match xs with
  | [] => p = q
  | (l, d) :: xs => p = Some l ∧ ∃ n, at_loc s l = Some (node d n) ∧ chain s n xs q
  end.

Lemma chain_frame s s' p xs q :
  (∀ l, l ∈ xs.*1 → at_loc s' l = at_loc s l) → chain s p xs q → chain s' p xs q.
Proof.
  revert p. induction xs as [|[l d] xs IH]; intros p Hf; [done|].
  cbn in *. intros (-> & n & Hl & Hxs). split; [done|]. exists n. split.
  - by rewrite Hf by left.
  - apply IH; [|done]. intros l' Hl'. apply Hf. by right.
Qed.

Lemma chain_app s p xs ys q :
  chain s p (xs ++ ys) q ↔ ∃ m, chain s p xs m ∧ chain s m ys q.
Proof.
  revert p. induction xs as [|[l d] xs IH]; intros p; cbn; [naive_solver|].
  setoid_rewrite IH. naive_solver.
Qed.

Lemma chain_at s p xs q l d : chain s p xs q → (l, d) ∈ xs → ∃ n, at_loc s l = Some (node d n).
Proof.
  revert p. induction xs as [|[l' d'] xs IH]; intros p; [by intros _ ?%not_elem_of_nil|].
  cbn. intros (-> & n & Hl & Hxs) [[= -> ->]|Hin]%elem_of_cons; [by exists n|by eapply IH].
Qed.

Lemma chain_allocated s p xs q l : chain s p xs q → l ∈ xs.*1 → ∃ o, at_loc s l = Some o.
Proof.
  intros Hs ([l' d'] & -> & Hin)%list_elem_of_fmap. destruct (chain_at _ _ _ _ _ _ Hs Hin). eauto.
Qed.

(** Writing, freeing or allocating outside the chain leaves it alone. *)
Lemma chain_update s p xs q l o : l ∉ xs.*1 → chain s p xs q → chain (update l o s) p xs q.
Proof.
  intros Hl. apply chain_frame. intros l' Hl'. apply at_update_ne. by intros ->.
Qed.

Lemma chain_remove s p xs q l : l ∉ xs.*1 → chain s p xs q → chain (remove l s) p xs q.
Proof.
  intros Hl. apply chain_frame. intros l' Hl'. rewrite at_remove. by rewrite decide_False by naive_solver.
Qed.

Lemma chain_alloc {A} `{Cell Obj A} s p xs q (a : A) : heap_wf s → chain s p xs q →
  chain (alloc a s) p xs q.
Proof.
  intros Hwf Hs. apply (chain_frame s); [|done]. intros l Hl.
  destruct (chain_allocated _ _ _ _ _ Hs Hl) as [o Ho]. rewrite at_alloc.
  rewrite decide_False; [done|]. intros Heq. by apply (heap_wf_ne s l o Hwf Ho).
Qed.

(** A new location is not in the chain. *)
Lemma chain_fresh s p xs q : heap_wf s → chain s p xs q → fresh_loc s ∉ xs.*1.
Proof.
  intros Hwf Hs Hin. destruct (chain_allocated _ _ _ _ _ Hs Hin) as [o Ho].
  by apply (heap_wf_ne s _ o Hwf Ho).
Qed.

(** The last node of a chain. *)
Lemma chain_last s p xs x d : chain s p (xs ++ [(x, d)]) None →
  at_loc s x = Some (node d None) ∧ chain s p xs (Some x).
Proof.
  rewrite chain_app. intros (m & Hxs & -> & n & Hx & Hn). cbn in Hn. subst. done.
Qed.

(** The first node of a chain starts it. *)
Lemma chain_head s p xs : chain s p xs None → p = head xs.*1.
Proof. destruct xs as [|[x d] xs]; [done|]. by intros [-> _]. Qed.

End Chain.

Lemma last_fst_snoc (xs : list (loc * ptr)) x d : last (xs ++ [(x, d)]).*1 = Some x.
Proof. rewrite fmap_app. apply last_snoc. Qed.
