(* ===== verification/Lists.v ===== *)
(** The singly linked list of [list.c], on the heap of [Memory]: a [List]
    structure with its head, tail and length, and nodes that hold a data pointer.
    The operations run in any state that has a heap. *)
From stdpp Require Import base numbers option list gmap.
From Stdlib Require Import ZArith Lia.
From S2P Require Import Prelude Memory Chain.

Local Open Scope Z_scope.

(** * Data *)

Record list_node := mk_node { n_data : ptr; n_next : ptr }.
Record List := mk_list { l_head : ptr; l_tail : ptr; l_len : Z }.

(** [xs] lists the nodes from [p] to [q] with their data. *)
Abbreviation lseg := (chain (λ d n, inj (mk_node d n))).

(** * Operations *)

Section Operations.
Context {St Obj : Type} `{HasHeap St Obj} `{Cell Obj list_node} `{Cell Obj List}.

Definition list_create : M St ptr :=
  l ← malloc (mk_list None None 0);
  mret (Some l).

Definition list_attach (l head : ptr) (len : Z) : M St ptr :=
  lst ← deref l;
  assign l (mk_list head (l_tail lst) len);;
  mret l.

(** [while (l->len--)]: the length wraps below zero when the loop ends. *)
Fixpoint list_release_loop (fuel : nat) (l h : ptr) (deep : Z) : M St () :=
  lst ← deref l;
  assign l (mk_list (l_head lst) (l_tail lst) (wrap64 (l_len lst - 1)));;
  if decide (l_len lst = 0) then mret () else
  match fuel with
  | O => lift (Err NoFuel)
  | S fuel =>
      node ← deref h;
      let tmp := n_next node in
      when (bool_decide (n_data node ≠ None ∧ deep = 1)) (free (n_data node));;
      free h;;
      list_release_loop fuel l tmp deep
  end.

(** The length is also the number of iterations. *)
Definition list_release (l : ptr) (deep : Z) : M St () :=
  if decide (l = None) then mret () else
  lst ← deref l;
  list_release_loop (Z.to_nat (l_len lst)) l (l_head lst) deep;;
  free l.

Definition list_head_insert (l val : ptr) : M St ptr :=
  new_node ← malloc (mk_node val None);
  lst ← deref l;
  (if decide (l_len lst = 0) then
     assign l (mk_list (Some new_node) (Some new_node) (l_len lst));;
     assign (Some new_node) (mk_node val None)
   else
     assign (Some new_node) (mk_node val (l_head lst));;
     assign l (mk_list (Some new_node) (l_tail lst) (l_len lst)));;
  lst ← deref l;
  assign l (mk_list (l_head lst) (l_tail lst) (wrap64 (l_len lst + 1)));;
  mret l.

Definition list_tail_insert (l val : ptr) : M St ptr :=
  new_node ← malloc (mk_node val None);
  lst ← deref l;
  (if decide (l_len lst = 0) then
     assign l (mk_list (Some new_node) (Some new_node) (l_len lst))
   else
     tail ← deref (l_tail lst);
     assign (l_tail lst) (mk_node (n_data tail) (Some new_node));;
     assign l (mk_list (l_head lst) (Some new_node) (l_len lst)));;
  lst ← deref l;
  assign l (mk_list (l_head lst) (l_tail lst) (wrap64 (l_len lst + 1)));;
  mret l.

(** The recursion follows the [next] pointers; [fuel] bounds its depth. *)
Fixpoint list_remove_node (fuel : nat) (head node : ptr) (cmp : ptr → ptr → M St Z) : M St ptr :=
  if decide (head = None) then mret None else
  c ← cmp head node;
  if decide (c = 0) then
    n ← deref head;
    let tmp_next := n_next n in
    free head;;
    mret tmp_next
  else
    match fuel with
    | O => lift (Err NoFuel)
    | S fuel =>
        n ← deref head;
        next ← list_remove_node fuel (n_next n) node cmp;
        n ← deref head;
        assign head (mk_node (n_data n) next);;
        mret head
    end.

(** * Well-formed lists *)

(** A well-formed list object at [l]: its chain, its length and its tail agree. *)
Definition list_wf (s : St) (l : loc) (xs : list (loc * ptr)) : Prop :=
  ∃ head, at_loc s l = Some (inj (mk_list head (last xs.*1) (Z.of_nat (length xs))))
    ∧ lseg s head xs None ∧ NoDup (l :: xs.*1).

(** Dropping the first node that compares equal. *)
Fixpoint remove_first (c : loc * ptr → Z) (xs : list (loc * ptr)) : list (loc * ptr) :=
  match xs with
  | [] => []
  | x :: xs => if decide (c x = 0) then xs else x :: remove_first c xs
  end.

(** * Lemmas *)

(** ** Insertion *)

Lemma list_len_0 (xs : list (loc * ptr)) : Z.of_nat (length xs) = 0 ↔ xs = [].
Proof. destruct xs; cbn; naive_solver lia. Qed.

Lemma lt_fresh s l o : heap_wf s → at_loc s l = Some o → (l < fresh_loc s)%positive.
Proof. intros Hwf Hl. by apply Hwf in Hl. Qed.

Lemma list_head_insert_heap l val : heap_only (list_head_insert l val).
Proof. unfold list_head_insert, list_attach. heap_only. Qed.

(** The value of [list_head_insert] on a list object. *)
Lemma list_head_insert_run s l head tail len val :
  heap_wf s → at_loc s l = Some (inj (mk_list head tail len)) →
  ∃ s', list_head_insert (Some l) val s = Ok (Some l, s')
    ∧ at_loc s' l = Some (inj (mk_list (Some (fresh_loc s))
        (if decide (len = 0) then Some (fresh_loc s) else tail) (wrap64 (len + 1))))
    ∧ at_loc s' (fresh_loc s) = Some (inj (mk_node val (if decide (len = 0) then None else head)))
    ∧ heap_wf s'
    ∧ ∀ l', l' ≠ l → l' ≠ fresh_loc s → at_loc s' l' = at_loc s l'.
Proof.
  intros Hwf Hl. pose proof (heap_wf_ne s l _ Hwf Hl) as Hne.
  pose proof (lt_fresh s l _ Hwf Hl) as Hlt.
  unfold list_head_insert. run_malloc. run_deref. cbn [l_len l_head l_tail].
  case_decide as Hz.
  - erewrite M_bind_run; last first.
    { run_assign. eapply (@assign_run). heap_lookup. }
    run_deref. run_assign. eexists. split; [done|]. cbn [l_head l_tail l_len]. split_and!.
    + heap_lookup.
    + heap_lookup.
    + repeat apply update_wf; rewrite ?fresh_update, ?fresh_alloc; [by apply alloc_wf|lia..].
    + intros l' ? ?. heap_lookup. done.
  - erewrite M_bind_run; last first.
    { run_assign. eapply (@assign_run). heap_lookup. }
    run_deref. run_assign. eexists. split; [done|]. cbn [l_head l_tail l_len]. split_and!.
    + heap_lookup.
    + heap_lookup.
    + repeat apply update_wf; rewrite ?fresh_update, ?fresh_alloc; [by apply alloc_wf|lia..].
    + intros l' ? ?. heap_lookup. done.
Qed.

Lemma list_head_insert_wf s l xs val :
  heap_wf s → list_wf s l xs → Z.of_nat (length xs) + 1 < 2 ^ 64 →
  ∃ s', list_head_insert (Some l) val s = Ok (Some l, s')
    ∧ list_wf s' l ((fresh_loc s, val) :: xs) ∧ heap_wf s'
    ∧ ∀ l', l' ≠ l → l' ≠ fresh_loc s → at_loc s' l' = at_loc s l'.
Proof.
  intros Hwf (head & Hl & Hseg & Hnd) Hlen.
  pose proof (heap_wf_ne s l _ Hwf Hl) as Hne. pose proof (chain_fresh _ _ _ _ _ Hwf Hseg) as Hnew.
  destruct (list_head_insert_run s l _ _ _ val Hwf Hl) as (s' & E & Hl' & Hn & Hwf' & Hfr).
  exists s'. split_and!; [done| |done|done]. apply NoDup_cons in Hnd as [Hlx Hnd].
  exists (Some (fresh_loc s)). split_and!.
  - rewrite Hl', wrap_small by (unfold urange; lia). do 2 f_equal. f_equal.
    + case_decide as Hz; [|by destruct xs as [|? [|]]].
      apply list_len_0 in Hz as ->. done.
    + cbn [length]. lia.
  - cbn. split; [done|]. eexists. split; [exact Hn|].
    case_decide as Hz; [by apply list_len_0 in Hz as ->|].
    apply (chain_frame _ s); [|done]. intros l' Hl''. apply Hfr; by intros ->.
  - repeat apply NoDup_cons_2; [set_solver|done|done].
Qed.

Lemma list_tail_insert_wf s l xs val :
  heap_wf s → list_wf s l xs → Z.of_nat (length xs) + 1 < 2 ^ 64 →
  ∃ s', list_tail_insert (Some l) val s = Ok (Some l, s')
    ∧ list_wf s' l (xs ++ [(fresh_loc s, val)]) ∧ heap_wf s'.
Proof.
  intros Hwf (head & Hl & Hseg & Hnd) Hlen.
  pose proof (heap_wf_ne s l _ Hwf Hl) as Hne. pose proof (chain_fresh _ _ _ _ _ Hwf Hseg) as Hnew.
  pose proof (lt_fresh s l _ Hwf Hl) as Hlt. apply NoDup_cons in Hnd as [Hlx Hnd].
  assert (Hw : wrap64 (Z.of_nat (length xs) + 1) = Z.of_nat (length (xs ++ [(fresh_loc s, val)]))).
  { rewrite wrap_small by (unfold urange; lia). rewrite length_app. cbn. lia. }
  assert (Hnd' : NoDup (l :: (xs ++ [(fresh_loc s, val)]).*1)).
  { rewrite fmap_app. cbn. apply NoDup_cons_2; [set_solver|].
    apply NoDup_app. split_and!; [done|set_solver|apply NoDup_singleton]. }
  unfold list_tail_insert. run_malloc. run_deref. cbn [l_len l_head l_tail]. case_decide as Hz.
  - apply list_len_0 in Hz as ->. cbn in Hseg. subst head. run_assign. run_deref. run_assign.
    eexists. split; [done|]. cbn [l_head l_tail l_len length] in *. split.
    + exists (Some (fresh_loc s)). split; [rewrite <- Hw; heap_lookup|]. split; [|done].
      cbn. split; [done|]. eexists. split; [heap_lookup|done].
    + repeat apply update_wf; rewrite ?fresh_update, ?fresh_alloc; [by apply alloc_wf|lia..].
  - destruct xs as [|[x d] ys _] using rev_ind; [done|].
    destruct (chain_last _ _ _ _ _ _ Hseg) as [Hx Hys].
    rewrite last_fst_snoc in *. rewrite fmap_app in Hnd, Hlx, Hnew. cbn in Hnd, Hlx, Hnew.
    assert (Hxl : x ≠ l) by set_solver. assert (Hxf : x ≠ fresh_loc s) by set_solver.
    pose proof (lt_fresh s x _ Hwf Hx) as Hltx.
    assert (Hxys : x ∉ ys.*1) by (apply NoDup_app in Hnd as (_ & Hd & _); set_solver).
    erewrite M_bind_run; last first.
    { run_deref. run_assign. eapply (@assign_run). heap_lookup. }
    run_deref. run_assign. eexists. split; [done|]. cbn [l_head l_tail l_len n_data] in *. split.
    + exists head. rewrite last_fst_snoc, <- Hw. split; [heap_lookup|]. split; [|done].
      rewrite <- (assoc_L (++)), chain_app. exists (Some x). split.
      * apply not_elem_of_app in Hlx as [Hlx _]. apply not_elem_of_app in Hnew as [Hnew _].
        do 3 (apply chain_update; [done|]). by apply chain_alloc.
      * cbn. split; [done|]. exists (Some (fresh_loc s)). split; [heap_lookup|].
        split; [done|]. exists None. split; [heap_lookup|done].
    + repeat apply update_wf; rewrite ?fresh_update, ?fresh_alloc; [by apply alloc_wf|lia..].
Qed.

(** ** Removal *)

(** [cmp] reads the heap only and answers [c] on every node of the chain. *)
Definition compares (s : St) (node : ptr) (cmp : ptr → ptr → M St Z) (c : loc * ptr → Z)
    (xs : list (loc * ptr)) : Prop :=
  ∀ x, x ∈ xs → cmp (Some x.1) node s = Ok (c x, s).

Lemma remove_first_subseteq c xs l : l ∈ (remove_first c xs).*1 → l ∈ xs.*1.
Proof.
  induction xs as [|x xs IH]; cbn; [done|]. case_decide; cbn; [by right|].
  rewrite !elem_of_cons. naive_solver.
Qed.

Lemma remove_first_NoDup c xs : NoDup xs.*1 → NoDup (remove_first c xs).*1.
Proof.
  induction xs as [|x xs IH]; cbn; [done|]. intros [Hx Hnd]%NoDup_cons. case_decide; [done|].
  cbn. apply NoDup_cons_2; [|by apply IH]. intros Hin. by apply remove_first_subseteq in Hin.
Qed.

Lemma list_remove_node_run s head node cmp c xs fuel :
  lseg s head xs None → NoDup xs.*1 → compares s node cmp c xs → (length xs ≤ fuel)%nat →
  ∃ head' s', list_remove_node fuel head node cmp s = Ok (head', s')
    ∧ lseg s' head' (remove_first c xs) None
    ∧ (∀ l, l ∉ xs.*1 → at_loc s' l = at_loc s l)
    ∧ (∀ l, l ∈ xs.*1 → l ∉ (remove_first c xs).*1 → at_loc s' l = None).
Proof.
  revert head fuel. induction xs as [|[l d] xs IH]; intros head fuel Hseg Hnd Hc Hf.
  { cbn in Hseg. subst. exists None, s. destruct fuel; cbn [list_remove_node]; rewrite decide_True by done;
      (split_and!; [done|done|done|set_solver]). }
  destruct fuel as [|fuel]; [cbn in Hf; lia|]. cbn in Hseg, Hnd.
  destruct Hseg as (-> & n & Hl & Hseg). apply NoDup_cons in Hnd as [Hlx Hnd].
  cbn [list_remove_node remove_first]. rewrite decide_False by done.
  erewrite M_bind_run by (apply (Hc (l, d)); left). case_decide as Hz.
  - run_deref. cbn [n_next]. run_free. do 2 eexists. split; [done|]. split_and!.
    + by apply chain_remove.
    + intros l' Hl'. cbn in Hl'. apply at_remove_ne. set_solver.
    + intros l' Hl' Hn. cbn in Hl'. apply elem_of_cons in Hl' as [->|]; [|done].
      by rewrite at_remove, decide_True.
  - run_deref. cbn [n_next].
    destruct (IH n fuel Hseg Hnd) as (next & s' & E & Hs' & Hout & Hgone);
      [intros x Hx; apply Hc; by right|cbn in Hf; lia|].
    erewrite M_bind_run by exact E.
    pose proof (Hout l Hlx) as Hl'. rewrite Hl in Hl'.
    run_deref. run_assign. do 2 eexists. split; [done|]. split_and!.
    + cbn. split; [done|]. exists next. split; [heap_lookup|]. apply chain_update; [|done].
      intros Hin. by apply remove_first_subseteq in Hin.
    + intros l' Hl''. cbn in Hl''. rewrite at_update_ne by set_solver. apply Hout. set_solver.
    + intros l' Hin Hnin. cbn in Hin, Hnin. rewrite at_update_ne by set_solver.
      apply Hgone; set_solver.
Qed.

(** ** Release *)

(** What releasing a chain frees: the nodes and, when [deep] is 1, their data. *)
Definition owned_node (deep : Z) (x : loc * ptr) : list loc :=
  x.1 :: if decide (deep = 1) then option_list x.2 else [].
Definition owned (deep : Z) (xs : list (loc * ptr)) : list loc := xs ≫= owned_node deep.

Lemma owned_nodes deep xs y : y ∈ xs.*1 → y ∈ owned deep xs.
Proof.
  intros ([x d] & -> & Hin)%list_elem_of_fmap. apply list_elem_of_bind.
  exists (x, d). split; [left|done].
Qed.

(** One turn of the loop. *)
Lemma list_release_step s l hd tl len x d n deep fuel :
  at_loc s l = Some (inj (mk_list hd tl len)) → at_loc s x = Some (inj (mk_node d n)) →
  NoDup (l :: owned_node deep (x, d)) → (∀ y, y ∈ owned_node deep (x, d) → is_Some (at_loc s y)) →
  0 < len < 2 ^ 64 →
  ∃ s', list_release_loop (S fuel) (Some l) (Some x) deep s = list_release_loop fuel (Some l) n deep s'
    ∧ at_loc s' l = Some (inj (mk_list hd tl (len - 1)))
    ∧ ∀ y, y ≠ l → at_loc s' y = if decide (y ∈ owned_node deep (x, d)) then None else at_loc s y.
Proof.
  intros Hl Hx Hnd Hown Hlen. unfold owned_node in *. cbn [fst snd] in *.
  apply NoDup_cons in Hnd as [Hlx Hnd]. apply NoDup_cons in Hnd as [Hxd _].
  assert (x ≠ l) by (intros ->; apply Hlx; left).
  cbn [list_release_loop]. run_deref. run_assign. cbn [l_len l_head l_tail].
  rewrite decide_False, wrap_small by (unfold urange; lia). run_deref. cbn [n_data n_next].
  destruct (decide (deep = 1 ∧ is_Some d)) as [[-> [y ->]]|Hshallow].
  - rewrite bool_decide_eq_true_2 by naive_solver. rewrite decide_True in * by done. cbn in *.
    assert (y ≠ l) by set_solver. assert (y ≠ x) by set_solver.
    destruct (Hown y ltac:(set_solver)) as [o Ho].
    erewrite M_bind_run; [|unfold when; eapply (@free_run); heap_lookup]. run_free.
    eexists. split; [done|]. split; [heap_lookup|]. intros z Hz. rewrite !at_remove.
    rewrite at_update_ne by congruence. repeat case_decide; set_solver.
  - rewrite bool_decide_eq_false_2 by (destruct d; naive_solver).
    erewrite M_bind_run by done. run_free.
    eexists. split; [done|]. split; [heap_lookup|]. intros z Hz. rewrite !at_remove.
    rewrite at_update_ne by congruence. assert ((if decide (deep = 1) then option_list d else []) = []) as ->.
    { case_decide; [|done]. destruct d; naive_solver. }
    repeat case_decide; set_solver.
Qed.

Lemma owned_cons deep x xs : owned deep (x :: xs) = owned_node deep x ++ owned deep xs.
Proof. done. Qed.

Lemma owned_head s l deep x xs :
  NoDup (l :: owned deep (x :: xs)) → (∀ y, y ∈ owned deep (x :: xs) → is_Some (at_loc s y)) →
  NoDup (l :: owned_node deep x) ∧ (∀ y, y ∈ owned_node deep x → is_Some (at_loc s y)).
Proof.
  rewrite owned_cons. intros [Hl (Hnd & _ & _)%NoDup_app]%NoDup_cons Hown.
  rewrite not_elem_of_app in Hl. split; [apply NoDup_cons_2; naive_solver|].
  intros y Hy. apply Hown. set_solver.
Qed.

(** After a turn, the rest of the chain is still there. *)
Lemma owned_step (s s' : St) l deep x d n xs :
  NoDup (l :: owned deep ((x, d) :: xs)) →
  (∀ y, y ∈ owned deep ((x, d) :: xs) → is_Some (at_loc s y)) → lseg s n xs None →
  (∀ y, y ≠ l → at_loc s' y = if decide (y ∈ owned_node deep (x, d)) then None else at_loc s y) →
  lseg s' n xs None ∧ NoDup (l :: owned deep xs) ∧ (∀ y, y ∈ owned deep xs → is_Some (at_loc s' y)).
Proof.
  rewrite owned_cons. intros [Hl Hnd]%NoDup_cons Hown Hseg Hs'.
  apply NoDup_app in Hnd as (Hnd1 & Hdis & Hnd2). rewrite not_elem_of_app in Hl.
  assert (Hrest : ∀ y, y ∈ owned deep xs → at_loc s' y = at_loc s y).
  { intros y Hy. rewrite Hs' by naive_solver. rewrite decide_False by naive_solver. done. }
  split_and!.
  - apply (chain_frame _ s); [|done]. intros y Hy. by apply Hrest, owned_nodes.
  - apply NoDup_cons_2; naive_solver.
  - intros y Hy. rewrite Hrest by done. apply Hown. set_solver.
Qed.

(** The conditions of the two lemmas below: a chain that owns what it frees. *)
Definition releasable (s : St) (l : loc) (h : ptr) (deep : Z) (xs : list (loc * ptr)) : Prop :=
  lseg s h xs None ∧ NoDup (l :: owned deep xs) ∧ ∀ y, y ∈ owned deep xs → is_Some (at_loc s y).

Lemma list_release_loop_run xs : ∀ s l h hd tl deep fuel,
  at_loc s l = Some (inj (mk_list hd tl (Z.of_nat (length xs)))) → releasable s l h deep xs →
  Z.of_nat (length xs) < 2 ^ 64 → (length xs ≤ fuel)%nat →
  ∃ s', list_release_loop fuel (Some l) h deep s = Ok ((), s')
    ∧ at_loc s' l = Some (inj (mk_list hd tl (2 ^ 64 - 1)))
    ∧ ∀ y, y ≠ l → at_loc s' y = if decide (y ∈ owned deep xs) then None else at_loc s y.
Proof.
  induction xs as [|[x d] xs IH]; intros s l h hd tl deep fuel Hl (Hseg & Hnd & Hown) Hlen Hf.
  - destruct fuel; cbn [list_release_loop]; run_deref; run_assign; cbn [l_len l_head l_tail length];
      rewrite decide_True by done; eexists; (split; [done|]);
      (split; [heap_lookup|]); intros y Hy; (rewrite decide_False by apply not_elem_of_nil); heap_lookup;
      reflexivity.
  - destruct fuel as [|fuel]; [cbn in Hf; lia|]. cbn in Hseg. destruct Hseg as (-> & n & Hx & Hseg).
    cbn [length] in *.
    destruct (list_release_step s l hd tl _ x d n deep fuel Hl Hx) as (s1 & -> & Hl1 & Hs1).
    1,2: by eapply owned_head. 1: lia.
    destruct (owned_step s s1 l deep x d n xs) as (Hseg1 & Hnd1 & Hown1); try done.
    destruct (IH s1 l n hd tl deep fuel) as (s' & -> & Hl' & Hs'); [|done|lia..|].
    { rewrite Hl1. do 3 f_equal. lia. }
    exists s'. split_and!; [done|done|]. intros y Hy. rewrite Hs', Hs1, owned_cons by done.
    repeat case_decide; set_solver.
Qed.

(** The length says more nodes than the chain has. *)
Lemma list_release_loop_short xs : ∀ s l h hd tl len deep fuel,
  at_loc s l = Some (inj (mk_list hd tl len)) → releasable s l h deep xs →
  Z.of_nat (length xs) < len < 2 ^ 64 → (length xs < fuel)%nat →
  list_release_loop fuel (Some l) h deep s = Err NullDeref.
Proof.
  induction xs as [|[x d] xs IH]; intros s l h hd tl len deep fuel Hl (Hseg & Hnd & Hown) Hlen Hf;
    (destruct fuel as [|fuel]; [lia|]); cbn in Hseg, Hlen.
  - subst h. cbn [list_release_loop]. run_deref. run_assign. cbn [l_len].
    rewrite decide_False by lia. by apply M_bind_err.
  - destruct Hseg as (-> & n & Hx & Hseg).
    destruct (list_release_step s l hd tl len x d n deep fuel Hl Hx) as (s1 & -> & Hl1 & Hs1).
    1,2: by eapply owned_head. 1: lia.
    destruct (owned_step s s1 l deep x d n xs) as (Hseg1 & Hnd1 & Hown1); try done.
    eapply IH; [exact Hl1|done|lia|cbn in Hf; lia].
Qed.

(** * Clients of a list *)

Inductive list_op := Head (val : ptr) | Tail (val : ptr).

(** A caller that keeps the returned pointer: [l = list_head_insert(l, val)]. *)
Definition run_op (l : ptr) (op : list_op) : M St ptr :=
  match op with Head v => list_head_insert l v | Tail v => list_tail_insert l v end.

Fixpoint run_ops (l : ptr) (ops : list list_op) : M St ptr :=
  match ops with
  | [] => mret l
  | op :: ops => l ← run_op l op; run_ops l ops
  end.

Definition spec_op (vs : list ptr) (op : list_op) : list ptr :=
  match op with Head v => v :: vs | Tail v => vs ++ [v] end.

Lemma run_ops_wf ops : ∀ s l xs, heap_wf s → list_wf s l xs →
  Z.of_nat (length xs) + Z.of_nat (length ops) < 2 ^ 64 →
  ∃ xs' s', run_ops (Some l) ops s = Ok (Some l, s') ∧ list_wf s' l xs'
    ∧ xs'.*2 = foldl spec_op xs.*2 ops ∧ heap_wf s'.
Proof.
  induction ops as [|op ops IH]; intros s l xs Hwf Hl Hlen; [by exists xs, s|].
  cbn [length] in Hlen. destruct op as [v|v]; cbn [run_ops run_op].
  - destruct (list_head_insert_wf s l xs v Hwf Hl) as (s1 & E & Hl1 & Hwf1 & _); [lia|].
    rewrite (M_bind_run _ _ _ _ _ E). apply (IH _ _ _ Hwf1 Hl1). cbn [length]. lia.
  - destruct (list_tail_insert_wf s l xs v Hwf Hl) as (s1 & E & Hl1 & Hwf1); [lia|].
    rewrite (M_bind_run _ _ _ _ _ E). destruct (IH _ _ _ Hwf1 Hl1) as (xs' & s' & E' & H').
    { rewrite length_app. cbn. lia. }
    exists xs', s'. rewrite fmap_app in H'. done.
Qed.

(** Unlinking a node the way the broker does: only the head is stored back. *)
Definition unlink (fuel : nat) (l node : ptr) (cmp : ptr → ptr → M St Z) : M St () :=
  lst ← deref l;
  head ← list_remove_node fuel (l_head lst) node cmp;
  lst ← deref l;
  assign l (mk_list head (l_tail lst) (l_len lst)).

(** [unlink] keeps the length and the tail of the list it shortens. *)
Lemma unlink_run s l node cmp c xs fuel :
  list_wf s l xs → compares s node cmp c xs → (length xs ≤ fuel)%nat →
  ∃ head s', unlink fuel (Some l) node cmp s = Ok ((), s')
    ∧ at_loc s' l = Some (inj (mk_list head (last xs.*1) (Z.of_nat (length xs))))
    ∧ lseg s' head (remove_first c xs) None
    ∧ (∀ y, y ≠ l → y ∉ xs.*1 → at_loc s' y = at_loc s y)
    ∧ (∀ y, y ∈ xs.*1 → y ∉ (remove_first c xs).*1 → at_loc s' y = None).
Proof.
  intros (hd & Hl & Hseg & [Hlx Hnd]%NoDup_cons) Hc Hf. unfold unlink. run_deref. cbn [l_head].
  destruct (list_remove_node_run s hd node cmp c xs fuel Hseg Hnd Hc Hf)
    as (head & s1 & E & Hs1 & Hout & Hgone).
  rewrite (M_bind_run _ _ _ _ _ E). pose proof (Hout l Hlx) as Hl1. rewrite Hl in Hl1.
  run_deref. erewrite assign_run by heap_lookup. cbn [l_tail l_len].
  do 2 eexists. split_and!; [done|heap_lookup| | |].
  - apply chain_update; [|done]. intros Hin. by apply remove_first_subseteq in Hin.
  - intros y Hy Hyx. rewrite at_update_ne by congruence. by apply Hout.
  - intros y Hy Hyr. rewrite at_update_ne by congruence. by apply Hgone.
Qed.

Lemma remove_first_owned deep c xs y : y ∈ owned deep (remove_first c xs) → y ∈ owned deep xs.
Proof.
  induction xs as [|x xs IH]; cbn [remove_first]; [done|]. rewrite owned_cons.
  case_decide; [|rewrite owned_cons]; set_solver.
Qed.

Lemma remove_first_owned_NoDup deep c xs : NoDup (owned deep xs) →
  NoDup (owned deep (remove_first c xs)).
Proof.
  induction xs as [|x xs IH]; cbn [remove_first]; [done|]. rewrite owned_cons.
  intros (Hx & Hd & Hxs)%NoDup_app. case_decide; [done|]. rewrite owned_cons.
  apply NoDup_app. split_and!; [done| |by apply IH]. intros y Hy Hy'.
  by apply (Hd y Hy), (remove_first_owned _ c).
Qed.

(** What remains owned and is no remaining node was never a node. *)
Lemma remove_first_data deep c xs y : NoDup (owned deep xs) →
  y ∈ owned deep (remove_first c xs) → y ∉ (remove_first c xs).*1 → y ∉ xs.*1.
Proof.
  induction xs as [|x xs IH]; cbn [remove_first]; [done|]. rewrite owned_cons.
  intros (_ & Hd & Hnd)%NoDup_app. assert (Hx : x.1 ∈ owned_node deep x) by left.
  case_decide; [|rewrite owned_cons]; cbn [fmap list_fmap];
    rewrite ?elem_of_app, !not_elem_of_cons; intros Hy Hn; split.
  - intros ->. by apply (Hd x.1).
  - done.
  - apply Hn.
  - intros Hin. destruct Hy as [Hy|Hy]; [by apply (Hd y Hy), owned_nodes|].
    by apply (IH Hnd Hy); [apply Hn|].
Qed.

Lemma remove_first_length c xs : Exists (λ x, c x = 0) xs →
  S (length (remove_first c xs)) = length xs.
Proof.
  induction xs as [|x xs IH]; [by intros ?%Exists_nil|]. rewrite Exists_cons. cbn.
  case_decide; [done|]. intros [?|?]; [done|]. cbn. by rewrite IH.
Qed.

(** * Properties *)

(** C34. A list that is created empty and grows by insertions at the head and at the
    tail, in any order, always is a well-formed list: its chain holds the inserted
    values in the specified order, its length counts them, its tail is the last node. *)
Theorem list_inserts_build_sequence s ops :
  heap_wf s → Z.of_nat (length ops) < 2 ^ 64 →
  ∃ l xs s', (l ← list_create; run_ops l ops) s = Ok (Some l, s') ∧ list_wf s' l xs
    ∧ xs.*2 = foldl spec_op [] ops ∧ heap_wf s'.
Proof.
  intros Hwf Hlen. unfold list_create. erewrite M_bind_run; [|run_malloc; done].
  destruct (run_ops_wf ops (alloc (mk_list None None 0) s) (fresh_loc s) []) as (xs & s' & H'); cbn.
  - by apply alloc_wf.
  - exists None. split; [heap_lookup|]. split; [done|apply NoDup_singleton].
  - lia.
  - by exists (fresh_loc s), xs, s'.
Qed.

(** C39. [list_remove_node] frees the first node that compares equal and no other,
    links its predecessor to its successor, and leaves every object outside the
    chain as it was; a depth of the length of the list is enough for the recursion. *)
Theorem list_remove_node_first s head node cmp c xs :
  lseg s head xs None → NoDup xs.*1 → compares s node cmp c xs →
  ∃ head' s', list_remove_node (length xs) head node cmp s = Ok (head', s')
    ∧ lseg s' head' (remove_first c xs) None
    ∧ (∀ y, y ∉ xs.*1 → at_loc s' y = at_loc s y)
    ∧ (∀ y, y ∈ xs.*1 → y ∉ (remove_first c xs).*1 → at_loc s' y = None).
Proof. intros. by apply list_remove_node_run. Qed.

(** [list_release] ends, and frees the list, its nodes and, in the deep mode, the
    data they own; every other object is left as it was. *)
Theorem list_release_frees s l xs deep :
  list_wf s l xs → Z.of_nat (length xs) < 2 ^ 64 → NoDup (l :: owned deep xs) →
  (∀ y, y ∈ owned deep xs → is_Some (at_loc s y)) →
  ∃ s', list_release (Some l) deep s = Ok ((), s')
    ∧ ∀ y, at_loc s' y = if decide (y ∈ l :: owned deep xs) then None else at_loc s y.
Proof.
  intros (hd & Hl & Hseg & _) Hlen Hnd Hown. unfold list_release. rewrite decide_False by done.
  run_deref. cbn [l_head l_len].
  destruct (list_release_loop_run xs s l hd hd (last xs.*1) deep (Z.to_nat (Z.of_nat (length xs))))
    as (s' & E & Hl' & Hs'); [done|done|done|lia|].
  rewrite (M_bind_run _ _ _ _ _ E). erewrite free_run by exact Hl'.
  eexists. split; [done|]. intros y. rewrite at_remove.
  destruct (decide (l = y)) as [->|Hne]; [by rewrite decide_True by left|].
  rewrite Hs' by done. repeat case_decide; set_solver.
Qed.

(** C35. The length is not updated when a node is unlinked, so releasing a list that
    lost a node runs past the end of its chain and dereferences NULL. *)
Theorem release_after_unlink_faults s l node cmp c xs deep fuel :
  list_wf s l xs → compares s node cmp c xs → Exists (λ x, c x = 0) xs →
  Z.of_nat (length xs) < 2 ^ 64 → NoDup (l :: owned deep xs) →
  (∀ y, y ∈ owned deep xs → is_Some (at_loc s y)) → (length xs ≤ fuel)%nat →
  (unlink fuel (Some l) node cmp;; list_release (Some l) deep) s = Err NullDeref.
Proof.
  intros Hwf Hc Hex Hlen [Hlo Hnd]%NoDup_cons Hown Hf.
  destruct (unlink_run s l node cmp c xs fuel Hwf Hc Hf) as (hd & s1 & E & Hl & Hseg & Hout & _).
  rewrite (M_bind_run _ _ _ _ _ E). unfold list_release. rewrite decide_False by done.
  run_deref. cbn [l_head l_len]. apply M_bind_err.
  pose proof (remove_first_length c xs Hex) as Hr.
  eapply (list_release_loop_short (remove_first c xs)); [exact Hl| |lia|lia].
  split_and!; [done| |].
  - apply NoDup_cons_2; [|by apply remove_first_owned_NoDup].
    by intros Hin%remove_first_owned.
  - intros y Hy. destruct (decide (y ∈ (remove_first c xs).*1)) as [Hn|Hn].
    + by destruct (chain_allocated _ _ _ _ _ _ Hseg Hn) as [o ->].
    + rewrite Hout; [by apply Hown, (remove_first_owned _ c)| |].
      * intros ->. by apply Hlo, (remove_first_owned _ c).
      * by apply (remove_first_data deep c).
Qed.

End Operations.

(** * Witnesses *)

(** A heap of lists, nodes and integers. *)
Definition demo_obj : Type := List + (list_node + Z).
Definition demo_heap : Heap demo_obj := mk_heap ∅ 1%positive.

Lemma list_inserts_build_sequence_witness :
  ∃ l xs s', (l ← list_create; run_ops l [Tail (Some 7%positive); Head None; Tail (Some 8%positive)])
      demo_heap = Ok (Some l, s')
    ∧ list_wf s' l xs ∧ xs.*2 = [None; Some 7%positive; Some 8%positive] ∧ heap_wf s'.
Proof. apply (list_inserts_build_sequence demo_heap); [by intros l o|done]. Defined.

(** Two nodes with their data, an integer each, and the list. *)
Definition demo_list : Heap demo_obj := mk_heap (list_to_map
  [(1%positive, inj (mk_list (Some 2%positive) (Some 3%positive) 2));
   (2%positive, inj (mk_node (Some 4%positive) (Some 3%positive)));
   (3%positive, inj (mk_node (Some 5%positive) None));
   (4%positive, inj 40); (5%positive, inj 50)]) 6%positive.
Definition demo_chain : list (loc * ptr) :=
  [(2%positive, Some 4%positive); (3%positive, Some 5%positive)].

Lemma demo_lseg : lseg demo_list (Some 2%positive) demo_chain None.
Proof. cbn. split; [done|]. eexists. split; [reflexivity|]. split; [done|]. by exists None. Qed.

Lemma demo_wf : list_wf demo_list 1%positive demo_chain.
Proof.
  exists (Some 2%positive). split; [reflexivity|]. split; [apply demo_lseg|].
  apply (bool_decide_unpack _). by vm_compute.
Qed.

Lemma demo_owned y : y ∈ owned 1 demo_chain → is_Some (at_loc demo_list y).
Proof. revert y. apply Forall_forall. repeat constructor; by eexists. Qed.

(** Compares the data, as the broker compares subscriptions. *)
Definition demo_cmp (a b : ptr) : M (Heap demo_obj) Z :=
  n1 ← deref a; n2 ← deref b;
  d1 ← deref (n_data n1); d2 ← deref (n_data n2);
  mret (if decide (d1 = d2 :> Z) then 0 else 1).

(** Looking for the second node. *)
Definition demo_c (x : loc * ptr) : Z := if decide (x.1 = 3%positive) then 0 else 1.

Lemma demo_compares : compares demo_list (Some 3%positive) demo_cmp demo_c demo_chain.
Proof. intros x. revert x. apply Forall_forall. repeat constructor. Qed.

Lemma list_remove_node_first_witness :
  ∃ head' s', list_remove_node 2 (Some 2%positive) (Some 3%positive) demo_cmp demo_list = Ok (head', s')
    ∧ lseg s' head' [(2%positive, Some 4%positive)] None
    ∧ (∀ y, y ∉ demo_chain.*1 → at_loc s' y = at_loc demo_list y)
    ∧ (∀ y, y ∈ demo_chain.*1 → y ∉ [2%positive] → at_loc s' y = None).
Proof.
  apply (list_remove_node_first demo_list _ _ _ demo_c demo_chain demo_lseg); [|apply demo_compares].
  apply (bool_decide_unpack _). by vm_compute.
Defined.

Lemma list_release_frees_witness :
  ∃ s', list_release (Some 1%positive) 1 demo_list = Ok ((), s')
    ∧ ∀ y, at_loc s' y = if decide (y ∈ 1%positive :: owned 1 demo_chain) then None
                         else at_loc demo_list y.
Proof.
  apply (list_release_frees demo_list _ _ 1 demo_wf); [done| |apply demo_owned].
  apply (bool_decide_unpack _). by vm_compute.
Defined.

Lemma release_after_unlink_faults_witness :
  (unlink 2 (Some 1%positive) (Some 3%positive) demo_cmp;; list_release (Some 1%positive) 1) demo_list
  = Err NullDeref.
Proof.
  apply (release_after_unlink_faults demo_list _ _ _ demo_c demo_chain 1 2 demo_wf demo_compares).
  - apply Exists_cons. right. apply Exists_cons. by left.
  - done.
  - apply (bool_decide_unpack _). by vm_compute.
  - apply demo_owned.
  - done.
Defined.
