(* ===== verification/Queues.v ===== *)
(** The FIFO of [queue.c], on the heap of [Memory]: a [Queue] structure with its
    front, rear and length, and items that hold a data pointer.  Each operation
    takes the queue's lock and gives it back, so an operation is one step; waiting
    on the condition of an empty queue is [Blocked]. *)
From stdpp Require Import base numbers option list gmap.
From Stdlib Require Import ZArith Lia.
From S2P Require Import Prelude Memory Chain.

Local Open Scope Z_scope.

(** * Data *)

Record QueueItem := mk_item { i_data : ptr; i_next : ptr }.
Record Queue := mk_queue { q_len : Z; q_front : ptr; q_rear : ptr }.

Abbreviation qseg := (chain (λ d n, inj (mk_item d n))).

(** * Operations *)

Section Operations.
Context {St Obj : Type} `{HasHeap St Obj} `{Cell Obj QueueItem} `{Cell Obj Queue}.

Definition create_queue (calloc_ok : bool) : M St ptr :=
  if calloc_ok then q ← malloc (mk_queue 0 None None); mret (Some q) else mret None.

Definition enqueue (q data : ptr) : M St () :=
  qu ← deref q;
  new_item ← malloc (mk_item data None);
  assign q (mk_queue (wrap64 (q_len qu + 1)) (q_front qu) (q_rear qu));;
  qu ← deref q;
  if decide (q_front qu = None ∧ q_rear qu = None) then
    assign q (mk_queue (q_len qu) (Some new_item) (Some new_item))
  else
    rear ← deref (q_rear qu);
    assign (q_rear qu) (mk_item (i_data rear) (Some new_item));;
    assign q (mk_queue (q_len qu) (q_front qu) (Some new_item)).

Definition dequeue (q : ptr) : M St ptr :=
  qu ← deref q;
  if decide (q_len qu = 0) then lift (Err Blocked) else
  let del_item := q_front qu in
  it ← deref del_item;
  let front := i_next it in
  let rear := if decide (front = None) then None else q_rear qu in
  assign q (mk_queue (q_len qu) front rear);;
  it ← deref del_item;
  let item := i_data it in
  free del_item;;
  qu ← deref q;
  assign q (mk_queue (wrap64 (q_len qu - 1)) (q_front qu) (q_rear qu));;
  mret item.

(** [while (q->len > 0) dequeue(q)] *)
Fixpoint release_queue_loop (fuel : nat) (q : ptr) : M St () :=
  qu ← deref q;
  if decide (q_len qu = 0) then mret () else
  match fuel with
  | O => lift (Err NoFuel)
  | S fuel => dequeue q;; release_queue_loop fuel q
  end.

Definition release_queue (fuel : nat) (q : ptr) : M St () :=
  if decide (q = None) then mret () else
  release_queue_loop fuel q;;
  free q.

(** The loop follows the [next] pointers; the count [n] it decrements is not used. *)
Fixpoint send_queue_loop (fuel : nat) (item arg : ptr) (f : ptr → ptr → M St Z) (ret : Z) : M St Z :=
  if decide (item = None) then mret ret else
  match fuel with
  | O => lift (Err NoFuel)
  | S fuel =>
      ret ← f item arg;
      it ← deref item;
      send_queue_loop fuel (i_next it) arg f ret
  end.

Definition send_queue (fuel : nat) (q arg : ptr) (f : ptr → ptr → M St Z) : M St Z :=
  qu ← deref q;
  send_queue_loop fuel (q_front qu) arg f 0.

(** * Well-formed queues *)

Definition queue_wf (s : St) (q : loc) (xs : list (loc * ptr)) : Prop :=
  at_loc s q = Some (inj (mk_queue (Z.of_nat (length xs)) (head xs.*1) (last xs.*1)))
  ∧ qseg s (head xs.*1) xs None ∧ NoDup (q :: xs.*1).

(** * Lemmas *)

(** The length, the front and the rear agree on emptiness. *)
Lemma head_None_nil (xs : list (loc * ptr)) : head xs.*1 = None ↔ xs = [].
Proof. destruct xs as [|[??]]; cbn; naive_solver. Qed.

Lemma head_snoc_fst (xs : list (loc * ptr)) x :
  head (xs ++ [x]).*1 = Some (default x.1 (head xs.*1)).
Proof. by destruct xs. Qed.

Lemma queue_len_wrap (xs : list (loc * ptr)) x : Z.of_nat (length xs) + 1 < 2 ^ 64 →
  wrap64 (Z.of_nat (length xs) + 1) = Z.of_nat (length (xs ++ [x])).
Proof. intros. rewrite wrap_small by (unfold urange; lia). rewrite length_app. cbn. lia. Qed.

Lemma enqueue_run s q xs data :
  heap_wf s → queue_wf s q xs → Z.of_nat (length xs) + 1 < 2 ^ 64 →
  ∃ s', enqueue (Some q) data s = Ok ((), s') ∧ queue_wf s' q (xs ++ [(fresh_loc s, data)])
    ∧ heap_wf s' ∧ ∀ y, y ≠ q → y ≠ fresh_loc s → y ∉ xs.*1 → at_loc s' y = at_loc s y.
Proof.
  intros Hwf (Hq & Hseg & Hnd) Hlen.
  pose proof (heap_wf_ne s q _ Hwf Hq) as Hne. pose proof (chain_fresh _ _ _ _ _ Hwf Hseg) as Hnew.
  assert (Hlt : (q < fresh_loc s)%positive) by (by apply Hwf in Hq).
  apply NoDup_cons in Hnd as [Hqx Hnd].
  assert (Hnd' : NoDup (q :: (xs ++ [(fresh_loc s, data)]).*1)).
  { rewrite fmap_app. cbn. apply NoDup_cons_2; [rewrite not_elem_of_app, list_elem_of_singleton; naive_solver|].
    apply NoDup_app. split_and!; [done| |apply NoDup_singleton].
    intros y Hy ->%list_elem_of_singleton. done. }
  unfold enqueue. run_deref. run_malloc. run_assign. run_deref.
  cbn [q_len q_front q_rear]. rewrite (queue_len_wrap xs (fresh_loc s, data)) by done.
  case_decide as Hz.
  - destruct Hz as [->%head_None_nil _]. erewrite assign_run by heap_lookup.
    eexists. split; [done|]. split_and!.
    + split; [heap_lookup|]. split; [|done]. cbn. split; [done|]. exists None.
      split; [heap_lookup|done].
    + repeat apply update_wf; rewrite ?fresh_update, ?fresh_alloc; [by apply alloc_wf|lia..].
    + intros y ???. heap_lookup. done.
  - destruct xs as [|[x d] ys _] using rev_ind; [by destruct Hz|].
    destruct (chain_last _ _ _ _ _ _ Hseg) as [Hx Hys]. rewrite last_fst_snoc in *.
    rewrite fmap_app, not_elem_of_app in Hqx, Hnew. cbn in Hqx, Hnew.
    rewrite not_elem_of_cons in Hqx, Hnew.
    destruct Hqx as (Hqys & Hqx & _), Hnew as (Hnys & Hnx & _).
    assert (Hltx : (x < fresh_loc s)%positive) by (by apply Hwf in Hx).
    assert (Hxys : x ∉ ys.*1).
    { rewrite fmap_app in Hnd. apply NoDup_app in Hnd as (_ & Hd & _). intros Hin. apply (Hd x Hin). by left. }
    run_deref. run_assign. erewrite assign_run by heap_lookup. cbn [i_data].
    eexists. split; [done|]. split_and!.
    + split; [rewrite last_fst_snoc, (head_snoc_fst (ys ++ _)), head_snoc_fst; heap_lookup|].
      split; [|done]. rewrite <- (assoc_L (++)), chain_app. exists (Some x). split.
      * do 3 (apply chain_update; [done|]). apply chain_alloc; [done|].
        replace (head (ys ++ [(x, d)] ++ _).*1) with (head (ys ++ [(x, d)]).*1); [done|by destruct ys].
      * cbn. split; [done|]. exists (Some (fresh_loc s)). split; [heap_lookup|].
        split; [done|]. exists None. split; [heap_lookup|done].
    + repeat apply update_wf; rewrite ?fresh_update, ?fresh_alloc; [by apply alloc_wf|lia..].
    + intros y ?? Hy. assert (y ≠ x).
      { intros ->. apply Hy. rewrite fmap_app. apply elem_of_app. right. by left. }
      heap_lookup. done.
Qed.

Lemma dequeue_run s q x d xs :
  heap_wf s → queue_wf s q ((x, d) :: xs) → Z.of_nat (length ((x, d) :: xs)) < 2 ^ 64 →
  ∃ s', dequeue (Some q) s = Ok (d, s') ∧ queue_wf s' q xs ∧ heap_wf s' ∧ at_loc s' x = None
    ∧ ∀ y, y ≠ q → y ≠ x → at_loc s' y = at_loc s y.
Proof.
  intros Hwf (Hq & (_ & n & Hx & Hseg) & Hnd) Hlen. cbn in Hq, Hnd, Hlen.
  apply NoDup_cons in Hnd as [Hqx Hnd]. apply NoDup_cons in Hnd as [Hxx Hnd].
  apply not_elem_of_cons in Hqx as [Hqx Hqxs].
  assert (Hlt : (q < fresh_loc s)%positive) by (by apply Hwf in Hq).
  unfold dequeue. run_deref. cbn [q_len q_front q_rear]. rewrite decide_False by lia.
  run_deref. cbn [i_next]. run_assign. run_deref. cbn [i_data]. run_free. run_deref. run_assign.
  cbn [q_len q_front q_rear]. pose proof (chain_head _ _ _ _ Hseg) as ->.
  eexists. split; [done|]. split_and!.
  - split.
    + replace (if decide _ then None else _) with (last xs.*1).
      * rewrite wrap_small by (unfold urange; lia).
        replace (Z.of_nat (S (length xs)) - 1) with (Z.of_nat (length xs)) by lia. heap_lookup.
      * case_decide as Hz; [by apply head_None_nil in Hz as ->|by destruct xs].
    + split; [|by apply NoDup_cons_2]. apply chain_update; [done|]. apply chain_remove; [done|].
      by apply chain_update.
  - apply update_wf; [apply remove_wf, update_wf; done|].
    by rewrite fresh_remove, fresh_update.
  - rewrite at_update_ne by done. by rewrite at_remove, decide_True.
  - intros y ??. rewrite at_update_ne by done. by rewrite at_remove_ne, at_update_ne by done.
Qed.

Lemma dequeue_blocked s q : queue_wf s q [] → dequeue (Some q) s = Err Blocked.
Proof. intros (Hq & _). unfold dequeue. by run_deref. Qed.

Lemma release_queue_loop_run s q xs fuel :
  heap_wf s → queue_wf s q xs → Z.of_nat (length xs) < 2 ^ 64 → (length xs ≤ fuel)%nat →
  ∃ s', release_queue_loop fuel (Some q) s = Ok ((), s') ∧ queue_wf s' q []
    ∧ ∀ y, y ≠ q → at_loc s' y = if decide (y ∈ xs.*1) then None else at_loc s y.
Proof.
  revert s fuel. induction xs as [|[x d] xs IH]; intros s fuel Hwf Hq Hlen Hf.
  - exists s. pose proof Hq as (Hq' & _). destruct fuel; cbn [release_queue_loop]; run_deref;
      cbn [q_len length]; rewrite decide_True by done; (split_and!; [done|done|]); intros y _;
      by rewrite decide_False by apply not_elem_of_nil.
  - destruct fuel as [|fuel]; [cbn in Hf; lia|].
    destruct (dequeue_run s q x d xs Hwf Hq Hlen) as (s1 & E & Hq1 & Hwf1 & Hx & Hout).
    cbn [length] in Hlen, Hf. destruct (IH s1 fuel Hwf1 Hq1) as (s' & E' & Hq' & Hs'); [lia..|].
    exists s'. cbn [release_queue_loop]. pose proof Hq as (Hq0 & _). run_deref. cbn [q_len length].
    rewrite decide_False by lia. rewrite (M_bind_run _ _ _ _ _ E). split_and!; [done|done|].
    intros y Hy. rewrite Hs' by done. cbn. destruct (decide (y = x)) as [->|Hne].
    + rewrite (decide_True (P := x ∈ x :: _)) by left. by case_decide.
    + rewrite Hout by done. repeat case_decide; set_solver.
Qed.

(** * Clients of a queue *)

Inductive queue_op := Enqueue (v : ptr) | Dequeue.

Definition run_qop (q : ptr) (op : queue_op) : M St (list ptr) :=
  match op with
  | Enqueue v => enqueue q v;; mret []
  | Dequeue => v ← dequeue q; mret [v]
  end.

(** The values dequeued, in order. *)
Fixpoint run_qops (q : ptr) (ops : list queue_op) : M St (list ptr) :=
  match ops with
  | [] => mret []
  | op :: ops => out ← run_qop q op; outs ← run_qops q ops; mret (out ++ outs)
  end.

(** The specification: a sequence; taking from an empty one waits. *)
Definition spec_qop (op : queue_op) : M (list ptr) (list ptr) := λ vs,
  match op with
  | Enqueue v => Ok ([], vs ++ [v])
  | Dequeue => match vs with [] => Err Blocked | v :: vs => Ok ([v], vs) end
  end.

Fixpoint spec_qops (ops : list queue_op) : M (list ptr) (list ptr) :=
  match ops with
  | [] => mret []
  | op :: ops => out ← spec_qop op; outs ← spec_qops ops; mret (out ++ outs)
  end.

(** The result of a run implements the result of the specification. *)
Definition queue_res (q : loc) (r : res (list ptr * St)) (r' : res (list ptr * list ptr)) : Prop :=
  match r, r' with
  | Ok (out, s'), Ok (out', vs) => out = out' ∧ ∃ xs, queue_wf s' q xs ∧ xs.*2 = vs ∧ heap_wf s'
  | Err e, Err e' => e = e'
  | _, _ => False
  end.

Lemma run_qops_refine ops : ∀ s q xs, heap_wf s → queue_wf s q xs →
  Z.of_nat (length xs) + Z.of_nat (length ops) < 2 ^ 64 →
  queue_res q (run_qops (Some q) ops s) (spec_qops ops xs.*2).
Proof.
  induction ops as [|op ops IH]; intros s q xs Hwf Hq Hlen; cbn [length] in Hlen.
  { cbn. split; [done|]. by exists xs. }
  assert (Hgo : ∀ out s1 vs xs1, run_qop (Some q) op s = Ok (out, s1) → spec_qop op xs.*2 = Ok (out, vs) →
    queue_wf s1 q xs1 → xs1.*2 = vs → heap_wf s1 → Z.of_nat (length xs1) ≤ Z.of_nat (length xs) + 1 →
    queue_res q (run_qops (Some q) (op :: ops) s) (spec_qops (op :: ops) xs.*2)).
  { intros out s1 vs xs1 E E' Hq1 <- Hwf1 Hl1. cbn [run_qops spec_qops].
    rewrite (M_bind_run _ _ _ _ _ E), (M_bind_run _ _ _ _ _ E').
    specialize (IH s1 q xs1 Hwf1 Hq1 ltac:(lia)). unfold queue_res, mbind, M_bind in *.
    destruct (run_qops _ _ s1) as [[o1 s2]|], (spec_qops ops _) as [[o2 vs2]|]; cbn in *; try done.
    by destruct IH as [-> IH]. }
  destruct op as [v|].
  - destruct (enqueue_run s q xs v Hwf Hq) as (s1 & E & Hq1 & Hwf1 & _); [lia|].
    eapply Hgo; [cbn [run_qop]; by rewrite (M_bind_run _ _ _ _ _ E)|done|exact Hq1| |done|].
    + by rewrite fmap_app.
    + rewrite length_app. cbn. lia.
  - destruct xs as [|[x d] xs].
    + cbn [run_qops spec_qops run_qop]. unfold mbind, M_bind. by rewrite dequeue_blocked.
    + cbn [length] in Hlen.
      destruct (dequeue_run s q x d xs Hwf Hq) as (s1 & E & Hq1 & Hwf1 & _); [cbn [length]; lia|].
      eapply Hgo; [cbn [run_qop]; by rewrite (M_bind_run _ _ _ _ _ E)|done|exact Hq1|done|done|].
      cbn [length]. lia.
Qed.

(** * Properties *)

(** C33. A queue made by [create_queue] is a first-in first-out sequence: any run of
    [enqueue] and [dequeue] gives the values the specification gives, waits where it
    waits, and leaves a well-formed queue that holds the specified sequence. *)
Theorem queue_refines_fifo s ops :
  heap_wf s → Z.of_nat (length ops) < 2 ^ 64 →
  ∃ q s1, create_queue true s = Ok (Some q, s1)
    ∧ queue_res q (run_qops (Some q) ops s1) (spec_qops ops []).
Proof.
  intros Hwf Hlen. exists (fresh_loc s), (alloc (mk_queue 0 None None) s). split; [done|].
  apply (run_qops_refine ops _ _ []).
  - by apply alloc_wf.
  - split; [heap_lookup|]. split; [done|apply NoDup_singleton].
  - cbn [length]. lia.
Qed.

(** [release_queue] ends: as many turns as there are items free every item and
    the queue, and nothing else; the data pointers are not followed. *)
Theorem release_queue_frees s q xs :
  heap_wf s → queue_wf s q xs → Z.of_nat (length xs) < 2 ^ 64 →
  ∃ s', release_queue (length xs) (Some q) s = Ok ((), s')
    ∧ ∀ y, at_loc s' y = if decide (y ∈ q :: xs.*1) then None else at_loc s y.
Proof.
  intros Hwf Hq Hlen. unfold release_queue. rewrite decide_False by done.
  destruct (release_queue_loop_run s q xs (length xs) Hwf Hq Hlen ltac:(lia)) as (s' & E & (Hq' & _) & Hs').
  rewrite (M_bind_run _ _ _ _ _ E). erewrite free_run by exact Hq'.
  eexists. split; [done|]. intros y. rewrite at_remove.
  destruct (decide (q = y)) as [->|Hne]; [by rewrite decide_True by left|].
  rewrite Hs' by done. repeat case_decide; set_solver.
Qed.

(** * Sending *)

(** [send_queue] calls the function once on every item, front to rear, and
    returns what the last call returned (0 for an empty queue), for a function that
    keeps an invariant of the state and the items. *)
Theorem send_queue_visits (s : St) q xs arg (f : ptr → ptr → M St Z) (g : St → loc → Z * St)
    (I : St → Prop) :
  queue_wf s q xs → I s →
  (∀ s' x, x ∈ xs.*1 → I s' → (∀ y, y ∈ xs.*1 → at_loc s' y = at_loc s y) →
    f (Some x) arg s' = Ok (g s' x) ∧ I (g s' x).2
    ∧ ∀ y, y ∈ xs.*1 → at_loc (g s' x).2 y = at_loc s y) →
  send_queue (length xs) (Some q) arg f s
  = Ok (foldl (λ r x, g r.2 x) (0, s) xs.*1).
Proof.
  intros (Hq & Hseg & _) HI Hf. unfold send_queue. run_deref. cbn [q_front].
  assert (Hloop : ∀ ys s' h r, qseg s h ys None → (∀ y, y ∈ ys.*1 → y ∈ xs.*1) → I s' →
    (∀ y, y ∈ xs.*1 → at_loc s' y = at_loc s y) →
    send_queue_loop (length ys) h arg f r s' = Ok (foldl (λ r x, g r.2 x) (r, s') ys.*1)).
  { induction ys as [|[y d] ys IH]; intros s' h r Hys Hsub HI' Hs'.
    { cbn in Hys. by subst. }
    destruct Hys as (-> & n & Hy & Hys). cbn [send_queue_loop length]. rewrite decide_False by done.
    assert (Hin : y ∈ xs.*1) by (apply Hsub; left).
    destruct (Hf s' y Hin HI' Hs') as (E & HI1 & Hs1). destruct (g s' y) as [r1 s1] eqn:Eg.
    rewrite (M_bind_run _ _ _ _ _ E). rewrite <- (Hs1 y Hin) in Hy. cbn [snd] in Hy, Hs1, HI1.
    run_deref. cbn [i_next]. rewrite IH; [cbn; by rewrite Eg|done| |done|done].
    intros z Hz. apply Hsub. by right. }
  by apply Hloop.
Qed.

End Operations.

(** * Witnesses *)

(** A heap of queues, items and integers. *)
Definition demo_obj : Type := Queue + (QueueItem + Z).
Definition demo_heap : Heap demo_obj := mk_heap ∅ 1%positive.

Lemma queue_refines_fifo_witness :
  ∃ q s1, create_queue true demo_heap = Ok (Some q, s1)
    ∧ queue_res q (run_qops (Some q) [Enqueue None; Enqueue (Some 9%positive); Dequeue; Dequeue] s1)
        (Ok ([None; Some 9%positive], [])).
Proof.
  apply (queue_refines_fifo demo_heap
    [Enqueue None; Enqueue (Some 9%positive); Dequeue; Dequeue]); [by intros l o|done].
Defined.

(** Two items with their data, an integer each, and the queue. *)
Definition demo_cells : list (loc * demo_obj) :=
  [(1%positive, inj (mk_queue 2 (Some 2%positive) (Some 3%positive)));
   (2%positive, inj (mk_item (Some 4%positive) (Some 3%positive)));
   (3%positive, inj (mk_item (Some 5%positive) None));
   (4%positive, inj 40); (5%positive, inj 50); (6%positive, inj 7)].
Definition demo_queue : Heap demo_obj := mk_heap (list_to_map demo_cells) 7%positive.
Definition demo_items : list (loc * ptr) :=
  [(2%positive, Some 4%positive); (3%positive, Some 5%positive)].

Lemma demo_queue_wf : queue_wf demo_queue 1%positive demo_items.
Proof.
  split; [reflexivity|]. split.
  - cbn. split; [done|]. eexists. split; [reflexivity|]. split; [done|]. by exists None.
  - apply (bool_decide_unpack _). by vm_compute.
Qed.

Lemma demo_heap_wf : heap_wf demo_queue.
Proof.
  intros l o Hl. change ((list_to_map demo_cells : gmap loc demo_obj) !! l = Some o) in Hl.
  apply elem_of_list_to_map_2 in Hl.
  change (((l, o).1 < 7)%positive). revert Hl. generalize (l, o). apply Forall_forall.
  repeat constructor.
Qed.

Lemma release_queue_frees_witness :
  ∃ s', release_queue 2 (Some 1%positive) demo_queue = Ok ((), s')
    ∧ ∀ y, at_loc s' y = if decide (y ∈ [1; 2; 3]%positive) then None else at_loc demo_queue y.
Proof. by apply (release_queue_frees demo_queue 1%positive demo_items demo_heap_wf demo_queue_wf). Defined.

(** Sums the data of the items into the integer at [arg]. *)
Definition demo_f (item arg : ptr) : M (Heap demo_obj) Z :=
  it ← deref item;
  v ← deref (i_data it);
  acc ← deref arg;
  assign arg (acc + v : Z);;
  mret (acc + v).

Definition demo_inv (s : Heap demo_obj) : Prop :=
  at_loc s 4%positive = Some (inj 40) ∧ at_loc s 5%positive = Some (inj 50)
  ∧ ∃ v : Z, at_loc s 6%positive = Some (inj v).

Definition demo_g (s : Heap demo_obj) (x : loc) : Z * Heap demo_obj :=
  match demo_f (Some x) (Some 6%positive) s with Ok r => r | Err _ => (0, s) end.

Lemma demo_f_keeps s x : x ∈ demo_items.*1 → demo_inv s →
  (∀ y, y ∈ demo_items.*1 → at_loc s y = at_loc demo_queue y) →
  demo_f (Some x) (Some 6%positive) s = Ok (demo_g s x) ∧ demo_inv (demo_g s x).2
  ∧ ∀ y, y ∈ demo_items.*1 → at_loc (demo_g s x).2 y = at_loc demo_queue y.
Proof.
  intros Hx (H4 & H5 & v & H6) Hs. unfold demo_g.
  assert (∃ w, demo_f (Some x) (Some 6%positive) s = Ok (v + w, update 6%positive (inj (v + w)) s)) as [w ->].
  { cbn in Hx. apply elem_of_cons in Hx as [->|Hx]; [|apply list_elem_of_singleton in Hx as ->].
    - exists 40. pose proof (Hs 2%positive ltac:(left)) as H2.
      change (at_loc demo_queue 2%positive)
        with (Some (inj (mk_item (Some 4%positive) (Some 3%positive)) : demo_obj)) in H2.
      unfold demo_f. run_deref. cbn [i_data]. do 2 run_deref. by run_assign.
    - exists 50. pose proof (Hs 3%positive ltac:(right; left)) as H3.
      change (at_loc demo_queue 3%positive)
        with (Some (inj (mk_item (Some 5%positive) None) : demo_obj)) in H3.
      unfold demo_f. run_deref. cbn [i_data]. do 2 run_deref. by run_assign. }
  cbn [snd]. split_and!; [done| |].
  - split_and!; [| |eexists]; heap_lookup.
  - intros y Hy. rewrite at_update_ne; [by apply Hs|]. intros <-. revert Hy.
    apply (bool_decide_unpack (6%positive ∉ demo_items.*1)). by vm_compute.
Qed.

Lemma send_queue_visits_witness :
  ∃ s', send_queue 2 (Some 1%positive) (Some 6%positive) demo_f demo_queue = Ok (97, s').
Proof.
  eexists. etrans.
  - apply (send_queue_visits demo_queue 1%positive demo_items (Some 6%positive) demo_f
      demo_g demo_inv demo_queue_wf).
    + split_and!; [done|done|by eexists].
    + intros s x. apply demo_f_keeps.
  - by vm_compute.
Defined.
