(* ===== verification/Network.v ===== *)
(** The socket and epoll routines of [network.c].

    The kernel is the environment: a table of open descriptors, where each socket
    carries the trace of what its next calls to recv(2) and send(2) will find, and
    the interest lists of the epoll instances.  A trace says what POSIX says: a
    chunk longer than the request is read in parts, a closed stream reads 0, a
    non-blocking descriptor with nothing to read or no room to write fails with
    EAGAIN, and a call on a descriptor that is not open fails. *)
From stdpp Require Import base numbers option list gmap.
From Stdlib Require Import ZArith Lia.
From S2P Require Import Prelude Memory Ringbuf.

Local Open Scope Z_scope.

(** * The environment *)

Inductive rx_event := RxData (b : Z) (bs : list Z) | RxAgain | RxFail | RxClosed.
Inductive tx_event := TxAccept (n : positive) | TxAgain | TxFail.

Record Sock := mk_sock { rx : list rx_event; tx : list tx_event; sent_bytes : list (option Z) }.

(** [epoll_data_t] is a union: what was stored last. *)
Inductive epoll_data := DataFd (fd : Z) | DataPtr (l : loc).
Record epoll_event := mk_event { ev_events : Z; ev_data : epoll_data }.

Definition EPOLLIN : Z := 1.
Definition EPOLLOUT : Z := 4.
Definition EPOLLERR : Z := 8.
Definition EPOLLHUP : Z := 16.
Definition EPOLLONESHOT : Z := Z.shiftl 1 30.
Definition EPOLLET : Z := Z.shiftl 1 31.

(** [interest] maps an epoll descriptor and a target descriptor to the event. *)
Record Kernel := mk_kernel { socks : gmap Z Sock; interest : gmap (Z * Z) epoll_event }.

Class HasKernel (St : Type) := {
  get_kernel : St → Kernel;
  set_kernel : Kernel → St → St;
  get_set_kernel k s : get_kernel (set_kernel k s) = k;
  set_set_kernel k k' s : set_kernel k (set_kernel k' s) = set_kernel k s;
  set_get_kernel s : set_kernel (get_kernel s) s = s
}.

#[export] Instance kernel_has_kernel : HasKernel Kernel.
Proof. by refine {| get_kernel k := k; set_kernel k _ := k |}. Defined.

(** The outcome of recv(2): bytes, the end of the stream, or an error number. *)
Inductive recv_result := RecvData (bs : list Z) | RecvEof | RecvAgain | RecvError.

(** What a request for [k] bytes finds, and the trace it leaves. *)
Definition rx_take (t : list rx_event) (k : nat) : recv_result * list rx_event :=
  match t with
  | RxData b bs :: t =>
      (RecvData (take k (b :: bs)),
       match drop k (b :: bs) with [] => t | b :: bs => RxData b bs :: t end)
  | RxAgain :: t => (RecvAgain, t)
  | RxFail :: t => (RecvError, t)
  | RxClosed :: _ | [] => (RecvEof, t)
  end.

Inductive send_result := SendSome (n : Z) | SendAgain | SendError.

(** How much of [k] bytes is taken; a socket whose trace is over takes all. *)
Definition tx_take (t : list tx_event) (k : Z) : send_result * list tx_event :=
  match t with
  | TxAccept n :: t => (SendSome (Z.min (Zpos n) k), t)
  | TxAgain :: t => (SendAgain, t)
  | TxFail :: t => (SendError, t)
  | [] => (SendSome k, [])
  end.

(** * Operations *)

Section Operations.
Context {St : Type} `{HasKernel St}.

Definition get_sock (s : St) (fd : Z) : option Sock := socks (get_kernel s) !! fd.

Definition set_sock (fd : Z) (k : Sock) (s : St) : St :=
  set_kernel (mk_kernel (<[fd := k]> (socks (get_kernel s))) (interest (get_kernel s))) s.

Definition recv (fd : Z) (k : nat) : M St recv_result := λ s,
  match get_sock s fd with
  | None => Ok (RecvError, s)
  | Some so => let '(r, t) := rx_take (rx so) k in
               Ok (r, set_sock fd (mk_sock t (tx so) (sent_bytes so)) s)
  end.

(** [data] is the part of the object that the call names. *)
Definition send (fd : Z) (data : list (option Z)) : M St send_result := λ s,
  match get_sock s fd with
  | None => Ok (SendError, s)
  | Some so =>
      let '(r, t) := tx_take (tx so) (Z.of_nat (length data)) in
      let taken := match r with SendSome n => take (Z.to_nat n) data | _ => [] end in
      Ok (r, set_sock fd (mk_sock (rx so) t (sent_bytes so ++ taken)) s)
  end.

(** shutdown(2) of the reading side: what is still to come is not read. *)
Definition shutdown (fd : Z) : M St () := λ s,
  match get_sock s fd with
  | None => Ok ((), s)
  | Some so => Ok ((), set_sock fd (mk_sock [] (tx so) (sent_bytes so)) s)
  end.

(** close(2) also takes the descriptor off every epoll interest list. *)
Definition close (fd : Z) : M St () := λ s,
  let k := get_kernel s in
  Ok ((), set_kernel (mk_kernel (delete fd (socks k))
                        (filter (λ '((_, f), _), f ≠ fd) (interest k))) s).

(** The bytes [buf[off .. off + len)] of an object. *)
Definition slice {A} (buf : list A) (off len : Z) : res (list A) :=
  _ ← require (bool_decide (0 ≤ off ∧ 0 ≤ len ∧ off + len ≤ Z.of_nat (length buf))) OutOfBounds;
  Ok (take (Z.to_nat len) (drop (Z.to_nat off) buf)).

Fixpoint sendall_loop (fuel : nat) (sfd : Z) (buf : list (option Z)) (len total bytesleft n : Z)
    : M St (Z * Z) :=
  if decide (total < len) then
    match fuel with
    | O => lift (Err NoFuel)
    | S fuel =>
        data ← lift (slice buf total bytesleft);
        r ← send sfd data;
        match r with
        | SendAgain | SendError => mret (total, -1)
        | SendSome n =>
            total ← lift (int_add total n);
            sendall_loop fuel sfd buf len total (bytesleft - n) n
        end
    end
  else mret (total, n).

(** The results are the return value and [*sent]. *)
Definition sendall (fuel : nat) (sfd : Z) (buf : list (option Z)) (len : Z) : M St (Z * Z) :=
  '(total, n) ← sendall_loop fuel sfd buf len 0 len 0;
  mret (if decide (n = -1) then -1 else 0, total).

(** [ringbuf_bulk_push(ringbuf, buf, n)], its status ignored. *)
Definition push_received (ringbuf : Ringbuffer) (bs : list Z) : res Ringbuffer :=
  '(_, ringbuf) ← ringbuf_bulk_push ringbuf bs (length bs);
  Ok ringbuf.

Fixpoint recvall_loop (fuel : nat) (sfd : Z) (ringbuf : Ringbuffer) (bufsize total : Z)
    : M St (Z * Ringbuffer) :=
  match fuel with
  | O => lift (Err NoFuel)
  | S fuel =>
      r ← recv sfd (Z.to_nat (bufsize - 1));
      match r with
      | RecvAgain => mret (total, ringbuf)
      | RecvError => mret (-1, ringbuf)
      | RecvEof => mret (0, ringbuf)
      | RecvData bs =>
          ringbuf ← lift (push_received ringbuf bs);
          total ← lift (int_add total (Z.of_nat (length bs)));
          recvall_loop fuel sfd ringbuf bufsize total
      end
  end.

Definition recvall (fuel : nat) (sfd : Z) (ringbuf : Ringbuffer) (len : Z) : M St (Z * Ringbuffer) :=
  let bufsize := if decide (len > 0) then len + 1 else 256 in
  recvall_loop fuel sfd ringbuf bufsize 0.

(** [len] is not used by the code. *)
Fixpoint recvbytes_loop (fuel : nat) (sfd : Z) (ringbuf : Ringbuffer) (bufsize total : Z)
    : M St (Z * Ringbuffer) :=
  if decide (total < bufsize) then
    match fuel with
    | O => lift (Err NoFuel)
    | S fuel =>
        r ← recv sfd (Z.to_nat (bufsize - total));
        match r with
        | RecvAgain => mret (total, ringbuf)
        | RecvError => mret (-1, ringbuf)
        | RecvEof => mret (0, ringbuf)
        | RecvData bs =>
            ringbuf ← lift (push_received ringbuf bs);
            total ← lift (int_add total (Z.of_nat (length bs)));
            recvbytes_loop fuel sfd ringbuf bufsize total
        end
    end
  else mret (total, ringbuf).

Definition recvbytes (fuel : nat) (sfd : Z) (ringbuf : Ringbuffer) (len bufsize : Z)
    : M St (Z * Ringbuffer) :=
  recvbytes_loop fuel sfd ringbuf bufsize 0.

(** epoll_ctl(2): adding needs an open descriptor that is not yet on the list,
    changing and deleting one that is; the failures are only reported. *)
Definition epoll_ctl (f : option epoll_event → option epoll_event) (ok : option epoll_event → bool)
    (efd fd : Z) : M St () := λ s,
  let k := get_kernel s in
  match get_sock s fd with
  | Some _ =>
      if ok (interest k !! (efd, fd)) then
        Ok ((), set_kernel (mk_kernel (socks k) (partial_alter f (efd, fd) (interest k))) s)
      else Ok ((), s)
  | None => Ok ((), s)
  end.

Definition event_for (evs fd : Z) (data : ptr) : epoll_event :=
  mk_event (Z.lor (Z.lor evs EPOLLET) EPOLLONESHOT)
    (match data with Some l => DataPtr l | None => DataFd fd end).

Definition is_listed (e : option epoll_event) : bool := bool_decide (is_Some e).

Definition add_epoll (efd fd : Z) (data : ptr) : M St () :=
  epoll_ctl (λ _, Some (event_for EPOLLIN fd data)) (λ e, negb (is_listed e)) efd fd.

Definition mod_epoll (efd fd evs : Z) (data : ptr) : M St () :=
  epoll_ctl (λ _, Some (event_for evs fd data)) is_listed efd fd.

Definition del_epoll (efd fd : Z) : M St () :=
  epoll_ctl (λ _, None) is_listed efd fd.

(** * Reference semantics of the transfers *)

(** Why a read of [k] bytes stopped. *)
Inductive stop := Filled | WouldBlock | Ended | Failed.
#[global] Instance stop_eq_dec : EqDecision stop.
Proof. solve_decision. Defined.

(** The bytes a trace has for a request of [k], why there are no more of them, and
    what it has left. *)
Fixpoint rx_read (t : list rx_event) (k : nat) : list Z * stop * list rx_event :=
  match k with
  | O => ([], Filled, t)
  | _ =>
      match t with
      | RxData b bs :: t' =>
          if decide (length (b :: bs) ≤ k)%nat then
            let '(ds, st, rest) := rx_read t' (k - length (b :: bs)) in ((b :: bs) ++ ds, st, rest)
          else (take k (b :: bs), Filled, (rx_take t k).2)
      | RxAgain :: t' => ([], WouldBlock, t')
      | RxFail :: t' => ([], Failed, t')
      | RxClosed :: _ | [] => ([], Ended, t)
      end
  end.

(** How many of [k] bytes a trace accepts before it fails or would block. *)
Fixpoint tx_accepts (t : list tx_event) (k : Z) : Z :=
  if decide (k ≤ 0) then 0 else
  match t with
  | [] => k
  | TxAccept n :: t => Z.min (Zpos n) k + tx_accepts t (k - Z.min (Zpos n) k)
  | TxAgain :: _ | TxFail :: _ => 0
  end.

(** The trace that transfer leaves. *)
Fixpoint tx_rest (t : list tx_event) (k : Z) : list tx_event :=
  if decide (k ≤ 0) then t else
  match t with
  | [] => []
  | TxAccept n :: t => tx_rest t (k - Z.min (Zpos n) k)
  | TxAgain :: t | TxFail :: t => t
  end.

(** The socket after [len] bytes of [buf] were offered to it. *)
Definition after_send (so : Sock) (buf : list (option Z)) (len : Z) : Sock :=
  mk_sock (rx so) (tx_rest (tx so) len)
    (sent_bytes so ++ take (Z.to_nat (tx_accepts (tx so) len)) buf).

(** The value of recvbytes. *)
Definition read_status (ds : list Z) (st : stop) : Z :=
  match st with Filled | WouldBlock => Z.of_nat (length ds) | Ended => 0 | Failed => -1 end.

(** * Lemmas *)

Lemma get_set_sock fd so s fd' :
  get_sock (set_sock fd so s) fd' = if decide (fd = fd') then Some so else get_sock s fd'.
Proof. unfold get_sock, set_sock. rewrite get_set_kernel. apply lookup_insert. Qed.

Lemma get_set_sock_eq fd so s : get_sock (set_sock fd so s) fd = Some so.
Proof. by rewrite get_set_sock, decide_True. Qed.

Lemma set_set_sock fd so so' s : set_sock fd so (set_sock fd so' s) = set_sock fd so s.
Proof. unfold set_sock. rewrite get_set_kernel, set_set_kernel. cbn. by rewrite insert_insert_eq. Qed.

Lemma set_sock_id fd so s : get_sock s fd = Some so → set_sock fd so s = s.
Proof.
  intros Hso. unfold set_sock. rewrite insert_id by done.
  trans (set_kernel (get_kernel s) s); [by destruct (get_kernel s)|apply set_get_kernel].
Qed.

Lemma recv_run fd k s so : get_sock s fd = Some so →
  recv fd k s = Ok ((rx_take (rx so) k).1, set_sock fd (mk_sock (rx_take (rx so) k).2 (tx so) (sent_bytes so)) s).
Proof. intros Hso. unfold recv. rewrite Hso. by destruct (rx_take (rx so) k). Qed.

Lemma send_run fd data s so : get_sock s fd = Some so →
  let r := tx_take (tx so) (Z.of_nat (length data)) in
  send fd data s = Ok (r.1, set_sock fd (mk_sock (rx so) r.2
    (sent_bytes so ++ match r.1 with SendSome n => take (Z.to_nat n) data | _ => [] end)) s).
Proof. intros Hso r. unfold send. rewrite Hso. fold r. by destruct r. Qed.

Lemma push_received_repr rb l ds : rb_repr rb l →
  ∃ rb', push_received rb ds = Ok rb'
    ∧ rb_repr rb' (l ++ take (Z.to_nat (rb_max rb) - length l) ds) ∧ rb_max rb' = rb_max rb.
Proof.
  intros Hl. destruct (bulk_push_repr rb l ds Hl) as (rb' & E & Hl' & Hm).
  exists rb'. unfold push_received. by rewrite E.
Qed.

(** Filling up in two goes. *)
Lemma take_fill {A} (l d1 d2 : list A) c :
  (l ++ take (c - length l) d1) ++ take (c - length (l ++ take (c - length l) d1)) d2
  = l ++ take (c - length l) (d1 ++ d2).
Proof.
  rewrite take_app, length_app, length_take, (assoc_L (++)). do 2 f_equal. lia.
Qed.

Lemma rx_read_length t k ds st rest : rx_read t k = (ds, st, rest) →
  (length ds ≤ k)%nat ∧ (st = Filled → length ds = k).
Proof.
  revert k ds. induction t as [|e t IH]; intros [|k] ds; cbn [rx_read]; try by intros [= <- <- <-]; cbn; lia.
  { intros [= <- <- <-]. by split; [cbn; lia|]. }
  destruct e as [b bs| | |]; try by intros [= <- <- <-]; split; [cbn; lia|].
  case_decide as Hd.
  - destruct (rx_read t _) as [[ds' st'] r'] eqn:E. intros [= <- <- <-].
    apply IH in E as [E1 E2]. cbn in *. rewrite length_app. split; [lia|]. intros. rewrite E2 by done. lia.
  - intros [= <- <- <-]. cbn in *. rewrite length_take. split; [lia|]. intros. lia.
Qed.

Lemma recvbytes_loop_run t : ∀ s fd rb l tx0 out bufsize total fuel ds st rest,
  get_sock s fd = Some (mk_sock t tx0 out) → rb_repr rb l →
  0 ≤ total ≤ bufsize → (length t < fuel)%nat →
  rx_read t (Z.to_nat (bufsize - total)) = (ds, st, rest) →
  total + Z.of_nat (length ds) < 2 ^ 31 →
  ∃ rb', recvbytes_loop fuel fd rb bufsize total s
      = Ok ((match st with Ended | Failed => read_status ds st | _ => total + read_status ds st end, rb'),
            set_sock fd (mk_sock rest tx0 out) s)
    ∧ rb_repr rb' (l ++ take (Z.to_nat (rb_max rb) - length l) ds) ∧ rb_max rb' = rb_max rb.
Proof.
  induction t as [|e t IH]; intros s fd rb l tx0 out bufsize total fuel ds st rest Hso Hl Ht Hf Hr Hb;
    (destruct fuel as [|fuel]; [cbn in Hf; lia|]); cbn [recvbytes_loop];
    (destruct (decide (total < bufsize)) as [Hlt|Hge]; [|
      replace (Z.to_nat (bufsize - total)) with 0%nat in Hr by lia; cbn in Hr; injection Hr as <- <- <-;
      exists rb; rewrite take_nil, app_nil_r, set_sock_id by done; cbn; by rewrite Z.add_0_r]);
    destruct (Z.to_nat (bufsize - total)) as [|k] eqn:Hk; [lia| |lia|];
    rewrite (M_bind_run _ _ _ _ _ (recv_run fd (S k) s _ Hso)); cbn [rx tx sent_bytes rx_take fst snd].
  { cbn in Hr. injection Hr as <- <- <-. exists rb. rewrite take_nil, app_nil_r. done. }
  destruct e as [b bs| | |]; cbn [rx_read] in Hr;
    try (injection Hr as <- <- <-; exists rb; rewrite take_nil, app_nil_r; cbn; by rewrite ?Z.add_0_r).
  cbn [fst snd]. destruct (push_received_repr rb l (take (S k) (b :: bs)) Hl) as (rb1 & E & Hl1 & Hm1).
  rewrite E. cbn [lift]. erewrite M_bind_run by done.
  case_decide as Hd.
  - rewrite (take_ge (b :: bs) (S k)) in * by done. rewrite drop_ge by done. cbn [length] in *.
    destruct (rx_read t _) as [[ds' st'] r'] eqn:Er. injection Hr as <- <- <-.
    destruct (rx_read_length _ _ _ _ _ Er) as [Hlen _]. cbn in Hb. rewrite length_app in Hb.
    erewrite M_bind_run; [|rewrite int_add_run by lia; done].
    edestruct (IH (set_sock fd (mk_sock t tx0 out) s) fd rb1
      (l ++ take (Z.to_nat (rb_max rb) - length l) (b :: bs)) tx0 out bufsize
      (total + Z.of_nat (S (length bs))) fuel ds' st' r') as (rb' & E' & Hl' & Hm');
      [apply get_set_sock_eq|exact Hl1|lia|lia|rewrite <- Er; f_equal; lia|lia|].
    exists rb'. rewrite E', set_set_sock. split_and!; [|by rewrite Hm1, take_fill in Hl'|lia].
    do 3 f_equal. destruct st'; cbn; rewrite ?length_app; cbn; lia.
  - injection Hr as <- <- <-.
    assert (Hlen : length (take (S k) (b :: bs)) = S k) by (rewrite length_take; lia).
    change (total + Z.of_nat (length (take (S k) (b :: bs))) < 2 ^ 31) in Hb. rewrite Hlen in Hb.
    rewrite Hlen. erewrite M_bind_run; [|rewrite int_add_run by lia; done].
    exists rb1. split_and!; [|done|done].
    destruct fuel; cbn [recvbytes_loop]; rewrite decide_False by lia;
      (cbn in Hlen |- *; rewrite Hlen; repeat f_equal; lia).
Qed.

Lemma tx_accepts_range t k : 0 ≤ k → 0 ≤ tx_accepts t k ≤ k.
Proof.
  revert k. induction t as [|e t IH]; intros k Hk; cbn [tx_accepts]; [case_decide; lia|].
  case_decide; [lia|]. destruct e as [n| |]; [|lia..].
  specialize (IH (k - Z.min (Zpos n) k) ltac:(lia)). lia.
Qed.

Lemma slice_run {A} (buf : list A) off len : 0 ≤ off → 0 ≤ len → off + len ≤ Z.of_nat (length buf) →
  slice buf off len = Ok (take (Z.to_nat len) (drop (Z.to_nat off) buf)).
Proof. intros. unfold slice. by rewrite bool_decide_eq_true_2. Qed.

(** Two consecutive parts of an object. *)
Lemma take_drop_plus {A} (l : list A) i j k : 0 ≤ i → 0 ≤ j → 0 ≤ k →
  take (Z.to_nat j) (drop (Z.to_nat i) l) ++ take (Z.to_nat k) (drop (Z.to_nat (i + j)) l)
  = take (Z.to_nat (j + k)) (drop (Z.to_nat i) l).
Proof.
  intros. rewrite (Z2Nat.inj_add i j), (Z2Nat.inj_add j k), <- drop_drop by lia.
  by rewrite <- take_take_drop.
Qed.

Lemma sendall_loop_run t : ∀ s fd rx0 out buf len total n fuel,
  get_sock s fd = Some (mk_sock rx0 t out) → 0 ≤ total ≤ len → len ≤ Z.of_nat (length buf) →
  len < 2 ^ 31 → (length t < fuel)%nat → 0 ≤ n →
  ∃ n', sendall_loop fuel fd buf len total (len - total) n s
    = Ok ((total + tx_accepts t (len - total), n'),
          set_sock fd (mk_sock rx0 (tx_rest t (len - total)) (out ++ take (Z.to_nat (tx_accepts t (len - total)))
                                            (drop (Z.to_nat total) buf))) s)
    ∧ -1 ≤ n' ∧ (n' = -1 ↔ total + tx_accepts t (len - total) < len).
Proof.
  induction t as [|e t IH]; intros s fd rx0 out buf len total n fuel Hso Ht Hlen Hl Hf Hn;
    (destruct fuel as [|fuel]; [cbn in Hf; lia|]); cbn [sendall_loop tx_accepts tx_rest].
  all: destruct (decide (total < len)) as [Hlt|Hge]; [rewrite !(decide_False (P := _ - _ ≤ 0)) by lia|
    rewrite !(decide_True (P := _ - _ ≤ 0)) by lia; rewrite take_0, app_nil_r;
    exists n; rewrite set_sock_id by exact Hso; split_and!; [by rewrite Z.add_0_r|lia|lia]].
  all: rewrite slice_run by lia; cbn [lift]; erewrite M_bind_run by done;
    rewrite (M_bind_run _ _ _ _ _ (send_run fd _ s _ Hso)); cbn [rx tx sent_bytes tx_take fst snd].
  all: set (data := take (Z.to_nat (len - total)) (drop (Z.to_nat total) buf)).
  all: assert (Hdata : Z.of_nat (length data) = len - total)
    by (unfold data; rewrite length_take, length_drop; lia).
  - rewrite Hdata. erewrite M_bind_run; [|rewrite int_add_run by lia; reflexivity].
    rewrite (take_ge data) by lia. exists (len - total).
    split_and!; [|lia|lia]. destruct fuel; cbn [sendall_loop]; by rewrite decide_False by lia.
  - destruct e as [c| |].
    + cbn [tx_take fst snd]. rewrite Hdata. set (m := Z.min (Zpos c) (len - total)).
      cbn [length] in Hf. erewrite M_bind_run; [|rewrite int_add_run by lia; reflexivity].
      edestruct (IH (set_sock fd (mk_sock rx0 t (out ++ take (Z.to_nat m) data)) s) fd rx0
        (out ++ take (Z.to_nat m) data) buf len (total + m) m fuel) as (n' & E & Hn' & Hiff);
        [apply get_set_sock_eq|lia|done|done|lia|lia|].
      replace (len - total - m) with (len - (total + m)) by lia.
      pose proof (tx_accepts_range t (len - (total + m)) ltac:(lia)).
      exists n'. rewrite E, set_set_sock. split_and!; [|done|lia].
      do 3 f_equal; [lia|]. f_equal. unfold data. rewrite take_take, <- (assoc_L (++)), Nat.min_l by lia.
      by rewrite take_drop_plus by lia.
    + exists (-1). cbn. rewrite Z.add_0_r. split_and!; [done|lia|lia].
    + exists (-1). cbn. rewrite Z.add_0_r. split_and!; [done|lia|lia].
Qed.

Lemma sendall_run s fd so buf len :
  get_sock s fd = Some so → 0 ≤ len ≤ Z.of_nat (length buf) → len < 2 ^ 31 →
  let n := tx_accepts (tx so) len in
  sendall (S (length (tx so))) fd buf len s
    = Ok ((if decide (n = len) then 0 else -1, n), set_sock fd (after_send so buf len) s)
  ∧ 0 ≤ n ≤ len.
Proof.
  intros Hso Hlen Hl n. destruct so as [rx0 t out]. cbn in *.
  destruct (sendall_loop_run t s fd rx0 out buf len 0 0 (S (length t)) Hso) as (n' & E & Hn & Hiff);
    [lia..|]. rewrite Z.sub_0_r in E, Hiff. cbn [Z.add] in *. fold n in E, Hiff.
  pose proof (tx_accepts_range t len ltac:(lia)) as Hr. fold n in Hr.
  split; [|done]. unfold sendall. rewrite (M_bind_run _ _ _ _ _ E).
  unfold after_send. rewrite drop_0. unfold mret, M_ret. do 3 f_equal. repeat case_decide; lia.
Qed.

(** * Properties *)

(** C31. [sendall] ends; what reaches the peer is a prefix of the data, as long as
    the descriptor takes bytes; it reports the length of that prefix in [*sent] and
    returns 0 exactly when the prefix is all of the data. *)
Theorem sendall_sends_prefix s fd so buf len :
  get_sock s fd = Some so → 0 ≤ len ≤ Z.of_nat (length buf) → len < 2 ^ 31 →
  let n := tx_accepts (tx so) len in
  sendall (S (length (tx so))) fd buf len s
    = Ok ((if decide (n = len) then 0 else -1, n), set_sock fd (after_send so buf len) s)
  ∧ 0 ≤ n ≤ len.
Proof. apply sendall_run. Qed.

(** C32. [recvbytes] ends, and appends to the ring buffer the bytes the stream has for a
    request of [bufsize], as far as they fit; it returns their number when it filled the
    request or would block, but 0 when the stream ended and -1 when it failed, also when
    bytes were appended before. *)
Theorem recvbytes_reads s fd so rb l len bufsize :
  get_sock s fd = Some so → rb_repr rb l → 0 ≤ bufsize < 2 ^ 31 →
  let '(ds, st, rest) := rx_read (rx so) (Z.to_nat bufsize) in
  ∃ rb', recvbytes (S (length (rx so))) fd rb len bufsize s
      = Ok ((read_status ds st, rb'), set_sock fd (mk_sock rest (tx so) (sent_bytes so)) s)
    ∧ rb_repr rb' (l ++ take (Z.to_nat (ringbuf_capacity rb) - length l) ds)
    ∧ (st = Filled → Z.of_nat (length ds) = bufsize).
Proof.
  intros Hso Hl Hb. destruct (rx_read (rx so) _) as [[ds st] rest] eqn:Hr.
  destruct so as [t tx0 out]. cbn [rx tx sent_bytes] in *.
  destruct (recvbytes_loop_run t s fd rb l tx0 out bufsize 0 (S (length t)) ds st rest Hso Hl)
    as (rb' & E & Hl' & _); [lia|lia|by rewrite Z.sub_0_r| |].
  { destruct (rx_read_length _ _ _ _ _ Hr). lia. }
  exists rb'. split_and!; [|done|].
  - unfold recvbytes. rewrite E. by destruct st.
  - intros Hst. destruct (rx_read_length _ _ _ _ _ Hr) as [_ Hf]. rewrite Hf by done. lia.
Qed.

End Operations.

(** * Opening sockets *)

Section Setup.
Context {St : Type} `{HasKernel St}.

Definition O_NONBLOCK : Z := 2048.

(** [getfl] and [setfl] are the results of the two calls of fcntl(2). *)
Definition set_nonblocking (getfl : Z) (setfl : Z → Z) : Z :=
  let flags := getfl in
  if decide (flags = -1) then -1 else
  let result := setfl (Z.lor flags O_NONBLOCK) in
  if decide (result = -1) then -1 else 0.

Definition fresh_sock : Sock := mk_sock [] [] [].

(** A new descriptor for the socket a system call returned. *)
Definition open_fd (fd : Z) (so : Sock) : M St () := modify (set_sock fd so).

(** The resolver's answers, and what socket(2) and bind(2) do with them. *)
Variables (A : Type) (socket : A → Z) (bind : Z → A → bool).

Fixpoint bind_loop (rp : list A) : M St (option Z) :=
  match rp with
  | [] => mret None
  | a :: rp =>
      let sfd := socket a in
      if decide (sfd = -1) then bind_loop rp else
      open_fd sfd fresh_sock;;
      if bind sfd a then mret (Some sfd) else
      close sfd;;
      bind_loop rp
  end.

Definition create_and_bind (getaddrinfo : option (list A)) : M St Z :=
  match getaddrinfo with
  | None => mret (-1)
  | Some result =>
      rp ← bind_loop result;
      mret (match rp with None => -1 | Some sfd => sfd end)
  end.

Definition make_listen (getaddrinfo : option (list A)) (getfl : Z → Z) (setfl : Z → Z → Z)
    (listen : Z → Z) : M St Z :=
  sfd ← create_and_bind getaddrinfo;
  if decide (sfd = -1) then lift (Err Aborted) else
  if decide (set_nonblocking (getfl sfd) (setfl sfd) = -1) then lift (Err Aborted) else
  if decide (listen sfd = -1) then lift (Err Aborted) else
  mret sfd.

(** [sfd] is the result of socket(2), [host] that of the resolver. *)
Definition make_connection (sfd : Z) (host : option A) (connect : Z → A → Z) : M St Z :=
  when (bool_decide (0 ≤ sfd)) (open_fd sfd fresh_sock);;
  match host with
  | None => lift (Err Aborted)
  | Some server => if decide (connect sfd server < 0) then mret (-1) else mret sfd
  end.

(** [accepted] is what accept(2) returned, with the traffic of the new connection;
    [ntop] whether its address could be printed. *)
Definition accept_connection (accepted : Z) (traffic : Sock) (ntop : bool) : M St Z :=
  let clientsock := accepted in
  if decide (clientsock < 0) then mret (-1) else
  open_fd clientsock traffic;;
  if ntop then mret clientsock else
  close clientsock;;
  mret (-1).

Lemma get_sock_close fd s fd' :
  ∃ s', close fd s = Ok ((), s') ∧ get_sock s' fd' = (if decide (fd = fd') then None else get_sock s fd').
Proof.
  eexists. split; [done|]. unfold get_sock. rewrite get_set_kernel. cbn. apply lookup_delete.
Qed.

(** The first address that gives a socket which can be bound. *)
Definition bindable (a : A) : Prop := socket a ≠ -1 ∧ bind (socket a) a = true.

Lemma bind_loop_first pre a post : ∀ s,
  Forall (λ b, socket b = -1 ∨ bind (socket b) b = false) pre → bindable a →
  Forall (λ b, get_sock s (socket b) = None) (pre ++ [a]) →
  ∃ s', bind_loop (pre ++ a :: post) s = Ok (Some (socket a), s')
    ∧ ∀ fd, get_sock s' fd = if decide (fd = socket a) then Some fresh_sock else get_sock s fd.
Proof.
  induction pre as [|b pre IH]; intros s Hpre [Ha Hb] Hnew; cbn [app bind_loop].
  - rewrite decide_False by done. unfold open_fd. erewrite M_bind_run by done. rewrite Hb.
    eexists. split; [done|]. intros fd. rewrite get_set_sock. repeat case_decide; congruence.
  - apply Forall_cons in Hpre as [Hb' Hpre]. apply Forall_cons in Hnew as [Hbn Hnew].
    case_decide as Hd; [by apply IH|]. destruct Hb' as [|Hb']; [done|].
    unfold open_fd. erewrite M_bind_run by done. rewrite Hb'. erewrite M_bind_run by done.
    set (s1 := set_kernel _ _).
    assert (Hs1 : ∀ fd, get_sock s1 fd = get_sock s fd).
    { intros fd. destruct (get_sock_close (socket b) (set_sock (socket b) fresh_sock s) fd) as (s2 & [= <-] & E).
      fold s1 in E. rewrite E, get_set_sock. case_decide as Hfd; [by rewrite <- Hfd|done]. }
    destruct (IH s1 Hpre) as (s' & E & Hs'); [done| |].
    { eapply Forall_impl; [exact Hnew|]. intros x. cbn. by rewrite Hs1. }
    exists s'. split; [done|]. intros fd. rewrite Hs', Hs1. done.
Qed.

(** [create_and_bind] returns the socket of the first address that can be bound,
    and leaves open no other descriptor than that one: the sockets of the addresses
    before it are closed. *)
Theorem create_and_bind_first s pre a post :
  Forall (λ b, socket b = -1 ∨ bind (socket b) b = false) pre → bindable a →
  Forall (λ b, get_sock s (socket b) = None) (pre ++ [a]) →
  ∃ s', create_and_bind (Some (pre ++ a :: post)) s = Ok (socket a, s')
    ∧ ∀ fd, get_sock s' fd = if decide (fd = socket a) then Some fresh_sock else get_sock s fd.
Proof.
  intros Hpre Ha Hnew. destruct (bind_loop_first pre a post s Hpre Ha Hnew) as (s' & E & Hs').
  exists s'. split; [|done]. unfold create_and_bind. by rewrite (M_bind_run _ _ _ _ _ E).
Qed.

End Setup.

(** * Witnesses *)

(** Of three addresses the first gives no socket and the second is in use. *)
Lemma create_and_bind_first_witness :
  ∃ s', create_and_bind Z (λ a, a) (λ _ a, bool_decide (a = 6)) (Some [-1; 5; 6; 7]) (mk_kernel ∅ ∅)
      = Ok (6, s')
    ∧ ∀ fd, get_sock s' fd = if decide (fd = 6) then Some fresh_sock else get_sock (mk_kernel ∅ ∅) fd.
Proof.
  apply (create_and_bind_first Z (λ a, a) (λ _ a, bool_decide (a = 6)) (mk_kernel ∅ ∅) [-1; 5] 6 [7]).
  - apply Forall_cons. split; [by left|]. apply Forall_cons. split; [by right|constructor].
  - split; [done|reflexivity].
  - repeat constructor.
Defined.

Lemma sendall_sends_prefix_witness :
  let so := mk_sock [] [TxAccept 2; TxAgain; TxAccept 9] [] in
  sendall 4 7 (Some <$> [1; 2; 3; 4]) 4 (mk_kernel {[ 7 := so ]} ∅)
    = Ok ((-1, 2), set_sock 7 (mk_sock [] [TxAccept 9] (Some <$> [1; 2])) (mk_kernel {[ 7 := so ]} ∅))
  ∧ 0 ≤ 2 ≤ 4.
Proof.
  exact (sendall_sends_prefix (mk_kernel {[ 7 := mk_sock [] [TxAccept 2; TxAgain; TxAccept 9] [] ]} ∅)
    7 (mk_sock [] [TxAccept 2; TxAgain; TxAccept 9] []) (Some <$> [1; 2; 3; 4]) 4
    eq_refl ltac:(done) eq_refl).
Defined.

(** Three of five bytes, then the end of the stream: 0 is returned. *)
Lemma recvbytes_reads_witness :
  let so := mk_sock [RxData 1 [2; 3]; RxClosed] [] [] in
  let rb := mk_ringbuf ∅ 0 0 8 false in
  ∃ rb', recvbytes 3 7 rb 0 5 (mk_kernel {[ 7 := so ]} ∅)
      = Ok ((0, rb'), set_sock 7 (mk_sock [RxClosed] [] []) (mk_kernel {[ 7 := so ]} ∅))
    ∧ rb_repr rb' [1; 2; 3] ∧ (Ended = Filled → 3 = 5).
Proof.
  exact (recvbytes_reads (mk_kernel {[ 7 := mk_sock [RxData 1 [2; 3]; RxClosed] [] [] ]} ∅) 7
    (mk_sock [RxData 1 [2; 3]; RxClosed] [] []) (mk_ringbuf ∅ 0 0 8 false) [] 0 5
    eq_refl (reset_repr (mk_ringbuf ∅ 0 0 8 false) ltac:(done)) ltac:(done)).
Defined.
