(* ===== verification/Receive.v ===== *)
(** Receiving one packet: [recv_packet] of [server.c], from a socket through the
    ring buffer to a byte buffer that holds a whole frame. *)
From stdpp Require Import base numbers option list gmap.
From Stdlib Require Import ZArith Lia.
From S2P Require Import Prelude Memory Ringbuf Buffer Network.

Local Open Scope Z_scope.

(** * Operations *)

Section Operations.
Context {St : Type} `{HasKernel St}.

(** [sizeof(uint8_t) + sizeof(uint32_t)] *)
Definition HEADLEN : Z := 5.

(** A bound for the loops over a socket's trace. *)
Definition rx_fuel (fd : Z) : M St nat := λ s,
  Ok (match get_sock s fd with Some so => S (length (rx so)) | None => 1%nat end, s).

Definition recv_bytes (fd : Z) (rbuf : Ringbuffer) (read_all bufsize : Z) : M St (Z * Ringbuffer) :=
  fuel ← rx_fuel fd;
  recvbytes fuel fd rbuf read_all bufsize.

(** [while (n < HEADLEN)]: [n] is a [size_t], so an error adds 2^64 - 1 and
    [n < 0] never holds.  The answer is [None] when the function returns NULL. *)
Fixpoint header_loop (fuel : nat) (clientfd : Z) (rbuf : Ringbuffer) (n : Z)
    : M St (option () * Ringbuffer) :=
  if decide (n < HEADLEN) then
    match fuel with
    | O => lift (Err NoFuel)
    | S fuel =>
        '(r, rbuf) ← recv_bytes clientfd rbuf 0 HEADLEN;
        let n := wrap64 (n + r) in
        if decide (n < 0) then
          shutdown clientfd;;
          close clientfd;;
          mret (None, rbuf)
        else if decide (n = 0) then mret (None, rbuf)
        else header_loop fuel clientfd rbuf n
    end
  else mret (Some (), rbuf).

(** [ringbuf_pop(rbuf, bytearray++)], [n] times from index [i] of an array; a pop
    of an empty ring stores nothing. *)
Fixpoint pop_into (n : nat) (rbuf : Ringbuffer) (arr : list (option Z)) (i : nat)
    : res (Ringbuffer * list (option Z)) :=
  match n with
  | O => Ok (rbuf, arr)
  | S n =>
      '(_, d, rbuf) ← ringbuf_pop rbuf;
      arr ← match d with
            | None => Ok arr
            | Some v => _ ← require (bool_decide (i < length arr)%nat) OutOfBounds;
                        Ok (<[i := Some v]> arr)
            end;
      pop_into n rbuf arr (S i)
  end.

(** The four bytes after the opcode, an unsigned big-endian number. *)
Definition load_tlen (tmp : list (option Z)) : res Z :=
  bytes ← slice tmp 1 4;
  bs ← of_option Indeterminate (mapM id bytes);
  Ok (ntohl (le_combine bs)).

(** [ringbuf_size(rbuf) < tlen - HEADLEN], the difference at type [uint32_t]. *)
Fixpoint body_loop (fuel : nat) (clientfd : Z) (rbuf : Ringbuffer) (tlen : Z)
    : M St (option () * Ringbuffer) :=
  if decide (ringbuf_size rbuf < wrap32 (tlen - HEADLEN)) then
    match fuel with
    | O => lift (Err NoFuel)
    | S fuel =>
        '(r, rbuf) ← recv_bytes clientfd rbuf 0 (wrap32 (tlen - HEADLEN));
        let n := wrap64 r in
        if decide (n < 0) then
          shutdown clientfd;;
          close clientfd;;
          mret (None, rbuf)
        else body_loop fuel clientfd rbuf tlen
    end
  else mret (Some (), rbuf).

(** The packet and its opcode; [None] for a NULL buffer. *)
Definition recv_packet (fuel : nat) (clientfd : Z) (rbuf : Ringbuffer)
    : M St (option (Buffer * Z) * Ringbuffer) :=
  '(go, rbuf) ← header_loop fuel clientfd rbuf 0;
  if decide (go = None) then mret (None, rbuf) else
  let tmp := replicate (Z.to_nat (ringbuf_size rbuf)) None in
  '(rbuf, tmp) ← lift (pop_into (Z.to_nat HEADLEN) rbuf tmp 0);
  tlen ← lift (load_tlen tmp);
  '(go, rbuf) ← body_loop fuel clientfd rbuf tlen;
  if decide (go = None) then mret (None, rbuf) else
  let b := buffer_init (Z.to_nat tlen) in
  head ← lift (slice tmp 0 HEADLEN);
  _ ← lift (slice (b_data b) 0 HEADLEN);
  let data := splice 0 head (b_data b) in
  '(rbuf, data) ← lift (pop_into (Z.to_nat (wrap32 (tlen - HEADLEN))) rbuf data (Z.to_nat HEADLEN));
  opc ← lift (bs ← slice tmp 0 1; of_option Indeterminate (mapM id bs));
  mret (Some (mk_buffer (b_size b) (b_pos b) data, le_combine opc), rbuf).

End Operations.

(** * Streams and frames *)

(** The bytes a trace carries. *)
Definition rx_data (t : list rx_event) : list Z :=
  t ≫= λ e, match e with RxData b bs => b :: bs | _ => [] end.

(** The stream neither ends nor fails here. *)
Definition open_event (e : rx_event) : Prop :=
  match e with RxData _ _ | RxAgain => True | RxFail | RxClosed => False end.

(** A frame: the opcode, the total length, the payload. *)
Definition frame (opcode : Z) (payload : list Z) : list Z :=
  opcode :: be_split 4 (Z.of_nat (length payload) + HEADLEN) ++ payload.

(** * Lemmas *)

Section Lemmas.
Context {St : Type} `{HasKernel St}.

Lemma rx_data_app t1 t2 : rx_data (t1 ++ t2) = rx_data t1 ++ rx_data t2.
Proof. apply bind_app. Qed.

Lemma recv_bytes_run (s : St) fd so rb l bufsize ds st rest :
  get_sock s fd = Some so → rb_repr rb l → 0 ≤ bufsize →
  rx_read (rx so) (Z.to_nat bufsize) = (ds, st, rest) → Z.of_nat (length ds) < 2 ^ 31 →
  ∃ rb', recv_bytes fd rb 0 bufsize s
      = Ok ((read_status ds st, rb'), set_sock fd (mk_sock rest (tx so) (sent_bytes so)) s)
    ∧ rb_repr rb' (l ++ take (Z.to_nat (rb_max rb) - length l) ds) ∧ rb_max rb' = rb_max rb.
Proof.
  intros Hso Hl Hb Hr Hd. destruct so as [t tx0 out]. unfold recv_bytes, rx_fuel.
  erewrite M_bind_run by (by rewrite Hso). unfold recvbytes. cbn [rx tx sent_bytes] in *.
  destruct (recvbytes_loop_run t s fd rb l tx0 out bufsize 0 (S (length t)) ds st rest Hso Hl)
    as (rb' & E & Hl' & Hm); [lia|lia|by rewrite Z.sub_0_r|lia|].
  exists rb'. rewrite E. split_and!; [by destruct st|done|done].
Qed.

(** What a read finds on a stream that stays open until it would block. *)
Lemma rx_read_open t1 t2 k : Forall open_event t1 →
  ∃ ds st rest, rx_read (t1 ++ RxAgain :: t2) k = (ds, st, rest)
    ∧ (st = Filled ∨ st = WouldBlock) ∧ (length ds ≤ k)%nat
    ∧ ((∃ t1', rest = t1' ++ RxAgain :: t2 ∧ Forall open_event t1' ∧ ds ++ rx_data t1' = rx_data t1
          ∧ (length ds = k ∧ (length t1' ≤ length t1)%nat ∨ (length t1' < length t1)%nat))
       ∨ (rest = t2 ∧ ds = rx_data t1)).
Proof.
  revert k. induction t1 as [|e t1 IH]; intros [|k] Hop; cbn [app rx_read].
  - exists [], Filled, (RxAgain :: t2). split_and!; [done|by left|done|]. left. exists [].
    split_and!; [done|constructor|done|left; cbn; lia].
  - exists [], WouldBlock, t2. split_and!; [done|by right|cbn; lia|]. by right.
  - exists [], Filled, (e :: t1 ++ RxAgain :: t2). split_and!; [done|by left|cbn; lia|]. left. exists (e :: t1).
    split_and!; [done|done|done|left; split; [done|lia]].
  - apply Forall_cons in Hop as [He Hop]. destruct e as [b bs| | |]; try done.
    + case_decide as Hd.
      * destruct (IH (S k - length (b :: bs))%nat Hop) as (ds & st & rest & -> & Hs & Hlen & Hcase).
        exists (b :: bs ++ ds), st, rest. cbn in *. split_and!; [done|done|rewrite length_app; lia|].
        destruct Hcase as [(t1' & -> & Hop' & Heq & Hle)|[-> ->]]; [left|by right].
        exists t1'. rewrite length_app. split_and!; [done|done| |lia].
        rewrite <- (assoc_L (++)), Heq. done.
      * exists (take (S k) (b :: bs)), Filled, (rx_take (RxData b bs :: t1 ++ RxAgain :: t2) (S k)).2.
        assert (Hlen : length (take (S k) (b :: bs)) = S k) by (rewrite length_take; lia).
        split_and!; [done|by left|lia|]. left. cbn [rx_take snd].
        pose proof (take_drop (S k) (b :: bs)) as Htd.
        destruct (drop (S k) (b :: bs)) as [|b' bs'] eqn:Edrop.
        { apply (f_equal length) in Edrop. rewrite length_drop in Edrop. cbn in *. lia. }
        exists (RxData b' bs' :: t1). split_and!; [done|by constructor| |left; cbn; split; [exact Hlen|lia]].
        change (rx_data (RxData b' bs' :: t1)) with ((b' :: bs') ++ rx_data t1).
        rewrite (assoc_L (++)), Htd. done.
    + exists [], WouldBlock, (t1 ++ RxAgain :: t2). split_and!; [done|by right|cbn; lia|]. left.
      exists t1. split_and!; [done|done|done|]. right. cbn. lia.
Qed.

(** [x] are the bytes of [all] read so far, [t] has the others, then would block. *)
Definition pending (all : list Z) (t2 : list rx_event) (x : list Z) (t : list rx_event) : Prop :=
  (∃ t1, t = t1 ++ RxAgain :: t2 ∧ Forall open_event t1 ∧ x ++ rx_data t1 = all)
  ∨ (t = t2 ∧ x = all).

Lemma pending_drop all t2 x t n : (n ≤ length x)%nat →
  pending all t2 x t → pending (drop n all) t2 (drop n x) t.
Proof.
  intros Hn [(t1 & -> & Hop & <-)|[-> ->]]; [left|by right].
  exists t1. by rewrite drop_app_le.
Qed.

Lemma pending_prefix all t2 x t : pending all t2 x t → ∃ y, all = x ++ y.
Proof. intros [(t1 & _ & _ & <-)|[_ ->]]; [by eexists|exists []; by rewrite app_nil_r]. Qed.

(** One read towards [need] bytes. *)
Lemma pending_read s fd so rb l all t2 req need :
  get_sock s fd = Some so → rb_repr rb l → pending all t2 l (rx so) →
  (length l < need ≤ length all)%nat → (need ≤ length l + Z.to_nat req)%nat → 0 ≤ req < 2 ^ 31 →
  ∃ ds st rest rb', recv_bytes fd rb 0 req s
      = Ok ((Z.of_nat (length ds), rb'), set_sock fd (mk_sock rest (tx so) (sent_bytes so)) s)
    ∧ rx_read (rx so) (Z.to_nat req) = (ds, st, rest)
    ∧ rb_repr rb' (l ++ take (Z.to_nat (rb_max rb) - length l) ds) ∧ rb_max rb' = rb_max rb
    ∧ (length ds ≤ Z.to_nat req)%nat ∧ pending all t2 (l ++ ds) rest
    ∧ (length rest ≤ length (rx so))%nat
    ∧ (length (l ++ ds) < need → length rest < length (rx so))%nat.
Proof.
  intros Hso Hl [(t1 & Ht & Hop & Hall)|[_ ->]] Hneed Hreq Hr; [|lia].
  destruct (rx_read_open t1 t2 (Z.to_nat req) Hop) as (ds & st & rest & E & Hst & Hlen & Hcase).
  rewrite <- Ht in E.
  destruct (recv_bytes_run s fd so rb l req ds st rest Hso Hl) as (rb' & E' & Hl' & Hm);
    [lia|done|lia|]. exists ds, st, rest, rb'. split_and!; [|done..| | |].
  - rewrite E'. by destruct Hst as [-> | ->].
  - destruct Hcase as [(t1' & -> & Hop' & Heq & _)|[-> ->]]; [left|by right].
    exists t1'. split_and!; [done|done|]. by rewrite <- (assoc_L (++)), Heq.
  - rewrite Ht, length_app. cbn.
    destruct Hcase as [(t1' & -> & _ & _ & Hc)|[-> ->]]; [rewrite length_app; cbn; lia|lia].
  - rewrite Ht, !length_app. cbn. intros Hlt. rewrite <- Hall, length_app in Hneed.
    destruct Hcase as [(t1' & -> & _ & _ & Hc)|[-> ->]]; [rewrite length_app; cbn; lia|lia].
Qed.

Lemma rx_read_nonempty b bs t k ds st rest :
  rx_read (RxData b bs :: t) (S k) = (ds, st, rest) → ds ≠ [].
Proof.
  cbn [rx_read]. case_decide; [destruct (rx_read t _) as [[??]?]|]; by intros [= <- <- <-].
Qed.

Lemma header_loop_run fuel : ∀ s fd so rb l all t2,
  get_sock s fd = Some so → rb_repr rb l → 9 ≤ rb_max rb → pending all t2 l (rx so) →
  (length l < 5 ≤ length all)%nat → (length (rx so) ≤ fuel)%nat →
  (l = [] → ∃ b bs t, rx so = RxData b bs :: t) →
  ∃ l' rest rb', header_loop fuel fd rb (Z.of_nat (length l)) s
      = Ok ((Some (), rb'), set_sock fd (mk_sock rest (tx so) (sent_bytes so)) s)
    ∧ rb_repr rb' l' ∧ rb_max rb' = rb_max rb ∧ (5 ≤ length l')%nat ∧ pending all t2 l' rest
    ∧ (length rest ≤ length (rx so))%nat.
Proof.
  induction fuel as [|fuel IH]; intros s fd so rb l all t2 Hso Hl Hcap Hp Hlen Hf Hnil.
  { destruct Hp as [(t1 & Ht & _ & _)|[_ ->]]; [rewrite Ht, length_app in Hf; cbn in Hf|]; lia. }
  cbn [header_loop]. unfold HEADLEN. rewrite decide_True by lia.
  destruct (pending_read s fd so rb l all t2 5 5 Hso Hl Hp) as
    (ds & st & rest & rb1 & E & Er & Hl1 & Hm1 & Hds & Hp1 & Hle & Hdec); [lia|lia|done|].
  rewrite (M_bind_run _ _ _ _ _ E). rewrite take_ge in Hl1 by lia.
  assert (Hne : l ++ ds ≠ []).
  { intros [-> ->]%app_nil. destruct (Hnil eq_refl) as (b & bs & t & Ht). rewrite Ht in Er.
    by apply rx_read_nonempty in Er. }
  assert (Hn : 0 < Z.of_nat (length (l ++ ds))) by (destruct (l ++ ds); cbn; [done|lia]).
  assert (Hub : (length (l ++ ds) ≤ 9)%nat) by (rewrite length_app; lia).
  rewrite <- Nat2Z.inj_add, <- length_app, wrap_small by (unfold urange; lia).
  rewrite (decide_False (P := _ < 0)), (decide_False (P := _ = 0)) by lia.
  destruct (decide (length (l ++ ds) < 5)%nat) as [Hlt|Hge].
  - edestruct (IH (set_sock fd (mk_sock rest (tx so) (sent_bytes so)) s) fd
      (mk_sock rest (tx so) (sent_bytes so)) rb1 (l ++ ds) all t2)
      as (l' & rest' & rb' & E' & Hl' & Hm' & Hlen' & Hp' & Hr');
      [apply get_set_sock_eq|done|lia|done|lia|specialize (Hdec Hlt); cbn; lia|done|].
    exists l', rest', rb'. rewrite E', set_set_sock. cbn in *. specialize (Hdec Hlt).
    split_and!; [done|done|lia|done|done|lia].
  - exists (l ++ ds), rest, rb1. split_and!; [|done|done|lia|done|].
    + destruct fuel; cbn [header_loop]; unfold HEADLEN; by rewrite decide_False by lia.
    + done.
Qed.

Lemma repr_le rb l : rb_repr rb l → Z.of_nat (length l) ≤ rb_max rb.
Proof. intros Hl. pose proof (repr_size rb l Hl). pose proof (size_range rb (proj1 Hl)). lia. Qed.

Lemma body_loop_run fuel : ∀ s fd so rb l all t2 tlen need,
  get_sock s fd = Some so → rb_repr rb l →
  wrap32 (tlen - HEADLEN) = Z.of_nat need → Z.of_nat need < 2 ^ 31 → Z.of_nat need ≤ rb_max rb →
  (pending all t2 l (rx so) ∧ (need ≤ length all)%nat) ∨ ((need ≤ length l)%nat ∧ take need l = take need all) →
  (length l < need → length (rx so) ≤ fuel)%nat →
  ∃ l' rest rb', body_loop fuel fd rb tlen s
      = Ok ((Some (), rb'), set_sock fd (mk_sock rest (tx so) (sent_bytes so)) s)
    ∧ rb_repr rb' l' ∧ rb_max rb' = rb_max rb ∧ (need ≤ length l')%nat ∧ take need l' = take need all.
Proof.
  induction fuel as [|fuel IH]; intros s fd so rb l all t2 tlen need Hso Hl Htl Hn Hcap Hp Hf;
    (destruct (decide (length l < need)%nat) as [Hlt|Hge]; [destruct Hp as [[Hp Hall]|Hp]; [|lia]|]).
  - specialize (Hf Hlt).
    destruct Hp as [(t1 & Ht & _ & _)|[_ ->]]; [rewrite Ht, length_app in Hf; cbn in Hf|]; lia.
  - cbn [body_loop]. rewrite (repr_size rb l Hl), Htl, decide_False by lia.
    exists l, (rx so), rb. rewrite set_sock_id by (by destruct so). split_and!; [done..|lia|].
    destruct Hp as [[Hp _]|[_ Hp]]; [|done]. destruct (pending_prefix _ _ _ _ Hp) as [y ->].
    by rewrite take_app_le by lia.
  - cbn [body_loop]. rewrite (repr_size rb l Hl), Htl, decide_True by lia.
    destruct (pending_read s fd so rb l all t2 (Z.of_nat need) need Hso Hl Hp) as
      (ds & st & rest & rb1 & E & _ & Hl1 & Hm1 & Hds & Hp1 & Hle & Hdec); [lia..|].
    rewrite (M_bind_run _ _ _ _ _ E), wrap_small by (unfold urange; lia).
    rewrite decide_False by lia. pose proof (repr_le rb l Hl) as Hlm.
    set (d := take (Z.to_nat (rb_max rb) - length l) ds) in *.
    destruct (pending_prefix _ _ _ _ Hp1) as [y Hy].
    edestruct (IH (set_sock fd (mk_sock rest (tx so) (sent_bytes so)) s) fd
      (mk_sock rest (tx so) (sent_bytes so)) rb1 (l ++ d) all t2 tlen need)
      as (l' & rest' & rb' & E' & Hl' & Hm' & Hlen' & Htk);
      [apply get_set_sock_eq|done|done|lia|lia| | |].
    + destruct (decide (length (l ++ ds) < need)%nat) as [Hlt'|Hge'].
      * left. split; [|done]. unfold d. rewrite length_app in Hlt'. by rewrite take_ge by lia.
      * right. assert (need ≤ length (l ++ d))%nat.
        { unfold d. rewrite length_app in *. rewrite length_take. lia. }
        split; [done|]. rewrite Hy. unfold d in *. rewrite length_app, length_take in *.
        rewrite (take_app_le (l ++ ds)) by (rewrite length_app; lia).
        rewrite !(take_app_ge l) by lia. f_equal. rewrite take_take. f_equal. lia.
    + unfold d. rewrite length_app, length_take. intros Hlt'. specialize (Hf Hlt).
      cbn. rewrite length_app in Hdec. lia.
    + exists l', rest', rb'. rewrite E', set_set_sock. by rewrite Hm1 in Hm'.
  - cbn [body_loop]. rewrite (repr_size rb l Hl), Htl, decide_False by lia.
    exists l, (rx so), rb. rewrite set_sock_id by (by destruct so). split_and!; [done..|lia|].
    destruct Hp as [[Hp _]|[_ Hp]]; [|done]. destruct (pending_prefix _ _ _ _ Hp) as [y ->].
    by rewrite take_app_le by lia.
Qed.

Lemma pop_into_run xs : ∀ rb l arr i,
  rb_repr rb (xs ++ l) → (i + length xs ≤ length arr)%nat →
  ∃ rb', pop_into (length xs) rb arr i = Ok (rb', splice i (Some <$> xs) arr)
    ∧ rb_repr rb' l ∧ rb_max rb' = rb_max rb.
Proof.
  induction xs as [|x xs IH]; intros rb l arr i Hl Hi; cbn [pop_into length app fmap list_fmap] in *.
  - exists rb. split_and!; [|done|done]. unfold splice. cbn. by rewrite Nat.add_0_r, take_drop.
  - destruct (pop_repr rb x (xs ++ l) Hl) as (rb1 & E & Hl1 & Hm1). rewrite E. cbn.
    rewrite bool_decide_eq_true_2 by lia. cbn.
    destruct (IH rb1 l (<[i:=Some x]> arr) (S i) Hl1) as (rb' & E' & Hl' & Hm');
      [rewrite length_insert; lia|].
    exists rb'. rewrite E'. split_and!; [|done|lia]. do 2 f_equal.
    assert (<[i:=Some x]> arr = splice i [Some x] arr) as ->.
    { unfold splice. rewrite insert_take_drop by lia. cbn. by rewrite Nat.add_1_r. }
    replace (S i) with (i + length [Some x])%nat by (cbn; lia).
    rewrite splice_splice by lia. done.
Qed.

Lemma load_tlen_run op bs rest : length bs = 4%nat → Forall is_byte bs →
  load_tlen (Some op :: (Some <$> bs) ++ rest) = Ok (be_combine bs).
Proof.
  intros Hlen Hb. unfold load_tlen. rewrite slice_run; [|lia|lia|].
  2: { cbn. rewrite length_app, length_fmap, Hlen. lia. }
  change (drop (Z.to_nat 1) _) with ((Some <$> bs) ++ rest).
  rewrite take_app_length' by (by rewrite length_fmap). cbn.
  rewrite mapM_id_fmap_Some. cbn [of_option mbind res_bind].
  unfold ntohl. by rewrite <- bswap_combine, Hlen.
Qed.

Lemma splice_0 {A} (x l : list A) : splice 0 x l = x ++ drop (length x) l.
Proof. done. Qed.

(** The first five bytes of a stream that carries a frame. *)
Lemma frame_header op payload more l y :
  l ++ y = frame op payload ++ more → (5 ≤ length l)%nat →
  ∃ m, l = (op :: be_split 4 (Z.of_nat (length payload) + HEADLEN)) ++ m ∧ m ++ y = payload ++ more.
Proof.
  unfold frame. rewrite app_comm_cons, <- (assoc_L (++)). intros Heq Hl. symmetry in Heq.
  apply app_eq_inv in Heq as [(k & E1 & E2)|(k & E1 & E2)]; [|by exists k].
  assert (k = []) as ->.
  { apply (f_equal length) in E1. cbn [length] in E1. rewrite length_app, length_be_split in E1.
    destruct k; [done|cbn in E1; lia]. }
  rewrite app_nil_r in E1. exists []. by rewrite app_nil_r, <- E1.
Qed.

Lemma frame_length op payload : length (frame op payload) = (5 + length payload)%nat.
Proof. unfold frame. cbn [length]. rewrite length_app, length_be_split. lia. Qed.

(** The rest of [recv_packet] once the header is in, given what its second loop does. *)
Lemma recv_packet_tail fuel fd rb (s s1 : St) rb1 m op payload (Q : St → Prop) :
  let tl := Z.of_nat (length payload) + HEADLEN in
  header_loop fuel fd rb 0 s = Ok ((Some (), rb1), s1) →
  rb_repr rb1 ((op :: be_split 4 tl) ++ m) → Z.of_nat (length payload) < 2 ^ 31 - 5 →
  (∀ rb2, rb_repr rb2 m → rb_max rb2 = rb_max rb1 →
    ∃ l' rb3 s2, body_loop fuel fd rb2 tl s1 = Ok ((Some (), rb3), s2)
      ∧ rb_repr rb3 l' ∧ take (length payload) l' = payload ∧ Q s2) →
  ∃ rb' s2, recv_packet fuel fd rb s
    = Ok ((Some (mk_buffer (length (frame op payload)) 0 (Some <$> frame op payload), op), rb'), s2)
    ∧ Q s2.
Proof.
  intros tl Eh Hl Hpl Hbody. set (hdr := op :: be_split 4 tl) in *.
  assert (Hhdr : length hdr = 5%nat) by (cbn [hdr length]; by rewrite length_be_split).
  assert (Htl : wrap32 (tl - HEADLEN) = Z.of_nat (length payload)).
  { unfold tl. rewrite wrap_small by (unfold urange, HEADLEN in *; lia). lia. }
  unfold recv_packet. rewrite (M_bind_run _ _ _ _ _ Eh). rewrite decide_False by done.
  destruct (pop_into_run hdr rb1 m (replicate (Z.to_nat (ringbuf_size rb1)) None) 0 Hl)
    as (rb2 & E2 & Hl2 & Hm2).
  { rewrite length_replicate, (repr_size _ _ Hl), length_app. lia. }
  change (Z.to_nat HEADLEN) with 5%nat. rewrite <- Hhdr. rewrite E2. cbn [lift].
  erewrite M_bind_run by done. rewrite splice_0, length_fmap.
  set (tmp := (Some <$> hdr) ++ _).
  assert (Etl : load_tlen tmp = Ok tl).
  { unfold tmp, hdr. rewrite fmap_cons. cbn [app].
    rewrite load_tlen_run by (apply length_be_split || apply be_split_bytes).
    f_equal. rewrite be_combine_split. apply Z.mod_small. unfold tl, HEADLEN. cbn. lia. }
  rewrite Etl. cbn [lift]. erewrite M_bind_run by done.
  destruct (Hbody rb2 Hl2 Hm2) as (l' & rb3 & s2 & E3 & Hl3 & Htk & HQ).
  rewrite (M_bind_run _ _ _ _ _ E3). rewrite decide_False by done.
  assert (Hts : slice tmp 0 HEADLEN = Ok (Some <$> hdr)).
  { unfold slice, tmp. rewrite bool_decide_eq_true_2.
    - cbn [mbind res_bind require]. change (Z.to_nat 0) with 0%nat. rewrite drop_0.
      by rewrite take_app_length' by (by rewrite length_fmap).
    - rewrite length_app, length_fmap, Hhdr. unfold HEADLEN. lia. }
  rewrite Hts. cbn [lift]. erewrite M_bind_run by done.
  assert (Hnat : Z.to_nat tl = (5 + length payload)%nat) by (unfold tl, HEADLEN; lia).
  erewrite M_bind_run; last first.
  { rewrite slice_run; [done|done|done|]. cbn [b_data buffer_init].
    rewrite length_replicate, Hnat. unfold HEADLEN. lia. }
  cbn [b_data buffer_init b_size b_pos]. rewrite Htl, Nat2Z.id.
  rewrite <- (take_drop (length payload) l'), Htk in Hl3.
  rewrite splice_0, length_fmap, Hhdr, Hnat.
  destruct (pop_into_run payload rb3 (drop (length payload) l')
    ((Some <$> hdr) ++ drop 5 (replicate (5 + length payload) None)) 5 Hl3) as (rb4 & E4 & _ & _).
  { rewrite length_app, length_fmap, length_drop, length_replicate, Hhdr. lia. }
  rewrite E4. cbn [lift]. erewrite M_bind_run by done. cbv iota beta.
  erewrite M_bind_run; last first.
  { assert (slice tmp 0 1 = Ok [Some op]) as ->; [|done].
    unfold tmp, hdr. unfold slice. rewrite bool_decide_eq_true_2; [done|]. cbn. lia. }
  replace (le_combine [op]) with op by (cbn; lia). rewrite frame_length.
  exists rb4, s2. split; [|done]. unfold mret, M_ret. do 6 f_equal.
  rewrite <- Hhdr, <- (length_fmap Some hdr) at 1. rewrite splice_app, length_fmap.
  rewrite drop_drop, drop_ge by (rewrite length_replicate; lia). rewrite app_nil_r.
  unfold frame. fold tl. by rewrite app_comm_cons, fmap_app.
Qed.

(** ** Loops that never end *)

(** All the bytes a trace will ever give: an error does not end it. *)
Fixpoint rx_all (t : list rx_event) : list Z :=
  match t with
  | [] | RxClosed :: _ => []
  | RxData b bs :: t => (b :: bs) ++ rx_all t
  | RxAgain :: t | RxFail :: t => rx_all t
  end.

Lemma rx_read_all t k : let '(ds, st, rest) := rx_read t k in ds ++ rx_all rest = rx_all t.
Proof.
  revert k. induction t as [|e t IH]; intros [|k]; try done. destruct e as [b bs| | |]; try done.
  cbn [rx_read]. case_decide.
  - specialize (IH (S k - length (b :: bs))%nat). destruct (rx_read t _) as [[ds st] rest].
    cbn [rx_all]. by rewrite <- (assoc_L (++)), IH.
  - cbn [rx_take snd rx_all]. pose proof (take_drop (S k) (b :: bs)) as Htd.
    destruct (drop (S k) (b :: bs)) as [|b' bs'] eqn:Ed.
    + apply (f_equal length) in Ed. rewrite length_drop in Ed. cbn in *. lia.
    + cbn [rx_all]. by rewrite (assoc_L (++)), Htd.
Qed.

Lemma body_loop_spins fuel : ∀ (s : St) fd so rb l tlen,
  get_sock s fd = Some so → rb_repr rb l →
  (rb_max rb < wrap32 (tlen - HEADLEN)
   ∨ Z.of_nat (length l + length (rx_all (rx so))) < wrap32 (tlen - HEADLEN)) →
  Z.of_nat (length (rx_all (rx so))) < 2 ^ 31 →
  body_loop fuel fd rb tlen s = Err NoFuel.
Proof.
  induction fuel as [|fuel IH]; intros s fd so rb l tlen Hso Hl Hneed Hall;
    pose proof (repr_le rb l Hl); cbn [body_loop]; rewrite (repr_size rb l Hl), decide_True by lia; [done|].
  destruct (rx_read (rx so) (Z.to_nat (wrap32 (tlen - HEADLEN)))) as [[ds st] rest] eqn:Er.
  pose proof (rx_read_all (rx so) (Z.to_nat (wrap32 (tlen - HEADLEN)))) as Hra. rewrite Er in Hra.
  rewrite <- Hra, length_app in Hneed, Hall.
  destruct (recv_bytes_run s fd so rb l (wrap32 (tlen - HEADLEN)) ds st rest Hso Hl)
    as (rb' & E & Hl' & Hm); [lia|done|lia|].
  rewrite (M_bind_run _ _ _ _ _ E).
  pose proof (wrap_range 64 (read_status ds st) ltac:(done)) as Hw. unfold urange in Hw.
  rewrite decide_False by lia.
  eapply IH; [apply get_set_sock_eq|exact Hl'| |cbn; lia].
  rewrite Hm, length_app, length_take. cbn. lia.
Qed.

(** The first read of the header decides between the cases. *)
Lemma header_loop_first fuel (s : St) fd so rb ds st rest :
  get_sock s fd = Some so → rb_repr rb [] → 9 ≤ rb_max rb → rx_read (rx so) 5 = (ds, st, rest) →
  ∃ rb', header_loop (S fuel) fd rb 0 s
      = (let n := wrap64 (read_status ds st) in
         if decide (n = 0) then mret (None, rb') else header_loop fuel fd rb' n)
        (set_sock fd (mk_sock rest (tx so) (sent_bytes so)) s)
    ∧ rb_repr rb' ds ∧ rb_max rb' = rb_max rb.
Proof.
  intros Hso Hl Hcap Er. destruct (rx_read_length _ _ _ _ _ Er) as [Hlen _].
  destruct (recv_bytes_run s fd so rb [] 5 ds st rest Hso Hl) as (rb' & E & Hl' & Hm); [lia|done|lia|].
  rewrite app_nil_l, take_ge in Hl' by (cbn; lia).
  exists rb'. split_and!; [|done|done].
  cbn [header_loop]. rewrite decide_True by done. unfold HEADLEN at 1. rewrite (M_bind_run _ _ _ _ _ E).
  rewrite Z.add_0_l.
  pose proof (wrap_range 64 (read_status ds st) ltac:(done)) as Hw. unfold urange in Hw.
  by rewrite (decide_False (P := _ < 0)) by lia.
Qed.

(** A chunk, or nothing. *)
Definition rx_cons (bs : list Z) (t : list rx_event) : list rx_event :=
  match bs with [] => t | b :: bs => RxData b bs :: t end.

Lemma rx_read_chunk bs t k : (k ≤ length bs)%nat →
  rx_read (rx_cons bs t) k = (take k bs, Filled, rx_cons (drop k bs) t).
Proof.
  destruct bs as [|b bs], k as [|k]; cbn [rx_cons length]; intros Hk; [destruct t; done|lia|done|].
  cbn [rx_read]. case_decide as Hd; [|done]. cbn in Hd.
  replace (S k - length (b :: bs))%nat with 0%nat by (cbn; lia).
  rewrite take_ge, drop_ge by (cbn; lia). cbn [rx_cons].
  destruct t; cbn [rx_read]; by rewrite app_nil_r.
Qed.

Lemma rx_read_failed t k ds rest : rx_read t k = (ds, Failed, rest) → (length ds < k)%nat.
Proof.
  revert k ds. induction t as [|e t IH]; intros [|k] ds; cbn [rx_read]; try done.
  destruct e as [b bs| | |]; try done; [|by intros [= <- <-]; cbn; lia].
  case_decide; [|done]. destruct (rx_read t _) as [[ds' st'] r'] eqn:E. intros [= <- -> <-].
  apply IH in E. cbn in *. rewrite length_app. lia.
Qed.

(** Popping more than there is. *)
Lemma pop_into_short n : ∀ l rb (arr : list (option Z)) i,
  rb_repr rb l → (i + length l ≤ length arr)%nat →
  ∃ rb' arr', pop_into n rb arr i = Ok (rb', arr') ∧ length arr' = length arr.
Proof.
  induction n as [|n IH]; intros l rb arr i Hl Hi; cbn [pop_into]; [by exists rb, arr|].
  destruct l as [|x l].
  - rewrite (pop_empty rb Hl). cbn [mbind res_bind].
    destruct (decide (i < length arr)%nat) as [Hlt|Hge]; [apply (IH [] rb arr (S i)); [done|cbn; lia]|].
    revert i Hi Hge. clear IH. intros i Hi Hge.
    assert (Hloop : ∀ n j, pop_into n rb arr j = Ok (rb, arr)).
    { clear -Hl. induction n as [|n IH]; intros j; cbn [pop_into]; [done|].
      rewrite (pop_empty rb Hl). cbn [mbind res_bind]. apply IH. }
    rewrite Hloop. eauto.
  - destruct (pop_repr rb x l Hl) as (rb1 & E & Hl1 & _). rewrite E. cbn [mbind res_bind].
    cbn in Hi. rewrite bool_decide_eq_true_2 by lia. cbn [require mbind res_bind].
    destruct (IH l rb1 (<[i:=Some x]> arr) (S i) Hl1) as (rb' & arr' & E' & Hlen);
      [rewrite length_insert; lia|]. rewrite length_insert in Hlen. eauto.
Qed.

(** A socket whose next packet is a frame: the first bytes are there, more may follow
    after pauses, and the stream is open until it is complete. *)
Definition carries (so : Sock) (op : Z) (payload more : list Z) : Prop :=
  ∃ b bs t1 t2, rx so = RxData b bs :: t1 ++ RxAgain :: t2 ∧ Forall open_event t1
    ∧ rx_data (RxData b bs :: t1) = frame op payload ++ more.

Lemma recv_packet_run (s : St) fd so rb op payload more :
  get_sock s fd = Some so → carries so op payload more →
  rb_repr rb [] → 9 ≤ ringbuf_capacity rb → Z.of_nat (length payload) ≤ ringbuf_capacity rb →
  Z.of_nat (length payload) < 2 ^ 31 - 5 →
  ∃ rb' s', recv_packet (length (rx so)) fd rb s
    = Ok ((Some (mk_buffer (length (frame op payload)) 0 (Some <$> frame op payload), op), rb'), s')
    ∧ ∃ rest, s' = set_sock fd (mk_sock rest (tx so) (sent_bytes so)) s.
Proof.
  unfold ringbuf_capacity. intros Hso (b & bs & t1 & t2 & Ht & Hop & Hdata) Hrb H9 Hcap Hpl.
  destruct (header_loop_run (length (rx so)) s fd so rb [] (frame op payload ++ more) t2 Hso Hrb H9)
    as (l1 & rest1 & rb1 & Eh & Hl1 & Hm1 & Hlen1 & Hp1 & Hle).
  { left. exists (RxData b bs :: t1). split_and!; [done|by constructor|done]. }
  { rewrite length_app, frame_length. cbn. lia. }
  { done. }
  { intros _. eauto. }
  destruct (pending_prefix _ _ _ _ Hp1) as [y Hy]. symmetry in Hy.
  destruct (frame_header _ _ _ _ _ Hy Hlen1) as (m & -> & Hm).
  eapply recv_packet_tail; [exact Eh|exact Hl1|done|].
  intros rb2 Hl2 Hm2. apply (pending_drop _ _ _ _ 5) in Hp1; [|done].
  set (hdr := op :: be_split 4 (Z.of_nat (length payload) + HEADLEN)) in *.
  assert (Hhdr : length hdr = 5%nat) by (cbn [hdr length]; by rewrite length_be_split).
  rewrite (drop_app_length' hdr) in Hp1 by done.
  replace (drop 5 (frame op payload ++ more)) with (payload ++ more) in Hp1; last first.
  { unfold frame. rewrite app_comm_cons, <- (assoc_L (++)). by rewrite drop_app_length'. }
  edestruct (body_loop_run (length (rx so)) (set_sock fd (mk_sock rest1 (tx so) (sent_bytes so)) s) fd
    (mk_sock rest1 (tx so) (sent_bytes so)) rb2 m (payload ++ more) t2
    (Z.of_nat (length payload) + HEADLEN) (length payload))
    as (l' & rest & rb3 & E3 & Hl3 & Hm3 & Hlen3 & Htk);
    [apply get_set_sock_eq|done| |lia|lia| |done|].
  { rewrite wrap_small by (unfold urange, HEADLEN; lia). lia. }
  { left. split; [done|]. rewrite length_app. lia. }
  exists l', rb3, (set_sock fd (mk_sock rest (tx so) (sent_bytes so)) s).
  rewrite E3, set_set_sock. rewrite take_app_length in Htk. split_and!; [done|done|done|by eexists].
Qed.

(** * Properties *)

(** C29. Whatever the chunks and the pauses in which a frame arrives, as long as its
    first bytes are there and the connection stays open, [recv_packet] returns a buffer
    with exactly the frame, and its opcode. *)
Theorem recv_packet_frame (s : St) fd so rb op payload more :
  get_sock s fd = Some so → carries so op payload more →
  rb_repr rb [] → 9 ≤ ringbuf_capacity rb → Z.of_nat (length payload) ≤ ringbuf_capacity rb →
  Z.of_nat (length payload) < 2 ^ 31 - 5 →
  ∃ rb' s', recv_packet (length (rx so)) fd rb s
    = Ok ((Some (mk_buffer (length (frame op payload)) 0 (Some <$> frame op payload), op), rb'), s')
    ∧ ∃ rest, s' = set_sock fd (mk_sock rest (tx so) (sent_bytes so)) s.
Proof. apply recv_packet_run. Qed.


(** One read fills the body when the ring holds less of it than is still to come. *)
Lemma body_loop_chunk (s : St) fd rb m chunk t tx0 out n :
  get_sock s fd = Some (mk_sock (rx_cons chunk t) tx0 out) → rb_repr rb m →
  (n ≤ length chunk)%nat → (length m < n)%nat → Z.of_nat (length m + n) ≤ rb_max rb → Z.of_nat n < 2 ^ 31 - 5 →
  ∃ rb', body_loop 2 fd rb (Z.of_nat n + HEADLEN) s
      = Ok ((Some (), rb'), set_sock fd (mk_sock (rx_cons (drop n chunk) t) tx0 out) s)
    ∧ rb_repr rb' (m ++ take n chunk).
Proof.
  intros Hso Hl Hn Hm Hcap Hlt.
  assert (Htl : wrap32 (Z.of_nat n + HEADLEN - HEADLEN) = Z.of_nat n).
  { rewrite wrap_small by (unfold urange, HEADLEN; lia). lia. }
  destruct (recv_bytes_run s fd _ rb m (Z.of_nat n) _ _ _ Hso Hl ltac:(lia)
    ltac:(rewrite Nat2Z.id; by apply rx_read_chunk)) as (rb' & E & Hl' & _); [rewrite length_take; lia|].
  rewrite take_ge in Hl' by (rewrite length_take; lia).
  exists rb'. split; [|exact Hl']. cbn [body_loop]. rewrite (repr_size _ _ Hl), Htl, decide_True by lia.
  rewrite (M_bind_run _ _ _ _ _ E).
  pose proof (wrap_range 64 (read_status (take n chunk) Filled) ltac:(done)) as Hw.
  unfold urange in Hw. rewrite (decide_False (P := _ < 0)) by lia.
  rewrite (repr_size _ _ Hl'), decide_False; [done|]. rewrite length_app, length_take. lia.
Qed.

(** A frame whose header arrives in two parts is returned, but as many bytes of what
    follows it on the stream as the first part had are consumed with it and lost. *)
Theorem recv_packet_swallows (s : St) fd tx0 out rb b bs c cs t op payload more :
  get_sock s fd = Some (mk_sock (RxData b bs :: RxAgain :: RxData c cs :: t) tx0 out) →
  (b :: bs) ++ (c :: cs) = frame op payload ++ more →
  (length (b :: bs) < 5 ≤ length payload)%nat → (length (b :: bs) ≤ length more)%nat →
  rb_repr rb [] → 9 ≤ ringbuf_capacity rb →
  Z.of_nat (length payload) + 4 ≤ ringbuf_capacity rb → Z.of_nat (length payload) < 2 ^ 31 - 5 →
  ∃ rb' s', recv_packet 2 fd rb s
    = Ok ((Some (mk_buffer (length (frame op payload)) 0 (Some <$> frame op payload), op), rb'), s')
    ∧ s' = set_sock fd (mk_sock (rx_cons (drop (length (b :: bs)) more) t) tx0 out) s.
Proof.
  unfold ringbuf_capacity. intros Hso Hst Hj Hmore Hrb H9 Hcap Hpl.
  assert (Hj0 : (0 < length (b :: bs))%nat) by (cbn; lia).
  set (j := length (b :: bs)) in *. set (so := mk_sock _ tx0 out) in *.
  pose proof (f_equal length Hst) as Hsl. rewrite !length_app, frame_length in Hsl. fold j in Hsl.
  assert (E1 : rx_read (rx so) 5 = (b :: bs, WouldBlock, RxData c cs :: t)).
  { cbn [rx so rx_read]. rewrite decide_True by (unfold j in Hj; lia). unfold j in Hj.
    destruct (5 - length (b :: bs))%nat eqn:E5; [lia|]. cbn [rx_read]. by rewrite app_nil_r. }
  destruct (header_loop_first 1 s fd so rb _ _ _ Hso Hrb H9 E1) as (rb1 & Eh1 & Hl1 & Hm1).
  set (s1 := set_sock fd _ s) in *. set (so1 := mk_sock (RxData c cs :: t) tx0 out).
  assert (Hso1 : get_sock s1 fd = Some so1) by apply get_set_sock_eq.
  assert (E2 : rx_read (rx so1) 5 = (take 5 (c :: cs), Filled, rx_cons (drop 5 (c :: cs)) t)).
  { apply (rx_read_chunk (c :: cs) t). lia. }
  destruct (recv_bytes_run s1 fd so1 rb1 (b :: bs) 5 _ _ _ Hso1 Hl1 ltac:(done) E2)
    as (rb2 & Er2 & Hl2 & Hm2); [rewrite length_take; lia|].
  fold j in Hl2. rewrite (take_ge (take 5 (c :: cs))) in Hl2 by (rewrite length_take; lia).
  set (so2 := mk_sock (rx_cons (drop 5 (c :: cs)) t) tx0 out).
  assert (Hst' : ((b :: bs) ++ take 5 (c :: cs)) ++ drop 5 (c :: cs) = frame op payload ++ more).
  { by rewrite <- (assoc_L (++)), take_drop. }
  destruct (frame_header _ _ _ _ _ Hst') as (m & Em & Hm).
  { rewrite length_app, length_take. lia. }
  assert (Hjm : length m = j).
  { apply (f_equal length) in Em. rewrite !length_app, length_take in Em. cbn [length] in Em.
    rewrite length_be_split in Em. unfold j in *. cbn [length] in *. lia. }
  rewrite Em in Hl2. eapply recv_packet_tail; [|exact Hl2|done|].
  { rewrite Eh1. change (read_status (b :: bs) WouldBlock) with (Z.of_nat j). rewrite wrap_small by (unfold urange; lia).
    cbv zeta. rewrite decide_False by lia. cbn [header_loop]. unfold HEADLEN.
    rewrite decide_True by lia. rewrite (M_bind_run _ _ _ _ _ Er2). cbn [read_status].
    rewrite length_take, wrap_small by (unfold urange; lia).
    rewrite (decide_False (P := _ < 0)), (decide_False (P := _ = 0)), (decide_False (P := _ < 5)) by lia.
    unfold s1. by rewrite set_set_sock. }
  fold so2. intros rb3 Hl3 Hm3. set (s2 := set_sock fd so2 s).
  destruct (body_loop_chunk s2 fd rb3 m (drop 5 (c :: cs)) t tx0 out (length payload)) as (rb4 & Eb & Hl4);
    [apply get_set_sock_eq|done|rewrite length_drop; lia|lia|lia|lia|].
  eexists _, rb4, _. split; [exact Eb|split; [exact Hl4|split]].
  - trans (take (length payload) (m ++ drop 5 (c :: cs))); [|by rewrite Hm, take_app_length].
    rewrite !take_app. f_equal. rewrite take_take. f_equal. lia.
  - unfold s2. rewrite set_set_sock. do 3 f_equal.
    assert (drop (length payload + j) (m ++ drop 5 (c :: cs)) = drop j more) as <-.
    { rewrite Hm, <- drop_drop, drop_app_length. done. }
    rewrite drop_app_ge by lia. rewrite !drop_drop. f_equal. lia.
Qed.

(** C30. Once a header is in, [recv_packet] never returns when the announced length
    cannot be satisfied: the length is below 5 (the difference wraps around), or beyond
    what the ring buffer holds, or the stream ends before the frame does. *)
Theorem recv_packet_spins fuel (s : St) fd so rb op tlen rest :
  get_sock s fd = Some so → rb_repr rb [] → 9 ≤ ringbuf_capacity rb → urange 32 tlen →
  rx_read (rx so) 5 = (op :: be_split 4 tlen, Filled, rest) →
  Z.min (ringbuf_capacity rb) (Z.of_nat (length (rx_all rest))) < wrap32 (tlen - HEADLEN) →
  Z.of_nat (length (rx_all rest)) < 2 ^ 31 →
  recv_packet fuel fd rb s = Err NoFuel.
Proof.
  unfold ringbuf_capacity. intros Hso Hrb H9 Htl Er Hneed Hall. unfold recv_packet.
  destruct fuel as [|fuel]; [done|].
  destruct (header_loop_first fuel s fd so rb _ _ _ Hso Hrb H9 Er) as (rb1 & Eh & Hl1 & Hm1).
  set (hdr := op :: be_split 4 tlen) in *.
  assert (Hhdr : length hdr = 5%nat) by (cbn [hdr length]; by rewrite length_be_split).
  unfold read_status in Eh. rewrite Hhdr in Eh. change (wrap64 (Z.of_nat 5)) with 5 in Eh. cbv zeta in Eh.
  rewrite decide_False in Eh by done.
  assert (E5 : ∀ s', header_loop fuel fd rb1 5 s' = Ok ((Some (), rb1), s')) by (by intros; destruct fuel).
  rewrite E5 in Eh. rewrite (M_bind_run _ _ _ _ _ Eh). rewrite decide_False by done.
  rewrite <- (app_nil_r hdr) in Hl1.
  destruct (pop_into_run hdr rb1 [] (replicate (Z.to_nat (ringbuf_size rb1)) None) 0 Hl1)
    as (rb2 & E2 & Hl2 & Hm2).
  { rewrite length_replicate, (repr_size _ _ Hl1), length_app. lia. }
  change (Z.to_nat HEADLEN) with 5%nat. rewrite <- Hhdr, E2. cbn [lift].
  erewrite M_bind_run by done. rewrite splice_0.
  assert (Etl : load_tlen ((Some <$> hdr) ++ drop (length (Some <$> hdr))
    (replicate (Z.to_nat (ringbuf_size rb1)) None)) = Ok tlen).
  { unfold hdr at 1. rewrite fmap_cons. cbn [app].
    rewrite load_tlen_run by (apply length_be_split || apply be_split_bytes).
    f_equal. rewrite be_combine_split. by apply Z.mod_small. }
  rewrite Etl. cbn [lift]. erewrite M_bind_run by done. apply M_bind_err.
  eapply body_loop_spins; [apply get_set_sock_eq|exact Hl2| |exact Hall].
  rewrite Hm2, Hm1. cbn. lia.
Qed.

(** When the first read finds nothing, or finds the end of the stream, no packet is
    returned, and the bytes that came before the end are gone; when it fails, the header
    is loaded from an array that is too short for it. *)
Theorem recv_packet_first_read fuel (s : St) fd so rb ds st rest :
  get_sock s fd = Some so → rb_repr rb [] → 9 ≤ ringbuf_capacity rb →
  rx_read (rx so) 5 = (ds, st, rest) → st = Failed ∨ read_status ds st = 0 →
  match st with
  | Failed => recv_packet (S fuel) fd rb s = Err OutOfBounds
  | _ => ∃ rb', recv_packet (S fuel) fd rb s
           = Ok ((None, rb'), set_sock fd (mk_sock rest (tx so) (sent_bytes so)) s)
  end.
Proof.
  unfold ringbuf_capacity. intros Hso Hrb H9 Er Hst. unfold recv_packet.
  destruct (header_loop_first fuel s fd so rb _ _ _ Hso Hrb H9 Er) as (rb1 & Eh & Hl1 & Hm1).
  destruct (decide (st = Failed)) as [->|Hnf].
  - cbn [read_status] in Eh. change (wrap64 (-1)) with (2 ^ 64 - 1) in Eh. cbv zeta in Eh.
    rewrite decide_False in Eh by done.
    assert (E5 : ∀ s', header_loop fuel fd rb1 (2 ^ 64 - 1) s' = Ok ((Some (), rb1), s'))
      by (by intros; destruct fuel).
    rewrite E5 in Eh. rewrite (M_bind_run _ _ _ _ _ Eh). rewrite decide_False by done.
    apply rx_read_failed in Er as Hlen.
    rewrite (repr_size _ _ Hl1), Nat2Z.id.
    destruct (pop_into_short (Z.to_nat HEADLEN) ds rb1 (replicate (length ds) None) 0) as (rb2 & tmp & -> & Ht);
      [done|by rewrite length_replicate|].
    cbn [lift]. erewrite M_bind_run by done. rewrite length_replicate in Ht.
    apply M_bind_err. unfold load_tlen, slice. by rewrite bool_decide_eq_false_2 by lia.
  - assert (Hz : read_status ds st = 0) by (by destruct Hst). rewrite Hz in Eh.
    cbn in Eh. unfold mret, M_ret in Eh.
    assert (Hgo : ∃ rb', recv_packet (S fuel) fd rb s
      = Ok ((None, rb'), set_sock fd (mk_sock rest (tx so) (sent_bytes so)) s)).
    { exists rb1. unfold recv_packet. by rewrite (M_bind_run _ _ _ _ _ Eh). }
    by destruct st.
Qed.

End Lemmas.

(** * Witnesses *)

Definition demo_ring : Ringbuffer := mk_ringbuf ∅ 0 0 64 false.
Definition demo_frame : list Z := frame 3 [10; 20; 30; 40; 50].
Definition demo_net (t : list rx_event) : Kernel := mk_kernel {[ 7 := mk_sock t [] [] ]} ∅.

Lemma demo_ring_repr : rb_repr demo_ring [].
Proof. by apply (reset_repr demo_ring). Qed.

(** A frame in three chunks with a pause in its payload, and two more bytes. *)
Definition demo_chunks : list rx_event := [RxData 0 [0; 0; 10; 10]; RxAgain; RxData 20 [30; 40; 50; 1; 2]].

Lemma recv_packet_frame_witness :
  ∃ rb' s', recv_packet 5 7 demo_ring (demo_net (RxData 3 [] :: demo_chunks ++ [RxAgain]))
    = Ok ((Some (mk_buffer 10 0 (Some <$> demo_frame), 3), rb'), s')
    ∧ ∃ rest, s' = set_sock 7 (mk_sock rest [] []) (demo_net (RxData 3 [] :: demo_chunks ++ [RxAgain])).
Proof.
  refine (recv_packet_frame (demo_net (RxData 3 [] :: demo_chunks ++ [RxAgain])) 7
    (mk_sock (RxData 3 [] :: demo_chunks ++ [RxAgain]) [] []) demo_ring
    3 [10; 20; 30; 40; 50] [1; 2] eq_refl _ demo_ring_repr _ _ _); try done.
  exists 3, [], demo_chunks, []. split_and!; [done|repeat constructor|done].
Defined.

(** Three bytes of the header, a pause, the rest and a second frame: the stream is left
    at the fourth byte of the second frame. *)
Lemma recv_packet_swallows_witness :
  let t := [RxData 3 [0; 0]; RxAgain; RxData 0 ([10; 10; 20; 30; 40; 50] ++ demo_frame)] in
  ∃ rb' s', recv_packet 2 7 demo_ring (demo_net t)
    = Ok ((Some (mk_buffer 10 0 (Some <$> demo_frame), 3), rb'), s')
    ∧ s' = set_sock 7 (mk_sock [RxData 0 [10; 10; 20; 30; 40; 50]] [] []) (demo_net t).
Proof.
  exact (recv_packet_swallows
    (demo_net [RxData 3 [0; 0]; RxAgain; RxData 0 ([10; 10; 20; 30; 40; 50] ++ demo_frame)]) 7 [] []
    demo_ring 3 [0; 0] 0 ([10; 10; 20; 30; 40; 50] ++ demo_frame) []
    3 [10; 20; 30; 40; 50] demo_frame eq_refl eq_refl ltac:(cbn; lia) ltac:(cbn; lia)
    demo_ring_repr ltac:(done) ltac:(done) ltac:(done)).
Defined.

(** A header that announces four bytes. *)
Lemma recv_packet_spins_witness :
  recv_packet 1000 7 demo_ring (demo_net [RxData 3 [0; 0; 0; 4; 9]]) = Err NoFuel.
Proof.
  exact (recv_packet_spins 1000 (demo_net [RxData 3 [0; 0; 0; 4; 9]]) 7
    (mk_sock [RxData 3 [0; 0; 0; 4; 9]] [] []) demo_ring 3 4 [RxData 9 []]
    eq_refl demo_ring_repr ltac:(done) ltac:(done) eq_refl ltac:(done) ltac:(done)).
Defined.

Lemma recv_packet_first_read_witness :
  recv_packet 1 7 demo_ring (demo_net [RxData 3 [0]; RxFail]) = Err OutOfBounds.
Proof.
  exact (recv_packet_first_read 0 (demo_net [RxData 3 [0]; RxFail]) 7
    (mk_sock [RxData 3 [0]; RxFail] [] []) demo_ring [3; 0] Failed []
    eq_refl demo_ring_repr ltac:(done) eq_refl (or_introl eq_refl)).
Defined.
