(* ===== verification/Util.v ===== *)
(** The helpers of [util.c]: counters, string routines, random names, log lines.

    A mutex of these helpers is taken and given back within one operation, so an
    operation is one step on the value it protects. *)
From Stdlib Require Import ZArith Lia Ascii String List.
From stdpp Require Import base numbers option list.
From S2P Require Import Prelude.

Local Open Scope Z_scope.

(** The bytes of a string literal. *)
Definition bytes (s : string) : list Z :=
  (λ c, Z.of_nat (nat_of_ascii c)) <$> list_ascii_of_string s.

(** * Counters *)

Record Atomic := mk_atomic { value : Z }.

Definition init_atomic : Atomic := mk_atomic 0.
Definition write_atomic (a : Atomic) (v : Z) : Atomic := mk_atomic v.
Definition increment_by (c : Atomic) (by_ : Z) : Atomic := mk_atomic (wrap64 (value c + by_)).
Definition increment (c : Atomic) : Atomic := increment_by c 1.
Definition incr_read_atomic (c : Atomic) : Z * Atomic :=
  let c := mk_atomic (wrap64 (value c + 1)) in (value c, c).
Definition read_atomic (c : Atomic) : Z := value c.

(** [T] is the type of clock(3) readings. *)
Record Throttler (T : Type) := mk_throttler { us : Z; start : T }.
Arguments mk_throttler {T}.
Arguments us {T}.
Arguments start {T}.

Definition init_throttler {T} (zero : T) : Throttler T := mk_throttler 0 zero.
Definition throttler_set_us {T} (t : Throttler T) (v : Z) (clock : T) : Throttler T :=
  mk_throttler v clock.
Definition throttler_get_us {T} (t : Throttler T) : Z := us t.
Definition Throttler_get_start {T} (t : Throttler T) : T := start t.

(** * Strings *)

(** strcspn(3) for a single rejected character: its first position, or the length. *)
Fixpoint strcspn (s : list Z) (c : Z) : nat :=
  match s with
  | [] => 0
  | x :: s => if decide (x = c) then 0 else S (strcspn s c)
  end.

Definition remove_newline (str : list Z) : res (list Z) :=
  s ← cstr str;
  Ok (<[strcspn s 10 := 0]> str).

Definition append_string (s1 s2 : list Z) : res (list Z) :=
  len1 ← strlen s1;
  len2 ← strlen s2;
  Ok (take len1 s1 ++ take (len2 + 1) s2).

Definition pool : list Z := bytes "abcdefghijklmnopqrstwxyz0123456789".

(** [while (length--) node_name[i++] = pool[rand() % strlen(pool)]]; [rands] are the
    values of the calls of rand(3). *)
Fixpoint random_loop (rands : list Z) (length : nat) : res (list Z) :=
  match length with
  | O => Ok []
  | S length =>
      match rands with
      | [] => Err NoFuel
      | r :: rands =>
          c ← of_option OutOfBounds (pool !! Z.to_nat (r mod Z.of_nat (List.length pool)));
          cs ← random_loop rands length;
          Ok (c :: cs)
      end
  end.

Definition random_name (rands : list Z) (len : nat) : res (list Z) :=
  node_name ← random_loop rands len;
  Ok (node_name ++ [0]).

(** [*s] at type [char]. *)
Definition to_char (c : Z) : Z := if decide (c < 128) then c else c - 256.

Fixpoint parse_loop (s : list Z) (n : Z) : res Z :=
  match s with
  | [] => Err OutOfBounds
  | c :: s =>
      if decide (c = 0) then Ok n else
      n10 ← int_add (n * 10) 0;
      n ← int_add n10 (to_char c - 48);
      parse_loop s n
  end.

Definition parse_int (str : list Z) : res Z := parse_loop str 0.

(** * Log lines *)

Definition MAX_LOG_SIZE : nat := 99.

(** vsnprintf(3) into an object of its full size. *)
Definition vsnprintf (msg text : list Z) : list Z :=
  splice 0 (cobj (take (length msg - 1) text)) msg.

(** The message s_log prints and its mark, [None] when the level is not logged; [msg]
    is the array before it is written, [text] the formatted message. *)
Definition s_log (loglevel level : Z) (msg text : list Z) : res (option (Z * list Z)) :=
  if decide (level > loglevel) then Ok None else
  let msg := vsnprintf msg text in
  let msg := splice MAX_LOG_SIZE (bytes "...") msg in
  let msg := <[(MAX_LOG_SIZE + 3)%nat := 0]> msg in
  mark ← of_option OutOfBounds (cobj (bytes "I!#") !! Z.to_nat level);
  out ← cstr msg;
  Ok (Some (mark, out)).

(** * Lemmas *)

(** The value of a string of decimal digits. *)
Definition digit (c : Z) : Prop := 48 ≤ c ≤ 57.
#[global] Instance digit_dec c : Decision (digit c).
Proof. unfold digit. apply _. Defined.
Definition decimal (ds : list Z) (n : Z) : Z := foldl (λ n c, n * 10 + (c - 48)) n ds.

Lemma decimal_mono ds n : Forall digit ds → 0 ≤ n → n ≤ decimal ds n.
Proof.
  intros Hd. revert n. induction Hd as [|c ds Hc _ IH]; intros n Hn; cbn; [lia|].
  unfold digit in Hc. specialize (IH (n * 10 + (c - 48)) ltac:(lia)). unfold decimal in *. lia.
Qed.

Lemma parse_loop_run ds r n : Forall digit ds → 0 ≤ n → decimal ds n < 2 ^ 31 →
  parse_loop (ds ++ 0 :: r) n = Ok (decimal ds n).
Proof.
  intros Hd. revert n. induction Hd as [|c ds Hc Hds IH]; intros n Hn Hb; cbn; [done|].
  unfold digit in Hc. rewrite decide_False by lia.
  assert (Hm : n * 10 + (c - 48) ≤ decimal ds (n * 10 + (c - 48))) by (apply decimal_mono; [done|lia]).
  unfold decimal in *. cbn in Hb.
  rewrite !int_add_run, Z.add_0_r; cbn; unfold to_char; rewrite ?decide_True by lia; try lia.
  rewrite int_add_run by lia. cbn. by apply IH; lia.
Qed.

Lemma random_loop_run rands n : (n ≤ length rands)%nat →
  ∃ s, random_loop rands n = Ok s ∧ length s = n ∧ Forall (.∈ pool) s.
Proof.
  revert n. induction rands as [|r rands IH]; intros [|n] Hn; cbn [length] in Hn; try lia;
    [by exists []..|].
  cbn [random_loop]. destruct (IH n ltac:(lia)) as (s & -> & Hl & Hp).
  assert (Hm : 0 ≤ r mod Z.of_nat (length pool) < Z.of_nat (length pool)) by (by apply Z.mod_pos_bound).
  destruct (lookup_lt_is_Some_2 pool (Z.to_nat (r mod Z.of_nat (length pool)))) as [c Hc]; [lia|].
  rewrite Hc. exists (c :: s). cbn. split_and!; [done|lia|].
  constructor; [by eapply list_elem_of_lookup_2|done].
Qed.

Lemma strcspn_absent s c : c ∉ take (strcspn s c) s.
Proof.
  induction s as [|x s IH]; cbn; [apply not_elem_of_nil|]. case_decide; cbn; [apply not_elem_of_nil|].
  rewrite not_elem_of_cons. naive_solver.
Qed.

Lemma strcspn_le s c : (strcspn s c ≤ length s)%nat.
Proof. induction s; cbn; [lia|]. case_decide; cbn; lia. Qed.

(** * Properties *)

(** [parse_int] reads a decimal numeral that fits an [int]. *)
Theorem parse_int_decimal ds r : Forall digit ds → decimal ds 0 < 2 ^ 31 →
  parse_int (ds ++ 0 :: r) = Ok (decimal ds 0).
Proof. intros. by apply parse_loop_run. Qed.

Lemma parse_int_decimal_witness : parse_int (cobj (bytes "19090")) = Ok 19090.
Proof.
  apply (parse_int_decimal (bytes "19090") []); [|done].
  apply (bool_decide_unpack _). by vm_compute.
Defined.

(** A logged message shorter than 99 bytes is printed as it is; from 99 bytes on, its
    first 99 bytes are printed followed by three dots, also when nothing was cut. *)
Theorem s_log_truncates loglevel level msg text :
  is_str text → length msg = (MAX_LOG_SIZE + 4)%nat → 0 ≤ level ≤ loglevel → level ≤ 2 →
  ∃ mark, s_log loglevel level msg text
    = Ok (Some (mark, if decide (length text < MAX_LOG_SIZE)%nat then text
                      else take MAX_LOG_SIZE text ++ bytes "...")).
Proof.
  intros Ht Hm Hl Hl2. unfold s_log. rewrite decide_False by lia.
  assert (∃ mark, cobj (bytes "I!#") !! Z.to_nat level = Some mark) as [mark ->].
  { apply lookup_lt_is_Some_2. cbn. lia. }
  exists mark. cbn [of_option mbind res_bind]. unfold vsnprintf. rewrite Hm.
  change (MAX_LOG_SIZE + 4 - 1)%nat with 102%nat. unfold MAX_LOG_SIZE in *.
  set (t := take 102 text). assert (Htt : is_str t) by (by apply Forall_take).
  assert (Hlt : length t = Nat.min 102 (length text)) by apply length_take.
  set (m1 := splice 0 (cobj t) msg).
  assert (Hm1 : m1 = t ++ 0 :: drop (S (length t)) msg).
  { unfold m1, cobj. unfold splice. cbn. rewrite length_app, <- (assoc_L (++)). cbn.
    by rewrite Nat.add_1_r. }
  assert (Hlm1 : length m1 = 103%nat).
  { rewrite Hm1, length_app. cbn. rewrite length_drop. lia. }
  set (m2 := <[_ := 0]> _).
  assert (Hm2 : m2 = take 99 m1 ++ bytes "..." ++ [0]).
  { unfold m2, splice. change (length (bytes "...")) with 3%nat. change (99 + 3)%nat with 102%nat.
    rewrite (assoc_L (++)). rewrite insert_app_r_alt; rewrite ?length_app, ?length_take;
      change (length (bytes "...")) with 3%nat; [|lia].
    replace (102 - _)%nat with 0%nat by lia.
    destruct (drop 102 m1) as [|x [|]] eqn:Ed; apply (f_equal length) in Ed; rewrite length_drop in Ed;
      cbn in Ed; try lia. by rewrite <- (assoc_L (++)). }
  rewrite Hm2. case_decide as Hc.
  - assert (Heq : t = text) by (unfold t; apply take_ge; lia). rewrite Heq in *.
    rewrite Hm1, take_app_ge by lia.
    destruct (99 - length text)%nat eqn:E; [lia|]. cbn [take]. rewrite <- (assoc_L (++)). cbn [app].
    by rewrite cstr_cobj.
  - rewrite Hm1, take_app_le by lia. unfold t. rewrite take_take. rewrite Nat.min_l by lia.
    rewrite (assoc_L (++)). change [0] with (0 :: @nil Z). rewrite cstr_cobj; [done|].
    apply Forall_app. split; [by apply Forall_take|]. apply (bool_decide_unpack _). by vm_compute.
Qed.

(** Ninety-nine bytes: nothing is cut, three dots are added. *)
Lemma s_log_truncates_witness :
  ∃ mark, s_log 2 1 (replicate 103 7) (replicate 99 65) = Ok (Some (mark, replicate 99 65 ++ [46; 46; 46])).
Proof.
  apply (s_log_truncates 2 1 (replicate 103 7) (replicate 99 65)); [|done|lia|lia].
  apply (bool_decide_unpack _). by vm_compute.
Defined.

(** A random name is a string of the requested length over the pool. *)
Theorem random_name_string rands len : (len ≤ length rands)%nat →
  ∃ s, random_name rands len = Ok (cobj s) ∧ length s = len ∧ is_str s ∧ Forall (.∈ pool) s.
Proof.
  intros Hl. destruct (random_loop_run rands len Hl) as (s & E & Hs & Hp). exists s.
  unfold random_name. rewrite E. split_and!; [done|done| |done].
  eapply Forall_impl; [exact Hp|]. intros c. revert c. apply Forall_forall.
  apply (bool_decide_unpack _). by vm_compute.
Qed.

Lemma random_name_string_witness :
  ∃ s, random_name [0; 33; 34; 77] 4 = Ok (cobj s) ∧ length s = 4%nat ∧ is_str s ∧ Forall (.∈ pool) s.
Proof. apply random_name_string. cbn. lia. Defined.
