(* ===== verification/Sizigy.v ===== *)
(** The broker's data of [sizigy.c] and [sizigy.h]: clients, topics, subscriptions,
    messages and the database that holds them, in one state with the heap, the kernel
    and the clock, and the operations on them.

    The two hash maps of the database keep pointers to key strings; the string a key
    designates is read from the heap of the moment ([str_of]). *)
From stdpp Require Import base numbers option list gmap.
From Stdlib Require Import ZArith Lia.
From S2P Require Import Prelude Memory Buffer Protocol Hashmap Chain Lists Queues Network.

Local Open Scope Z_scope.

(** * Data *)

(** The functions a client's [ctx_handler] can point to. *)
Inductive handler := AcceptHandler | RequestHandler | ReplyHandler.
#[global] Instance handler_eq_dec : EqDecision handler.
Proof. solve_decision. Defined.

(** [cl_ptr] is the [void *] to the packet being handled. *)
Record Client := mk_client {
  cl_status : Z; cl_keepalive : Z; cl_last_action_time : Z; cl_addr : ptr; cl_fd : Z;
  cl_ctx_handler : handler; cl_id : ptr; cl_reply : ptr; cl_ptr : ptr
}.

(** The field [id] is never written nor read. *)
Record Message := mk_message {
  m_qos : Z; m_dup : Z; m_retained : Z; m_creation_time : Z;
  m_sender : ptr; m_topic : ptr; m_payload : ptr
}.

Record Topic := mk_topic { t_name : ptr; t_subscribers : ptr; t_messages : ptr; t_retained : ptr }.

(** A [char *] used as a key: a string object of its own, or the topic field of a
    packet, which is part of the packet's object here. *)
Inductive key := KPtr (l : loc) | KField (obj : list Z).

Record Subscription := mk_subscription { sub_client : ptr; sub_topic : option key; sub_qos : Z }.

(** [r_body] is the union of the payload and the packet to publish; [r_retained] is
    [None] while the field was never written. *)
Record Reply := mk_reply { r_opcode : Z; r_fd : Z; r_body : ptr; r_retained : option ptr }.

(** The objects of the heap.  A packet and its fields are allocated and freed
    together, and nothing else points to the fields: they are one object. *)
Inductive obj :=
  | OStr (bytes : list Z) | OList (l : List) | ONode (n : list_node)
  | OQueue (q : Queue) | OItem (i : QueueItem)
  | OClient (c : Client) | OMessage (m : Message) | OTopic (t : Topic)
  | OSubscription (s : Subscription) | OReply (r : Reply) | OBuffer (b : Buffer)
  | OConnect (p : Connect) | OSubscribe (p : Subscribe) | OUnsubscribe (p : Unsubscribe)
  | OPublish (p : Publish) | OAck (p : Ack).

(** A constructor and its partial inverse. *)
Ltac cell c d := refine {| inj := c; prj := d |}; [done|by intros [] ? [= <-]].

#[export] Instance cell_str : Cell obj (list Z).
Proof. cell OStr (λ o, match o with OStr a => Some a | _ => None end). Defined.
#[export] Instance cell_list : Cell obj List.
Proof. cell OList (λ o, match o with OList a => Some a | _ => None end). Defined.
#[export] Instance cell_node : Cell obj list_node.
Proof. cell ONode (λ o, match o with ONode a => Some a | _ => None end). Defined.
#[export] Instance cell_queue : Cell obj Queue.
Proof. cell OQueue (λ o, match o with OQueue a => Some a | _ => None end). Defined.
#[export] Instance cell_item : Cell obj QueueItem.
Proof. cell OItem (λ o, match o with OItem a => Some a | _ => None end). Defined.
#[export] Instance cell_client : Cell obj Client.
Proof. cell OClient (λ o, match o with OClient a => Some a | _ => None end). Defined.
#[export] Instance cell_message : Cell obj Message.
Proof. cell OMessage (λ o, match o with OMessage a => Some a | _ => None end). Defined.
#[export] Instance cell_topic : Cell obj Topic.
Proof. cell OTopic (λ o, match o with OTopic a => Some a | _ => None end). Defined.
#[export] Instance cell_subscription : Cell obj Subscription.
Proof. cell OSubscription (λ o, match o with OSubscription a => Some a | _ => None end). Defined.
#[export] Instance cell_reply : Cell obj Reply.
Proof. cell OReply (λ o, match o with OReply a => Some a | _ => None end). Defined.
#[export] Instance cell_buffer : Cell obj Buffer.
Proof. cell OBuffer (λ o, match o with OBuffer a => Some a | _ => None end). Defined.
#[export] Instance cell_connect : Cell obj Connect.
Proof. cell OConnect (λ o, match o with OConnect a => Some a | _ => None end). Defined.
#[export] Instance cell_subscribe : Cell obj Subscribe.
Proof. cell OSubscribe (λ o, match o with OSubscribe a => Some a | _ => None end). Defined.
#[export] Instance cell_unsubscribe : Cell obj Unsubscribe.
Proof. cell OUnsubscribe (λ o, match o with OUnsubscribe a => Some a | _ => None end). Defined.
#[export] Instance cell_publish : Cell obj Publish.
Proof. cell OPublish (λ o, match o with OPublish a => Some a | _ => None end). Defined.
#[export] Instance cell_ack : Cell obj Ack.
Proof. cell OAck (λ o, match o with OAck a => Some a | _ => None end). Defined.

(** The sets of clients and topics, and the broker's own descriptors. *)
Record SizigyDB := mk_db {
  bus_port : Z; epollfd : Z; bepollfd : Z; topics : Hashmap key loc; ack_waiting : Hashmap key loc;
  clients : Hashmap key loc; peers : ptr; db_lock : bool
}.

Record Config := mk_config { run : Z; loglevel : Z; workers : Z; keepalive : Z }.

(** The whole state: [now] is the next value of time(2), [rands] the next values of
    rand(3). *)
Record World := mk_world {
  w_heap : Heap obj; w_kernel : Kernel; db : SizigyDB; config : Config; now : Z; rands : list Z
}.

#[export] Instance world_has_heap : HasHeap World obj.
Proof.
  by refine {| get_heap := w_heap;
    set_heap h w := mk_world h (w_kernel w) (db w) (config w) (now w) (rands w) |}; intros; destruct s.
Defined.

#[export] Instance world_has_kernel : HasKernel World.
Proof.
  by refine {| get_kernel := w_kernel;
    set_kernel k w := mk_world (w_heap w) k (db w) (config w) (now w) (rands w) |}; intros; destruct s.
Defined.

Definition set_db (d : SizigyDB) (w : World) : World :=
  mk_world (w_heap w) (w_kernel w) d (config w) (now w) (rands w).

Definition set_topics (m : Hashmap key loc) (w : World) : World :=
  let d := db w in
  set_db (mk_db (bus_port d) (epollfd d) (bepollfd d) m (ack_waiting d) (clients d) (peers d) (db_lock d)) w.

Definition set_clients (m : Hashmap key loc) (w : World) : World :=
  let d := db w in
  set_db (mk_db (bus_port d) (epollfd d) (bepollfd d) (topics d) (ack_waiting d) m (peers d) (db_lock d)) w.

Definition set_peers (p : ptr) (w : World) : World :=
  let d := db w in
  set_db (mk_db (bus_port d) (epollfd d) (bepollfd d) (topics d) (ack_waiting d) (clients d) p (db_lock d)) w.

Definition set_lock (b : bool) (w : World) : World :=
  let d := db w in
  set_db (mk_db (bus_port d) (epollfd d) (bepollfd d) (topics d) (ack_waiting d) (clients d) (peers d) b) w.

(** ** Fields *)

Definition with_last_action (v : Z) (c : Client) : Client :=
  mk_client (cl_status c) (cl_keepalive c) v (cl_addr c) (cl_fd c) (cl_ctx_handler c) (cl_id c)
    (cl_reply c) (cl_ptr c).
Definition with_status (v : Z) (c : Client) : Client :=
  mk_client v (cl_keepalive c) (cl_last_action_time c) (cl_addr c) (cl_fd c) (cl_ctx_handler c)
    (cl_id c) (cl_reply c) (cl_ptr c).
Definition with_handler (h : handler) (c : Client) : Client :=
  mk_client (cl_status c) (cl_keepalive c) (cl_last_action_time c) (cl_addr c) (cl_fd c) h (cl_id c)
    (cl_reply c) (cl_ptr c).
Definition with_id (p : ptr) (c : Client) : Client :=
  mk_client (cl_status c) (cl_keepalive c) (cl_last_action_time c) (cl_addr c) (cl_fd c)
    (cl_ctx_handler c) p (cl_reply c) (cl_ptr c).
Definition with_addr (p : ptr) (c : Client) : Client :=
  mk_client (cl_status c) (cl_keepalive c) (cl_last_action_time c) p (cl_fd c)
    (cl_ctx_handler c) (cl_id c) (cl_reply c) (cl_ptr c).
Definition with_reply (p : ptr) (c : Client) : Client :=
  mk_client (cl_status c) (cl_keepalive c) (cl_last_action_time c) (cl_addr c) (cl_fd c)
    (cl_ctx_handler c) (cl_id c) p (cl_ptr c).
Definition with_ptr (p : ptr) (c : Client) : Client :=
  mk_client (cl_status c) (cl_keepalive c) (cl_last_action_time c) (cl_addr c) (cl_fd c)
    (cl_ctx_handler c) (cl_id c) (cl_reply c) p.

(** [p->field = v] *)
Definition modify_at {A} `{Cell obj A} (p : ptr) (f : A → A) : M World () :=
  a ← deref p;
  assign p (f a).

(** ** Strings and keys *)

(** The string at a location. *)
Definition str_at (w : World) (l : loc) : option (list Z) :=
  match at_loc w l with
  | Some (OStr bs) => match cstr bs with Ok s => Some s | Err _ => None end
  | _ => None
  end.

Definition str_of (w : World) (k : key) : option (list Z) :=
  match k with
  | KPtr l => str_at w l
  | KField bs => match cstr bs with Ok s => Some s | Err _ => None end
  end.

Definition to_key (p : ptr) : res key := l ← of_option NullDeref p; Ok (KPtr l).

(** strdup(3) of a string inside an object, and of a string object. *)
Definition strdup_of (bs : list Z) : M World ptr :=
  s ← lift (cstr bs);
  l ← malloc (cobj s);
  mret (Some l).

Definition strdup (p : ptr) : M World ptr :=
  bs ← deref p;
  strdup_of bs.

(** ** Releasing packets and buffers *)

(** The fields of a packet are freed with it; NULL is left alone. *)
Definition free_packet A `{Cell obj A} (p : ptr) : M World () :=
  if decide (p = None) then mret () else
  _ ← deref (A := A) p;
  free p.

Definition free_ack : ptr → M World () := free_packet Ack.
Definition free_connect : ptr → M World () := free_packet Connect.
Definition free_publish : ptr → M World () := free_packet Publish.
Definition free_subscribe : ptr → M World () := free_packet Subscribe.
Definition free_unsubscribe : ptr → M World () := free_packet Unsubscribe.

Definition buffer_destroy (b : ptr) : M World () :=
  _ ← lift (require (bool_decide (b ≠ None)) AssertFailure);
  modify_at b (λ b, mk_buffer 0 0 (b_data b));;
  free b.

(** The number of objects bounds the length of every chain. *)
Definition heap_fuel : M World nat := λ w, Ok (S (size (cells (w_heap w))), w).

(** * Operations *)

Section Operations.
(** The table sizes [calloc] can provide, and whether it can provide a queue. *)
Context (calloc_ok : Z → bool) (queue_ok : bool).

Definition topics_get (k : key) : M World ptr := λ w,
  '(v, m) ← hashmap_get (str_of w) (topics (db w)) k;
  Ok (v, set_topics m w).

(** Nesting more than three deep is impossible: the nested call deadlocks. *)
Definition topics_put (k : key) (v : ptr) : M World Z := λ w,
  '(rc, m) ← hashmap_put (str_of w) calloc_ok 3 (topics (db w)) k v;
  Ok (rc, set_topics m w).

Definition clients_put (k : key) (v : ptr) : M World Z := λ w,
  '(rc, m) ← hashmap_put (str_of w) calloc_ok 3 (clients (db w)) k v;
  Ok (rc, set_clients m w).

Definition clients_del (k : key) : M World Z := λ w,
  '(rc, m) ← hashmap_del (str_of w) (clients (db w)) k;
  Ok (rc, set_clients m w).

(** The database's lock. *)
Definition lock_db : M World () := λ w,
  if db_lock (db w) then Err SelfDeadlock else Ok ((), set_lock true w).
Definition unlock_db : M World () := modify (set_lock false).

Definition add_client (c : ptr) : M World () :=
  cl ← deref c;
  k ← lift (to_key (cl_id cl));
  clients_put k c;;
  mret ().

Definition del_client (c : ptr) : M World () :=
  cl ← deref c;
  k ← lift (to_key (cl_id cl));
  clients_del k;;
  mret ().

Definition time : M World Z := λ w, Ok (now w, w).

Definition update_client_last_action (c : ptr) : M World () :=
  t ← time;
  modify_at c (with_last_action (wrap64 t)).

Definition create_topic (name : list Z) : M World ptr :=
  topic ← malloc (mk_topic None None None None);
  let topic := Some topic in
  s ← strdup_of name;
  modify_at topic (λ t, mk_topic s (t_subscribers t) (t_messages t) (t_retained t));;
  subs ← list_create;
  modify_at topic (λ t, mk_topic (t_name t) subs (t_messages t) (t_retained t));;
  q ← create_queue queue_ok;
  modify_at topic (λ t, mk_topic (t_name t) (t_subscribers t) q (t_retained t));;
  modify_at topic (λ t, mk_topic (t_name t) (t_subscribers t) (t_messages t) None);;
  mret topic.

Definition destroy_message (m : ptr) : M World () :=
  if decide (m = None) then mret () else
  msg ← deref (A := Message) m;
  free (m_sender msg);;
  free (m_topic msg);;
  free (m_payload msg);;
  free m.

Definition destroy_topic (t : ptr) : M World () :=
  if decide (t = None) then mret () else
  tp ← deref (A := Topic) t;
  free (t_name tp);;
  modify_at t (λ tp, mk_topic None (t_subscribers tp) (t_messages tp) (t_retained tp));;
  when (bool_decide (t_subscribers tp ≠ None)) (list_release (t_subscribers tp) 1);;
  n ← heap_fuel;
  when (bool_decide (t_messages tp ≠ None)) (release_queue n (t_messages tp));;
  when (bool_decide (t_retained tp ≠ None)) (destroy_message (t_retained tp));;
  free t.

Definition sub_compare (arg1 arg2 : ptr) : M World Z :=
  node1 ← deref (A := list_node) arg1;
  node2 ← deref (A := list_node) arg2;
  sub1 ← deref (A := Subscription) (n_data node1);
  sub2 ← deref (A := Subscription) (n_data node2);
  c1 ← deref (A := Client) (sub_client sub1);
  c2 ← deref (A := Client) (sub_client sub2);
  mret (if decide (cl_fd c1 = cl_fd c2) then 0 else 1).

Definition add_topic (name : ptr) : M World () :=
  bs ← deref name;
  t ← create_topic bs;
  k ← lift (to_key name);
  topics_put k t;;
  mret ().

(** The topic a subscription names; the key is dereferenced by the lookup. *)
Definition subscription_topic (s : Subscription) : M World ptr :=
  k ← lift (of_option NullDeref (sub_topic s));
  topics_get k.

Definition add_subscriber (s : ptr) : M World () :=
  sub ← deref s;
  topic ← subscription_topic sub;
  lock_db;;
  t ← deref (A := Topic) topic;
  subs ← list_head_insert (t_subscribers t) s;
  modify_at topic (λ t, mk_topic (t_name t) subs (t_messages t) (t_retained t));;
  unlock_db.

(** [node] is an automatic variable: it is freed when the function returns. *)
Definition del_subscriber (s : ptr) : M World () :=
  sub ← deref s;
  topic ← subscription_topic sub;
  lock_db;;
  node ← malloc (mk_node s None);
  t ← deref (A := Topic) topic;
  n ← heap_fuel;
  unlink n (t_subscribers t) (Some node) sub_compare;;
  unlock_db;;
  free (Some node).

Definition create_subscription (c : ptr) (topic : option key) (qos : Z) : M World ptr :=
  s ← malloc (mk_subscription c topic (wrap8 qos));
  mret (Some s).

(** A topic that is a field of a packet is freed with its packet (the function has no
    caller in the program). *)
Definition destroy_subscription (s : ptr) : M World () :=
  if decide (s = None) then mret () else
  sub ← deref (A := Subscription) s;
  match sub_topic sub with
  | Some (KPtr l) => free (Some l);; free s
  | Some (KField _) => lift (Err Dangling)
  | None => free s
  end.

Definition create_message (msg : Publish) (sender : ptr) : M World ptr :=
  m ← malloc (mk_message (p_qos msg) (p_dup msg) 0 0 sender None None);
  let m := Some m in
  topic ← strdup_of (p_topic msg);
  modify_at m (λ m, mk_message (m_qos m) (m_dup m) (m_retained m) (m_creation_time m) (m_sender m)
    topic (m_payload m));;
  payload ← strdup_of (p_message msg);
  t ← time;
  modify_at m (λ m, mk_message (m_qos m) (m_dup m) (p_retain msg) t (m_sender m) (m_topic m) payload);;
  mret m.

End Operations.
