(* ===== verification/Demo.v ===== *)
(** Small states of the broker, the inputs at which the theorems on the handlers are
    instantiated. *)
From stdpp Require Import base numbers option list gmap.
From Stdlib Require Import ZArith Lia List.
From S2P Require Import Prelude Memory Buffer Protocol Hashmap Lists Queues Network Receive Util Sizigy.

Local Open Scope Z_scope.

(** The descriptor of the epoll instance of a demonstration, and its clock. *)
Definition demo_epoll : Z := 3.
Definition demo_now : Z := 1000.

(** A state with the given objects, all below location 50, the given sockets, each
    registered with the epoll instance by the client that owns it, and empty maps. *)
Definition demo_world (objs : list (loc * obj)) (ss : list (Z * Sock)) : World :=
  mk_world (mk_heap (list_to_map objs) 50%positive)
    (mk_kernel (list_to_map ss)
       (list_to_map ((λ s, ((demo_epoll, s.1), event_for EPOLLIN s.1 None)) <$> ss)))
    (mk_db 19090 demo_epoll 4 created created created None false) (mk_config 5 2 4 60) demo_now
    (replicate 16 3).

(** A client on a descriptor, with the given reply and packet. *)
Definition demo_client (fd : Z) (id reply pkt : ptr) : Client :=
  mk_client 0 60 990 None fd RequestHandler id reply pkt.

(** A string object. *)
Definition demo_str (s : list Z) : obj := OStr (cobj s).

(** A descriptor on which one frame arrives in one piece, and that takes three bytes and
    then as many as wanted. *)
Definition demo_sock (op : Z) (payload : list Z) : Sock :=
  mk_sock (RxData op (be_split 4 (Z.of_nat (length payload) + HEADLEN) ++ payload) :: [RxAgain])
    [TxAccept 3; TxAccept 1000] [].

Lemma demo_sock_carries op payload : carries (demo_sock op payload) op payload [].
Proof.
  eexists op, _, [], []. split_and!; [done|constructor|]. cbn. unfold frame. by rewrite !app_nil_r.
Qed.

(** The objects of a demonstration are below the next location. *)
Lemma demo_world_wf objs ss :
  forallb (λ '(l, _), Pos.ltb l 50) objs = true → heap_wf (demo_world objs ss).
Proof.
  intros Hf l o Hl. change (next_loc _) with 50%positive.
  change (at_loc (demo_world objs ss) l) with ((list_to_map objs : gmap loc obj) !! l) in Hl.
  apply elem_of_list_to_map_2 in Hl. rewrite forallb_forall in Hf.
  apply list_elem_of_In in Hl. specialize (Hf _ Hl). cbn in Hf. by apply Pos.ltb_lt in Hf.
Qed.
