(* ===== verification/Server.v ===== *)
(** The broker of [server.c]: the handlers of the packets, the reading, replying and
    accepting states of a connection, publishing and retaining, the keepalive scan, and
    the loop of a worker thread.

    A client waits in one of its epoll states, and an event runs the function its
    [ctx_handler] points to.  Log lines are not part of the state. *)
From stdpp Require Import base numbers option list gmap.
From Stdlib Require Import ZArith Lia String List.
From S2P Require Import Prelude Memory Ringbuf Buffer Protocol Hashmap Lists Queues Network Receive.
From S2P Require Import Util Sizigy.

Local Open Scope Z_scope.

(** * Operations *)

Definition ONLINE : Z := 0.
Definition OFFLINE : Z := 1.
Definition ONEMB : Z := 1048576.

(** sendall on a byte buffer, with the bound its loop needs. *)
Definition tx_fuel (fd : Z) : M World nat := λ w,
  Ok (match get_sock w fd with Some so => S (length (tx so)) | None => 1%nat end, w).

Definition send_buffer (fd : Z) (b : Buffer) : M World (Z * Z) :=
  n ← tx_fuel fd;
  sendall n fd (b_data b) (Z.of_nat (b_size b)).

(** A packet in a buffer of the size its header says. *)
Definition pack_into (h : Header) (pack : M Buffer ()) : res Buffer :=
  '(_, b) ← pack (buffer_init (Z.to_nat (hsize h)));
  Ok b.

Section Operations.
Context (calloc_ok : Z → bool) (queue_ok : bool).

(** ** Replies *)

(** [retained] is not written. *)
Definition set_reply (c : ptr) (opcode : Z) (payload : ptr) : M World () :=
  r ← malloc (mk_reply (wrap8 opcode) 0 None None);
  cl ← deref (A := Client) c;
  modify_at (Some r) (λ r, mk_reply (r_opcode r) (cl_fd cl) (r_body r) (r_retained r));;
  modify_at (Some r) (λ r, mk_reply (r_opcode r) (r_fd r) payload (r_retained r));;
  modify_at c (with_reply (Some r)).

Definition set_ack_reply (c : ptr) (opcode rc : Z) : M World () :=
  let ack := ack_pkt opcode 0 rc in
  b ← lift (pack_into (a_header ack) (pack_ack ack));
  b ← malloc b;
  set_reply c opcode (Some b).

Definition free_reply (r : ptr) : M World () :=
  if decide (r = None) then mret () else
  rep ← deref (A := Reply) r;
  when (bool_decide (r_body rep ≠ None))
    ((if decide (r_opcode rep = PUBLISH) then free_publish (r_body rep) else buffer_destroy (r_body rep));;
     modify_at r (λ rep, mk_reply (r_opcode rep) (r_fd rep) None (r_retained rep)));;
  free r.

(** ** Publishing *)

Definition retain_message (t : ptr) (msg : Publish) (sender : ptr) : M World () :=
  m ← create_message msg sender;
  modify_at m (λ m, mk_message (m_qos m) (m_dup m) 1 (m_creation_time m) (m_sender m) (m_topic m)
    (m_payload m));;
  tp ← deref (A := Topic) t;
  when (bool_decide (t_retained tp ≠ None)) (destroy_message (t_retained tp));;
  modify_at t (λ tp, mk_topic (t_name tp) (t_subscribers tp) (t_messages tp) m).

(** The walk over the subscribers: the bytes sent so far are the result. *)
Fixpoint publish_loop (fuel : nat) (b : Buffer) (cursor : ptr) (total : Z) : M World Z :=
  if decide (cursor = None) then mret total else
  match fuel with
  | O => lift (Err NoFuel)
  | S fuel =>
      node ← deref (A := list_node) cursor;
      sub ← deref (A := Subscription) (n_data node);
      cl ← deref (A := Client) (sub_client sub);
      '(send_rc, sent) ← send_buffer (cl_fd cl) b;
      update_client_last_action (sub_client sub);;
      publish_loop fuel b (n_next node) (to_int (total + sent))
  end.

Definition publish_message (t : ptr) (msg : Publish) (sender : ptr) : M World Z :=
  b ← lift (pack_into (p_header msg) (pack_publish msg));
  (if decide (p_retain msg ≠ 0) then retain_message t msg sender else free sender);;
  tp ← deref (A := Topic) t;
  lst ← deref (A := List) (t_subscribers tp);
  n ← heap_fuel;
  publish_loop n b (l_head lst) 0.

(** ** Packet handlers *)

Definition close_socket (arg1 : option Z) (kv : hashmap_entry key loc) : M World Z :=
  match arg1, e_val kv with
  | Some fd, Some c =>
      sub ← deref (A := Client) (Some c);
      when (bool_decide (cl_fd sub = fd)) (shutdown (cl_fd sub);; close (cl_fd sub));;
      mret 0
  | _, _ => mret 0
  end.

Definition iterate_topics (f : hashmap_entry key loc → M World Z) : M World Z := λ w,
  hashmap_iterate2 (topics (db w)) f w.
Definition iterate_clients (f : hashmap_entry key loc → M World Z) : M World Z := λ w,
  hashmap_iterate2 (clients (db w)) f w.

Definition disconnect_handler (c : ptr) : M World Z :=
  cl ← deref (A := Client) c;
  shutdown (cl_fd cl);;
  close (cl_fd cl);;
  iterate_topics (close_socket None);;
  mret (-1).

(** The return code of a CONNECT: [clean_session] renames the client to the identifier of
    the packet, otherwise it is entered under the one it has. *)
Definition connect_client (c : ptr) (cl : Client) (p : Connect) : M World Z :=
  if decide (c_idlen p = 0) then mret 1
  else if decide (c_clean_session p = 1) then
    del_client c;;
    free (cl_id cl);;
    id ← strdup_of (c_id p);
    modify_at c (with_id id);;
    add_client calloc_ok c;;
    mret 0
  else
    add_client calloc_ok c;;
    mret 0.

Definition connect_handler (c : ptr) : M World Z :=
  cl ← deref (A := Client) c;
  let pkt := cl_ptr cl in
  p ← deref (A := Connect) pkt;
  rc ← connect_client c cl p;
  set_ack_reply c CONNACK rc;;
  update_client_last_action c;;
  free_connect pkt;;
  mret 0.

(** [retained] is not written. *)
Definition publish_handler (c : ptr) : M World Z :=
  cl ← deref (A := Client) c;
  let pkt := cl_ptr cl in
  p ← deref (A := Publish) pkt;
  (if decide (p_topic_len p = 0) then mret ()
   else
     r ← malloc (mk_reply PUBLISH (cl_fd cl) pkt None);
     modify_at c (with_reply (Some r)));;
  mret 1.

Definition pingreq_handler (c : ptr) : M World Z :=
  set_ack_reply c PINGRESP 0;;
  update_client_last_action c;;
  cl ← deref (A := Client) c;
  free_ack (cl_ptr cl);;
  mret 1.

(** The topic of a name, created and entered when there is none yet. *)
Definition find_or_create_topic (name : list Z) : M World ptr :=
  raw ← topics_get (KField name);
  if decide (raw = None) then
    t ← create_topic queue_ok name;
    dup ← strdup_of name;
    k ← lift (to_key dup);
    topics_put calloc_ok k t;;
    mret t
  else mret raw.

(** The branch of [subscribe_handler] for a topic name. *)
Definition subscribe_topic (c : ptr) (p : Subscribe) : M World () :=
  t ← find_or_create_topic (s_topic p);
  set_ack_reply c SUBACK 0;;
  tp ← deref (A := Topic) t;
  s ← create_subscription c (KPtr <$> t_name tp) (s_qos p);
  add_subscriber s;;
  cl ← deref (A := Client) c;
  tp ← deref (A := Topic) t;
  modify_at (cl_reply cl) (λ r, mk_reply (r_opcode r) (r_fd r) (r_body r) (Some (t_retained tp))).

Definition subscribe_handler (c : ptr) : M World Z :=
  cl ← deref (A := Client) c;
  let pkt := cl_ptr cl in
  p ← deref (A := Subscribe) pkt;
  (if decide (s_topic_len p = 0) then set_ack_reply c SUBACK 1 else subscribe_topic c p);;
  free_subscribe pkt;;
  mret 0.

(** The subscription is an automatic variable. *)
Definition unsubscribe_handler (c : ptr) : M World Z :=
  cl ← deref (A := Client) c;
  let pkt := cl_ptr cl in
  p ← deref (A := Unsubscribe) pkt;
  (if decide (u_topic_len p = 0) then set_ack_reply c UNSUBACK 1
   else
     set_ack_reply c UNSUBACK 0;;
     s ← malloc (mk_subscription c (Some (KField (u_topic p))) 0);
     del_subscriber (Some s);;
     free (Some s));;
  free_unsubscribe pkt;;
  mret 0.

Definition commands_hashmap : list (Z * (ptr → M World Z)) :=
  [(CONNECT, connect_handler); (PUBLISH, publish_handler); (PINGREQ, pingreq_handler);
   (SUBSCRIBE, subscribe_handler); (UNSUBSCRIBE, unsubscribe_handler);
   (DISCONNECT, disconnect_handler)].

(** The loop over the commands: the last result and whether a handler ran. *)
Fixpoint run_commands (cmds : list (Z * (ptr → M World Z))) (opcode : Z) (c : ptr)
    (free_reply : Z) (executed : bool) : M World (Z * bool) :=
  match cmds with
  | [] => mret (free_reply, executed)
  | (ctype, h) :: cmds =>
      if decide (ctype = opcode) then
        r ← h c;
        run_commands cmds opcode c r true
      else run_commands cmds opcode c free_reply executed
  end.

(** The unpacked packet, as an object of the heap. *)
Definition unpacked {A} `{Cell obj A} (unpack : bool → M Buffer (Z * option A)) (b : Buffer) : M World ptr :=
  '(_, p, _) ← lift (unpack true b);
  p ← lift (of_option Indeterminate p);
  l ← malloc p;
  mret (Some l).

Definition unpack_packet (opcode : Z) (b : Buffer) : M World ptr :=
  if decide (opcode = CONNECT) then unpacked unpack_connect b
  else if decide (opcode = SUBSCRIBE) then unpacked unpack_subscribe b
  else if decide (opcode = PUBLISH) then unpacked unpack_publish b
  else if decide (opcode = SUBACK ∨ opcode = PUBACK ∨ opcode = PINGREQ) then unpacked unpack_ack b
  else mret None.

(** ** The states of a connection *)

Definition mod_client_epoll (evs : Z) (c : ptr) : M World () :=
  cl ← deref (A := Client) c;
  w ← get;
  mod_epoll (epollfd (db w)) (cl_fd cl) evs c.

(** What [request_handler] does with a received packet. *)
Definition handle_packet (client : ptr) (clientfd : Z) (b : Buffer) (opcode : Z) : M World Z :=
  pkt ← unpack_packet opcode b;
  if decide (pkt = None) then mret (-1) else
  update_client_last_action client;;
  modify_at client (with_ptr pkt);;
  '(free_reply, executed) ← run_commands commands_hashmap opcode client (-1) false;
  modify_at client (with_handler ReplyHandler);;
  w ← get;
  if decide (opcode ≠ PUBREC ∨ executed = false) then
    mod_epoll (epollfd (db w)) clientfd EPOLLOUT client;;
    mret 0
  else
    modify_at client (with_handler RequestHandler);;
    mod_epoll (epollfd (db w)) clientfd EPOLLIN client;;
    cl ← deref (A := Client) client;
    (if decide (executed ≠ false ∧ free_reply > -1 ∧ cl_reply cl ≠ None) then
       free (cl_reply cl);;
       modify_at client (with_reply None)
     else mret ());;
    mret 0.

(** [fuel] bounds the two loops of [recv_packet], which may spin. *)
Definition request_handler (fuel : nat) (client : ptr) : M World Z :=
  cl ← deref (A := Client) client;
  let clientfd := cl_fd cl in
  rbuf ← lift (ringbuf_init ∅ (ONEMB * 2));
  '(b, rbuf) ← recv_packet fuel clientfd rbuf;
  match b with
  | None =>
      modify_at client (with_handler RequestHandler);;
      w ← get;
      mod_epoll (epollfd (db w)) clientfd EPOLLIN client;;
      mret 0
  | Some (b, opcode) => handle_packet client clientfd b opcode
  end.

(** [ret] after a transfer that may fail. *)
Definition send_status (fd : Z) (b : Buffer) (ret : Z) : M World Z :=
  '(rc, _) ← send_buffer fd b;
  mret (if decide (rc < 0) then -1 else ret).

(** The reply to a PUBLISH: distribution, and the acknowledgement of QoS 1. *)
Definition reply_publish (client : ptr) (reply : Reply) : M World Z :=
  p ← deref (A := Publish) (r_body reply);
  t ← find_or_create_topic (p_topic p);
  cl ← deref (A := Client) client;
  sender ← strdup (cl_id cl);
  sent ← publish_message t p sender;
  when (bool_decide (sent > -1)) (update_client_last_action client);;
  if decide (p_qos p = 1) then
    let ack := ack_pkt PUBACK 0 0 in
    res ← lift (pack_into (a_header ack) (pack_ack ack));
    send_status (r_fd reply) res 0
  else mret 0.

(** The reply to a SUBSCRIBE on a topic with a retained message. *)
Definition reply_retained (client : ptr) (reply : Reply) (retained : ptr) : M World Z :=
  payload ← deref (A := Buffer) (r_body reply);
  ret ← send_status (r_fd reply) payload 0;
  r ← deref (A := Message) retained;
  topic ← deref (A := list Z) (m_topic r);
  message ← deref (A := list Z) (m_payload r);
  t ← lift (cstr topic);
  m ← lift (cstr message);
  msg ← lift (publish_pkt (cobj t) (cobj m) (m_qos r) 1 0);
  b ← lift (pack_into (p_header msg) (pack_publish msg));
  ret ← send_status (r_fd reply) b ret;
  update_client_last_action client;;
  mret ret.

(** The end of a reply: the client reads again. *)
Definition finish_reply (client : ptr) (ret : Z) : M World Z :=
  cl ← deref (A := Client) client;
  free_reply (cl_reply cl);;
  modify_at client (with_reply None);;
  modify_at client (with_handler RequestHandler);;
  mod_client_epoll EPOLLIN client;;
  mret ret.

(** A comparison of an unwritten field has no result. *)
Definition reply_handler (client : ptr) : M World Z :=
  cl ← deref (A := Client) client;
  if decide (cl_reply cl = None) then mret 0 else
  reply ← deref (A := Reply) (cl_reply cl);
  ret ← (if decide (r_opcode reply = PUBLISH) then reply_publish client reply
         else
           retained ← (if decide (r_opcode reply = SUBACK)
                       then lift (of_option Indeterminate (r_retained reply)) else mret None);
           if decide (retained ≠ None) then reply_retained client reply retained
           else
             payload ← deref (A := Buffer) (r_body reply);
             send_status (r_fd reply) payload 0);
  finish_reply client ret.

(** What the system calls of an accept find: the new descriptor and its traffic, whether
    the two conversions and the two address queries work, the peer's address, the port. *)
Record accept_env := mk_accept {
  ae_fd : Z; ae_traffic : Sock; ae_ntop : bool; ae_peername : bool; ae_addr : option (list Z);
  ae_sin_port : option Z
}.

(** The next [len] values of rand(3). *)
Definition take_rands (len : nat) : M World (list Z) := λ w,
  Ok (take len (rands w),
      mk_world (w_heap w) (w_kernel w) (db w) (config w) (now w) (drop len (rands w))).

Definition new_name (len : nat) : M World ptr :=
  rs ← take_rands len;
  id ← lift (random_name rs len);
  l ← malloc id;
  mret (Some l).

(** The fields [last_action_time] and [ptr] of a new client are not written: the first
    is set by the compare-and-swap that follows, the second before its first use. *)
Definition accepted_client (ip : list Z) (clientsock : Z) : M World ptr :=
  w ← get;
  client ← malloc (mk_client ONLINE (wrap16 (keepalive (config w))) 0 None clientsock
                     RequestHandler None None None);
  let client := Some client in
  addr ← strdup_of ip;
  modify_at client (with_addr addr);;
  update_client_last_action client;;
  id ← new_name 16;
  modify_at client (with_id id);;
  modify_at client (with_reply None);;
  mret client.

Definition accept_handler (env : accept_env) (server : ptr) : M World Z :=
  srv ← deref (A := Client) server;
  let fd := cl_fd srv in
  clientsock ← accept_connection (ae_fd env) (ae_traffic env) (ae_ntop env);
  if decide (clientsock = -1) then mret (-1) else
  if negb (ae_peername env) then mret (-1) else
  match ae_addr env with
  | None => mret (-1)
  | Some ip =>
      match ae_sin_port env with
      | None => mret (-1)
      | Some sin_port =>
          client ← accepted_client ip clientsock;
          w ← get;
          (if decide (sin_port = bus_port (db w)) then
             l ← list_head_insert (peers (db w)) client;
             modify (set_peers l)
           else mret ());;
          add_epoll (epollfd (db w)) clientsock client;;
          mod_epoll (epollfd (db w)) fd EPOLLIN server;;
          mret 0
      end
  end.

(** ** Keepalive *)

(** The second argument of the callback is never NULL, its value may be. *)
Definition check_client_status (kv : hashmap_entry key loc) : M World Z :=
  match e_val kv with
  | None => mret HASHMAP_OK
  | Some c =>
      now ← time;
      cl ← deref (A := Client) (Some c);
      if decide (cl_status cl = ONLINE ∧ cl_keepalive cl ≤ wrap64 (now - cl_last_action_time cl)) then
        shutdown (cl_fd cl);;
        close (cl_fd cl);;
        modify_at (Some c) (with_status OFFLINE);;
        mret HASHMAP_OK
      else mret HASHMAP_ERR
  end.

(** One turn of the keepalive thread: [val] is what eventfd_read stored, nothing while
    the event was not written. *)
Definition keepalive_turn (val : option Z) : M World bool :=
  v ← lift (of_option Indeterminate val);
  if decide (v = 1) then mret false else
  iterate_clients check_client_status;;
  mret true.

(** ** Workers *)

(** The two members of the union share their first bytes: the [int] a pointer reads as. *)
Context (low_int : loc → Z).

Definition data_fd (d : epoll_data) : Z :=
  match d with DataFd fd => fd | DataPtr l => low_int l end.

Definition run_handler (fuel : nat) (env : accept_env) (h : handler) (c : ptr) : M World Z :=
  match h with
  | AcceptHandler => accept_handler env c
  | RequestHandler => request_handler fuel c
  | ReplyHandler => reply_handler c
  end.

(** The body of the loop over the events; [false] leaves the loop. *)
Definition worker_event (fuel : nat) (env : accept_env) (ev : epoll_event) : M World bool :=
  w ← get;
  if decide (Z.land (ev_events ev) EPOLLERR ≠ 0 ∨ Z.land (ev_events ev) EPOLLHUP ≠ 0
             ∨ (Z.land (ev_events ev) EPOLLIN = 0 ∧ Z.land (ev_events ev) EPOLLOUT = 0)) then
    iterate_topics (close_socket None);;
    close (data_fd (ev_data ev));;
    mret true
  else if decide (data_fd (ev_data ev) = run (config w)) then mret false
  else
    match ev_data ev with
    | DataPtr l =>
        cl ← deref (A := Client) (Some l);
        run_handler fuel env (cl_ctx_handler cl) (Some l);;
        mret true
    | DataFd _ => lift (Err Dangling)
    end.

(** The events of one epoll_wait, then of all of them until one stops the loop or there
    are none: the result is [false] when the worker was stopped. *)
Fixpoint worker_batch (fuel : nat) (evs : list (epoll_event * accept_env)) : M World bool :=
  match evs with
  | [] => mret true
  | (ev, env) :: evs =>
      go ← worker_event fuel env ev;
      if go : bool then worker_batch fuel evs else mret false
  end.

Fixpoint worker (fuel : nat) (waits : list (list (epoll_event * accept_env))) : M World bool :=
  match waits with
  | [] | [] :: _ => mret true
  | evs :: waits =>
      go ← worker_batch fuel evs;
      if go : bool then worker fuel waits else mret false
  end.

(** ** Release *)

Definition destroy_queue_loop : nat → ptr → M World () :=
  fix go fuel item :=
    if decide (item = None) then mret () else
    match fuel with
    | O => lift (Err NoFuel)
    | S fuel =>
        it ← deref (A := QueueItem) item;
        destroy_message (i_data it);;
        it ← deref (A := QueueItem) item;
        go fuel (i_next it)
    end.

Definition destroy_queue_data (kv : hashmap_entry key loc) : M World Z :=
  match e_val kv with
  | None => mret HASHMAP_OK
  | Some t =>
      tp ← deref (A := Topic) (Some t);
      q ← deref (A := Queue) (t_messages tp);
      n ← heap_fuel;
      destroy_queue_loop n (q_front q);;
      mret HASHMAP_OK
  end.

Definition destroy_topics (kv : hashmap_entry key loc) : M World Z :=
  match e_val kv with
  | None => mret HASHMAP_OK
  | Some t =>
      destroy_topic (Some t);;
      (match e_key kv with
       | Some (KPtr l) => free (Some l)
       | Some (KField _) => lift (Err Dangling)
       | None => mret ()
       end);;
      mret HASHMAP_OK
  end.

Definition free_client (c : ptr) : M World () :=
  if decide (c = None) then mret () else
  cl ← deref (A := Client) c;
  free (cl_id cl);;
  modify_at c (with_id None);;
  free_reply (cl_reply cl);;
  modify_at c (with_reply None);;
  free (cl_addr cl);;
  modify_at c (with_addr None);;
  free c.

Definition destroy_clients (kv : hashmap_entry key loc) : M World Z :=
  match e_val kv with
  | None => mret HASHMAP_OK
  | Some c => free_client (Some c);; mret HASHMAP_OK
  end.

(** [destroy] of hashmap.c. *)
Definition destroy (kv : hashmap_entry key loc) : M World Z :=
  (match e_key kv with
   | Some (KPtr l) => free (Some l)
   | Some (KField _) => lift (Err Dangling)
   | None => mret ()
   end);;
  free (e_val kv);;
  mret HASHMAP_OK.

(** The tables themselves are not objects of the heap: a released map is not used again. *)
Definition hashmap_release (m : Hashmap key loc) : M World () :=
  hashmap_iterate2 m destroy;;
  mret ().
Definition hashmap_release_map (m : Hashmap key loc) (f : hashmap_entry key loc → M World Z) : M World () :=
  hashmap_iterate2 m f;;
  mret ().

(** The end of [start_server]. *)
Definition cleanup : M World () :=
  w ← get;
  hashmap_release_map (topics (db w)) destroy_topics;;
  hashmap_release_map (clients (db w)) destroy_clients;;
  hashmap_release (ack_waiting (db w));;
  list_release (peers (db w)) 1.

End Operations.

(** ** Start *)

Definition EPOLL_WORKERS : nat := 4.

(** The [Client] of a listening socket; its address is not a heap object. *)
Definition listener (id : loc) (fd keepalive : Z) : Client :=
  mk_client ONLINE (wrap16 keepalive) 0 None fd AcceptHandler (Some id) None None.

(** The configuration and the database, before any descriptor: [run_fd] is the event
    descriptor.  The port and the epoll instances are not known yet. *)
Definition init_server (run_fd : Z) : M World () :=
  modify (λ w, mk_world (w_heap w) (w_kernel w)
    (mk_db 0 (-1) (-1) created created created None false)
    (mk_config (wrap8 run_fd) 2 (workers (config w)) 60) (now w) (rands w));;
  peers ← list_create;
  modify (set_peers peers).

Definition set_descriptors (port epfd bepfd : Z) (w : World) : World :=
  let d := db w in
  set_db (mk_db port epfd bepfd (topics d) (ack_waiting d) (clients d) (peers d) (db_lock d)) w.

(** Listening: [fd] and [bfd] are the sockets of make_listen.  The bus is registered with
    the second epoll instance.  A third [Client], for the node to join, is built and not
    used. *)
Definition listen_all (epfd bepfd fd bfd port : Z) : M World () :=
  modify (λ w, set_descriptors (port + 10000) (epollfd (db w)) (bepollfd (db w)) w);;
  w ← get;
  epoll_ctl (λ _, Some (mk_event EPOLLIN (DataFd (run (config w))))) (λ e, negb (is_listed e))
    epfd (run (config w));;
  epoll_ctl (λ _, Some (mk_event EPOLLIN (DataFd (run (config w))))) (λ e, negb (is_listed e))
    bepfd (run (config w));;
  id ← malloc (bytes "server"%string ++ [0]);
  server ← malloc (listener id fd (keepalive (config w)));
  bus_id ← malloc (bytes "bus"%string ++ [0]);
  bus ← malloc (listener bus_id bfd (keepalive (config w)));
  add_epoll epfd fd (Some server);;
  add_epoll bepfd bfd (Some bus);;
  modify (λ w, set_descriptors (bus_port (db w)) epfd bepfd w).

(** [serve] is the run of the threads, until they are joined; [epfd] and [bepfd] are what
    epoll_create1(2) returned.  The result is 0 also when the server could not start. *)
Definition start_server (run_fd epfd bepfd fd bfd port : Z) (serve : M World ()) : M World Z :=
  init_server run_fd;;
  if decide (epfd = -1) then cleanup;; mret 0
  else if decide (bepfd = -1) then cleanup;; mret 0
  else
    listen_all epfd bepfd fd bfd port;;
    serve;;
    cleanup;;
    mret 0.
