(* ===== verification/Calm.v ===== *)
(** Operations that do not lock a mutex twice.

    A default mutex that its holder locks again stops the thread for ever, the fault
    [SelfDeadlock].  [calm] says of an outcome that it is another one.  Everything that
    computes on bytes, rings and buffers is calm; the operations of a hash map are when
    its mutex is free, but for an insertion that has to grow the table ([no_growth]). *)
From stdpp Require Import base numbers option list gmap.
From Stdlib Require Import ZArith Lia.
From S2P Require Import Prelude Crc Ringbuf Buffer Protocol Hashmap Network Receive Util Sizigy Server.

Local Open Scope Z_scope.

(** * Outcomes *)

Definition calm {A} (r : res A) : Prop := r ≠ Err SelfDeadlock.

(** The same of a command, in every state. *)
Definition calm_run {S A} (m : M S A) : Prop := ∀ s, calm (m s).

Lemma calm_ok {A} (a : A) : calm (Ok a).
Proof. done. Qed.

Lemma calm_bind {A B} (r : res A) (f : A → res B) : calm r → (∀ a, calm (f a)) → calm (r ≫= f).
Proof. unfold calm. destruct r as [a|e]; cbn; [auto|congruence]. Qed.

Lemma calm_of_option {A} e (o : option A) : e ≠ SelfDeadlock → calm (of_option e o).
Proof. unfold calm. destruct o; cbn; congruence. Qed.

Lemma calm_require b e : e ≠ SelfDeadlock → calm (require b e).
Proof. unfold calm. destruct b; cbn; congruence. Qed.

Lemma calm_run_bind {S A B} (m : M S A) (f : A → M S B) : calm_run m → (∀ a, calm_run (f a)) → calm_run (m ≫= f).
Proof.
  intros Hm Hf s. unfold calm, mbind, M_bind. specialize (Hm s). destruct (m s) as [[a s']|e]; [apply Hf|].
  unfold calm in Hm. congruence.
Qed.

Lemma calm_run_ret {S A} (a : A) : calm_run (S := S) (mret a).
Proof. done. Qed.

Lemma calm_run_lift {S A} (r : res A) : calm r → calm_run (S := S) (lift r).
Proof. intros Hr s. unfold calm, lift in *. destruct r; congruence. Qed.

Create HintDb calm discriminated.
#[export] Hint Resolve calm_ok calm_run_ret : calm.
Ltac calm :=
  repeat first
    [ progress intros
    | done
    | solve [eauto 3 with calm nocore]
    | apply calm_bind
    | apply calm_of_option
    | apply calm_require
    | apply calm_run_bind
    | apply calm_run_lift
    | case_match ].

(** * Bytes, rings, buffers *)

Lemma calm_cstr obj : calm (cstr obj).
Proof. induction obj; cbn [cstr]; calm. Qed.
#[export] Hint Resolve calm_cstr : calm.
Lemma calm_strlen obj : calm (strlen obj).
Proof. unfold strlen. calm. Qed.
Lemma calm_int_add a b : calm (int_add a b).
Proof. unfold int_add. calm. Qed.
Lemma calm_slice {A} (buf : list A) off len : calm (slice buf off len).
Proof. unfold slice. calm. Qed.
Lemma calm_to_key p : calm (to_key p).
Proof. unfold to_key. calm. Qed.
#[export] Hint Resolve calm_strlen calm_int_add calm_slice calm_to_key : calm.

Lemma calm_ringbuf_init buf n : calm (ringbuf_init buf n).
Proof. unfold ringbuf_init. calm. Qed.
Lemma calm_ringbuf_pop r : calm (ringbuf_pop r).
Proof. unfold ringbuf_pop, get_buffer. calm. Qed.
Lemma calm_ringbuf_push r v : calm (ringbuf_push r v).
Proof. unfold ringbuf_push, set_buffer. calm. Qed.
#[export] Hint Resolve calm_ringbuf_init calm_ringbuf_pop calm_ringbuf_push : calm.
Lemma calm_bulk_push_loop r data i n rc : calm (bulk_push_loop r data i n rc).
Proof. revert r i rc. induction n; intros; cbn [bulk_push_loop]; calm. Qed.
#[export] Hint Resolve calm_bulk_push_loop : calm.
Lemma calm_push_received r bs : calm (push_received r bs).
Proof. unfold push_received, ringbuf_bulk_push. calm. Qed.
Lemma calm_pop_into n r arr i : calm (pop_into n r arr i).
Proof. revert r arr i. induction n; intros; cbn [pop_into]; calm. Qed.
Lemma calm_load_tlen tmp : calm (load_tlen tmp).
Proof. unfold load_tlen. calm. Qed.
#[export] Hint Resolve calm_push_received calm_pop_into calm_load_tlen : calm.

Lemma calm_load n : calm_run (load n).
Proof. intros b. unfold load. calm. Qed.
Lemma calm_store bs : calm_run (store bs).
Proof. intros b. unfold store. calm. Qed.
#[export] Hint Resolve calm_load calm_store : calm.
Lemma calm_get {S} : calm_run (get (S := S)).
Proof. done. Qed.
#[export] Hint Resolve calm_get : calm.

(** Unfolds a packing or an unpacking down to its loads and stores. *)
Ltac calm_codec :=
  unfold unpack_header, pack_header, read_uint8, read_uint16, read_uint32, read_string, write_uint8, write_uint16,
    write_uint32, write_string; calm.

Lemma calm_pack_publish p : calm_run (pack_publish p).
Proof. unfold pack_publish. calm_codec. Qed.
Lemma calm_pack_ack p : calm_run (pack_ack p).
Proof. unfold pack_ack. calm_codec. Qed.
Lemma calm_unpack_connect ok : calm_run (unpack_connect ok).
Proof. unfold unpack_connect. calm_codec. Qed.
Lemma calm_unpack_subscribe ok : calm_run (unpack_subscribe ok).
Proof. unfold unpack_subscribe. calm_codec. Qed.
Lemma calm_unpack_publish ok : calm_run (unpack_publish ok).
Proof. unfold unpack_publish. calm_codec. Qed.
Lemma calm_unpack_ack ok : calm_run (unpack_ack ok).
Proof. unfold unpack_ack. calm_codec. Qed.
#[export] Hint Resolve calm_pack_publish calm_pack_ack calm_unpack_connect calm_unpack_subscribe calm_unpack_publish
  calm_unpack_ack : calm.

Lemma calm_pack_into h pack : calm_run pack → calm (pack_into h pack).
Proof. intros Hp. unfold pack_into. apply calm_bind; [apply Hp|]. calm. Qed.
Lemma calm_publish_pkt t m q r d : calm (publish_pkt t m q r d).
Proof. unfold publish_pkt. calm. Qed.
Lemma calm_random_loop rs n : calm (random_loop rs n).
Proof. revert n. induction rs; intros [|n]; cbn [random_loop]; calm. Qed.
#[export] Hint Resolve calm_pack_into calm_publish_pkt calm_random_loop : calm.
Lemma calm_random_name rs n : calm (random_name rs n).
Proof. unfold random_name. calm. Qed.
#[export] Hint Resolve calm_random_name : calm.

(** * The hash map *)

(** No table can be had in place of one that is too small. *)
Definition no_growth (calloc_ok : Z → bool) : Prop := ∀ n, calloc_ok n = false.

Section Maps.
Context {K V : Type} (cstr_of : K → option (list Z)).

Lemma calm_crc32_loop s i n c : calm (crc32_loop s i n c).
Proof. revert i c. induction n; intros; [apply calm_ok|cbn [crc32_loop]; calm]. Qed.
#[local] Hint Resolve calm_crc32_loop : calm.

Lemma calm_hash_key (m : Hashmap K V) k : calm (hash_key cstr_of m k).
Proof. unfold hash_key, key_string, hashmap_hash_int, crc32. calm. Qed.

Lemma calm_entry_at (m : Hashmap K V) i : calm (entry_at m i).
Proof. unfold entry_at. calm. Qed.
Lemma calm_key_equals (e : hashmap_entry K V) k : calm (key_equals cstr_of e k).
Proof. unfold key_equals, key_string. calm. Qed.
#[local] Hint Resolve calm_hash_key calm_entry_at calm_key_equals : calm.

Lemma calm_probe_key (m : Hashmap K V) k i n : calm (probe_key cstr_of m k i n).
Proof. revert i. induction n; intros; [apply calm_ok|cbn [probe_key]; calm]. Qed.
Lemma calm_probe_free (m : Hashmap K V) k i n : calm (probe_free cstr_of m k i n).
Proof. revert i. induction n; intros; [apply calm_ok|cbn [probe_free]; calm]. Qed.
#[local] Hint Resolve calm_probe_key calm_probe_free : calm.

Lemma calm_hashmap_get (m : Hashmap K V) k : m_lock m = false → calm (hashmap_get cstr_of m k).
Proof. intros Hl. unfold hashmap_get, mutex_lock. rewrite Hl. calm. Qed.

Lemma calm_hashmap_del (m : Hashmap K V) k : m_lock m = false → calm (hashmap_del cstr_of m k).
Proof. intros Hl. unfold hashmap_del, mutex_lock. rewrite Hl. calm. Qed.

(** An insertion gives up when its table is full. *)
Lemma calm_hashmap_put calloc_ok n (m : Hashmap K V) k v : no_growth calloc_ok → m_lock m = false →
  calm (hashmap_put cstr_of calloc_ok n m k v).
Proof.
  intros Hc Hl. destruct n as [|n]; [done|]. cbn [hashmap_put]. unfold mutex_lock. rewrite Hl. cbn [mbind res_bind].
  apply calm_bind; [unfold hashmap_hash; calm|]. intros i. apply calm_bind; [|unfold set_entry; calm].
  destruct n as [|n]; cbn [grow_loop]; case_decide; try done. unfold hashmap_rehash. by rewrite Hc.
Qed.

End Maps.
