(* ===== verification/Broker.v ===== *)
(** The correctness of the broker of [Server]: what the handlers do to the clients, the
    topics and the sockets, and the behaviours of a whole request. *)
From stdpp Require Import base numbers option list gmap.
From Stdlib Require Import ZArith Lia.
From S2P Require Import Prelude Memory Ringbuf Buffer Protocol Hashmap Chain Lists Queues Network.
From S2P Require Import Receive Util Sizigy Demo Server.

Local Open Scope Z_scope.

(** * Running the operations *)

(** The parts of the state other than the heap. *)
Record env_eq (w w' : World) : Prop := {
  env_kernel : w_kernel w' = w_kernel w; env_db : db w' = db w;
  env_config : config w' = config w; env_now : now w' = now w; env_rands : rands w' = rands w
}.

#[export] Instance env_eq_preorder : PreOrder env_eq.
Proof. split; [by intros w|]. intros w1 w2 w3 [] []. split; congruence. Qed.

Lemma env_update l o w : env_eq w (update l o w).
Proof. done. Qed.
Lemma env_remove l w : env_eq w (remove l w).
Proof. done. Qed.
Lemma env_alloc {A} `{Cell obj A} (a : A) w : env_eq w (alloc a w).
Proof. done. Qed.
#[export] Hint Resolve env_update env_remove env_alloc : c_model.

Lemma heap_only_env {A} (m : M World A) w a w' : heap_only m → m w = Ok (a, w') → env_eq w w'.
Proof. intros Hm E. rewrite (Hm _ _ _ E). done. Qed.

(** The heap does not depend on the kernel nor on the database, and conversely. *)
Lemma at_set_kernel k w l : at_loc (set_kernel k w) l = at_loc w l.
Proof. done. Qed.
Lemma at_set_sock fd so w l : at_loc (set_sock fd so w) l = at_loc w l.
Proof. done. Qed.
Lemma at_set_db d w l : at_loc (set_db d w) l = at_loc w l.
Proof. done. Qed.
Lemma fresh_set_kernel k w : fresh_loc (set_kernel k w) = fresh_loc w.
Proof. done. Qed.
Lemma heap_wf_kernel k w : heap_wf w → heap_wf (set_kernel k w).
Proof. done. Qed.
Lemma get_sock_update l o w fd : get_sock (update l o w) fd = get_sock w fd.
Proof. done. Qed.

Lemma modify_at_run {A} `{Cell obj A} l (a : A) f w : at_loc w l = Some (inj a) →
  modify_at (Some l) f w = Ok ((), update l (inj (f a)) w).
Proof. intros Hl. unfold modify_at. run_deref. by erewrite assign_run. Qed.

Lemma modify_client_run l c f w : at_loc w l = Some (OClient c) →
  modify_at (Some l) f w = Ok ((), update l (OClient (f c)) w).
Proof. intros Hl. exact (modify_at_run l c f w Hl). Qed.

(** Releasing an object of the right type. *)
Lemma free_packet_run {A} `{Cell obj A} (a : A) l w : at_loc w l = Some (inj a) →
  free_packet A (Some l) w = Ok ((), remove l w).
Proof. intros Hl. unfold free_packet. rewrite decide_False by done. run_deref. by eapply free_run. Qed.

Lemma buffer_destroy_run b l w : at_loc w l = Some (OBuffer b) →
  buffer_destroy (Some l) w = Ok ((), remove l w).
Proof.
  intros Hl. unfold buffer_destroy. rewrite bool_decide_eq_true_2 by done. cbn [require lift].
  erewrite M_bind_run by done. erewrite M_bind_run by exact (modify_at_run l b _ w Hl).
  erewrite free_run by heap_lookup. by rewrite remove_update.
Qed.

(** Releases the packet at hand. *)
Ltac run_release :=
  erewrite M_bind_run; [|unfold free_ack, free_connect, free_publish, free_subscribe, free_unsubscribe;
                         eapply (@free_packet_run); heap_lookup].

Lemma update_update l o o' (w : World) : update l o (update l o' w) = update l o w.
Proof.
  unfold update. rewrite get_set_heap, set_set_heap. cbn. by rewrite insert_insert_eq.
Qed.

Lemma update_last_run l c w : at_loc w l = Some (OClient c) →
  update_client_last_action (Some l) w
  = Ok ((), update l (OClient (with_last_action (wrap64 (now w)) c)) w).
Proof.
  intros Hl. unfold update_client_last_action. erewrite M_bind_run by done.
  exact (modify_at_run l c _ w Hl).
Qed.

Lemma M_get_run {S A} (f : S → M S A) s : (get ≫= f) s = f s s.
Proof. done. Qed.

(** ** Acknowledgements *)

(** The eight bytes of an acknowledgement. *)
Definition ack_bytes (op rc : Z) : list Z := [op; 0; 0; 0; 8; 0; 0; rc].
Definition ack_buffer (op rc : Z) : Buffer := mk_buffer 8 8 (Some <$> ack_bytes op rc).

Lemma pack_ack_into op rc : is_byte op → is_byte rc →
  pack_into (a_header (ack_pkt op 0 rc)) (pack_ack (ack_pkt op 0 rc)) = Ok (ack_buffer op rc).
Proof.
  intros Hop Hrc. unfold pack_into.
  rewrite (pack_ack_emits 8 (ack_pkt op 0 rc)); [|done|cbn; lia].
  unfold ack_pkt, enc_ack, enc_header. cbn [a_header opcode a_id a_rc].
  rewrite !wrap_small by done. unfold store. rewrite bool_decide_eq_true_2.
  - cbn. unfold ack_buffer, ack_bytes, urange in *. cbn. unfold splice. cbn.
    rewrite (Z.mod_small op), (Z.mod_small rc) by (cbn in *; lia). reflexivity.
  - rewrite !length_app, !length_be_split. change (Z.to_nat _) with 8%nat. cbn. lia.
Qed.

(** A location that is allocated is none of the next ones. *)
Lemma old_loc w l o n : heap_wf w → at_loc w l = Some o → (fresh_loc w ≤ n)%positive → l ≠ n.
Proof. intros Hwf Hl Hn ->. apply Hwf in Hl. unfold fresh_loc in Hn. lia. Qed.

Ltac run_modify := erewrite M_bind_run; [|eapply (@modify_at_run); heap_lookup].

(** The heap after an acknowledgement was made the reply of a client: a buffer, then the
    reply, at the next two locations. *)
Lemma set_ack_reply_run c cl op rc w :
  heap_wf w → at_loc w c = Some (OClient cl) → is_byte op → is_byte rc →
  let b := fresh_loc w in let r := Pos.succ b in
  ∃ w', set_ack_reply (Some c) op rc w = Ok ((), w') ∧ env_eq w w' ∧ heap_wf w'
    ∧ fresh_loc w' = Pos.succ r
    ∧ at_loc w' c = Some (OClient (with_reply (Some r) cl))
    ∧ at_loc w' r = Some (OReply (mk_reply op (cl_fd cl) (Some b) None))
    ∧ at_loc w' b = Some (OBuffer (ack_buffer op rc))
    ∧ ∀ l, l ≠ c → l ≠ r → l ≠ b → at_loc w' l = at_loc w l.
Proof.
  intros Hwf Hc Hop Hrc b r. unfold set_ack_reply. rewrite pack_ack_into by done.
  cbn [lift]. erewrite M_bind_run by done. run_malloc. unfold set_reply. run_malloc.
  set (w1 := alloc (ack_buffer op rc) w).
  assert (Hfr : fresh_loc w1 = r) by (unfold w1; by rewrite fresh_alloc).
  rewrite Hfr. rewrite wrap_small by done.
  assert (c ≠ b) by (by eapply old_loc). assert (c ≠ r) by (eapply old_loc; [done..|unfold r, b; lia]).
  assert (b ≠ r) by (unfold r; lia).
  assert (Hwf1 : heap_wf (alloc (mk_reply op 0 None None) w1)) by (by repeat apply alloc_wf).
  assert (Hb1 : at_loc (alloc (mk_reply op 0 None None) w1) b = Some (OBuffer (ack_buffer op rc))).
  { rewrite at_alloc_ne by (by rewrite Hfr). exact (at_alloc_eq (ack_buffer op rc) w). }
  assert (Hr1 : at_loc (alloc (mk_reply op 0 None None) w1) r = Some (inj (mk_reply op 0 None None))).
  { rewrite <- Hfr. apply at_alloc_eq. }
  assert (Hc1 : at_loc (alloc (mk_reply op 0 None None) w1) c = Some (inj cl)).
  { rewrite at_alloc_ne by (by rewrite Hfr). unfold w1. by rewrite at_alloc_ne. }
  assert (Ho1 : ∀ l, l ≠ r → l ≠ b → at_loc (alloc (mk_reply op 0 None None) w1) l = at_loc w l).
  { intros l Hlr Hlb. rewrite at_alloc_ne by (by rewrite Hfr). unfold w1. by rewrite at_alloc_ne. }
  assert (Hf2 : fresh_loc (alloc (mk_reply op 0 None None) w1) = Pos.succ r) by (by rewrite fresh_alloc, Hfr).
  assert (He2 : env_eq w (alloc (mk_reply op 0 None None) w1)) by done.
  set (w2 := alloc (mk_reply op 0 None None) w1) in *. clearbody w2.
  run_deref. run_modify. cbn [r_opcode r_body r_retained]. run_modify.
  erewrite modify_at_run by heap_lookup. eexists. split; [done|]. split_and!.
  - etrans; [exact He2|done].
  - repeat apply update_wf; rewrite ?fresh_update, ?Hf2; [done|unfold r; lia|lia|].
    apply Hwf in Hc. unfold fresh_loc in *. lia.
  - by rewrite !fresh_update.
  - heap_lookup.
  - heap_lookup.
  - heap_lookup.
  - intros l ???. rewrite !at_update_ne by congruence. by apply Ho1.
Qed.

(** ** Receiving a packet *)

(** The ring buffer of [request_handler]: two megabytes. *)
Definition request_ring : Ringbuffer := mk_ringbuf ∅ 0 0 (ONEMB * 2) false.

Lemma request_ring_init : ringbuf_init ∅ (ONEMB * 2) = Ok request_ring.
Proof. done. Qed.

Lemma request_ring_repr : rb_repr request_ring [].
Proof. by apply (reset_repr request_ring). Qed.

Section Requests.
Context (calloc_ok : Z → bool) (queue_ok : bool).

(** A request is received, then handled, in a state where only the stream moved on. *)
Lemma request_received w c cl so op payload more :
  at_loc w c = Some (OClient cl) → get_sock w (cl_fd cl) = Some so → carries so op payload more →
  Z.of_nat (length payload) ≤ ONEMB * 2 →
  ∃ rest, request_handler calloc_ok queue_ok (length (rx so)) (Some c) w
    = handle_packet calloc_ok queue_ok (Some c) (cl_fd cl) (block (frame op payload)) op
        (set_sock (cl_fd cl) (mk_sock rest (tx so) (sent_bytes so)) w).
Proof.
  intros Hc Hso Hcar Hlen. unfold request_handler. run_deref. rewrite request_ring_init.
  cbn [lift]. erewrite M_bind_run by done.
  destruct (recv_packet_run w (cl_fd cl) so request_ring op payload more Hso Hcar request_ring_repr)
    as (rb' & s' & E & rest & ->); [done|done|unfold ONEMB in *; lia|].
  exists rest. by rewrite (M_bind_run _ _ _ _ _ E).
Qed.

Lemma unpacked_run {A} `{Cell obj A} (unpack : bool → M Buffer (Z * option A)) (dec : parser A) bs p rest w :
  parses (unpack true) (p ← dec; mret (OK, Some p)) → Forall is_byte bs → dec bs = Some (p, rest) →
  unpacked unpack (block bs) w = Ok (Some (fresh_loc w), alloc p w).
Proof.
  intros Hp Hb Hd. pose proof (unpack_block _ _ bs Hp Hb) as E. rewrite Hd in E. cbn in E.
  unfold unpacked. destruct (unpack true (block bs)) as [[[rc o] b]|]; [|done].
  cbn in E. injection E as -> ->. done.
Qed.

(** A frame is the encoding of its packet. *)
Lemma frame_enc op payload : is_byte op →
  frame op payload = enc_header op (5 + length payload) ++ payload.
Proof.
  intros Hop. unfold frame, enc_header. rewrite <- (assoc_L (++)).
  assert (be_split 1 op = [op]) as ->.
  { unfold be_split. cbn. by rewrite Z.mod_small. }
  by replace (Z.of_nat (length payload) + HEADLEN) with (Z.of_nat (5 + length payload))
    by (unfold HEADLEN; lia).
Qed.

(** ** Epoll and sockets *)

Lemma mod_epoll_run w efd fd evs data so :
  get_sock w fd = Some so → is_Some (interest (w_kernel w) !! (efd, fd)) →
  mod_epoll efd fd evs data w
  = Ok ((), set_kernel (mk_kernel (socks (w_kernel w))
              (<[(efd, fd) := event_for evs fd data]> (interest (w_kernel w)))) w).
Proof.
  intros Hso Hi. unfold mod_epoll, epoll_ctl. rewrite Hso. unfold is_listed.
  change (get_kernel w) with (w_kernel w). by rewrite bool_decide_eq_true_2.
Qed.

Lemma send_buffer_run w fd b so :
  get_sock w fd = Some so → length (b_data b) = b_size b → Z.of_nat (b_size b) < 2 ^ 31 →
  let n := tx_accepts (tx so) (Z.of_nat (b_size b)) in
  send_buffer fd b w
    = Ok ((if decide (n = Z.of_nat (b_size b)) then 0 else -1, n),
          set_sock fd (after_send so (b_data b) (Z.of_nat (b_size b))) w).
Proof.
  intros Hso Hd Hl n. destruct (sendall_run w fd so (b_data b) (Z.of_nat (b_size b)) Hso)
    as (E & _); [lia|done|].
  unfold send_buffer, tx_fuel. erewrite M_bind_run by (by rewrite Hso). exact E.
Qed.

(** ** Packets without a handler *)

(** The opcodes [unpack_packet] knows. *)
Definition unpackable (op : Z) : bool :=
  bool_decide (op ∈ [CONNECT; SUBSCRIBE; PUBLISH; SUBACK; PUBACK; PINGREQ]).

Lemma unpack_unknown op b w : unpackable op = false → unpack_packet op b w = Ok (None, w).
Proof.
  unfold unpackable. rewrite bool_decide_eq_false, !not_elem_of_cons.
  intros (? & ? & ? & ? & ? & ? & _). unfold unpack_packet. rewrite !decide_False by naive_solver. done.
Qed.

(** C21. A request whose opcode [unpack_packet] does not know, UNSUBSCRIBE and DISCONNECT
    among them although the command table has handlers for both, is read and dropped:
    the handler fails, and the client, the database and the epoll interest are as before,
    so the one-shot event of the client is not armed again. *)
Theorem unknown_request_stalls w c cl so op payload more :
  at_loc w c = Some (OClient cl) → get_sock w (cl_fd cl) = Some so → carries so op payload more →
  Z.of_nat (length payload) ≤ ONEMB * 2 → unpackable op = false →
  ∃ rest, request_handler calloc_ok queue_ok (length (rx so)) (Some c) w
    = Ok (-1, set_sock (cl_fd cl) (mk_sock rest (tx so) (sent_bytes so)) w).
Proof.
  intros Hc Hso Hcar Hlen Hop. destruct (request_received w c cl so op payload more) as [rest E]; [done..|].
  exists rest. rewrite E. unfold handle_packet.
  by rewrite (M_bind_run _ _ _ _ _ (unpack_unknown op _ _ Hop)).
Qed.

(** ** The two halves of an exchange *)

(** The interest of a client's descriptor in the first epoll instance. *)
Definition armed (w : World) (fd : Z) : option epoll_event :=
  interest (w_kernel w) !! (epollfd (db w), fd).

(** Everything but the heap and the epoll interest of [fd]. *)
Record same_but_interest (fd : Z) (w w' : World) : Prop := {
  sbi_socks : socks (w_kernel w') = socks (w_kernel w); sbi_db : db w' = db w;
  sbi_config : config w' = config w; sbi_now : now w' = now w; sbi_rands : rands w' = rands w;
  sbi_others k : k ≠ (epollfd (db w), fd) → interest (w_kernel w') !! k = interest (w_kernel w) !! k
}.

Lemma sbi_env fd w w' : env_eq w w' → same_but_interest fd w w'.
Proof. intros []. split; congruence. Qed.

Lemma sbi_trans fd w1 w2 w3 :
  same_but_interest fd w1 w2 → same_but_interest fd w2 w3 → same_but_interest fd w1 w3.
Proof.
  intros [? Hd ? ? ? Ho] [? ? ? ? ? Ho']. split; try congruence.
  intros k Hk. rewrite Ho' by (by rewrite Hd). by apply Ho.
Qed.

Lemma sbi_set_sock fd fd' so w w' :
  same_but_interest fd w w' → same_but_interest fd (set_sock fd' so w) (set_sock fd' so w').
Proof. intros []. split; try done. cbn. congruence. Qed.

(** Nothing is allocated beyond the next location. *)
Lemma at_fresh_None w l : heap_wf w → (fresh_loc w ≤ l)%positive → at_loc w l = None.
Proof.
  intros Hwf Hl. destruct (at_loc w l) as [o|] eqn:Ho; [|done]. by destruct (old_loc w l o l Hwf Ho Hl).
Qed.

(** The end of [handle_packet] for the packets that are answered. *)
Lemma arm_reply w c cl so :
  at_loc w c = Some (OClient cl) → get_sock w (cl_fd cl) = Some so → is_Some (armed w (cl_fd cl)) →
  ∃ w', (modify_at (Some c) (with_handler ReplyHandler);;
         w ← get;
         mod_epoll (epollfd (db w)) (cl_fd cl) EPOLLOUT (Some c);;
         mret 0) w = Ok (0, w')
    ∧ at_loc w' c = Some (OClient (with_handler ReplyHandler cl))
    ∧ (∀ l, l ≠ c → at_loc w' l = at_loc w l)
    ∧ armed w' (cl_fd cl) = Some (event_for EPOLLOUT (cl_fd cl) (Some c))
    ∧ same_but_interest (cl_fd cl) w w' ∧ fresh_loc w' = fresh_loc w.
Proof.
  intros Hc Hso Hi. run_modify. erewrite M_bind_run by done.
  erewrite M_bind_run; [|eapply mod_epoll_run; [exact Hso|exact Hi]].
  eexists. split; [done|]. split_and!.
  - rewrite at_set_kernel. heap_lookup.
  - intros l Hl. rewrite at_set_kernel. by rewrite at_update_ne by congruence.
  - unfold armed. cbn. apply lookup_insert_eq.
  - split; try done. cbn. intros k Hk. by rewrite lookup_insert_ne by congruence.
  - done.
Qed.

(** What a reply of an opcode has as its body. *)
Definition is_body (op : Z) (o : obj) : Prop :=
  if decide (op = PUBLISH) then ∃ p, o = OPublish p else ∃ b, o = OBuffer b.

Lemma free_reply_run r rep b o w : at_loc w r = Some (OReply rep) → r_body rep = Some b →
  at_loc w b = Some o → is_body (r_opcode rep) o →
  free_reply (Some r) w = Ok ((), remove r (remove b w)).
Proof.
  intros Hr Hbody Hb Ho. assert (Hrb : r ≠ b).
  { intros ->. rewrite Hr in Hb. injection Hb as <-. unfold is_body in Ho. case_decide; by destruct Ho. }
  unfold free_reply. rewrite (decide_False (P := Some r = None)) by done. run_deref.
  rewrite Hbody, bool_decide_eq_true_2 by done. cbn [when].
  assert (E : (if decide (r_opcode rep = PUBLISH) then free_publish (Some b) else buffer_destroy (Some b)) w
    = Ok ((), remove b w)).
  { unfold is_body in Ho. case_decide; destruct Ho as [x ->]; [exact (free_packet_run x b w Hb)|by eapply buffer_destroy_run]. }
  erewrite M_bind_run; last first.
  { rewrite (M_bind_run _ _ _ _ _ E). eapply (modify_at_run r rep). by rewrite at_remove_ne. }
  erewrite free_run by heap_lookup. by rewrite remove_update.
Qed.

(** The end of a reply: the reply and its body are freed, and the client reads again. *)
Lemma finish_reply_run w c cl so r rep b o ret :
  at_loc w c = Some (OClient cl) → cl_reply cl = Some r → at_loc w r = Some (OReply rep) →
  r_body rep = Some b → at_loc w b = Some o → is_body (r_opcode rep) o →
  get_sock w (cl_fd cl) = Some so → is_Some (armed w (cl_fd cl)) →
  ∃ w', finish_reply (Some c) ret w = Ok (ret, w')
    ∧ at_loc w' c = Some (OClient (with_handler RequestHandler (with_reply None cl)))
    ∧ at_loc w' r = None ∧ at_loc w' b = None
    ∧ (∀ l, l ≠ c → l ≠ r → l ≠ b → at_loc w' l = at_loc w l)
    ∧ armed w' (cl_fd cl) = Some (event_for EPOLLIN (cl_fd cl) (Some c))
    ∧ same_but_interest (cl_fd cl) w w'.
Proof.
  intros Hc Hr Hrep Hbody Hb Ho Hso Hi. assert (c ≠ r) by congruence.
  assert (c ≠ b ∧ r ≠ b) as [Hcb Hrb].
  { unfold is_body in Ho. case_decide; destruct Ho as [x ->]; split; congruence. }
  unfold finish_reply. run_deref. rewrite Hr, (M_bind_run _ _ _ _ _ (free_reply_run r rep b o w Hrep Hbody Hb Ho)).
  run_modify. run_modify. unfold mod_client_epoll.
  erewrite M_bind_run; last first.
  { run_deref. erewrite M_bind_run by done. eapply mod_epoll_run; [exact Hso|exact Hi]. }
  eexists. split; [done|]. split_and!.
  - rewrite at_set_kernel. heap_lookup.
  - rewrite at_set_kernel, !at_update_ne by done. by rewrite at_remove, decide_True.
  - rewrite at_set_kernel, !at_update_ne, at_remove_ne by congruence. by rewrite at_remove, decide_True.
  - intros l ???. rewrite at_set_kernel, !at_update_ne, !at_remove_ne by congruence. done.
  - unfold armed. cbn. apply lookup_insert_eq.
  - split; try done. cbn. intros k Hk. by rewrite lookup_insert_ne by congruence.
Qed.

(** A client whose reply is a buffer to send, not a PUBLISH, nor a SUBACK with a retained
    message: it is sent, freed, and the client reads again. *)
Lemma reply_buffer w c cl so r op b buf ret :
  at_loc w c = Some (OClient cl) → cl_reply cl = Some r →
  at_loc w r = Some (OReply (mk_reply op (cl_fd cl) (Some b) ret)) →
  at_loc w b = Some (OBuffer buf) → op ≠ PUBLISH → (op = SUBACK → ret = Some None) →
  get_sock w (cl_fd cl) = Some so → is_Some (armed w (cl_fd cl)) →
  length (b_data buf) = b_size buf → Z.of_nat (b_size buf) < 2 ^ 31 →
  let n := tx_accepts (tx so) (Z.of_nat (b_size buf)) in
  ∃ w', reply_handler calloc_ok queue_ok (Some c) w
      = Ok (if decide (n = Z.of_nat (b_size buf)) then 0 else -1, w')
    ∧ at_loc w' c = Some (OClient (with_handler RequestHandler (with_reply None cl)))
    ∧ at_loc w' r = None ∧ at_loc w' b = None
    ∧ (∀ l, l ≠ c → l ≠ r → l ≠ b → at_loc w' l = at_loc w l)
    ∧ armed w' (cl_fd cl) = Some (event_for EPOLLIN (cl_fd cl) (Some c))
    ∧ same_but_interest (cl_fd cl)
        (set_sock (cl_fd cl) (after_send so (b_data buf) (Z.of_nat (b_size buf))) w) w'.
Proof.
  intros Hc Hr Hrep Hb Hnp Hns Hso Hi Hd Hl n.
  unfold reply_handler. run_deref. rewrite Hr. rewrite decide_False by done. run_deref.
  cbn [r_opcode r_body r_fd r_retained]. rewrite (decide_False (P := op = PUBLISH)) by done.
  assert (Hret : (if decide (op = SUBACK) then lift (of_option Indeterminate ret) else mret None) w = Ok (None, w)).
  { case_decide as Ho; [by rewrite (Hns Ho)|done]. }
  pose proof (send_buffer_run w (cl_fd cl) buf so Hso Hd Hl) as Es. fold n in Es. cbv zeta in Es.
  set (w1 := set_sock _ _ w) in Es.
  pose proof (get_set_sock_eq (cl_fd cl) (after_send so (b_data buf) (Z.of_nat (b_size buf))) w) as Hso1. fold w1 in Hso1.
  erewrite M_bind_run; last first.
  { rewrite (M_bind_run _ _ _ _ _ Hret). rewrite decide_False by naive_solver. run_deref.
    unfold send_status. by rewrite (M_bind_run _ _ _ _ _ Es). }
  destruct (finish_reply_run w1 c cl (after_send so (b_data buf) (Z.of_nat (b_size buf))) r (mk_reply op (cl_fd cl) (Some b) ret) b (OBuffer buf)
    (if decide ((if decide (n = Z.of_nat (b_size buf)) then 0 else -1) < 0) then -1 else 0)) as (w' & E & Hw');
    try done; try congruence.
  { unfold is_body. rewrite decide_False by done. by eexists. }
  exists w'. rewrite E. split; [by repeat case_decide|exact Hw'].
Qed.

(** A client that has been answered once: last action, packet pointer and state. *)
Definition served (w : World) (cl : Client) (p : loc) : Client :=
  with_handler RequestHandler (with_reply None (with_last_action (wrap64 (now w)) (with_ptr (Some p) cl))).

(** The tail of a handler: the acknowledgement, the last action, and the packet freed. *)
Lemma acknowledge_run w c cl p o op rc :
  heap_wf w → at_loc w c = Some (OClient cl) → at_loc w p = Some o → c ≠ p → is_byte op → is_byte rc →
  let b := fresh_loc w in let r := Pos.succ b in
  let cl' := with_last_action (wrap64 (now w)) (with_reply (Some r) cl) in
  ∃ w1, (∀ B (k : M World B), (set_ack_reply (Some c) op rc;; update_client_last_action (Some c);; k) w = k w1)
    ∧ at_loc w1 c = Some (OClient cl') ∧ at_loc w1 p = Some o
    ∧ let w' := remove p w1 in env_eq w w' ∧ heap_wf w' ∧ at_loc w' c = Some (OClient cl')
    ∧ at_loc w' r = Some (OReply (mk_reply op (cl_fd cl) (Some b) None))
    ∧ at_loc w' b = Some (OBuffer (ack_buffer op rc)) ∧ at_loc w' p = None
    ∧ ∀ l, l ≠ c → l ≠ r → l ≠ b → l ≠ p → at_loc w' l = at_loc w l.
Proof.
  intros Hwf Hc Ho Hcp Hop Hrc b r cl'.
  assert (p ≠ b) by (by eapply old_loc). assert (p ≠ r) by (eapply old_loc; [done..|unfold r, b; lia]).
  assert (c ≠ b) by (by eapply old_loc). assert (c ≠ r) by (eapply old_loc; [done..|unfold r, b; lia]).
  destruct (set_ack_reply_run c cl op rc w Hwf Hc Hop Hrc) as (w0 & E & He & Hwf1 & Hf1 & Hc1 & Hr1 & Hb1 & Ho1).
  fold b r in Hf1, Hc1, Hr1, Hb1, Ho1.
  pose proof (update_last_run c _ w0 Hc1) as E1. rewrite (env_now _ _ He) in E1. fold cl' in E1.
  exists (update c (OClient cl') w0). split; [|split; [|split]].
  - intros B k. by rewrite (M_bind_run _ _ _ _ _ E), (M_bind_run _ _ _ _ _ E1).
  - by rewrite at_update_eq.
  - rewrite at_update_ne by done. by rewrite Ho1.
  - split_and!.
    + etrans; [exact He|done].
    + apply remove_wf, update_wf; [done|]. by apply Hwf1 in Hc1.
    + heap_lookup.
    + heap_lookup.
    + heap_lookup.
    + by rewrite at_remove, decide_True.
    + intros l ????. rewrite at_remove_ne, at_update_ne by congruence. by apply Ho1.
Qed.

Lemma pingreq_handler_run w c cl p (a : Ack) :
  heap_wf w → at_loc w c = Some (OClient cl) → cl_ptr cl = Some p → at_loc w p = Some (OAck a) →
  let b := fresh_loc w in let r := Pos.succ b in
  ∃ w', pingreq_handler (Some c) w = Ok (1, w') ∧ env_eq w w' ∧ heap_wf w'
    ∧ at_loc w' c = Some (OClient (with_last_action (wrap64 (now w)) (with_reply (Some r) cl)))
    ∧ at_loc w' r = Some (OReply (mk_reply PINGRESP (cl_fd cl) (Some b) None))
    ∧ at_loc w' b = Some (OBuffer (ack_buffer PINGRESP 0)) ∧ at_loc w' p = None
    ∧ ∀ l, l ≠ c → l ≠ r → l ≠ b → l ≠ p → at_loc w' l = at_loc w l.
Proof.
  intros Hwf Hc Hp Ha b r. assert (c ≠ p) by congruence.
  destruct (acknowledge_run w c cl p _ PINGRESP 0 Hwf Hc Ha) as (w1 & Hk & Hc1 & Hp1 & Hdone); [done..|].
  exists (remove p w1). split; [|exact Hdone]. unfold pingreq_handler. rewrite Hk. run_deref.
  cbn [cl_ptr with_last_action with_reply]. rewrite Hp. by run_release.
Qed.

(** ** From the stream to the handler *)

(** A request that is unpacked as [a]: the packet is the next object, the client points
    to it, and once its handler has run the client waits to write. *)
Lemma request_handled {A} `{Cell obj A} (a : A) w c cl so op payload more :
  heap_wf w → at_loc w c = Some (OClient cl) → get_sock w (cl_fd cl) = Some so →
  carries so op payload more → Z.of_nat (length payload) ≤ ONEMB * 2 →
  (∀ ws, unpack_packet op (block (frame op payload)) ws = Ok (Some (fresh_loc ws), alloc a ws)) →
  op ≠ PUBREC → is_Some (armed w (cl_fd cl)) →
  let p := fresh_loc w in
  ∃ rest wb, env_eq (set_sock (cl_fd cl) (mk_sock rest (tx so) (sent_bytes so)) w) wb
    ∧ heap_wf wb ∧ fresh_loc wb = Pos.succ p
    ∧ at_loc wb c = Some (OClient (with_ptr (Some p) (with_last_action (wrap64 (now w)) cl)))
    ∧ at_loc wb p = Some (inj a) ∧ (∀ l, l ≠ c → l ≠ p → at_loc wb l = at_loc w l)
    ∧ ∀ fr ex cl3 w3,
        run_commands (commands_hashmap calloc_ok queue_ok) op (Some c) (-1) false wb = Ok ((fr, ex), w3) →
        at_loc w3 c = Some (OClient cl3) → cl_fd cl3 = cl_fd cl →
        w_kernel w3 = w_kernel wb → epollfd (db w3) = epollfd (db w) →
        ∃ w4, request_handler calloc_ok queue_ok (length (rx so)) (Some c) w = Ok (0, w4)
          ∧ at_loc w4 c = Some (OClient (with_handler ReplyHandler cl3))
          ∧ (∀ l, l ≠ c → at_loc w4 l = at_loc w3 l)
          ∧ armed w4 (cl_fd cl) = Some (event_for EPOLLOUT (cl_fd cl) (Some c))
          ∧ get_sock w4 (cl_fd cl) = Some (mk_sock rest (tx so) (sent_bytes so))
          ∧ (heap_wf w3 → heap_wf w4) ∧ same_but_interest (cl_fd cl) w3 w4.
Proof.
  intros Hwf Hc Hso Hcar Hlen Hun Hop Hi p.
  destruct (request_received w c cl so op payload more Hc Hso Hcar Hlen) as [rest E].
  set (ws := set_sock _ _ w) in E. assert (Hcp : c ≠ p) by (by eapply old_loc).
  pose proof (get_set_sock_eq (cl_fd cl) (mk_sock rest (tx so) (sent_bytes so)) w) as Hso1. fold ws in Hso1.
  assert (Hca : at_loc (alloc a ws) c = Some (OClient cl)) by (by rewrite at_alloc_ne).
  set (cl1 := with_last_action (wrap64 (now w)) cl).
  exists rest, (update c (inj (with_ptr (Some p) cl1)) (update c (OClient cl1) (alloc a ws))).
  split_and!.
  - done.
  - assert (heap_wf (alloc a ws)) as Hwf1 by (by apply alloc_wf). apply Hwf1 in Hca.
    apply update_wf; [by apply update_wf|]. by rewrite fresh_update.
  - by rewrite !fresh_update, fresh_alloc.
  - heap_lookup.
  - rewrite !at_update_ne by done. exact (at_alloc_eq a ws).
  - intros l Hlc Hlp. by rewrite !at_update_ne, at_alloc_ne by done.
  - intros fr ex cl3 w3 Er Hc3 Hfd Hk He. rewrite <- Hfd in Hso1, Hi.
    destruct (arm_reply w3 c cl3 (mk_sock rest (tx so) (sent_bytes so)) Hc3) as
      (w4 & E4 & Hc4 & Ho4 & Hi4 & Hs4 & Hf4).
    { unfold get_sock. change (get_kernel w3) with (w_kernel w3). rewrite Hk. exact Hso1. }
    { unfold armed. by rewrite Hk, He. }
    exists w4. rewrite <- Hfd. split_and!; [|done..| | |done].
    + rewrite E. unfold handle_packet. rewrite (M_bind_run _ _ _ _ _ (Hun ws)).
      rewrite (decide_False (P := Some _ = None)) by done.
      rewrite (M_bind_run _ _ _ _ _ (update_last_run c cl _ Hca)). run_modify.
      rewrite (M_bind_run _ _ _ _ _ Er). rewrite <- E4, <- Hfd.
      rewrite !(M_bind_run _ _ _ _ _ (modify_client_run c cl3 (with_handler ReplyHandler) w3 Hc3)).
      rewrite !M_get_run. by rewrite decide_True by (by left).
    + unfold get_sock. change (get_kernel w4) with (w_kernel w4). rewrite (sbi_socks _ _ _ Hs4), Hk.
      exact Hso1.
    + intros Hwf3 l o Hl. change (next_loc (get_heap w4)) with (fresh_loc w4). rewrite Hf4.
      destruct (decide (l = c)) as [->|Hlc]; [by apply Hwf3 in Hc3|]. rewrite Ho4 in Hl by done. by apply Hwf3 in Hl.
Qed.

(** A request answered by an acknowledgement: once the handler has made it the reply of the
    client, the two events of the exchange send it, free it, and arm the client again. *)
Lemma ack_exchange {A} `{Cell obj A} (a : A) w c cl so op payload more :
  heap_wf w → at_loc w c = Some (OClient cl) → get_sock w (cl_fd cl) = Some so →
  carries so op payload more → Z.of_nat (length payload) ≤ ONEMB * 2 →
  (∀ ws, unpack_packet op (block (frame op payload)) ws = Ok (Some (fresh_loc ws), alloc a ws)) →
  op ≠ PUBREC → is_Some (armed w (cl_fd cl)) →
  let p := fresh_loc w in let n := tx_accepts (tx so) 8 in
  ∃ rest wb, env_eq (set_sock (cl_fd cl) (mk_sock rest (tx so) (sent_bytes so)) w) wb
    ∧ heap_wf wb ∧ fresh_loc wb = Pos.succ p
    ∧ at_loc wb c = Some (OClient (with_ptr (Some p) (with_last_action (wrap64 (now w)) cl)))
    ∧ at_loc wb p = Some (inj a) ∧ (∀ l, l ≠ c → l ≠ p → at_loc wb l = at_loc w l)
    ∧ ∀ fr cl3 w3 r b ackop rc ret,
        run_commands (commands_hashmap calloc_ok queue_ok) op (Some c) (-1) false wb = Ok ((fr, true), w3) →
        at_loc w3 c = Some (OClient cl3) → cl_fd cl3 = cl_fd cl → cl_reply cl3 = Some r →
        at_loc w3 r = Some (OReply (mk_reply ackop (cl_fd cl) (Some b) ret)) →
        at_loc w3 b = Some (OBuffer (ack_buffer ackop rc)) →
        ackop ≠ PUBLISH → (ackop = SUBACK → ret = Some None) →
        w_kernel w3 = w_kernel wb → epollfd (db w3) = epollfd (db w) →
        ∃ w1 w2, request_handler calloc_ok queue_ok (length (rx so)) (Some c) w = Ok (0, w1)
          ∧ (∃ cl1, at_loc w1 c = Some (OClient cl1) ∧ cl_ctx_handler cl1 = ReplyHandler)
          ∧ armed w1 (cl_fd cl) = Some (event_for EPOLLOUT (cl_fd cl) (Some c))
          ∧ reply_handler calloc_ok queue_ok (Some c) w1 = Ok (if decide (n = 8) then 0 else -1, w2)
          ∧ at_loc w2 c = Some (OClient (with_handler RequestHandler (with_reply None cl3)))
          ∧ at_loc w2 r = None ∧ at_loc w2 b = None
          ∧ (∀ l, l ≠ c → l ≠ r → l ≠ b → at_loc w2 l = at_loc w3 l)
          ∧ armed w2 (cl_fd cl) = Some (event_for EPOLLIN (cl_fd cl) (Some c))
          ∧ same_but_interest (cl_fd cl)
              (set_sock (cl_fd cl) (after_send (mk_sock rest (tx so) (sent_bytes so))
                (Some <$> ack_bytes ackop rc) 8) w3) w2.
Proof.
  intros Hwf Hc Hso Hcar Hlen Hun Hop Hi p n.
  destruct (request_handled a w c cl so op payload more Hwf Hc Hso Hcar Hlen Hun Hop Hi)
    as (rest & wb & Heb & Hwfb & Hfb & Hcb & Hpb & Hob & Hdone).
  exists rest, wb. split_and!; [done..|].
  intros fr cl3 w3 r b ackop rc ret Er Hc3 Hfd Hrep Hr3 Hb3 Hna Hret Hk3 Hep.
  destruct (Hdone fr true cl3 w3 Er Hc3 Hfd Hk3 Hep) as (w4 & E4 & Hc4 & Ho4 & Hi4 & Hso4 & Hwf4 & Hs4).
  assert (c ≠ r) by congruence. assert (c ≠ b) by congruence.
  assert (Hfd4 : cl_fd (with_handler ReplyHandler cl3) = cl_fd cl) by done.
  destruct (reply_buffer w4 c (with_handler ReplyHandler cl3) (mk_sock rest (tx so) (sent_bytes so)) r ackop b
    (ack_buffer ackop rc) ret Hc4 Hrep) as (w5 & E5 & Hc5 & Hr5 & Hb5 & Ho5 & Hi5 & Hs5);
    [by rewrite Hfd4, Ho4|by rewrite Ho4|done|done|by rewrite Hfd4|rewrite Hfd4; by eexists|done|done|].
  rewrite Hfd4 in Hi5, Hs5. exists w4, w5.
  split_and!; [exact E4|by eexists|exact Hi4|exact E5|exact Hc5|exact Hr5|exact Hb5| |exact Hi5|].
  - intros l ???. by rewrite Ho5, Ho4.
  - eapply sbi_trans; [|exact Hs5]. by apply sbi_set_sock.
Qed.

Lemma run_pingreq c fr ex :
  run_commands (commands_hashmap calloc_ok queue_ok) PINGREQ c fr ex
  = (r ← pingreq_handler c; mret (r, true)).
Proof. reflexivity. Qed.

(** The packet of a PINGREQ. *)
Definition ping_payload (id rc : Z) : list Z := be_split 2 id ++ be_split 1 rc.

(** C14. A PINGREQ is served in two steps.  Reading it leaves the client waiting to write;
    writing sends the eight bytes of a PINGRESP, as many as the descriptor takes, and
    leaves the client waiting for the next request.  Nothing else of the state changes:
    every object allocated on the way is freed. *)
Theorem pingreq_served w c cl so id rc more :
  heap_wf w → at_loc w c = Some (OClient cl) → get_sock w (cl_fd cl) = Some so →
  carries so PINGREQ (ping_payload id rc) more → urange 16 id → is_byte rc →
  is_Some (armed w (cl_fd cl)) →
  let n := tx_accepts (tx so) 8 in
  ∃ w1 w2 p rest, request_handler calloc_ok queue_ok (length (rx so)) (Some c) w = Ok (0, w1)
    ∧ (∃ cl1, at_loc w1 c = Some (OClient cl1) ∧ cl_ctx_handler cl1 = ReplyHandler)
    ∧ armed w1 (cl_fd cl) = Some (event_for EPOLLOUT (cl_fd cl) (Some c))
    ∧ reply_handler calloc_ok queue_ok (Some c) w1 = Ok (if decide (n = 8) then 0 else -1, w2)
    ∧ at_loc w2 c = Some (OClient (served w cl p))
    ∧ (∀ l, l ≠ c → at_loc w2 l = at_loc w l)
    ∧ armed w2 (cl_fd cl) = Some (event_for EPOLLIN (cl_fd cl) (Some c))
    ∧ same_but_interest (cl_fd cl)
        (set_sock (cl_fd cl) (after_send (mk_sock rest (tx so) (sent_bytes so))
          (Some <$> ack_bytes PINGRESP 0) 8) w) w2.
Proof.
  intros Hwf Hc Hso Hcar Hid Hrc Hi n.
  assert (Hpl : length (ping_payload id rc) = 3%nat) by (unfold ping_payload; by rewrite length_app, !length_be_split).
  destruct (ack_exchange (mk_ack (mk_header PINGREQ 8) id rc) w c cl so _ _ more Hwf Hc Hso Hcar)
    as (rest & wb & Heb & Hwfb & Hfb & Hcb & Hpb & Hob & Hdone); [by rewrite Hpl| |done|done|].
  { intros ws. change (unpack_packet PINGREQ) with (unpacked (A := Ack) unpack_ack).
    rewrite frame_enc, Hpl by done. eapply (unpacked_run unpack_ack dec_ack _ _ []).
    - apply unpack_ack_parses.
    - unfold ping_payload. bytes_ok.
    - rewrite <- (app_nil_r (_ ++ _)). by apply (dec_ack_app PINGREQ 8 id rc []). }
  set (p := fresh_loc w) in *. set (cl2 := with_ptr _ _) in Hcb.
  destruct (pingreq_handler_run wb c cl2 p _ Hwfb Hcb eq_refl Hpb)
    as (w3 & E3 & He3 & Hwf3 & Hc3 & Hr3 & Hb3 & Hp3 & Ho3).
  set (b := fresh_loc wb) in *. set (r := Pos.succ b) in *.
  destruct (Hdone 1 _ w3 r b PINGRESP 0 None ltac:(rewrite run_pingreq; by rewrite (M_bind_run _ _ _ _ _ E3)) Hc3 eq_refl
    eq_refl Hr3 Hb3 ltac:(done) ltac:(done) (env_kernel _ _ He3) ltac:(by rewrite (env_db _ _ He3), (env_db _ _ Heb)))
    as (w4 & w5 & E4 & Hc4 & Hi4 & E5 & Hc5 & Hr5 & Hb5 & Ho5 & Hi5 & Hs5). clear Hdone.
  exists w4, w5, p, rest. split_and!; [exact E4|exact Hc4|exact Hi4|exact E5| | |exact Hi5|].
  - rewrite Hc5. do 2 f_equal. unfold served. cbn. by rewrite (env_now _ _ Heb).
  - intros l Hl. destruct (decide (l = r)) as [->|Hlr].
    { rewrite Hr5. symmetry. apply at_fresh_None; [done|unfold r, b, p in *; lia]. }
    destruct (decide (l = b)) as [->|Hlb].
    { rewrite Hb5. symmetry. apply at_fresh_None; [done|unfold b, p in *; lia]. }
    rewrite Ho5 by done. destruct (decide (l = p)) as [->|Hlp].
    { rewrite Hp3. symmetry. by apply at_fresh_None. }
    by rewrite Ho3, Hob.
  - eapply sbi_trans; [|exact Hs5].
    rewrite <- (set_set_sock (cl_fd cl) _ (mk_sock rest (tx so) (sent_bytes so)) w). apply sbi_set_sock.
    eapply sbi_trans; by apply sbi_env.
Qed.

(** What an exchange does to the sockets and the descriptors. *)
Lemma get_sock_sbi fd w w' fd' : same_but_interest fd w w' → get_sock w' fd' = get_sock w fd'.
Proof. intros Hs. unfold get_sock. change (get_kernel w') with (w_kernel w'). by rewrite (sbi_socks _ _ _ Hs). Qed.

Lemma request_effects fd so w wb w3 w4 :
  env_eq (set_sock fd so w) wb → w_kernel w3 = w_kernel wb → epollfd (db w3) = epollfd (db w) →
  same_but_interest fd w3 w4 →
  (∀ fd', get_sock w4 fd' = if decide (fd = fd') then Some so else get_sock w fd')
  ∧ (∀ fd', fd ≠ fd' → armed w4 fd' = armed w fd').
Proof.
  intros Heb Hk3 Hep Hs4. split; intros fd'.
  - rewrite (get_sock_sbi _ _ _ _ Hs4), <- get_set_sock. unfold get_sock.
    change (get_kernel ?x) with (w_kernel x). by rewrite Hk3, (env_kernel _ _ Heb).
  - intros Hfd. unfold armed. rewrite (sbi_others _ _ _ Hs4).
    + by rewrite (sbi_db _ _ _ Hs4), Hep, Hk3, (env_kernel _ _ Heb).
    + rewrite (sbi_db _ _ _ Hs4), Hep. congruence.
Qed.

Lemma exchange_effects fd so so' w wb w3 w5 :
  env_eq (set_sock fd so w) wb → w_kernel w3 = w_kernel wb → epollfd (db w3) = epollfd (db w) →
  same_but_interest fd (set_sock fd so' w3) w5 →
  (∀ fd', get_sock w5 fd' = if decide (fd = fd') then Some so' else get_sock w fd')
  ∧ (∀ fd', fd ≠ fd' → armed w5 fd' = armed w fd').
Proof.
  intros Heb Hk3 Hep Hs5. split; intros fd'.
  - rewrite (get_sock_sbi _ _ _ _ Hs5), get_set_sock. destruct (decide (fd = fd')) as [Hfd|Hfd]; [done|].
    unfold get_sock. change (get_kernel w3) with (w_kernel w3). rewrite Hk3, (env_kernel _ _ Heb).
    by apply lookup_insert_ne.
  - intros Hfd. unfold armed. rewrite (sbi_db _ _ _ Hs5), (sbi_others _ _ _ Hs5).
    + change (interest (w_kernel w3) !! (epollfd (db w3), fd') = interest (w_kernel w) !! (epollfd (db w), fd')).
      by rewrite Hk3, Hep, (env_kernel _ _ Heb).
    + intros Hk'. by simplify_eq.
Qed.

(** ** Requests without a reply *)

Lemma reply_handler_none w c cl : at_loc w c = Some (OClient cl) → cl_reply cl = None →
  reply_handler calloc_ok queue_ok (Some c) w = Ok (0, w).
Proof. intros Hc Hr. unfold reply_handler. run_deref. by rewrite Hr. Qed.

Lemma unpack_stray_ack op id rc ws : op = SUBACK ∨ op = PUBACK → urange 16 id → is_byte rc →
  unpack_packet op (block (frame op (ping_payload id rc))) ws
  = Ok (Some (fresh_loc ws), alloc (mk_ack (mk_header op 8) id rc) ws).
Proof.
  intros Hop Hid Hrc. assert (is_byte op) by (by destruct Hop as [-> | ->]).
  assert (Hpl : length (ping_payload id rc) = 3%nat).
  { unfold ping_payload. by rewrite length_app, !length_be_split. }
  assert (unpack_packet op = unpacked (A := Ack) unpack_ack) as -> by (by destruct Hop as [-> | ->]).
  rewrite frame_enc, Hpl by done. eapply (unpacked_run unpack_ack dec_ack _ _ []).
  - apply unpack_ack_parses.
  - unfold ping_payload. bytes_ok.
  - rewrite <- (app_nil_r (_ ++ _)). by apply (dec_ack_app op 8 id rc []).
Qed.

(** A SUBACK or PUBACK from a client (the acknowledgement of a message, say) stalls its
    connection: it is unpacked, no handler runs and no reply is made, the client is set to
    wait for writing, and when that event comes the reply handler returns at once without
    arming the descriptor again.  The packet object is left allocated. *)
Theorem stray_ack_stalls w c cl so op id rc more :
  heap_wf w → at_loc w c = Some (OClient cl) → get_sock w (cl_fd cl) = Some so →
  op = SUBACK ∨ op = PUBACK → carries so op (ping_payload id rc) more → urange 16 id → is_byte rc →
  is_Some (armed w (cl_fd cl)) → cl_reply cl = None →
  ∃ w1 cl1 p, request_handler calloc_ok queue_ok (length (rx so)) (Some c) w = Ok (0, w1)
    ∧ at_loc w1 c = Some (OClient cl1) ∧ cl_ctx_handler cl1 = ReplyHandler
    ∧ armed w1 (cl_fd cl) = Some (event_for EPOLLOUT (cl_fd cl) (Some c))
    ∧ reply_handler calloc_ok queue_ok (Some c) w1 = Ok (0, w1)
    ∧ at_loc w p = None ∧ at_loc w1 p = Some (OAck (mk_ack (mk_header op 8) id rc)).
Proof.
  intros Hwf Hc Hso Hop Hcar Hid Hrc Hi Hr.
  destruct (request_handled (mk_ack (mk_header op 8) id rc) w c cl so op _ more Hwf Hc Hso Hcar)
    as (rest & wb & Heb & Hwfb & Hfb & Hcb & Hpb & Hob & Hdone).
  { unfold ping_payload. rewrite length_app, !length_be_split. unfold ONEMB. lia. }
  { intros ws. by apply unpack_stray_ack. }
  { by destruct Hop as [-> | ->]. }
  { done. }
  destruct (Hdone (-1) false _ wb ltac:(by destruct Hop as [-> | ->]) Hcb eq_refl eq_refl
    ltac:(by rewrite (env_db _ _ Heb))) as (w4 & E4 & Hc4 & Ho4 & Hi4 & Hso4 & Hwf4 & Hs4).
  assert (c ≠ fresh_loc w) by (by eapply (old_loc w)).
  do 2 eexists. exists (fresh_loc w). split_and!; [exact E4|exact Hc4|done|exact Hi4| | |].
  - by eapply reply_handler_none.
  - by apply heap_wf_fresh.
  - by rewrite Ho4.
Qed.

(** ** Keepalive *)

(** A client that has been silent for its keepalive time. *)
Definition expired (w : World) (cl : Client) : Prop :=
  cl_status cl = ONLINE ∧ cl_keepalive cl ≤ wrap64 (now w - cl_last_action_time cl).

Lemma iterate_loop_app (f : hashmap_entry key loc → M World Z) pre post w w1 :
  iterate_loop f pre w = Ok (HASHMAP_OK, w1) →
  iterate_loop f (pre ++ post) w = iterate_loop f post w1.
Proof.
  revert w. induction pre as [|e pre IH]; intros w; cbn [iterate_loop app]; [by intros [= <-]|].
  destruct (e_in_use e); [|apply IH]. unfold mbind, M_bind. destruct (f e w) as [[st w']|]; [|done].
  case_decide; [by intros [= ? ?]|apply IH].
Qed.

Lemma check_healthy w e c cl :
  e_val e = Some c → at_loc w c = Some (OClient cl) → ¬ expired w cl →
  check_client_status e w = Ok (HASHMAP_ERR, w).
Proof.
  intros Hv Hc Hne. unfold check_client_status. rewrite Hv. erewrite M_bind_run by done. run_deref.
  rewrite decide_False; [done|]. exact Hne.
Qed.

(** C22. The keepalive scan stops at the first client that is not due: such a client makes
    the callback return an error status, which ends the iteration, so the entries after it
    in the table are not looked at and their clients stay connected, however long they
    have been silent. *)
Theorem keepalive_scan_stops w w1 m pre e post c cl :
  m_entries m = pre ++ e :: post → 0 < m_size m →
  iterate_loop check_client_status pre w = Ok (HASHMAP_OK, w1) →
  e_in_use e = true → e_val e = Some c → at_loc w1 c = Some (OClient cl) → ¬ expired w1 cl →
  hashmap_iterate2 m check_client_status w = Ok (HASHMAP_ERR, w1).
Proof.
  intros Hm Hsz Hpre Hu Hv Hc Hne. unfold hashmap_iterate2. rewrite decide_False by lia.
  rewrite Hm, (iterate_loop_app _ _ _ _ _ Hpre). cbn [iterate_loop]. rewrite Hu.
  by rewrite (M_bind_run _ _ _ _ _ (check_healthy w1 e c cl Hv Hc Hne)), decide_True.
Qed.

End Requests.

(** * Witnesses *)

(** A client whose descriptor carries the frame. *)
Definition demo_request (op : Z) (payload : list Z) : World :=
  demo_world [(5%positive, OClient (demo_client 7 (Some 6%positive) None None)); (6%positive, demo_str [99; 49])]
    [(7, demo_sock op payload)].

(** An UNSUBSCRIBE. *)
Lemma unknown_request_stalls_witness :
  ∃ w', request_handler (λ _, true) true 2 (Some 5%positive) (demo_request UNSUBSCRIBE [0; 1; 116]) = Ok (-1, w').
Proof.
  edestruct (unknown_request_stalls (λ _, true) true (demo_request UNSUBSCRIBE [0; 1; 116]) 5%positive
    (demo_client 7 (Some 6%positive) None None) (demo_sock UNSUBSCRIBE [0; 1; 116]) UNSUBSCRIBE [0; 1; 116] []
    eq_refl eq_refl (demo_sock_carries _ _) ltac:(done) eq_refl) as [rest E].
  eexists. exact E.
Defined.

(** The descriptor takes three bytes of the answer, then the other five. *)
Lemma pingreq_served_witness :
  ∃ w1 w2, request_handler (λ _, true) true 2 (Some 5%positive) (demo_request PINGREQ (ping_payload 0 0)) = Ok (0, w1)
    ∧ reply_handler (λ _, true) true (Some 5%positive) w1 = Ok (0, w2)
    ∧ armed w2 7 = Some (event_for EPOLLIN 7 (Some 5%positive)).
Proof.
  edestruct (pingreq_served (λ _, true) true (demo_request PINGREQ (ping_payload 0 0)) 5%positive
    (demo_client 7 (Some 6%positive) None None) (demo_sock PINGREQ (ping_payload 0 0)) 0 0 []
    ltac:(by apply demo_world_wf) eq_refl eq_refl (demo_sock_carries _ _) ltac:(done) ltac:(done) ltac:(by eexists))
    as (w1 & w2 & p & rest & E1 & _ & _ & E2 & _ & _ & Ha & _).
  exists w1, w2. split; [exact E1|]. split; [exact E2|exact Ha].
Defined.

Lemma stray_ack_stalls_witness :
  ∃ w1, request_handler (λ _, true) true 2 (Some 5%positive) (demo_request PUBACK (ping_payload 4 0)) = Ok (0, w1)
    ∧ armed w1 7 = Some (event_for EPOLLOUT 7 (Some 5%positive))
    ∧ reply_handler (λ _, true) true (Some 5%positive) w1 = Ok (0, w1).
Proof.
  edestruct (stray_ack_stalls (λ _, true) true (demo_request PUBACK (ping_payload 4 0)) 5%positive
    (demo_client 7 (Some 6%positive) None None) (demo_sock PUBACK (ping_payload 4 0)) PUBACK 4 0 []
    ltac:(by apply demo_world_wf) eq_refl eq_refl ltac:(by right) (demo_sock_carries _ _) ltac:(done) ltac:(done)
    ltac:(by eexists) eq_refl)
    as (w1 & cl1 & p & E1 & _ & _ & Ha & E2 & _).
  exists w1. split; [exact E1|]. split; [exact Ha|exact E2].
Defined.

(** Two clients: the first spoke a second ago, the second long ago. *)
Definition demo_silent : World := demo_world
  [(5%positive, OClient (mk_client ONLINE 60 999 None 7 RequestHandler (Some 6%positive) None None));
   (8%positive, OClient (mk_client ONLINE 60 100 None 9 RequestHandler (Some 6%positive) None None))] [].
Definition demo_clients : Hashmap key loc :=
  mk_hashmap 4 2 [no_entry; mk_entry (Some (KPtr 6%positive)) (Some 5%positive) true; no_entry;
                  mk_entry (Some (KPtr 6%positive)) (Some 8%positive) true] false.

Lemma keepalive_scan_stops_witness :
  hashmap_iterate2 demo_clients check_client_status demo_silent = Ok (HASHMAP_ERR, demo_silent)
  ∧ expired demo_silent (mk_client ONLINE 60 100 None 9 RequestHandler (Some 6%positive) None None).
Proof.
  split; [|by vm_compute].
  exact (keepalive_scan_stops demo_silent demo_silent demo_clients [no_entry]
    (mk_entry (Some (KPtr 6%positive)) (Some 5%positive) true)
    [no_entry; mk_entry (Some (KPtr 6%positive)) (Some 8%positive) true] 5%positive
    (mk_client ONLINE 60 999 None 7 RequestHandler (Some 6%positive) None None)
    eq_refl ltac:(done) eq_refl eq_refl eq_refl eq_refl ltac:(by intros [_ ?])).
Defined.
