(* ===== verification/Publish.v ===== *)
(** Publishing: the distribution of a message to the subscribers of a topic, and its
    retention. *)
From stdpp Require Import base numbers option list gmap.
From Stdlib Require Import ZArith Lia.
From S2P Require Import Prelude Memory Ringbuf Buffer Protocol Hashmap Chain Lists Queues Network.
From S2P Require Import Receive Util Sizigy Demo Server Broker.

Local Open Scope Z_scope.

(** * Distribution *)

(** A node of a subscriber list whose subscription belongs to the client at [c]. *)
Definition subscriber (w : World) (x : loc * ptr) (c : loc) : Prop :=
  ∃ s sub cl, x.2 = Some s ∧ at_loc w s = Some (OSubscription sub) ∧ sub_client sub = Some c
    ∧ at_loc w c = Some (OClient cl).

(** What one subscriber gets: the buffer is offered to its socket, its last action is now.
    The count is what the socket took. *)
Definition offered (b : Buffer) (w : World) (c : loc) : Z :=
  match at_loc w c with
  | Some (OClient cl) =>
      match get_sock w (cl_fd cl) with
      | Some so => tx_accepts (tx so) (Z.of_nat (b_size b))
      | None => 0
      end
  | _ => 0
  end.

Definition deliver (b : Buffer) (w : World) (c : loc) : World :=
  match at_loc w c with
  | Some (OClient cl) =>
      update c (OClient (with_last_action (wrap64 (now w)) cl))
        (match get_sock w (cl_fd cl) with
         | Some so => set_sock (cl_fd cl) (after_send so (b_data b) (Z.of_nat (b_size b))) w
         | None => w
         end)
  | _ => w
  end.

Definition publish_step (b : Buffer) (r : Z * World) (c : loc) : Z * World :=
  (to_int (r.1 + offered b r.2 c), deliver b r.2 c).

Lemma send_buffer_closed w fd b : get_sock w fd = None → length (b_data b) = b_size b →
  (0 < b_size b)%nat → send_buffer fd b w = Ok ((-1, 0), w).
Proof.
  intros Hso Hd Hl. unfold send_buffer, tx_fuel. erewrite M_bind_run by (by rewrite Hso).
  assert (E : sendall_loop 1 fd (b_data b) (Z.of_nat (b_size b)) 0 (Z.of_nat (b_size b)) 0 w
    = Ok ((0, -1), w)).
  { cbn [sendall_loop]. rewrite decide_True, slice_run by lia. cbn [lift]. erewrite M_bind_run by done.
    unfold send. by erewrite M_bind_run by (by rewrite Hso). }
  unfold sendall. by rewrite (M_bind_run _ _ _ _ _ E).
Qed.

(** A delivery changes one client and one socket. *)
Lemma at_deliver b w c l : at_loc (deliver b w c) l =
  match at_loc w l with
  | Some (OClient cl) => Some (OClient (if decide (l = c) then with_last_action (wrap64 (now w)) cl else cl))
  | o => o
  end.
Proof.
  unfold deliver. destruct (decide (l = c)) as [->|Hlc].
  - destruct (at_loc w c) as [[]|] eqn:Hc; rewrite ?Hc; try done. by rewrite at_update_eq.
  - trans (at_loc w l); [|by destruct (at_loc w l) as [[]|]].
    destruct (at_loc w c) as [o|]; [|done]. destruct o; try done.
    rewrite at_update_ne by congruence. by destruct (get_sock w _).
Qed.

Lemma deliver_now b w c : now (deliver b w c) = now w.
Proof. unfold deliver. destruct (at_loc w c) as [[]|]; try done. by destruct (get_sock w _). Qed.

Lemma get_sock_deliver b w c cl fd : at_loc w c = Some (OClient cl) →
  get_sock (deliver b w c) fd =
  if decide (cl_fd cl = fd) then (λ so, after_send so (b_data b) (Z.of_nat (b_size b))) <$> get_sock w fd
  else get_sock w fd.
Proof.
  intros Hc. unfold deliver. rewrite Hc, get_sock_update.
  destruct (get_sock w (cl_fd cl)) as [so|] eqn:Hso.
  - rewrite get_set_sock. case_decide as Hd; [|done]. by rewrite <- Hd, Hso.
  - case_decide as Hd; [|done]. by rewrite <- Hd, Hso.
Qed.

(** Subscriptions and chains are not touched by deliveries. *)
Lemma subscriber_deliver b w c x c' : subscriber w x c' → subscriber (deliver b w c) x c'.
Proof.
  intros (s & sub & cl & Hx & Hs & Hsub & Hc'). exists s, sub. rewrite !at_deliver, Hs, Hc'. eauto.
Qed.

Lemma chain_deliver b w c p xs q :
  lseg w p xs q → lseg (deliver b w c) p xs q.
Proof.
  revert p. induction xs as [|[l d] xs IH]; intros p; cbn; [done|].
  intros (-> & n & Hl & Hxs). split; [done|]. exists n. rewrite at_deliver, Hl. split; [done|by apply IH].
Qed.

Lemma publish_loop_run b xs : ∀ w p cs total fuel,
  lseg w p xs None → Forall2 (subscriber w) xs cs → (length xs ≤ fuel)%nat →
  length (b_data b) = b_size b → (0 < b_size b)%nat → Z.of_nat (b_size b) < 2 ^ 31 →
  publish_loop fuel b p total w = Ok (foldl (publish_step b) (total, w) cs).
Proof.
  induction xs as [|[l d] xs IH]; intros w p cs total fuel Hseg Hsub Hf Hd Hb Hbs.
  { cbn in Hseg. subst p. apply Forall2_nil_inv_l in Hsub as ->. by destruct fuel. }
  apply Forall2_cons_inv_l in Hsub as (c & cs' & (s & sub & cl & Hx & Hs & Hsc & Hc) & Hsub & ->).
  destruct fuel as [|fuel]; [cbn in Hf; lia|]. cbn in Hseg, Hx. destruct Hseg as (-> & n & Hl & Hseg). subst d.
  cbn [publish_loop foldl]. rewrite decide_False by done. run_deref. cbn [n_data]. run_deref.
  rewrite Hsc. run_deref. cbn [n_next].
  assert (Hsend : ∃ rc, send_buffer (cl_fd cl) b w = Ok ((rc, offered b w c),
    match get_sock w (cl_fd cl) with
    | Some so => set_sock (cl_fd cl) (after_send so (b_data b) (Z.of_nat (b_size b))) w
    | None => w end)).
  { unfold offered. rewrite Hc. destruct (get_sock w (cl_fd cl)) as [so|] eqn:Hso.
    - eexists. by rewrite (send_buffer_run w (cl_fd cl) b so Hso Hd Hbs).
    - eexists. by rewrite (send_buffer_closed w (cl_fd cl) b Hso Hd Hb). }
  destruct Hsend as [rc Es]. rewrite (M_bind_run _ _ _ _ _ Es).
  set (w1 := match get_sock w (cl_fd cl) with Some _ => _ | None => w end).
  assert (Hc1 : at_loc w1 c = Some (OClient cl)) by (unfold w1; by destruct (get_sock w _)).
  assert (Hn1 : now w1 = now w) by (unfold w1; by destruct (get_sock w _)).
  rewrite (M_bind_run _ _ _ _ _ (update_last_run c cl w1 Hc1)), Hn1.
  assert (Hdel : update c (OClient (with_last_action (wrap64 (now w)) cl)) w1 = deliver b w c)
    by (unfold deliver; by rewrite Hc).
  rewrite Hdel. apply IH; [by apply chain_deliver| |cbn in Hf; lia|done..].
  eapply Forall2_impl; [exact Hsub|]. intros. by apply subscriber_deliver.
Qed.

(** The chain is not longer than the heap. *)
Lemma chain_le_heap (w : World) p xs : lseg w p xs None → NoDup xs.*1 →
  (length xs ≤ size (cells (w_heap w)))%nat.
Proof.
  intros Hseg Hnd. rewrite <- (length_fmap fst xs), <- (size_list_to_set (C := gset loc)) by done.
  rewrite <- size_dom. apply subseteq_size. intros l Hl%elem_of_list_to_set.
  destruct (chain_allocated _ _ _ _ _ _ Hseg Hl) as [o Ho]. exact (elem_of_dom_2 (cells (w_heap w)) l o Ho).
Qed.

(** What is sent for a packet: its encoding, and the bytes its header size leaves over. *)
Lemma pack_publish_into msg t m k :
  cstr (p_topic msg) = Ok t → cstr (p_message msg) = Ok m →
  let enc sz := enc_publish (opcode (p_header msg)) sz (p_qos msg) (p_retain msg) (p_dup msg) t m in
  let sz := (14 + length t + length m + k)%nat in
  hsize (p_header msg) = Z.of_nat sz →
  pack_into (p_header msg) (pack_publish msg)
  = Ok (mk_buffer sz (sz - k) ((Some <$> enc sz) ++ replicate k None)).
Proof.
  intros Ht Hm enc sz Hsz. unfold pack_into. rewrite Hsz, Nat2Z.id.
  assert (Hl : length (enc sz) = (sz - k)%nat) by (unfold enc; rewrite length_enc_publish; unfold sz; lia).
  rewrite (emits_fresh _ _ (enc sz)); [|by apply pack_publish_emits|lia].
  cbn [mbind res_bind]. rewrite Hl. by replace (sz - (sz - k))%nat with k by (unfold sz; lia).
Qed.

(** The subscribers of a topic, with their clients and descriptors. *)
Record topic_subs (w : World) (t : loc) (tp : Topic) (l : loc) (xs : list (loc * ptr)) (cs : list loc)
    (fds : list Z) : Prop := {
  ts_topic : at_loc w t = Some (OTopic tp);
  ts_list : t_subscribers tp = Some l;
  ts_wf : list_wf w l xs;
  ts_subs : Forall2 (subscriber w) xs cs;
  ts_fds : Forall2 (λ c fd, ∃ cl, at_loc w c = Some (OClient cl) ∧ cl_fd cl = fd) cs fds
}.

Lemma subscriber_client w xs cs c : Forall2 (subscriber w) xs cs → c ∈ cs →
  ∃ cl, at_loc w c = Some (OClient cl).
Proof.
  induction 1 as [|x c' xs cs (s & sub & cl & _ & _ & _ & Hc) _ IH]; [by intros ?%not_elem_of_nil|].
  intros [->|Hin]%elem_of_cons; [eauto|by apply IH].
Qed.

Lemma publish_fold_heap b cs : ∀ total w l, l ∉ cs →
  at_loc (foldl (publish_step b) (total, w) cs).2 l = at_loc w l.
Proof.
  induction cs as [|c cs IH]; intros total w l Hl; [done|]. apply not_elem_of_cons in Hl as [Hlc Hl].
  cbn [foldl publish_step]. unfold publish_step at 2. cbn [fst snd]. rewrite IH by done.
  rewrite at_deliver. destruct (at_loc w l) as [[]|]; try done. by rewrite decide_False.
Qed.

Lemma publish_fold_socks b cs fds : ∀ total w fd,
  Forall2 (λ c fd, ∃ cl, at_loc w c = Some (OClient cl) ∧ cl_fd cl = fd) cs fds → NoDup fds →
  get_sock (foldl (publish_step b) (total, w) cs).2 fd =
  if decide (fd ∈ fds) then (λ so, after_send so (b_data b) (Z.of_nat (b_size b))) <$> get_sock w fd
  else get_sock w fd.
Proof.
  revert fds. induction cs as [|c cs IH]; intros fds total w fd Hfds Hnd.
  { apply Forall2_nil_inv_l in Hfds as ->. by rewrite decide_False by apply not_elem_of_nil. }
  apply Forall2_cons_inv_l in Hfds as (fd1 & fds' & (cl & Hc & Hfd1) & Hfds & ->).
  apply NoDup_cons in Hnd as [Hn Hnd]. cbn [foldl]. unfold publish_step at 2. cbn [fst snd].
  rewrite (IH fds'); [|eapply Forall2_impl; [exact Hfds|]|done].
  - rewrite (get_sock_deliver _ _ _ cl) by done. rewrite Hfd1.
    destruct (decide (fd1 = fd)) as [->|Hne].
    + by rewrite decide_False, decide_True by (done || left).
    + assert (fd ∈ fd1 :: fds' ↔ fd ∈ fds') as Hiff by (rewrite elem_of_cons; naive_solver).
      by rewrite (decide_ext _ _ _ _ Hiff).
  - intros c' fd' (cl' & Hc' & Hfd'). rewrite at_deliver, Hc'. eexists. split; [done|].
    by case_decide.
Qed.

(** Deliveries change nothing but sockets and the last actions of clients. *)
Record delivered (w w' : World) : Prop := {
  dl_interest : interest (w_kernel w') = interest (w_kernel w); dl_db : db w' = db w;
  dl_config : config w' = config w; dl_now : now w' = now w; dl_fresh : fresh_loc w' = fresh_loc w;
  dl_at l : at_loc w' l = match at_loc w l with
                          | Some (OClient cl) => at_loc w' l
                          | o => o
                          end;
  dl_client l cl : at_loc w l = Some (OClient cl) →
    ∃ t, at_loc w' l = Some (OClient (with_last_action t cl))
}.

Lemma with_last_action_id cl : with_last_action (cl_last_action_time cl) cl = cl.
Proof. by destruct cl. Qed.

#[export] Instance delivered_preorder : PreOrder delivered.
Proof.
  split.
  - intros w. split; try done; [intros l; by destruct (at_loc w l) as [[]|]|].
    intros l cl Hl. exists (cl_last_action_time cl). by rewrite with_last_action_id.
  - intros w1 w2 w3 H12 H23. split.
    + by rewrite (dl_interest _ _ H23), (dl_interest _ _ H12).
    + by rewrite (dl_db _ _ H23), (dl_db _ _ H12).
    + by rewrite (dl_config _ _ H23), (dl_config _ _ H12).
    + by rewrite (dl_now _ _ H23), (dl_now _ _ H12).
    + by rewrite (dl_fresh _ _ H23), (dl_fresh _ _ H12).
    + intros l. pose proof (dl_at _ _ H12 l) as H1. pose proof (dl_at _ _ H23 l) as H2.
      destruct (at_loc w1 l) as [[]|]; rewrite ?H1 in H2; done.
    + intros l cl [t Hl]%(dl_client _ _ H12). destruct (dl_client _ _ H23 _ _ Hl) as [t' Hl'].
      exists t'. by rewrite Hl'.
Qed.

Lemma deliver_delivered b w c : delivered w (deliver b w c).
Proof.
  assert (Hat := at_deliver b w c). unfold deliver in *. destruct (at_loc w c) as [o|] eqn:Hc; [|reflexivity].
  destruct o as [| | | | |cl| | | | | | | | | |]; try reflexivity.
  split; try (by destruct (get_sock w (cl_fd cl))).
  - intros l. rewrite Hat. by destruct (at_loc w l) as [[]|].
  - intros l cl' Hl. rewrite Hat, Hl. case_decide; [eauto|].
    exists (cl_last_action_time cl'). by rewrite with_last_action_id.
Qed.

Lemma publish_fold_delivered b cs : ∀ total w, delivered w (foldl (publish_step b) (total, w) cs).2.
Proof.
  induction cs as [|c cs IH]; intros total w; [reflexivity|]. cbn [foldl].
  etrans; [apply (deliver_delivered b w c)|]. apply IH.
Qed.

Lemma delivered_other w w' l o : delivered w w' → at_loc w l = Some o → (∀ cl, o ≠ OClient cl) →
  at_loc w' l = Some o.
Proof. intros Hd Hl Ho. rewrite (dl_at _ _ Hd), Hl. destruct o; try done. by destruct (Ho c). Qed.

Lemma delivered_none w w' l : delivered w w' → at_loc w l = None → at_loc w' l = None.
Proof. intros Hd Hl. by rewrite (dl_at _ _ Hd), Hl. Qed.

Lemma delivered_wf w w' : delivered w w' → heap_wf w → heap_wf w'.
Proof.
  intros Hd Hwf l o Hl. change (next_loc (get_heap w')) with (fresh_loc w'). rewrite (dl_fresh _ _ Hd).
  destruct (at_loc w l) as [o'|] eqn:Ho; [by apply Hwf in Ho|]. by rewrite (delivered_none _ _ _ Hd Ho) in Hl.
Qed.

(** What publishing sends: the encoding in a block of the size the header says. *)
Definition publish_buffer (msg : Publish) (topic message : list Z) (k : nat) : Buffer :=
  let sz := (14 + length topic + length message + k)%nat in
  mk_buffer sz (sz - k)
    ((Some <$> enc_publish (opcode (p_header msg)) sz (p_qos msg) (p_retain msg) (p_dup msg) topic message)
     ++ replicate k None).

Lemma publish_buffer_length msg topic message k :
  length (b_data (publish_buffer msg topic message k)) = b_size (publish_buffer msg topic message k).
Proof. unfold publish_buffer. cbn [b_data b_size]. rewrite length_app, length_fmap, length_enc_publish, length_replicate. lia. Qed.

(** The subscribers of a topic are still there when a string is freed. *)
Lemma topic_subs_remove w t tp l xs cs fds y bs : at_loc w y = Some (OStr bs) →
  topic_subs w t tp l xs cs fds → topic_subs (remove y w) t tp l xs cs fds.
Proof.
  intros Hy [Ht Hlst (hd & Hl & Hseg & Hnd) Hsubs Hfds].
  assert (Hkeep : ∀ x o, at_loc w x = Some o → (∀ bs, o ≠ OStr bs) → at_loc (remove y w) x = Some o).
  { intros x o Hx Ho. rewrite at_remove_ne; [done|]. intros ->. rewrite Hy in Hx.
    injection Hx as <-. by apply (Ho bs). }
  split; [by apply Hkeep|done| | |].
  - exists hd. split_and!; [by apply Hkeep| |done]. apply (chain_frame _ w); [|done].
    intros x ([x' d] & -> & Hx)%list_elem_of_fmap.
    destruct (chain_at _ _ _ _ _ _ _ Hseg Hx) as [n Hn]. cbn [fst]. rewrite Hn. by apply Hkeep.
  - eapply Forall2_impl; [exact Hsubs|]. intros x c (s & sub & cl & Hx & Hsx & Hsc & Hc).
    exists s, sub, cl. split_and!; [done|by apply Hkeep|done|by apply Hkeep].
  - eapply Forall2_impl; [exact Hfds|]. intros c fd (cl & Hc & Hfd). exists cl. split; [by apply Hkeep|done].
Qed.

(** The walk, once the message was retained or the string of its sender freed. *)
Lemma publish_message_from w w1 t tp l xs cs fds msg topic message k sender :
  (if decide (p_retain msg ≠ 0) then retain_message (Some t) msg sender else free sender) w = Ok ((), w1) →
  topic_subs w1 t tp l xs cs fds →
  cstr (p_topic msg) = Ok topic → cstr (p_message msg) = Ok message →
  let buf := publish_buffer msg topic message k in
  hsize (p_header msg) = Z.of_nat (b_size buf) → Z.of_nat (b_size buf) < 2 ^ 31 →
  publish_message (Some t) msg sender w = Ok (foldl (publish_step buf) (0, w1) cs).
Proof.
  intros E [Ht Hlst (hd & Hl & Hseg & Hnd) Hsubs _] Htop Hmsg buf Hsz Hsmall. unfold publish_message.
  rewrite (pack_publish_into msg topic message k) by done. cbn [lift]. erewrite M_bind_run by done.
  rewrite (M_bind_run _ _ _ _ _ E). run_deref. rewrite Hlst. run_deref. cbn [l_head].
  erewrite M_bind_run by done. apply NoDup_cons in Hnd as [_ Hnd].
  apply publish_loop_run with (xs := xs); try done.
  - pose proof (chain_le_heap w1 hd xs Hseg Hnd). lia.
  - apply publish_buffer_length.
  - cbn. lia.
Qed.

Lemma publish_message_run w t tp l xs cs fds msg topic message k sender bs :
  topic_subs w t tp l xs cs fds →
  cstr (p_topic msg) = Ok topic → cstr (p_message msg) = Ok message →
  let buf := publish_buffer msg topic message k in
  hsize (p_header msg) = Z.of_nat (b_size buf) → Z.of_nat (b_size buf) < 2 ^ 31 → p_retain msg = 0 →
  at_loc w sender = Some (OStr bs) →
  publish_message (Some t) msg (Some sender) w = Ok (foldl (publish_step buf) (0, remove sender w) cs).
Proof.
  intros Hts Htop Hmsg buf Hsz Hsmall Hret Hs.
  apply (publish_message_from w (remove sender w) t tp l xs cs fds); try done; [|by eapply topic_subs_remove].
  rewrite (decide_False (P := _ ≠ 0)) by naive_solver. by eapply free_run.
Qed.

(** Publishing a message that is not retained offers its encoding once to the socket of
    every subscriber of the topic and to no other socket: each gets the prefix it accepts,
    whatever the others did.  The name of the sender is freed and, but for the last action
    of the subscribed clients, no object changes.  What the header size leaves over goes
    out unwritten. *)
Theorem publish_reaches_subscribers w t tp l xs cs fds msg topic message k sender bs :
  topic_subs w t tp l xs cs fds → NoDup fds →
  cstr (p_topic msg) = Ok topic → cstr (p_message msg) = Ok message →
  let sz := (14 + length topic + length message + k)%nat in
  hsize (p_header msg) = Z.of_nat sz → Z.of_nat sz < 2 ^ 31 → p_retain msg = 0 →
  at_loc w sender = Some (OStr bs) →
  let data := (Some <$> enc_publish (opcode (p_header msg)) sz (p_qos msg) (p_retain msg) (p_dup msg)
                          topic message) ++ replicate k None in
  ∃ total w', publish_message (Some t) msg (Some sender) w = Ok (total, w')
    ∧ (∀ fd, get_sock w' fd = if decide (fd ∈ fds)
                              then (λ so, after_send so data (Z.of_nat sz)) <$> get_sock w fd
                              else get_sock w fd)
    ∧ at_loc w' sender = None
    ∧ ∀ l, l ≠ sender → l ∉ cs → at_loc w' l = at_loc w l.
Proof.
  intros Hts Hndf Htop Hmsg sz Hsz Hsmall Hret Hs data.
  pose proof (publish_message_run w t tp l xs cs fds msg topic message k sender bs Hts Htop Hmsg Hsz Hsmall
    Hret Hs) as E.
  destruct (topic_subs_remove _ _ _ _ _ _ _ _ _ Hs Hts) as [_ _ _ _ Hfds].
  set (r := foldl _ _ cs) in E. exists r.1, r.2. split; [by destruct r|]. split_and!.
  - intros fd. unfold r. by rewrite (publish_fold_socks _ cs fds).
  - unfold r. rewrite publish_fold_heap; [by rewrite at_remove, decide_True|].
    intros Hin. destruct (subscriber_client _ _ _ _ (ts_subs _ _ _ _ _ _ _ Hts) Hin) as [cl Hc].
    by rewrite Hs in Hc.
  - intros y Hy Hyc. unfold r. rewrite publish_fold_heap by done. by rewrite at_remove_ne.
Qed.

(** * Retained messages *)

Lemma strdup_of_run w bs s : cstr bs = Ok s →
  strdup_of bs w = Ok (Some (fresh_loc w), alloc (cobj s) w).
Proof. intros Hs. unfold strdup_of. rewrite Hs. done. Qed.

(** A new message is three objects: the message, its topic and its payload. *)
Lemma create_message_run w msg sender topic payload :
  heap_wf w → cstr (p_topic msg) = Ok topic → cstr (p_message msg) = Ok payload →
  let m := fresh_loc w in let tl := Pos.succ m in let pl := Pos.succ tl in
  ∃ w', create_message msg sender w = Ok (Some m, w') ∧ env_eq w w' ∧ heap_wf w'
    ∧ fresh_loc w' = Pos.succ pl
    ∧ at_loc w' m = Some (OMessage (mk_message (p_qos msg) (p_dup msg) (p_retain msg) (now w) sender
                                      (Some tl) (Some pl)))
    ∧ at_loc w' tl = Some (OStr (cobj topic)) ∧ at_loc w' pl = Some (OStr (cobj payload))
    ∧ ∀ y, y ≠ m → y ≠ tl → y ≠ pl → at_loc w' y = at_loc w y.
Proof.
  intros Hwf Ht Hp m tl pl. unfold create_message. run_malloc. fold m.
  set (m0 := mk_message (p_qos msg) (p_dup msg) 0 0 sender None None). set (w1 := alloc m0 w).
  assert (m ≠ tl) by (unfold tl; lia). assert (m ≠ pl) by (unfold pl, tl; lia).
  assert (tl ≠ pl) by (unfold pl; lia).
  assert (Hf1 : fresh_loc w1 = tl) by (unfold w1; by rewrite fresh_alloc).
  rewrite (M_bind_run _ _ _ _ _ (strdup_of_run w1 _ _ Ht)), Hf1.
  assert (Hm1 : at_loc (alloc (cobj topic) w1) m = Some (inj m0)).
  { rewrite at_alloc_ne by (by rewrite Hf1). exact (at_alloc_eq m0 w). }
  run_modify. cbn [m_qos m_dup m_retained m_creation_time m_sender m_payload m0].
  set (m1 := mk_message _ _ _ _ _ _ _). set (w2 := update m (inj m1) (alloc (cobj topic) w1)).
  assert (Hf2 : fresh_loc w2 = pl) by (unfold w2; by rewrite fresh_update, fresh_alloc, Hf1).
  rewrite (M_bind_run _ _ _ _ _ (strdup_of_run w2 _ _ Hp)), Hf2.
  erewrite M_bind_run by done.
  assert (Hm2 : at_loc (alloc (cobj payload) w2) m = Some (inj m1)).
  { rewrite at_alloc_ne by (by rewrite Hf2). unfold w2. by rewrite at_update_eq. }
  run_modify. cbn [m_qos m_dup m_sender m_topic m1].
  eexists. split; [done|]. split_and!.
  - done.
  - assert (heap_wf (alloc (cobj topic) w1)) as Hwf1 by (by repeat apply alloc_wf).
    assert (heap_wf w2) as Hwf2.
    { apply update_wf; [done|]. rewrite fresh_alloc, Hf1. unfold tl. lia. }
    apply update_wf; [by apply alloc_wf|]. rewrite fresh_alloc, Hf2. unfold pl, tl. lia.
  - by rewrite fresh_update, fresh_alloc, Hf2.
  - by rewrite at_update_eq.
  - rewrite at_update_ne by done. rewrite at_alloc_ne by (by rewrite Hf2). unfold w2.
    rewrite at_update_ne by done. rewrite <- Hf1. exact (at_alloc_eq (cobj topic) w1).
  - rewrite at_update_ne by done. rewrite <- Hf2. exact (at_alloc_eq (cobj payload) w2).
  - intros y ???. rewrite at_update_ne by congruence. rewrite at_alloc_ne by (by rewrite Hf2). unfold w2.
    rewrite at_update_ne by congruence. rewrite at_alloc_ne by (by rewrite Hf1). unfold w1.
    by rewrite at_alloc_ne.
Qed.

(** A message that owns three distinct strings. *)
Definition owns_message (w : World) (m : loc) (sd tl pl : loc) : Prop :=
  ∃ q d r t, at_loc w m = Some (OMessage (mk_message q d r t (Some sd) (Some tl) (Some pl)))
    ∧ NoDup [sd; tl; pl] ∧ Forall (λ l, ∃ bs, at_loc w l = Some (OStr bs)) [sd; tl; pl].

Lemma destroy_message_run w m sd tl pl : owns_message w m sd tl pl →
  ∃ w', destroy_message (Some m) w = Ok ((), w') ∧ env_eq w w'
    ∧ (heap_wf w → heap_wf w') ∧ fresh_loc w' = fresh_loc w
    ∧ ∀ y, at_loc w' y = if decide (y ∈ [m; sd; tl; pl]) then None else at_loc w y.
Proof.
  intros (q & d & r & t & Hm & Hnd & Hf). rewrite !NoDup_cons, !not_elem_of_cons in Hnd.
  destruct Hnd as ((? & ? & _) & (? & _) & _).
  rewrite !Forall_cons in Hf. destruct Hf as ([b1 Hs1] & [b2 Hs2] & [b3 Hs3] & _).
  assert (m ≠ sd) by congruence. assert (m ≠ tl) by congruence. assert (m ≠ pl) by congruence.
  unfold destroy_message. rewrite decide_False by done. run_deref. cbn [m_sender m_topic m_payload].
  do 3 run_free. erewrite free_run by heap_lookup.
  eexists. split; [done|]. split_and!; [done|intros Hwf; by repeat apply remove_wf|done|].
  intros y. rewrite !at_remove. repeat case_decide; set_solver.
Qed.

(** The objects of the message a topic retains. *)
Definition retained_objs (w : World) (tp : Topic) (objs : list loc) : Prop :=
  match t_retained tp with
  | None => objs = []
  | Some m => ∃ sd tl pl, owns_message w m sd tl pl ∧ objs = [m; sd; tl; pl]
  end.

Lemma retained_objs_old w tp objs y : retained_objs w tp objs → y ∈ objs →
  ∃ o, at_loc w y = Some o ∧ ∀ t, o ≠ OTopic t.
Proof.
  unfold retained_objs. destruct (t_retained tp) as [m|]; [|intros ->; by intros ?%not_elem_of_nil].
  intros (sd & tl & pl & (q & d & r & t & Hm & _ & Hf) & ->) Hy.
  apply elem_of_cons in Hy as [->|Hy]; [by eauto|].
  rewrite Forall_forall in Hf. destruct (Hf y Hy) as [bs Hbs]. eauto.
Qed.

(** Freeing the retained message, if any, in a state where it still is. *)
Lemma destroy_retained_run w0 w tp objs :
  retained_objs w0 tp objs → (∀ y o, at_loc w0 y = Some o → at_loc w y = Some o) →
  ∃ w', when (bool_decide (t_retained tp ≠ None)) (destroy_message (t_retained tp)) w = Ok ((), w')
    ∧ env_eq w w' ∧ (heap_wf w → heap_wf w') ∧ fresh_loc w' = fresh_loc w
    ∧ ∀ y, at_loc w' y = if decide (y ∈ objs) then None else at_loc w y.
Proof.
  unfold retained_objs. intros Hobjs Hold. destruct (t_retained tp) as [m|].
  - destruct Hobjs as (sd & tl & pl & Hown & ->). rewrite bool_decide_eq_true_2 by done.
    apply destroy_message_run. destruct Hown as (q & d & r & t & Hm & Hnd & Hf).
    exists q, d, r, t. split_and!; [by apply Hold|done|].
    eapply Forall_impl; [exact Hf|]. intros l [bs Hbs]. exists bs. by apply Hold.
  - subst objs. rewrite bool_decide_eq_false_2 by naive_solver. exists w. by split_and!.
Qed.

Lemma retain_message_run w t tp msg sender topic payload objs :
  heap_wf w → at_loc w t = Some (OTopic tp) → retained_objs w tp objs →
  cstr (p_topic msg) = Ok topic → cstr (p_message msg) = Ok payload →
  let m := fresh_loc w in let tl := Pos.succ m in let pl := Pos.succ tl in
  ∃ w', retain_message (Some t) msg sender w = Ok ((), w') ∧ env_eq w w' ∧ heap_wf w'
    ∧ at_loc w' t = Some (OTopic (mk_topic (t_name tp) (t_subscribers tp) (t_messages tp) (Some m)))
    ∧ at_loc w' m = Some (OMessage (mk_message (p_qos msg) (p_dup msg) 1 (now w) sender (Some tl) (Some pl)))
    ∧ at_loc w' tl = Some (OStr (cobj topic)) ∧ at_loc w' pl = Some (OStr (cobj payload))
    ∧ (∀ y, y ∈ objs → at_loc w' y = None)
    ∧ ∀ y, y ≠ t → y ∉ objs → y ∉ [m; tl; pl] → at_loc w' y = at_loc w y.
Proof.
  intros Hwf Ht Hobjs Htop Hpay m tl pl.
  assert (Hlow : ∀ y o, at_loc w y = Some o → y ≠ m ∧ y ≠ tl ∧ y ≠ pl).
  { intros y o Hy. split_and!; (eapply old_loc; [exact Hwf|exact Hy|unfold pl, tl, m; lia]). }
  destruct (create_message_run w msg sender topic payload Hwf Htop Hpay)
    as (w1 & E & He & Hwf1 & Hf1 & Hm1 & Htl1 & Hpl1 & Ho1). fold m tl pl in E, Hf1, Hm1, Htl1, Hpl1, Ho1.
  unfold retain_message. rewrite (M_bind_run _ _ _ _ _ E). run_modify.
  cbn [m_qos m_dup m_retained m_creation_time m_sender m_topic m_payload].
  set (m' := mk_message _ _ 1 _ _ _ _). set (w2 := update m (inj m') w1).
  assert (Hkeep : ∀ y o, at_loc w y = Some o → at_loc w2 y = Some o).
  { intros y o Hy. destruct (Hlow y o Hy) as (? & ? & ?). unfold w2. rewrite at_update_ne by congruence.
    by rewrite Ho1. }
  pose proof (Hkeep t _ Ht) as Ht2. run_deref.
  destruct (destroy_retained_run w w2 tp objs Hobjs Hkeep) as (w3 & E3 & He3 & Hwf3 & Hf3 & Ho3).
  rewrite (M_bind_run _ _ _ _ _ E3).
  assert (Hnot : ∀ y, y ∈ objs → y ≠ t ∧ y ≠ m ∧ y ≠ tl ∧ y ≠ pl).
  { intros y Hy. destruct (retained_objs_old _ _ _ _ Hobjs Hy) as (o & Ho & Hnt). split; [|by eapply Hlow].
    intros ->. rewrite Ht in Ho. injection Ho as <-. by apply (Hnt tp). }
  assert (Hout : ∀ y, y = t ∨ y = m ∨ y = tl ∨ y = pl → at_loc w3 y = at_loc w2 y).
  { intros y Hy. rewrite Ho3, decide_False; [done|]. intros Hin%Hnot. naive_solver. }
  assert (Ht3 : at_loc w3 t = Some (OTopic tp)) by (rewrite Hout by auto; done).
  destruct (Hlow t _ Ht) as (Htm & Httl & Htpl).
  assert (m ≠ tl) by (unfold tl; lia). assert (m ≠ pl) by (unfold pl, tl; lia).
  erewrite modify_at_run by heap_lookup. eexists. split; [done|]. split_and!.
  - etrans; [exact He|]. apply (transitivity (y := w2)); [done|]. etrans; [exact He3|done].
  - apply update_wf; [apply Hwf3, update_wf; [done|rewrite Hf1; unfold pl, tl; lia]|].
    rewrite Hf3. unfold w2. rewrite fresh_update, Hf1. apply Hwf in Ht. unfold pl, tl, m, fresh_loc. lia.
  - heap_lookup.
  - rewrite at_update_ne, Hout by (congruence || auto). unfold w2. by rewrite at_update_eq.
  - rewrite at_update_ne, Hout by (congruence || auto). unfold w2. by rewrite at_update_ne.
  - rewrite at_update_ne, Hout by (congruence || auto). unfold w2. by rewrite at_update_ne.
  - intros y Hy. destruct (Hnot y Hy). rewrite at_update_ne by congruence. by rewrite Ho3, decide_True.
  - intros y Hyt Hyo. rewrite !not_elem_of_cons. intros (? & ? & ? & _).
    rewrite at_update_ne, Ho3, decide_False by congruence. unfold w2. rewrite at_update_ne by congruence.
    by apply Ho1.
Qed.

(** C19. Retaining a message gives the topic a copy of it, marked as retained and dated
    now, and frees the message the topic had retained before with all its strings; no
    other object changes. *)
Theorem retain_replaces w t tp msg sender topic payload objs :
  heap_wf w → at_loc w t = Some (OTopic tp) → retained_objs w tp objs →
  cstr (p_topic msg) = Ok topic → cstr (p_message msg) = Ok payload →
  ∃ w' m tl pl, retain_message (Some t) msg sender w = Ok ((), w')
    ∧ at_loc w' t = Some (OTopic (mk_topic (t_name tp) (t_subscribers tp) (t_messages tp) (Some m)))
    ∧ at_loc w' m = Some (OMessage (mk_message (p_qos msg) (p_dup msg) 1 (now w) sender (Some tl) (Some pl)))
    ∧ at_loc w' tl = Some (OStr (cobj topic)) ∧ at_loc w' pl = Some (OStr (cobj payload))
    ∧ (∀ y, y ∈ objs → at_loc w' y = None)
    ∧ ∀ y, y ≠ t → y ∉ objs → is_Some (at_loc w y) → at_loc w' y = at_loc w y.
Proof.
  intros Hwf Ht Hobjs Htop Hpay.
  destruct (retain_message_run w t tp msg sender topic payload objs Hwf Ht Hobjs Htop Hpay)
    as (w' & E & _ & _ & Ht' & Hm' & Htl' & Hpl' & Hgone & Ho).
  do 4 eexists. split_and!; [exact E|exact Ht'|exact Hm'|exact Htl'|exact Hpl'|exact Hgone|].
  intros y Hyt Hyo [o Hy]. apply Ho; [done|done|].
  rewrite !not_elem_of_cons. split_and!; try (eapply old_loc; [exact Hwf|exact Hy|lia]).
  apply not_elem_of_nil.
Qed.

(** C20. A subscriber that is answered after the message retained at the time of its
    subscription was replaced is answered from freed memory: the handler sends the SUBACK
    and then reads the message through a dangling pointer. *)
Theorem retained_reply_dangles calloc_ok queue_ok w t tp msg sender topic payload c cl r b buf m sd tl pl so :
  heap_wf w → at_loc w t = Some (OTopic tp) → t_retained tp = Some m → owns_message w m sd tl pl →
  cstr (p_topic msg) = Ok topic → cstr (p_message msg) = Ok payload →
  at_loc w c = Some (OClient cl) → cl_reply cl = Some r →
  at_loc w r = Some (OReply (mk_reply SUBACK (cl_fd cl) (Some b) (Some (Some m)))) →
  at_loc w b = Some (OBuffer buf) → get_sock w (cl_fd cl) = Some so →
  length (b_data buf) = b_size buf → Z.of_nat (b_size buf) < 2 ^ 31 →
  (retain_message (Some t) msg sender;; reply_handler calloc_ok queue_ok (Some c)) w = Err Dangling.
Proof.
  intros Hwf Ht Hret Hown Htop Hpay Hc Hr Hrep Hb Hso Hd Hl.
  assert (Hobjs : retained_objs w tp [m; sd; tl; pl]).
  { unfold retained_objs. rewrite Hret. eauto. }
  destruct (retain_message_run w t tp msg sender topic payload _ Hwf Ht Hobjs Htop Hpay)
    as (w' & E & He & _ & _ & _ & _ & _ & Hgone & Ho).
  rewrite (M_bind_run _ _ _ _ _ E).
  assert (Hkeep : ∀ y o, at_loc w y = Some o → (∀ t, o ≠ OTopic t) → (∀ m, o ≠ OMessage m) →
    (∀ bs, o ≠ OStr bs) → at_loc w' y = Some o).
  { intros y o Hy Hnt Hnm Hns. rewrite Ho; [done|intros ->; naive_solver| |].
    - destruct Hown as (? & ? & ? & ? & Hm & _ & Hf). apply not_elem_of_cons. split; [naive_solver|].
      intros Hin. rewrite Forall_forall in Hf. destruct (Hf y Hin) as [bs Hbs]. naive_solver.
    - rewrite !not_elem_of_cons. split_and!; try (eapply old_loc; [exact Hwf|exact Hy|lia]).
      apply not_elem_of_nil. }
  apply Hkeep in Hc; [|done..]. apply Hkeep in Hrep; [|done..]. apply Hkeep in Hb; [|done..].
  assert (Hso' : get_sock w' (cl_fd cl) = Some so).
  { unfold get_sock. change (get_kernel w') with (w_kernel w'). by rewrite (env_kernel _ _ He). }
  unfold reply_handler. run_deref. rewrite Hr. rewrite decide_False by done. run_deref.
  cbn [r_opcode r_retained]. rewrite decide_False by done. apply M_bind_err.
  erewrite M_bind_run by done. rewrite decide_True by done. unfold reply_retained. cbn [r_body r_fd].
  run_deref. unfold send_status.
  pose proof (send_buffer_run w' (cl_fd cl) buf so Hso' Hd Hl) as Es. cbv zeta in Es.
  erewrite M_bind_run; [|by rewrite (M_bind_run _ _ _ _ _ Es)].
  apply M_bind_err. apply deref_dangling. rewrite at_set_sock. apply Hgone. left.
Qed.

(** * Witnesses *)

Local Open Scope positive_scope.

(** A topic with two subscribers, at 5 and 8, on descriptors 7 and 9, and a retained
    message; the name of a sender at 9. *)
Definition demo_topic : Topic := mk_topic (Some 2) (Some 3) (Some 4) (Some 10).
Definition demo_subs : list (loc * ptr) := [(20, Some 30); (21, Some 31)].
Definition demo_topic_objs : list (loc * obj) :=
  [(1, OTopic demo_topic); (2, demo_str [116%Z]); (3, OList (mk_list (Some 20) (Some 21) 2));
   (4, OQueue (mk_queue 0 None None)); (6, demo_str [99%Z]); (9, demo_str [115%Z]);
   (10, OMessage (mk_message 0 0 1 900 (Some 11) (Some 12) (Some 13)));
   (11, demo_str [115%Z]); (12, demo_str [116%Z]); (13, demo_str [120%Z]);
   (20, ONode (mk_node (Some 30) (Some 21))); (21, ONode (mk_node (Some 31) None));
   (30, OSubscription (mk_subscription (Some 5) (Some (KPtr 2)) 0));
   (31, OSubscription (mk_subscription (Some 8) (Some (KPtr 2)) 1));
   (5, OClient (demo_client 7 (Some 6) None None)); (8, OClient (demo_client 9 (Some 6) None None))].
Definition demo_socks : list (Z * Sock) :=
  [(7%Z, mk_sock [] [TxAccept 4; TxAgain] []); (9%Z, mk_sock [] [TxAccept 100] [])].
Definition demo_topic_world : World := demo_world demo_topic_objs demo_socks.

(** A PUBLISH of [y] to [t]. *)
Definition demo_msg (retain : Z) : Publish :=
  mk_publish (mk_header PUBLISH 18) 1 1 0 retain 0 (cobj [116%Z]) (cobj [121%Z]).

Lemma demo_topic_subs : topic_subs demo_topic_world 1 demo_topic 3 demo_subs [5; 8] [7%Z; 9%Z].
Proof.
  split; [done|done| | |].
  - exists (Some 20). split; [done|]. split.
    + split; [done|]. exists (Some 21). split; [done|]. split; [done|]. exists None. by split.
    + apply (bool_decide_unpack _). by vm_compute.
  - repeat constructor; do 3 eexists; split_and!; done.
  - repeat constructor; eexists; split; done.
Qed.

Lemma demo_topic_wf : heap_wf demo_topic_world.
Proof. by apply demo_world_wf. Qed.

Lemma demo_owns : owns_message demo_topic_world 10 11 12 13.
Proof.
  exists 0%Z, 0%Z, 1%Z, 900%Z. split_and!; [done|apply (bool_decide_unpack _); by vm_compute|].
  repeat constructor; by eexists.
Qed.

(** The first subscriber takes four bytes of eighteen and no more, the second all. *)
Lemma publish_reaches_subscribers_witness :
  ∃ total w', publish_message (Some 1) (demo_msg 0) (Some 9) demo_topic_world = Ok (total, w')
    ∧ at_loc w' 9 = None.
Proof.
  destruct (publish_reaches_subscribers demo_topic_world 1 demo_topic 3 demo_subs [5; 8] [7%Z; 9%Z]
    (demo_msg 0) [116%Z] [121%Z] 2 9 (cobj [115%Z]) demo_topic_subs
    ltac:(apply (bool_decide_unpack _); by vm_compute) eq_refl eq_refl eq_refl ltac:(done) eq_refl eq_refl)
    as (total & w' & E & _ & Hs & _).
  exists total, w'. split; [exact E|exact Hs].
Defined.

Lemma retain_replaces_witness :
  ∃ w' m, retain_message (Some 1) (demo_msg 1) (Some 9) demo_topic_world = Ok ((), w')
    ∧ at_loc w' 1 = Some (OTopic (mk_topic (Some 2) (Some 3) (Some 4) (Some m))) ∧ at_loc w' 10 = None.
Proof.
  destruct (retain_replaces demo_topic_world 1 demo_topic (demo_msg 1) (Some 9) [116%Z] [121%Z] [10; 11; 12; 13]
    demo_topic_wf eq_refl ltac:(exists 11, 12, 13; split; [exact demo_owns|done]) eq_refl eq_refl)
    as (w' & m & tl & pl & E & Ht & _ & _ & _ & Hgone & _).
  exists w', m. split; [exact E|]. split; [exact Ht|]. apply Hgone. left.
Defined.

(** The same state with a client whose SUBACK still points to the retained message. *)
Definition demo_pending : World := demo_world
  ([(14, OClient (demo_client 7 (Some 6) (Some 15) None));
    (15, OReply (mk_reply SUBACK 7 (Some 16) (Some (Some 10)))); (16, OBuffer (ack_buffer SUBACK 0))]
   ++ demo_topic_objs) demo_socks.

Lemma retained_reply_dangles_witness :
  (retain_message (Some 1) (demo_msg 1) (Some 9);; reply_handler (λ _, true) true (Some 14)) demo_pending
  = Err Dangling.
Proof.
  apply (retained_reply_dangles (λ _, true) true demo_pending 1 demo_topic (demo_msg 1) (Some 9) [116%Z] [121%Z]
    14 (demo_client 7 (Some 6) (Some 15) None) 15 16 (ack_buffer SUBACK 0) 10 11 12 13
    (mk_sock [] [TxAccept 4; TxAgain] [])); try done.
  - by apply demo_world_wf.
  - exists 0%Z, 0%Z, 1%Z, 900%Z. split_and!; [done|apply (bool_decide_unpack _); by vm_compute|].
    repeat constructor; by eexists.
Defined.
