(* ===== verification/Subscribe.v ===== *)
(** Subscribing: the map of topics, finding or making a topic, and the handler that
    registers a subscriber. *)
From stdpp Require Import base numbers option list gmap.
From Stdlib Require Import ZArith Lia.
From S2P Require Import Prelude Memory Ringbuf Buffer Protocol Hashmap Chain Lists Queues Network.
From S2P Require Import Receive Util Sizigy Demo Server Broker.
From S2P Require Import Publish.

Local Open Scope Z_scope.

(** * Subscribing *)

Section Handlers.
Context (calloc_ok : Z → bool).

(** A SUBSCRIBE without a topic is answered by a reply whose retained message is never
    written, and the reply handler decides on it. *)
Theorem empty_subscribe_indeterminate queue_ok w c cl p pkt :
  heap_wf w → at_loc w c = Some (OClient cl) → cl_ptr cl = Some p →
  at_loc w p = Some (OSubscribe pkt) → s_topic_len pkt = 0 →
  ∃ w1, subscribe_handler calloc_ok queue_ok (Some c) w = Ok (0, w1)
    ∧ reply_handler calloc_ok queue_ok (Some c) w1 = Err Indeterminate.
Proof.
  intros Hwf Hc Hp Hpkt Hz. unfold subscribe_handler. run_deref. rewrite Hp. run_deref.
  rewrite decide_True by done.
  destruct (set_ack_reply_run c cl SUBACK 1 w Hwf Hc) as (w1 & E & He & Hwf1 & Hf1 & Hc1 & Hr1 & Hb1 & Ho1);
    [done|done|]. rewrite (M_bind_run _ _ _ _ _ E).
  set (b := fresh_loc w) in *. set (r := Pos.succ b) in *.
  assert (c ≠ p) by congruence. assert (p ≠ b) by (by eapply (old_loc w)).
  assert (p ≠ r) by (eapply (old_loc w); [done..|unfold r, b; lia]).
  assert (c ≠ r) by (eapply (old_loc w); [done..|unfold r, b; lia]).
  assert (Hp1 : at_loc w1 p = Some (OSubscribe pkt)) by (by rewrite Ho1).
  run_release. eexists. split; [done|].
  unfold reply_handler. run_deref. cbn [cl_reply with_reply]. rewrite decide_False by done. run_deref.
  by cbn [r_opcode r_retained].
Qed.

(** ** The map of topics *)

(** The string objects of [w] are those of [w'] as well. *)
Definition strings_kept (w w' : World) : Prop :=
  ∀ l s, str_at w l = Some s → str_at w' l = Some s.

(** The topics by name. *)
Definition topics_repr (w : World) (g : gmap (list Z) loc) : Prop :=
  hm_repr (str_of w) (topics (db w)) (Some <$> g).

Lemma stored_key_str (w : World) (m : Hashmap key loc) k : hm_wf (str_of w) m → stored_key m k →
  ∃ s, str_of w k = Some s.
Proof.
  intros Hwf (i & e & He & Hu & Hk). destruct (hm_keys _ _ Hwf i e He Hu) as (k' & s & Hk' & Hs & _).
  exists s. congruence.
Qed.

Lemma strings_kept_of w w' k s : strings_kept w w' → str_of w k = Some s → str_of w' k = Some s.
Proof. intros Hs. destruct k; [apply Hs|done]. Qed.

Lemma repr_kept w w' m g : strings_kept w w' →
  hm_repr (V := loc) (str_of w) m g → hm_repr (str_of w') m g.
Proof.
  intros Hs Hr. apply (hm_repr_frame (str_of w)); [|done]. intros k Hk.
  destruct (stored_key_str w m k (repr_wf _ _ _ Hr) Hk) as [s Hks]. rewrite Hks.
  by apply (strings_kept_of w).
Qed.

Lemma place_kept w w' m s : strings_kept w w' → hm_wf (V := loc) (str_of w) m →
  place (str_of w') m s = place (str_of w) m s.
Proof.
  intros Hs Hwf. apply place_frame. intros k Hk.
  destruct (stored_key_str w m k Hwf Hk) as [s' Hks]. rewrite Hks. by apply (strings_kept_of w).
Qed.

Lemma kept_heap w w' : (∀ l bs, at_loc w l = Some (OStr bs) → at_loc w' l = Some (OStr bs)) →
  strings_kept w w'.
Proof.
  intros Hk l s. unfold str_at. destruct (at_loc w l) as [[]|] eqn:Hl; try done. by rewrite (Hk _ _ Hl).
Qed.

#[export] Instance strings_kept_preorder : PreOrder strings_kept.
Proof. split; [by intros w l s|]. intros w1 w2 w3 H12 H23 l s Hs. by apply H23, H12. Qed.

Lemma str_at_inv w l s : str_at w l = Some s → ∃ bs, at_loc w l = Some (OStr bs) ∧ cstr bs = Ok s.
Proof.
  unfold str_at. destruct (at_loc w l) as [[]|]; try done.
  destruct (cstr _) as [s'|] eqn:E; [|done]. intros [= ->]. eauto.
Qed.

(** Whatever string a key designates, a map can take it. *)
Lemma key_of w k s : str_of w k = Some s → key_is (str_of w) k s.
Proof.
  intros Hk. split; [done|]. destruct k as [l|bs]; cbn in Hk.
  - apply str_at_inv in Hk as (bs & _ & Hbs). by eapply cstr_no_nul.
  - destruct (cstr bs) as [s'|] eqn:E; [|done]. injection Hk as ->. by eapply cstr_no_nul.
Qed.

Lemma str_of_key w obj s : cstr obj = Ok s → key_is (str_of w) (KField obj) s.
Proof. intros Hs. apply key_of. cbn. by rewrite Hs. Qed.

Lemma set_topics_id w m : topics (db w) = m → set_topics m w = w.
Proof. intros <-. by destruct w as [?? [] ???]. Qed.

Lemma topics_get_run w g k s : topics_repr w g → key_is (str_of w) k s →
  topics_get k w = Ok (g !! s, w).
Proof.
  intros Hr Hk. unfold topics_get.
  rewrite (hashmap_get_lookup _ _ k s (repr_wf _ _ _ Hr) (repr_lock _ _ _ Hr) Hk).
  rewrite (repr_lookup _ _ _ Hr), lookup_fmap. cbn [mbind res_bind].
  rewrite set_topics_id by done. by destruct (g !! s).
Qed.

Lemma topics_put_run w g k s i t : topics_repr w g → key_is (str_of w) k s → g !! s = None →
  place (str_of w) (topics (db w)) s = Some i →
  ∃ m, topics_put calloc_ok k (Some t) w = Ok (HASHMAP_OK, set_topics m w)
    ∧ topics_repr (set_topics m w) (<[s := t]> g).
Proof.
  intros Hr Hk Hg Hp. unfold topics_put.
  rewrite (hashmap_put_cases _ calloc_ok 1 _ k s _ (repr_wf _ _ _ Hr) (repr_lock _ _ _ Hr) Hk), Hp.
  eexists. split; [done|]. unfold topics_repr. rewrite fmap_insert.
  change (str_of (set_topics _ w)) with (str_of w). eapply hm_repr_put; try done.
  by rewrite lookup_fmap, Hg.
Qed.

(** ** A new topic *)

(** Every object of [w] is an object of [w'], unchanged. *)
Definition extends (w w' : World) : Prop := ∀ y o, at_loc w y = Some o → at_loc w' y = Some o.

#[export] Instance extends_preorder : PreOrder extends.
Proof. split; [by intros w y o|]. intros w1 w2 w3 H12 H23 y o Hy. by apply H23, H12. Qed.

Lemma extends_alloc {A} `{Cell obj A} (a : A) w : heap_wf w → extends w (alloc a w).
Proof. intros Hwf y o Hy. rewrite at_alloc_ne; [done|]. by eapply heap_wf_ne. Qed.

(** Writing to an object that is new. *)
Lemma extends_update w w' l o : extends w w' → at_loc w l = None → extends w (update l o w').
Proof. intros He Hl y o' Hy. rewrite at_update_ne by (intros ->; congruence). by apply He. Qed.

Lemma extends_strings w w' : extends w w' → strings_kept w w'.
Proof. intros He. apply kept_heap. intros. by apply He. Qed.

(** The objects the topics are made of, and the states that keep them. *)
Definition topical (o : obj) : Prop :=
  match o with OStr _ | OTopic _ | OList _ | ONode _ => True | _ => False end.
Definition keeps (w w' : World) : Prop :=
  ∀ y o, topical o → at_loc w y = Some o → at_loc w' y = Some o.

#[export] Instance keeps_preorder : PreOrder keeps.
Proof. split; [by intros w y o|]. intros w1 w2 w3 H12 H23 y o Ht Hy. by apply H23, H12. Qed.

Lemma extends_keeps w w' : extends w w' → keeps w w'.
Proof. intros He y o _. apply He. Qed.

Lemma keeps_strings w w' : keeps w w' → strings_kept w w'.
Proof. intros He. apply kept_heap. intros. by apply He. Qed.

(** Changing one object of another kind. *)
Lemma keeps_but w w' x o : at_loc w x = Some o → ¬ topical o →
  (∀ y o', y ≠ x → at_loc w y = Some o' → at_loc w' y = Some o') → keeps w w'.
Proof. intros Hx Ho Hk y o' Ht Hy. apply Hk; [|done]. intros ->. congruence. Qed.

(** A topic with its name and its list of subscribers. *)
Definition topic_named (w : World) (s : list Z) (t : loc) (tp : Topic) (l : loc) (xs : list (loc * ptr)) : Prop :=
  at_loc w t = Some (OTopic tp) ∧ (∃ nm, t_name tp = Some nm ∧ str_at w nm = Some s)
    ∧ t_subscribers tp = Some l ∧ list_wf w l xs.

Lemma topic_named_keeps w w' s t tp l xs : keeps w w' →
  topic_named w s t tp l xs → topic_named w' s t tp l xs.
Proof.
  intros He (Ht & (nm & Hnm & Hs) & Hl & (hd & Hlst & Hseg & Hnd)). split_and!; [by apply He| |done|].
  - exists nm. split; [done|]. by apply (keeps_strings w).
  - exists hd. split_and!; [by apply He| |done]. apply (chain_frame _ w); [|done].
    intros y ([y' d] & -> & Hy)%list_elem_of_fmap.
    destruct (chain_at _ _ _ _ _ _ _ Hseg Hy) as [n Hn]. cbn [fst]. rewrite Hn. by apply He.
Qed.

Lemma topic_named_extends w w' s t tp l xs : extends w w' →
  topic_named w s t tp l xs → topic_named w' s t tp l xs.
Proof. intros He. by apply topic_named_keeps, extends_keeps. Qed.

Lemma topics_repr_keeps w w' g : keeps w w' → topics (db w') = topics (db w) →
  topics_repr w g → topics_repr w' g.
Proof. intros Hk Hd Hr. unfold topics_repr. rewrite Hd. apply (repr_kept w); [by apply keeps_strings|done]. Qed.

Lemma str_at_cobj w l obj s : cstr obj = Ok s → at_loc w l = Some (OStr (cobj s)) → str_at w l = Some s.
Proof. intros Hs%cstr_no_nul Hl. unfold str_at. rewrite Hl. unfold cobj. by rewrite cstr_nul. Qed.

(** The objects of [w'] that [w] does not have: those at [ls], all new. *)
Definition made (w w' : World) (ls : list loc) : Prop :=
  Forall (λ y, fresh_loc w ≤ y)%positive ls
  ∧ ∀ y o, at_loc w' y = Some o → at_loc w y = Some o ∨ y ∈ ls.

(** The queue of a topic, which nothing is ever put into. *)
Definition empty_queue_at (w : World) (q : ptr) : Prop :=
  ∀ y, q = Some y → at_loc w y = Some (OQueue (mk_queue 0 None None)).

(** One field of a topic set to a new object. *)
Lemma alloc_field {A} `{Cell obj A} (a : A) w0 w t tp f :
  heap_wf w → extends w0 w → at_loc w0 t = None → at_loc w t = Some (OTopic tp) →
  let w' := update t (OTopic (f tp)) (alloc a w) in
  modify_at (Some t) f (alloc a w) = Ok ((), w') ∧ heap_wf w' ∧ extends w0 w'
    ∧ at_loc w' t = Some (OTopic (f tp)) ∧ at_loc w' (fresh_loc w) = Some (inj a)
    ∧ (∀ y o, y ≠ t → at_loc w y = Some o → at_loc w' y = Some o)
    ∧ (∀ y o, at_loc w' y = Some o → y = t ∨ y = fresh_loc w ∧ o = inj a ∨ at_loc w y = Some o)
    ∧ fresh_loc w' = Pos.succ (fresh_loc w).
Proof.
  intros Hwf He Hn Ht w'. pose proof (heap_wf_ne _ _ _ Hwf Ht) as Hne.
  assert (Hta : at_loc (alloc a w) t = Some (inj tp)) by (by rewrite at_alloc_ne).
  split_and!.
  - exact (modify_at_run t tp f _ Hta).
  - apply update_wf; [by apply alloc_wf|]. rewrite fresh_alloc. apply Hwf in Ht. unfold fresh_loc. lia.
  - apply extends_update; [|done]. etrans; [exact He|]. by apply extends_alloc.
  - unfold w'. by rewrite at_update_eq.
  - unfold w'. rewrite at_update_ne by done. apply at_alloc_eq.
  - intros y o Hyt Hy. unfold w'. rewrite at_update_ne by congruence. by apply extends_alloc.
  - intros y o. unfold w'. rewrite at_update. case_decide; [by left|]. rewrite at_alloc.
    case_decide; [intros [= <-]; auto|auto].
  - unfold w'. by rewrite fresh_update, fresh_alloc.
Qed.

(** The queue of a topic, or none when there is no memory for it. *)
Lemma queue_field queue_ok w0 w t tp : heap_wf w → extends w0 w → at_loc w0 t = None →
  at_loc w t = Some (OTopic tp) →
  ∃ q w', (∀ B (k : M World B), (q ← create_queue queue_ok;
      modify_at (Some t) (λ t, mk_topic (t_name t) (t_subscribers t) q (t_retained t));; k) w = k w')
    ∧ env_eq w w' ∧ heap_wf w' ∧ extends w0 w'
    ∧ at_loc w' t = Some (OTopic (mk_topic (t_name tp) (t_subscribers tp) q (t_retained tp)))
    ∧ (∀ y o, y ≠ t → at_loc w y = Some o → at_loc w' y = Some o)
    ∧ (∀ y o, at_loc w' y = Some o → y = t ∨ q = Some y ∨ at_loc w y = Some o)
    ∧ empty_queue_at w' q ∧ (∀ y, q = Some y → y = fresh_loc w).
Proof.
  intros Hwf He Hn Ht. unfold create_queue. destruct queue_ok.
  - destruct (alloc_field (mk_queue 0 None None) w0 w t tp
      (λ t, mk_topic (t_name t) (t_subscribers t) (Some (fresh_loc w)) (t_retained t)) Hwf He Hn Ht)
      as (E & Hwf' & He' & Ht' & Hq & Ho & Hb & _).
    eexists _, _. split; [intros B k; erewrite M_bind_run by (by run_malloc); by rewrite (M_bind_run _ _ _ _ _ E)|].
    split_and!; try done.
    + intros y o [?|[[-> _]|?]]%Hb; eauto.
    + by intros y [= <-].
    + by intros y [= <-].
  - eexists None, _. split; [intros B k; erewrite M_bind_run by done; by erewrite M_bind_run by exact (modify_at_run t tp _ w Ht)|].
    split_and!.
    + done.
    + apply update_wf; [done|]. by apply Hwf in Ht.
    + by apply extends_update.
    + by rewrite at_update_eq.
    + intros y o Hy. by rewrite at_update_ne.
    + intros y o. rewrite at_update. case_decide; auto.
    + done.
    + done.
Qed.

Lemma create_topic_run queue_ok w obj s : heap_wf w → cstr obj = Ok s →
  ∃ t nm tp l w', create_topic queue_ok obj w = Ok (Some t, w') ∧ env_eq w w' ∧ heap_wf w' ∧ extends w w'
    ∧ topic_named w' s t tp l [] ∧ t_retained tp = None ∧ t_name tp = Some nm
    ∧ empty_queue_at w' (t_messages tp) ∧ made w w' (t :: nm :: l :: option_list (t_messages tp)).
Proof.
  intros Hwf Hs. unfold create_topic. run_malloc. set (t := fresh_loc w).
  set (t0 := mk_topic None None None None). set (w1 := alloc t0 w).
  assert (Ht1 : at_loc w1 t = Some (OTopic t0)) by exact (at_alloc_eq t0 w).
  assert (Hwf1 : heap_wf w1) by (by apply alloc_wf).
  assert (He1 : extends w w1) by (by apply extends_alloc).
  assert (Hnew : at_loc w t = None) by (by apply heap_wf_fresh).
  assert (Hf1 : fresh_loc w1 = Pos.succ t) by apply fresh_alloc.
  rewrite (M_bind_run _ _ _ _ _ (strdup_of_run w1 _ _ Hs)). set (nm := fresh_loc w1) in *.
  assert (nm ≠ t) by lia.
  destruct (alloc_field (cobj s) w w1 t t0
    (λ t, mk_topic (Some nm) (t_subscribers t) (t_messages t) (t_retained t)) Hwf1 He1 Hnew Ht1)
    as (E2 & Hwf2 & He2 & Ht2 & Hs2 & _ & Hb2 & Hf2). rewrite (M_bind_run _ _ _ _ _ E2).
  set (w2 := update t _ (alloc (cobj s) w1)) in *. fold nm in Hs2, Hb2, Hf2.
  unfold list_create. erewrite M_bind_run; [|by run_malloc]. set (l := fresh_loc w2) in *.
  destruct (alloc_field (mk_list None None 0) w w2 t _
    (λ t, mk_topic (t_name t) (Some l) (t_messages t) (t_retained t)) Hwf2 He2 Hnew Ht2)
    as (E3 & Hwf3 & He3 & Ht3 & Hl3 & Ho3 & Hb3 & _). rewrite (M_bind_run _ _ _ _ _ E3).
  set (w3 := update t _ (alloc (mk_list None None 0) w2)) in *. fold l in Hl3, Hb3.
  assert (l ≠ t) by lia.
  destruct (queue_field queue_ok w w3 t _ Hwf3 He3 Hnew Ht3) 
    as (q & w4 & E4 & Hv4 & Hwf4 & He4 & Ht4 & Ho4 & Hb4 & Hq4 & Hqf).
  rewrite E4. erewrite M_bind_run; [|exact (modify_at_run (A := Topic) t (mk_topic _ _ _ _) _ w4 Ht4)].
  assert (Hlow : (t < fresh_loc w4)%positive) by (apply Hwf4 in Ht4; done).
  exists t, nm. do 3 eexists. split; [done|]. split_and!.
  - trans w3; [done|]. trans w4; [exact Hv4|done].
  - by apply update_wf.
  - by apply extends_update.
  - split; [by rewrite at_update_eq|]. split; [|split; [done|]].
    + exists nm. split; [done|]. apply (str_at_cobj _ _ obj); [done|]. rewrite at_update_ne by done.
      apply Ho4; [done|]. by apply Ho3.
    + exists None. split; [|split; [done|apply NoDup_singleton]].
      rewrite at_update_ne by done. by apply Ho4.
  - done.
  - done.
  - intros y Hy. rewrite at_update_ne; [by apply Hq4|]. intros ->. apply Hqf in Hy.
    apply Hwf3 in Ht3. unfold fresh_loc in Hy. lia.
  - split.
    { rewrite !Forall_cons. change (fresh_loc w) with t. split_and!; [lia|lia|lia|]. cbn [t_messages].
      destruct q as [q|]; [|constructor]. rewrite (Hqf q eq_refl). repeat constructor.
      apply Hwf3 in Ht3. unfold fresh_loc in *. lia. }
    intros y o. rewrite at_update. case_decide; [set_solver|]. cbn [t_messages].
    intros [?|[->|Hy]]%Hb4; [set_solver|right; cbn; set_solver|].
    apply Hb3 in Hy as [?|[[? _]|Hy]]; [set_solver..|]. apply Hb2 in Hy as [?|[[? _]|Hy]]; [set_solver..|].
    revert Hy. unfold w1. rewrite at_alloc. case_decide; [set_solver|auto].
Qed.

(** The subscribers and the retained message of a name: none while there is no topic. *)
Definition topic_state (w : World) (g : gmap (list Z) loc) (s : list Z) (xs : list (loc * ptr)) (ret : ptr) : Prop :=
  match g !! s with
  | Some t => ∃ tp l, topic_named w s t tp l xs ∧ t_retained tp = ret
  | None => xs = [] ∧ ret = None
  end.

(** A name that has a topic, or that the map of topics can take. *)
Definition enterable (w : World) (g : gmap (list Z) loc) (s : list Z) : Prop :=
  g !! s = None → is_Some (place (str_of w) (topics (db w)) s).

(** Everything but the heap and the map of topics is the same. *)
Definition topics_env (w w' : World) : Prop := env_eq (set_topics (topics (db w')) w) w'.

Lemma topics_env_eq w w' : env_eq w w' → topics_env w w'.
Proof.
  intros He. unfold topics_env. rewrite (env_db _ _ He), set_topics_id by done. exact He.
Qed.

Lemma topics_env_trans w1 w2 w3 : topics_env w1 w2 → topics_env w2 w3 → topics_env w1 w3.
Proof.
  intros [Hk Hd Hc Hn Hr] [Hk' Hd' Hc' Hn' Hr']. split; cbn in *; try congruence.
  destruct (db w1), (db w2), (db w3); cbn in *. congruence.
Qed.

Lemma find_or_create_run w g obj s xs ret :
  heap_wf w → topics_repr w g → cstr obj = Ok s → topic_state w g s xs ret → enterable w g s →
  ∃ t tp l w', find_or_create_topic calloc_ok true obj w = Ok (Some t, w')
    ∧ topics_repr w' (<[s := t]> g) ∧ topic_named w' s t tp l xs ∧ t_retained tp = ret
    ∧ heap_wf w' ∧ extends w w' ∧ topics_env w w'.
Proof.
  intros Hwf Hr Hs Hst Hent. pose proof (str_of_key w obj s Hs) as Hk.
  unfold find_or_create_topic. rewrite (M_bind_run _ _ _ _ _ (topics_get_run w g _ s Hr Hk)).
  unfold topic_state in Hst. destruct (g !! s) as [t|] eqn:Hg.
  - destruct Hst as (tp & l & Hnamed & <-). rewrite decide_False by done.
    exists t, tp, l, w. split_and!; try done; [by rewrite insert_id|by apply topics_env_eq].
  - destruct Hst as [-> ->]. destruct (Hent Hg) as [i Hpl]. rewrite decide_True by done.
    destruct (create_topic_run true w obj s Hwf Hs) as (t & nm & tp & l & w1 & E & He & Hwf1 & Hx & Hn & Hret & _).
    rewrite (M_bind_run _ _ _ _ _ E), (M_bind_run _ _ _ _ _ (strdup_of_run w1 _ _ Hs)).
    set (d := fresh_loc w1). set (w2 := alloc (cobj s) w1).
    cbn [to_key of_option mbind res_bind lift]. erewrite M_bind_run by done.
    assert (Hwf2 : heap_wf w2) by (by apply alloc_wf).
    assert (Hx2 : extends w w2) by (etrans; [exact Hx|by apply extends_alloc]).
    pose proof (extends_strings _ _ Hx2) as Hstrs.
    assert (Hdb : topics (db w2) = topics (db w)) by (change (db w2) with (db w1); by rewrite (env_db _ _ He)).
    assert (Hr2 : topics_repr w2 g) by (unfold topics_repr; rewrite Hdb; by apply (repr_kept w)).
    assert (Hkd : key_is (str_of w2) (KPtr d) s).
    { apply key_of, (str_at_cobj _ _ obj); [done|]. exact (at_alloc_eq (cobj s) w1). }
    destruct (topics_put_run w2 g _ s i t Hr2 Hkd Hg) as (m & Em & Hrm).
    { rewrite Hdb, (place_kept w); [done..|]. apply (repr_wf _ _ _ Hr). }
    rewrite (M_bind_run _ _ _ _ _ Em).
    exists t, tp, l, (set_topics m w2). split_and!; try done.
    + apply (topic_named_extends w1); [|done]. by apply extends_alloc.
    + eapply (topics_env_trans _ w1); [by apply topics_env_eq|]. done.
Qed.

(** ** The subscriber *)

Lemma list_wf_at (w : World) l xs : list_wf w l xs → ∃ lst, at_loc w l = Some (OList lst).
Proof. intros (hd & Hl & _). eexists. exact Hl. Qed.

Lemma list_wf_same (w w' : World) l xs : (∀ y, at_loc w' y = at_loc w y) → list_wf w l xs → list_wf w' l xs.
Proof.
  intros Hs (hd & Hl & Hseg & Hnd). exists hd. split_and!; [by rewrite Hs| |done].
  by apply (chain_frame _ w).
Qed.

Lemma heap_wf_same (w w' : World) : (∀ y, at_loc w' y = at_loc w y) → fresh_loc w' = fresh_loc w →
  heap_wf w → heap_wf w'.
Proof.
  intros Hs Hf Hwf y o. rewrite Hs. change (next_loc (get_heap w')) with (fresh_loc w'). rewrite Hf.
  apply Hwf.
Qed.

Lemma unlock_lock_db w w' : env_eq (set_lock true w) w' → db_lock (db w) = false →
  env_eq w (set_lock false w').
Proof.
  intros [Hk Hd Hc Hn Hr] Hl. split; cbn in *; try done. rewrite Hd. cbn. rewrite <- Hl. by destruct (db w).
Qed.

Lemma add_subscriber_run w g s t tp l xs sb c qos k :
  heap_wf w → topics_repr w g → g !! s = Some t →
  topic_named w s t tp l xs → str_of w k = Some s → Z.of_nat (length xs) + 1 < 2 ^ 64 →
  db_lock (db w) = false → at_loc w sb = Some (OSubscription (mk_subscription c (Some k) qos)) →
  ∃ w', add_subscriber (Some sb) w = Ok ((), w') ∧ topics_repr w' g
    ∧ topic_named w' s t tp l ((fresh_loc w, Some sb) :: xs) ∧ heap_wf w' ∧ env_eq w w'
    ∧ ∀ y, y ≠ l → y ≠ fresh_loc w → at_loc w' y = at_loc w y.
Proof.
  intros Hwf Hr Hg (Ht & (nm & Hnm & Hs) & Hl & Hlst) Hk Hxs Hlock Hsb.
  unfold add_subscriber. run_deref. unfold subscription_topic. cbn [sub_topic of_option lift].
  erewrite M_bind_run; last first.
  { erewrite M_bind_run by done. apply (topics_get_run w g k s Hr). by apply key_of. }
  rewrite Hg. erewrite M_bind_run by (unfold lock_db; by rewrite Hlock).
  assert (t ≠ l) by (destruct (list_wf_at _ _ _ Hlst); congruence).
  assert (t ≠ fresh_loc w) by (by eapply heap_wf_ne).
  set (w1 := set_lock true w). assert (Ht1 : at_loc w1 t = Some (OTopic tp)) by done.
  run_deref. rewrite Hl.
  assert (Hwf1 : heap_wf w1) by (by apply (heap_wf_same w)).
  assert (Hlst1 : list_wf w1 l xs) by (by apply (list_wf_same w)).
  destruct (list_head_insert_wf w1 l xs (Some sb) Hwf1 Hlst1 Hxs) as (w2 & E & Hlst2 & Hwf2 & Ho).
  pose proof (heap_only_env _ _ _ _ (list_head_insert_heap _ _) E) as He.
  rewrite (M_bind_run _ _ _ _ _ E). change (fresh_loc w1) with (fresh_loc w) in *.
  assert (Ht2 : at_loc w2 t = Some (OTopic tp)) by (by rewrite Ho).
  run_modify. cbn beta.
  assert (mk_topic (t_name tp) (Some l) (t_messages tp) (t_retained tp) = tp) as ->.
  { rewrite <- Hl. by destruct tp. }
  set (w3 := update t (inj tp) w2). exists (set_lock false w3).
  assert (Hat : ∀ y, at_loc (set_lock false w3) y = at_loc w2 y).
  { intros y. change (at_loc w3 y = at_loc w2 y). unfold w3. rewrite at_update. by case_decide; subst. }
  assert (Hstrs : strings_kept w (set_lock false w3)).
  { apply kept_heap. intros y bs Hy. rewrite Hat, Ho; [done| |by eapply heap_wf_ne].
    intros ->. destruct (list_wf_at _ _ _ Hlst). congruence. }
  split_and!.
  - done.
  - unfold topics_repr. change (topics (db (set_lock false w3))) with (topics (db w2)).
    rewrite (env_db _ _ He). by apply (repr_kept w).
  - split_and!; [by rewrite Hat| |done|by apply (list_wf_same w2)].
    exists nm. split; [done|]. by apply Hstrs.
  - by apply (heap_wf_same w2).
  - apply unlock_lock_db; [|done]. etrans; [exact He|done].
  - intros y Hyl Hyf. rewrite Hat. by apply Ho.
Qed.

(** A name as the topics have it, ready for one more subscriber. *)
Record topic_ready (w : World) (g : gmap (list Z) loc) (s : list Z) (xs : list (loc * ptr)) (ret : ptr) : Prop := {
  tr_repr : topics_repr w g;
  tr_state : topic_state w g s xs ret;
  tr_enter : enterable w g s;
  tr_lock : db_lock (db w) = false;
  tr_room : Z.of_nat (length xs) + 1 < 2 ^ 64
}.

Lemma topic_ready_keeps w w' g s xs ret : keeps w w' → db w' = db w →
  topic_ready w g s xs ret → topic_ready w' g s xs ret.
Proof.
  intros Hk Hd [Hr Hs He Hl Hx]. split; try by rewrite ?Hd.
  - by apply (topics_repr_keeps w); [|rewrite Hd|].
  - unfold topic_state in *. destruct (g !! s) as [t|]; [|done]. destruct Hs as (tp & l & Hn & Hret).
    exists tp, l. split; [by apply (topic_named_keeps w)|done].
  - intros Hg. rewrite Hd, (place_kept w); [by apply He|by apply keeps_strings|]. apply (repr_wf _ _ _ Hr).
Qed.

(** ** The handler *)

(** What a subscription leaves: the topic, the subscription, and the reply. *)
Definition subscribed (w w' : World) (g : gmap (list Z) loc) (c : loc) (cl : Client) (pkt : Subscribe)
    (s : list Z) (xs : list (loc * ptr)) (ret : ptr) (t l : loc) : Prop :=
  ∃ tp n sb nm r b, topics_repr w' (<[s := t]> g) ∧ topic_named w' s t tp l ((n, Some sb) :: xs)
    ∧ t_name tp = Some nm ∧ t_retained tp = ret
    ∧ at_loc w' sb = Some (OSubscription (mk_subscription (Some c) (Some (KPtr nm)) (wrap8 (s_qos pkt))))
    ∧ at_loc w' c = Some (OClient (with_reply (Some r) cl))
    ∧ at_loc w' r = Some (OReply (mk_reply SUBACK (cl_fd cl) (Some b) (Some ret)))
    ∧ at_loc w' b = Some (OBuffer (ack_buffer SUBACK 0)) ∧ at_loc w r = None ∧ at_loc w b = None.

(** A subscription is made and put at the head of the list of its topic. *)
Lemma join_run {B} (k : M World B) w g s t tp l xs c q nm :
  heap_wf w → topics_repr w g → g !! s = Some t →
  topic_named w s t tp l xs → t_name tp = Some nm → db_lock (db w) = false →
  Z.of_nat (length xs) + 1 < 2 ^ 64 →
  let sb := fresh_loc w in
  ∃ n w', (s ← create_subscription c (KPtr <$> t_name tp) q; add_subscriber s;; k) w = k w'
    ∧ topics_repr w' g ∧ topic_named w' s t tp l ((n, Some sb) :: xs) ∧ heap_wf w' ∧ env_eq w w'
    ∧ at_loc w' sb = Some (OSubscription (mk_subscription c (Some (KPtr nm)) (wrap8 q)))
    ∧ ∀ y o, y ≠ l → at_loc w y = Some o → at_loc w' y = Some o.
Proof.
  intros Hwf Hr Hg Hn Hnm Hlock Hxs sb. rewrite Hnm. unfold create_subscription.
  erewrite M_bind_run by (by run_malloc). fold sb.
  set (sub := mk_subscription c (KPtr <$> Some nm) (wrap8 q)). set (w1 := alloc sub w).
  assert (Hx : extends w w1) by (by apply extends_alloc).
  pose proof Hn as (_ & _ & _ & Hlst). destruct (list_wf_at _ _ _ Hlst) as [lst Hl].
  assert (Hsb : at_loc w1 sb = Some (OSubscription sub)) by exact (at_alloc_eq sub w).
  destruct (add_subscriber_run w1 g s t tp l xs sb c (wrap8 q) (KPtr nm))
    as (w2 & E & Hr2 & Hn2 & Hwf2 & He2 & Ho2); try done.
  { by apply alloc_wf. }
  { apply (topics_repr_keeps w); [by apply extends_keeps|done|done]. }
  { by apply (topic_named_extends w). }
  { destruct Hn as (_ & (nm' & Hnm' & Hs) & _). simplify_eq. by apply (extends_strings w). }
  assert (Hx2 : ∀ y o, y ≠ l → at_loc w1 y = Some o → at_loc w2 y = Some o).
  { intros y o Hyl Hy. rewrite Ho2; [done..|]. eapply heap_wf_ne; [by apply alloc_wf|exact Hy]. }
  exists (fresh_loc w1), w2. split; [by rewrite (M_bind_run _ _ _ _ _ E)|]. split_and!; try done.
  - etrans; [|exact He2]; done.
  - apply Hx2; [|done]. exact (not_eq_sym (heap_wf_ne w _ _ Hwf Hl)).
  - intros y o Hyl Hy. apply Hx2; [done|]. by apply Hx.
Qed.

(** The reply is told what the topic retains. *)
Lemma note_retained_run w c cl r op fd b t tp :
  heap_wf w → at_loc w c = Some (OClient cl) → cl_reply cl = Some r →
  at_loc w r = Some (OReply (mk_reply op fd b None)) → at_loc w t = Some (OTopic tp) →
  ∃ w', (cl ← deref (A := Client) (Some c); tp ← deref (A := Topic) (Some t);
      modify_at (cl_reply cl) (λ r, mk_reply (r_opcode r) (r_fd r) (r_body r) (Some (t_retained tp)))) w = Ok ((), w')
    ∧ heap_wf w' ∧ keeps w w' ∧ env_eq w w'
    ∧ at_loc w' r = Some (OReply (mk_reply op fd b (Some (t_retained tp))))
    ∧ ∀ y o, y ≠ r → at_loc w y = Some o → at_loc w' y = Some o.
Proof.
  intros Hwf Hc Hrep Hr Ht. run_deref. run_deref. rewrite Hrep.
  erewrite (modify_at_run (A := Reply)) by exact Hr. cbn [r_opcode r_fd r_body].
  set (w' := update r _ w). exists w'. split; [done|].
  assert (Hk : ∀ y o, y ≠ r → at_loc w y = Some o → at_loc w' y = Some o).
  { intros y o Hy. unfold w'. by rewrite at_update_ne by congruence. }
  split_and!; [|by eapply keeps_but; [exact Hr|intros []|]|done|by unfold w'; rewrite at_update_eq|done].
  apply update_wf; [done|]. by apply Hwf in Hr.
Qed.

(** A location that was taken later was free. *)
Lemma absent_before w w1 y : extends w w1 → heap_wf w1 → (fresh_loc w1 ≤ y)%positive → at_loc w y = None.
Proof.
  intros Hx Hwf Hy. destruct (at_loc w y) as [o|] eqn:Ho; [|done]. apply Hx in Ho.
  by rewrite (at_fresh_None w1) in Ho.
Qed.

Lemma subscribe_topic_run w g c cl pkt s xs ret :
  heap_wf w → topics_repr w g → at_loc w c = Some (OClient cl) → cstr (s_topic pkt) = Ok s →
  topic_state w g s xs ret → enterable w g s →
  db_lock (db w) = false → Z.of_nat (length xs) + 1 < 2 ^ 64 →
  ∃ t l w', subscribe_topic calloc_ok true (Some c) pkt w = Ok ((), w')
    ∧ subscribed w w' g c cl pkt s xs ret t l ∧ heap_wf w'
    ∧ (∀ o, at_loc w l = Some o → ∃ lst, o = OList lst)
    ∧ (∀ y o, y ≠ c → y ≠ l → at_loc w y = Some o → at_loc w' y = Some o) ∧ topics_env w w'.
Proof.
  intros Hwf Hr Hc Hs Hst Hent Hlock Hxs. unfold subscribe_topic.
  destruct (find_or_create_run w g (s_topic pkt) s xs ret)
    as (t & tp & l & w1 & E1 & Hr1 & Hn1 & Hret & Hwf1 & Hx1 & He1); [done..|].
  pose proof (Hx1 _ _ Hc) as Hc1.
  destruct (set_ack_reply_run c cl SUBACK 0 w1 Hwf1 Hc1)
    as (w2 & E2 & He2 & Hwf2 & Hf2 & Hc2 & Hr2 & Hb2 & Ho2); [done|done|].
  set (b := fresh_loc w1) in *. set (r := Pos.succ b) in *.
  assert (Hx2 : ∀ y o, y ≠ c → at_loc w1 y = Some o → at_loc w2 y = Some o).
  { intros y o Hyc Hy. rewrite Ho2; [done|done|..]; eapply (old_loc w1); try done; unfold r, b; lia. }
  assert (Hk2 : keeps w1 w2) by (by eapply keeps_but; [exact Hc1|intros []|]).
  rewrite (M_bind_run _ _ _ _ _ E1), (M_bind_run _ _ _ _ _ E2).
  pose proof (topic_named_keeps _ _ _ _ _ _ _ Hk2 Hn1) as Hn2.
  pose proof Hn2 as (Ht2 & (nm & Hnm & Hnms) & Hl2 & Hlst2). destruct (list_wf_at _ _ _ Hlst2) as [lst Hl].
  set (sb := fresh_loc w2). run_deref.
  assert (Hdb2 : db w2 = db w1) by (by rewrite (env_db _ _ He2)).
  match goal with |- context [(create_subscription _ _ _ ≫= λ s, add_subscriber s ;; ?k) w2] =>
    destruct (join_run k w2 (<[s := t]> g) s t tp l xs (Some c) (s_qos pkt) nm)
      as (n & w4 & E4 & Hr4 & Hn4 & Hwf4 & He4 & Hsb4 & Hx4) end; try done.
  { by apply (topics_repr_keeps w1); [|rewrite Hdb2|]. }
  { apply lookup_insert_eq. }
  { rewrite Hdb2. by rewrite (env_db _ _ He1). }
  rewrite E4.
  assert (Hc4 : at_loc w4 c = Some (OClient (with_reply (Some r) cl))) by (apply Hx4; [congruence|done]).
  assert (Hr4' : at_loc w4 r = Some (OReply (mk_reply SUBACK (cl_fd cl) (Some b) None))).
  { apply Hx4; [congruence|done]. }
  pose proof Hn4 as (Ht4 & _).
  destruct (note_retained_run w4 c _ r SUBACK (cl_fd cl) (Some b) t tp Hwf4 Hc4 eq_refl Hr4' Ht4)
    as (w5 & E5 & Hwf5 & Hkk & He5 & Hr5 & Hk5).
  exists t, l, w5. split; [exact E5|]. split_and!.
  - exists tp, n, sb, nm, r, b. split_and!; try done.
    + apply (topics_repr_keeps w4); [done|by rewrite (env_db _ _ He5)|done].
    + by apply (topic_named_keeps w4).
    + apply Hk5; [apply not_eq_sym, (heap_wf_ne w2 _ _ Hwf2 Hr2)|exact Hsb4].
    + apply Hk5; [congruence|done].
    + by rewrite <- Hret.
    + apply Hk5; [unfold r; lia|]. apply Hx4; [congruence|done].
    + apply (absent_before w w1); [done|done|unfold r, b; lia].
    + by apply (absent_before w w1).
  - done.
  - intros o Hlo%Hx1. destruct Hn1 as (_ & _ & Hl1 & Hlst1). destruct (list_wf_at _ _ _ Hlst1) as [lst1 ?].
    exists lst1. congruence.
  - intros y o Hyc Hyl Hy. apply Hx1 in Hy.
    assert (y ≠ r) by (eapply (old_loc w1); try done; unfold r, b; lia).
    apply Hk5; [done|]. apply Hx4; [done|]. by apply Hx2.
  - eapply topics_env_trans; [exact He1|]. apply topics_env_eq. etrans; [exact He2|]. by etrans; [exact He4|].
Qed.

Lemma subscribed_remove w w1 g c cl pkt s xs ret t l p pkt' : at_loc w1 p = Some (OSubscribe pkt') →
  subscribed w w1 g c cl pkt s xs ret t l → subscribed w (remove p w1) g c cl pkt s xs ret t l.
Proof.
  intros Hp1 (tp & n & sb & nm & r & b & Hr1 & Hn1 & Hnm & Hret & Hsb & Hc1 & Hr1' & Hb1 & Hnr & Hnb).
  assert (Hx : ∀ y o, y ≠ p → at_loc w1 y = Some o → at_loc (remove p w1) y = Some o).
  { intros y o Hy. by rewrite at_remove_ne by congruence. }
  assert (Hk : keeps w1 (remove p w1)) by (by eapply keeps_but; [exact Hp1|intros []|]).
  exists tp, n, sb, nm, r, b. split_and!; try done; try (apply Hx; congruence).
  - by apply (topics_repr_keeps w1).
  - by apply (topic_named_keeps w1).
Qed.

Lemma subscribe_handler_run w g c cl p pkt s xs ret :
  heap_wf w → at_loc w c = Some (OClient cl) → cl_ptr cl = Some p →
  at_loc w p = Some (OSubscribe pkt) → s_topic_len pkt ≠ 0 → cstr (s_topic pkt) = Ok s →
  topic_ready w g s xs ret →
  ∃ t l w1, subscribe_topic calloc_ok true (Some c) pkt w = Ok ((), w1)
    ∧ subscribe_handler calloc_ok true (Some c) w = Ok (0, remove p w1)
    ∧ subscribed w w1 g c cl pkt s xs ret t l ∧ heap_wf w1 ∧ at_loc w1 p = Some (OSubscribe pkt) ∧ p ≠ l
    ∧ (∀ o, at_loc w l = Some o → ∃ lst, o = OList lst)
    ∧ (∀ y o, y ≠ c → y ≠ l → at_loc w y = Some o → at_loc w1 y = Some o) ∧ topics_env w w1.
Proof.
  intros Hwf Hc Hp Hpkt Hz Hs [Hr Hst Hent Hlock Hxs].
  destruct (subscribe_topic_run w g c cl pkt s xs ret)
    as (t & l & w1 & E & Hsub & Hwf1 & Hlist & Ho & He); [done..|].
  assert (Hpl : p ≠ l) by (intros ->; destruct (Hlist _ Hpkt); congruence).
  assert (Hp1 : at_loc w1 p = Some (OSubscribe pkt)) by (apply Ho; [congruence|done|done]).
  exists t, l, w1. split_and!; try done.
  unfold subscribe_handler. run_deref. rewrite Hp. run_deref. rewrite decide_False by done.
  rewrite (M_bind_run _ _ _ _ _ E). by run_release.
Qed.

(** A SUBSCRIBE registers the client: the topic of that name, made and entered in the
    map of topics if there was none, gets a subscription of the client at the head of its
    list, before the subscribers it had; the reply is a SUBACK with return code 0 and
    carries the message the topic retains; the packet is freed.  No other object that was
    allocated changes, nor does the rest of the state. *)
Theorem subscribe_registers w g c cl p pkt s xs ret :
  heap_wf w → at_loc w c = Some (OClient cl) → cl_ptr cl = Some p →
  at_loc w p = Some (OSubscribe pkt) → s_topic_len pkt ≠ 0 → cstr (s_topic pkt) = Ok s →
  topic_ready w g s xs ret →
  ∃ t l w', subscribe_handler calloc_ok true (Some c) w = Ok (0, w')
    ∧ subscribed w w' g c cl pkt s xs ret t l ∧ at_loc w' p = None ∧ heap_wf w'
    ∧ (∀ y o, y ≠ c → y ≠ p → y ≠ l → at_loc w y = Some o → at_loc w' y = Some o) ∧ topics_env w w'.
Proof.
  intros Hwf Hc Hp Hpkt Hz Hs Hready.
  destruct (subscribe_handler_run w g c cl p pkt s xs ret) as (t & l & w1 & _ & E & Hsub & Hwf1 & Hp1 & Hpl & _ & Ho & He);
    [done..|].
  exists t, l, (remove p w1). split; [exact E|]. split_and!.
  - by apply subscribed_remove with (pkt' := pkt).
  - by rewrite at_remove, decide_True.
  - by apply remove_wf.
  - intros y o Hyc Hyp Hyl Hy. rewrite at_remove_ne by congruence. by apply Ho.
  - eapply topics_env_trans; [exact He|]. by apply topics_env_eq.
Qed.

End Handlers.

(** * Witnesses *)

Local Open Scope positive_scope.

(** A client that subscribes to [t], of which there is no topic, or to the empty name. *)
Definition demo_subscribe (len : Z) (topic : list Z) : World := demo_world
  [(5, OClient (demo_client 7 (Some 6) None (Some 8))); (6, demo_str [99%Z]);
   (8, OSubscribe (mk_subscribe (mk_header SUBSCRIBE 9) len 1 (cobj topic)))] demo_socks.

Lemma empty_subscribe_indeterminate_witness :
  ∃ w1, subscribe_handler (λ _, true) true (Some 5) (demo_subscribe 0 []) = Ok (0%Z, w1)
    ∧ reply_handler (λ _, true) true (Some 5) w1 = Err Indeterminate.
Proof.
  exact (empty_subscribe_indeterminate (λ _, true) true (demo_subscribe 0 []) 5 _ 8 _
    ltac:(by apply demo_world_wf) eq_refl eq_refl eq_refl eq_refl).
Defined.

Lemma subscribe_registers_witness :
  ∃ t l w', subscribe_handler (λ _, true) true (Some 5) (demo_subscribe 1 [116%Z]) = Ok (0%Z, w')
    ∧ topics_repr w' {[ [116%Z] := t ]} ∧ at_loc w' 8 = None ∧ at_loc w' l ≠ None.
Proof.
  assert (He : enterable (demo_subscribe 1 [116%Z]) ∅ [116%Z]).
  { intros _. apply (bool_decide_unpack _). vm_compute. reflexivity. }
  destruct (subscribe_registers (λ _, true) (demo_subscribe 1 [116%Z]) ∅ 5
    (demo_client 7 (Some 6) None (Some 8)) 8 (mk_subscribe (mk_header SUBSCRIBE 9) 1 1 (cobj [116%Z])) [116%Z] [] None
    ltac:(by apply demo_world_wf) eq_refl eq_refl eq_refl ltac:(done) eq_refl
    ltac:(split; [apply create_repr|by split|exact He|done|done]))
    as (t & l & w' & E & (tp & n & sb & nm & r & b & Hr & (_ & _ & _ & Hl) & _) & Hp & _).
  exists t, l, w'. split; [exact E|]. split; [exact Hr|]. split; [exact Hp|].
  destruct (list_wf_at _ _ _ Hl) as [lst ->]. done.
Defined.
