(* ===== verification/Steps.v ===== *)
(** Runs of the broker: its steps, and what no step can break.

    A step is one event a worker handles, one turn of the keepalive scan, or a move of the
    environment.  Whatever locks a step takes it gives back, and it never waits for a lock
    of its own.  Objects never change their type, a freed location never holds an object
    again, the locks are free between two steps, and the descriptors and the configuration
    stay the same: [evolves] says so for one command, [moves] follows the lock of the
    database through a sequence of them. *)
From stdpp Require Import base numbers option list gmap.
From Stdlib Require Import ZArith Lia.
From S2P Require Import Prelude Memory Ringbuf Buffer Protocol Hashmap Lists Queues Network Receive.
From S2P Require Import Util Sizigy Demo Server Calm.

Local Open Scope Z_scope.

(** * Steps *)

Section Steps.
Context (calloc_ok : Z → bool) (queue_ok : bool) (low_int : loc → Z).

Inductive step : World → World → Prop :=
  | step_event fuel env ev w go w' :
      worker_event calloc_ok queue_ok low_int fuel env ev w = Ok (go, w') → step w w'
  | step_keepalive val w go w' : keepalive_turn val w = Ok (go, w') → step w w'
  | step_environment k t rs w : step w (mk_world (w_heap w) k (db w) (config w) t rs).

End Steps.

(** * What a command may do *)

(** The type of an object. *)
Definition kind (o : obj) : nat :=
  match o with
  | OStr _ => 0 | OList _ => 1 | ONode _ => 2 | OQueue _ => 3 | OItem _ => 4 | OClient _ => 5
  | OMessage _ => 6 | OTopic _ => 7 | OSubscription _ => 8 | OReply _ => 9 | OBuffer _ => 10
  | OConnect _ => 11 | OSubscribe _ => 12 | OUnsubscribe _ => 13 | OPublish _ => 14 | OAck _ => 15
  end.

(** An object type of the heap is one of these. *)
Class Kinded (A : Type) `{Cell obj A} := kind_inj (a a' : A) : kind (inj a) = kind (inj a').

#[export] Instance kinded_str : Kinded (list Z). Proof. done. Qed.
#[export] Instance kinded_list : Kinded List. Proof. done. Qed.
#[export] Instance kinded_node : Kinded list_node. Proof. done. Qed.
#[export] Instance kinded_queue : Kinded Queue. Proof. done. Qed.
#[export] Instance kinded_item : Kinded QueueItem. Proof. done. Qed.
#[export] Instance kinded_client : Kinded Client. Proof. done. Qed.
#[export] Instance kinded_message : Kinded Message. Proof. done. Qed.
#[export] Instance kinded_topic : Kinded Topic. Proof. done. Qed.
#[export] Instance kinded_subscription : Kinded Subscription. Proof. done. Qed.
#[export] Instance kinded_reply : Kinded Reply. Proof. done. Qed.
#[export] Instance kinded_buffer : Kinded Buffer. Proof. done. Qed.

(** The parts of the state that are set once. *)
Definition settled (w : World) : Z * Z * Z * Hashmap key loc * Config :=
  (bus_port (db w), epollfd (db w), bepollfd (db w), ack_waiting (db w), config w).

(** The locks of the two maps in use. *)
Definition maps_free (w : World) : Prop :=
  m_lock (topics (db w)) = false ∧ m_lock (clients (db w)) = false.

Record evolves (w w' : World) : Prop := {
  ev_wf : heap_wf w';
  ev_fresh : (fresh_loc w ≤ fresh_loc w')%positive;
  ev_dead l : (l < fresh_loc w)%positive → at_loc w l = None → at_loc w' l = None;
  ev_kind l o o' : at_loc w l = Some o → at_loc w' l = Some o' → kind o' = kind o;
  ev_settled : settled w' = settled w;
  ev_maps : maps_free w → maps_free w'
}.

(** With the lock of the database as [b] before and [b'] after it.  When [G] holds and the
    maps are free, the command does not lock a mutex twice. *)
Definition moves (G : Prop) (b b' : bool) {A} (m : M World A) : Prop := ∀ w,
  heap_wf w → db_lock (db w) = b →
  (∀ a w', m w = Ok (a, w') → evolves w w' ∧ db_lock (db w') = b') ∧ (G → maps_free w → calm (m w)).

(** * Lemmas *)

Lemma evolves_refl w : heap_wf w → evolves w w.
Proof. intros Hwf. split; try done. intros l o o' -> [= ->]. done. Qed.

Lemma evolves_trans w1 w2 w3 : heap_wf w1 → evolves w1 w2 → evolves w2 w3 → evolves w1 w3.
Proof.
  intros Hwf H12 H23. split.
  - apply H23.
  - etrans; [apply (ev_fresh _ _ H12)|apply (ev_fresh _ _ H23)].
  - intros l Hl Hn. apply (ev_dead _ _ H23); [|by apply (ev_dead _ _ H12)].
    eapply Pos.lt_le_trans; [exact Hl|apply (ev_fresh _ _ H12)].
  - intros l o o' Ho Ho'. destruct (at_loc w2 l) as [o2|] eqn:Ho2.
    + rewrite (ev_kind _ _ H23 l o2 o' Ho2 Ho'). by apply (ev_kind _ _ H12 l).
    + rewrite (ev_dead _ _ H23 l) in Ho'; [done| |done].
      apply Hwf in Ho. eapply Pos.lt_le_trans; [exact Ho|apply (ev_fresh _ _ H12)].
  - by rewrite (ev_settled _ _ H23), (ev_settled _ _ H12).
  - intros Hm. by apply (ev_maps _ _ H23), (ev_maps _ _ H12).
Qed.

(** The heap is not touched. *)
Lemma evolves_env w w' : heap_wf w → w_heap w' = w_heap w → settled w' = settled w →
  (maps_free w → maps_free w') → evolves w w'.
Proof.
  intros Hwf Hh Hs Hm. assert (Hat : ∀ l, at_loc w' l = at_loc w l).
  { intros l. unfold at_loc. change (get_heap w') with (w_heap w'). by rewrite Hh. }
  assert (Hf : fresh_loc w' = fresh_loc w).
  { unfold fresh_loc. change (get_heap w') with (w_heap w'). by rewrite Hh. }
  split; [|by rewrite Hf|by intros l _; rewrite Hat| |done|done].
  - intros l o. rewrite Hat. change (next_loc (get_heap w')) with (fresh_loc w'). rewrite Hf. apply Hwf.
  - intros l o o' Ho. rewrite Hat, Ho. by intros [= ->].
Qed.

Section Moves.
Context (G : Prop).

Lemma moves_bind b b1 b2 {A B} (m : M World A) (f : A → M World B) :
  moves G b b1 m → (∀ a, moves G b1 b2 (f a)) → moves G b b2 (m ≫= f).
Proof.
  intros Hm Hf w Hwf Hb. destruct (Hm w Hwf Hb) as [Hok Hc]. unfold mbind, M_bind.
  destruct (m w) as [[a w1]|e].
  - destruct (Hok a w1 eq_refl) as [H1 Hb1]. destruct (Hf a w1 (ev_wf _ _ H1) Hb1) as [Hok2 Hc2]. split.
    + intros c w' E. destruct (Hok2 c w' E) as [H2 Hb2]. split; [by eapply evolves_trans|done].
    + intros HG Hmf. apply Hc2; [done|]. by apply (ev_maps _ _ H1).
  - split; [done|]. intros HG Hmf. specialize (Hc HG Hmf). unfold calm in *. congruence.
Qed.

Lemma moves_same b {A} (m : M World A) : (∀ w a w', m w = Ok (a, w') → w' = w) → calm_run m → moves G b b m.
Proof.
  intros Hm Hc w Hwf Hb. split; [|by intros]. intros a w' E. apply Hm in E as ->. split; [by apply evolves_refl|done].
Qed.

Lemma moves_env b {A} (m : M World A) :
  (∀ w a w', m w = Ok (a, w') → w_heap w' = w_heap w ∧ settled w' = settled w
     ∧ (maps_free w → maps_free w') ∧ db_lock (db w') = db_lock (db w)) →
  (∀ w, G → maps_free w → calm (m w)) → moves G b b m.
Proof.
  intros Hm Hc w Hwf Hb. split; [|by apply Hc]. intros a w' E. destruct (Hm w a w' E) as (Hh & Hs & Hmf & Hl).
  split; [by apply evolves_env|congruence].
Qed.

Lemma moves_ret b {A} (a : A) : moves G b b (mret a).
Proof. apply moves_same; [|done]. by intros w c w' [= _ ->]. Qed.

Lemma moves_lift b {A} (r : res A) : calm r → moves G b b (lift r).
Proof.
  intros Hr. apply moves_same; [|by apply calm_run_lift]. intros w c w'. destruct r; [by intros [= _ ->]|done].
Qed.

Lemma moves_err b b' {A} e : e ≠ SelfDeadlock → moves G b b' (lift (A := A) (Err e)).
Proof. intros He w _ _. split; [done|]. intros _ _ [= ?]. done. Qed.

Lemma moves_get b : moves G b b get.
Proof. apply moves_same; [|done]. by intros w c w' [= _ ->]. Qed.

Lemma calm_deref {A} `{Cell obj A} p : calm_run (S := World) (deref (A := A) p).
Proof. intros w. unfold deref. calm. Qed.
Lemma calm_assign {A} `{Cell obj A} p (a : A) : calm_run (S := World) (assign p a).
Proof. intros w. unfold assign. calm. Qed.
Lemma calm_free p : calm_run (S := World) (free p).
Proof. intros w. unfold free. calm. Qed.

Lemma moves_deref b {A} `{Cell obj A} p : moves G b b (deref (A := A) p).
Proof. apply moves_same; [|apply calm_deref]. by intros w a w' (? & _ & _ & ->)%deref_inv. Qed.

Lemma moves_malloc b {A} `{Cell obj A} (a : A) : moves G b b (malloc a).
Proof.
  intros w Hwf Hb. split; [|done]. intros l w'. rewrite malloc_run. intros E. assert (w' = alloc a w) as -> by congruence.
  clear E l. split; [|done]. split; try done.
  - by apply alloc_wf.
  - rewrite fresh_alloc. lia.
  - intros l Hl Hn. rewrite at_alloc_ne; [done|lia].
  - intros l o o' Ho. rewrite at_alloc_ne by (by eapply heap_wf_ne). rewrite Ho. by intros [= ->].
Qed.

Lemma assign_inv {A} `{Cell obj A} p (a : A) (w w' : World) u : assign p a w = Ok (u, w') →
  ∃ l a0, p = Some l ∧ at_loc w l = Some (inj a0) ∧ w' = update l (inj a) w.
Proof.
  destruct p as [l|]; [|done]. unfold assign. cbn [of_option mbind res_bind].
  destruct (at_loc w l) as [o|] eqn:Ho; [|done]. cbn [of_option mbind res_bind].
  destruct (prj o : option A) as [a0|] eqn:Ha; [|done]. apply inj_prj in Ha as ->.
  intros E. exists l, a0. split_and!; [done..|].
  cbn [of_option mbind res_bind] in E. congruence.
Qed.

Lemma free_inv p (w w' : World) u : free p w = Ok (u, w') →
  w' = w ∨ ∃ l o, p = Some l ∧ at_loc w l = Some o ∧ w' = remove l w.
Proof.
  unfold free. destruct p as [l|]; [|intros [= _ ->]; by left].
  destruct (at_loc w l) as [o|] eqn:Ho; [|done]. cbn [of_option mbind res_bind].
  intros E. right. exists l, o. split_and!; [done..|]. congruence.
Qed.

Lemma moves_assign b {A} `{Kinded A} p (a : A) : moves G b b (assign p a).
Proof.
  intros w Hwf Hb. split; [|intros _ _; apply calm_assign]. intros u w' (l & a0 & -> & Ho & ->)%assign_inv. split; [|done]. split; try done.
  - apply update_wf; [done|]. by apply Hwf in Ho.
  - intros l' Hl' Hn. rewrite at_update_ne; [done|intros ->; congruence].
  - intros l' o1 o2 Ho1. rewrite at_update. case_decide as Hd; [subst l'|by rewrite Ho1; intros [= ->]].
    intros [= <-]. rewrite Ho in Ho1. injection Ho1 as <-. apply kind_inj.
Qed.

Lemma moves_free b p : moves G b b (free p).
Proof.
  intros w Hwf Hb. split; [|intros _ _; apply calm_free]. intros u w' [->|(l & o & -> & Ho & ->)]%free_inv; [split; [by apply evolves_refl|done]|].
  split; [|done]. split; try done.
  - by apply remove_wf.
  - intros l' Hl' Hn. rewrite at_remove. by case_decide.
  - intros l' o1 o2 Ho1. rewrite at_remove. case_decide; [done|]. rewrite Ho1. by intros [= ->].
Qed.

Lemma moves_modify_at b {A} `{Kinded A} p (f : A → A) : moves G b b (modify_at p f).
Proof. unfold modify_at. eapply moves_bind; [apply moves_deref|intros a]. by apply moves_assign. Qed.

Lemma moves_when b c m : moves G b b m → moves G b b (when c m).
Proof. destruct c; [done|]. intros _. apply moves_ret. Qed.

(** A command of the kernel. *)
Definition kernel_only {A} (m : M World A) : Prop :=
  (∀ w a w', m w = Ok (a, w') → ∃ k, w' = set_kernel k w) ∧ calm_run m.

Lemma moves_kernel b {A} (m : M World A) : kernel_only m → moves G b b m.
Proof. intros [Hm Hc]. apply moves_env; [|by intros]. intros w a w' E. by destruct (Hm w a w' E) as [k ->]. Qed.

End Moves.

Lemma moves_ok {b b' A} {m : M World A} {w a w'} : moves False b b' m → heap_wf w → db_lock (db w) = b → m w = Ok (a, w') →
  evolves w w' ∧ db_lock (db w') = b'.
Proof. intros Hm Hwf Hb. by apply Hm. Qed.

(** Follows a sequence of commands. *)
Create HintDb moves discriminated.
#[export] Hint Resolve moves_ret moves_get moves_deref moves_malloc moves_assign
  moves_free : moves.
#[export] Hint Extern 0 (_ → no_growth _) => first [assumption | exact (λ H, H) | exact (False_ind _)] : moves.
Ltac moves :=
  repeat first
    [ progress intros
    | solve [eauto 3 with moves nocore]
    | apply moves_err; done
    | simple apply moves_lift; solve [calm]
    | apply moves_assign; apply _
    | apply moves_modify_at; apply _
    | apply moves_when
    | eapply moves_bind
    | case_match ].

(** ** The kernel *)

Lemma kernel_recv fd k : kernel_only (recv fd k).
Proof.
  split; [|intros w; unfold recv; calm]. intros w r w'. unfold recv. destruct (get_sock w fd) as [so|]; [|intros [= _ <-]; by exists (w_kernel w); destruct w].
  destruct (rx_take (rx so) k). intros [= _ <-]. unfold set_sock. eauto.
Qed.

Lemma kernel_send fd d : kernel_only (send fd d).
Proof.
  split; [|intros w; unfold send; calm]. intros w r w'. unfold send. destruct (get_sock w fd) as [so|]; [|intros [= _ <-]; by exists (w_kernel w); destruct w].
  destruct (tx_take _ _). intros [= _ <-]. unfold set_sock. eauto.
Qed.

Lemma kernel_shutdown fd : kernel_only (shutdown fd).
Proof.
  split; [|intros w; unfold shutdown; calm]. intros w r w'. unfold shutdown. destruct (get_sock w fd) as [so|]; intros [= _ <-].
  - unfold set_sock. eauto.
  - by exists (w_kernel w); destruct w.
Qed.

Lemma kernel_close fd : kernel_only (close fd).
Proof. split; [|done]. intros w r w' [= _ <-]. eauto. Qed.

Lemma kernel_epoll_ctl f ok efd fd : kernel_only (epoll_ctl f ok efd fd).
Proof.
  split; [|intros w; unfold epoll_ctl; calm]. intros w r w'. unfold epoll_ctl. destruct (get_sock w fd) as [so|].
  - case_match; intros [= _ <-]; [eauto|by exists (w_kernel w); destruct w].
  - intros [= _ <-]. by exists (w_kernel w); destruct w.
Qed.

Lemma moves_recv (G : Prop) b fd k : moves G b b (recv fd k). Proof. apply moves_kernel, kernel_recv. Qed.
Lemma moves_send (G : Prop) b fd d : moves G b b (send fd d). Proof. apply moves_kernel, kernel_send. Qed.
Lemma moves_shutdown (G : Prop) b fd : moves G b b (shutdown fd). Proof. apply moves_kernel, kernel_shutdown. Qed.
Lemma moves_close (G : Prop) b fd : moves G b b (close fd). Proof. apply moves_kernel, kernel_close. Qed.
Lemma moves_epoll_ctl (G : Prop) b f ok efd fd : moves G b b (epoll_ctl f ok efd fd).
Proof. apply moves_kernel, kernel_epoll_ctl. Qed.
Lemma moves_add_epoll (G : Prop) b efd fd d : moves G b b (add_epoll efd fd d).
Proof. apply moves_epoll_ctl. Qed.
Lemma moves_mod_epoll (G : Prop) b efd fd evs d : moves G b b (mod_epoll efd fd evs d).
Proof. apply moves_epoll_ctl. Qed.
Lemma moves_open_fd (G : Prop) b fd so : moves G b b (open_fd fd so).
Proof. apply moves_kernel. split; [|done]. intros w r w' [= _ <-]. unfold set_sock. eauto. Qed.
Lemma moves_rx_fuel (G : Prop) b fd : moves G b b (rx_fuel fd).
Proof. apply moves_same; [|done]. by intros w c w' [= _ ->]. Qed.
Lemma moves_tx_fuel (G : Prop) b fd : moves G b b (tx_fuel fd).
Proof. apply moves_same; [|done]. by intros w c w' [= _ ->]. Qed.
#[export] Hint Resolve moves_recv moves_send moves_shutdown moves_close moves_epoll_ctl moves_add_epoll moves_mod_epoll
  moves_open_fd moves_rx_fuel moves_tx_fuel : moves.

Lemma moves_sendall_loop (G : Prop) b fuel fd buf len total left n : moves G b b (sendall_loop fuel fd buf len total left n).
Proof. revert total left n. induction fuel; intros; cbn [sendall_loop]; moves. Qed.
#[export] Hint Resolve moves_sendall_loop : moves.

Lemma moves_send_buffer (G : Prop) b fd buf : moves G b b (send_buffer fd buf).
Proof. unfold send_buffer, sendall. moves. Qed.
#[export] Hint Resolve moves_send_buffer : moves.

Lemma moves_recvbytes_loop (G : Prop) b fuel fd rb size total : moves G b b (recvbytes_loop fuel fd rb size total).
Proof. revert rb total. induction fuel; intros; cbn [recvbytes_loop]; moves. Qed.
#[export] Hint Resolve moves_recvbytes_loop : moves.

Lemma moves_recv_bytes (G : Prop) b fd rb all size : moves G b b (recv_bytes fd rb all size).
Proof. unfold recv_bytes, recvbytes. moves. Qed.
#[export] Hint Resolve moves_recv_bytes : moves.

Lemma moves_header_loop (G : Prop) b fuel fd rb n : moves G b b (header_loop fuel fd rb n).
Proof. revert rb n. induction fuel; intros; cbn [header_loop]; moves. Qed.
Lemma moves_body_loop (G : Prop) b fuel fd rb n : moves G b b (body_loop fuel fd rb n).
Proof. revert rb n. induction fuel; intros; cbn [body_loop]; moves. Qed.
#[export] Hint Resolve moves_header_loop moves_body_loop : moves.

Lemma moves_recv_packet (G : Prop) b fuel fd rb : moves G b b (recv_packet fuel fd rb).
Proof. unfold recv_packet. moves. Qed.
#[export] Hint Resolve moves_recv_packet : moves.

(** ** The maps *)

Lemma get_unlocks {K V} (str : K → option (list Z)) (m : Hashmap K V) k v m' :
  hashmap_get str m k = Ok (v, m') → m_lock m' = false.
Proof.
  unfold hashmap_get. destruct (mutex_lock m) as [m1|]; [|done]. cbn [mbind res_bind].
  destruct (hash_key str m1 k); [|done]. cbn [mbind res_bind]. destruct (probe_key _ _ _ _ _) as [[i|]|]; [|by intros [= _ <-]|done].
  cbn [mbind res_bind]. destruct (entry_at m1 i); [|done]. by intros [= _ <-].
Qed.

Lemma del_unlocks {K V} (str : K → option (list Z)) (m : Hashmap K V) k v m' :
  hashmap_del str m k = Ok (v, m') → m_lock m' = false.
Proof.
  unfold hashmap_del. destruct (mutex_lock m) as [m1|]; [|done]. cbn [mbind res_bind].
  destruct (hash_key str m1 k); [|done]. cbn [mbind res_bind]. destruct (probe_key _ _ _ _ _) as [[i|]|]; [|by intros [= _ <-]|done].
  cbn [mbind res_bind]. destruct (entry_at m1 i); [|done]. by intros [= _ <-].
Qed.

Lemma put_unlocks {K V} (str : K → option (list Z)) calloc_ok n (m : Hashmap K V) k v rc m' :
  hashmap_put str calloc_ok n m k v = Ok (rc, m') → m_lock m' = false.
Proof.
  destruct n as [|n]; [done|]. cbn [hashmap_put]. destruct (mutex_lock m) as [m1|]; [|done]. cbn [mbind res_bind].
  destruct (hashmap_hash str m1 k); [|done]. cbn [mbind res_bind].
  destruct (grow_loop _ _ _ _ _ _) as [[[i|] m2]|]; [| |done]; cbn [mbind res_bind].
  - destruct (set_entry m2 i k v); [|done]. by intros [= _ <-].
  - by intros [= _ <-].
Qed.

(** The outcome of an operation on a map, put back into the state. *)
Lemma calm_stored {A B} (r : res (A * B)) (f : A → B → A * World) : calm r → calm ('(a, m) ← r; Ok (f a m)).
Proof. intros Hr. apply calm_bind; [done|]. by intros [a m]. Qed.

Lemma moves_topics_get (G : Prop) b k : moves G b b (topics_get k).
Proof.
  apply moves_env.
  - intros w a w'. unfold topics_get. destruct (hashmap_get _ _ k) as [[v m]|] eqn:E; [|done].
    apply get_unlocks in E. intros [= _ <-]. split_and!; try done. by intros [_ ?].
  - intros w _ [Hl _]. by apply (calm_stored _ (λ v m, (v, set_topics m w))), calm_hashmap_get.
Qed.

Lemma moves_topics_put (G : Prop) calloc_ok b k v : (G → no_growth calloc_ok) → moves G b b (topics_put calloc_ok k v).
Proof.
  intros HG. apply moves_env.
  - intros w a w'. unfold topics_put. destruct (hashmap_put _ _ _ _ k v) as [[rc m]|] eqn:E; [|done].
    apply put_unlocks in E. intros [= _ <-]. split_and!; try done. by intros [_ ?].
  - intros w Hg [Hl _]. apply (calm_stored _ (λ v m, (v, set_topics m w))), calm_hashmap_put; auto.
Qed.

Lemma moves_clients_put (G : Prop) calloc_ok b k v : (G → no_growth calloc_ok) → moves G b b (clients_put calloc_ok k v).
Proof.
  intros HG. apply moves_env.
  - intros w a w'. unfold clients_put. destruct (hashmap_put _ _ _ _ k v) as [[rc m]|] eqn:E; [|done].
    apply put_unlocks in E. intros [= _ <-]. split_and!; try done. by intros [? _].
  - intros w Hg [_ Hl]. apply (calm_stored _ (λ v m, (v, set_clients m w))), calm_hashmap_put; auto.
Qed.

Lemma moves_clients_del (G : Prop) b k : moves G b b (clients_del k).
Proof.
  apply moves_env.
  - intros w a w'. unfold clients_del. destruct (hashmap_del _ _ k) as [[rc m]|] eqn:E; [|done].
    apply del_unlocks in E. intros [= _ <-]. split_and!; try done. by intros [? _].
  - intros w _ [_ Hl]. by apply (calm_stored _ (λ v m, (v, set_clients m w))), calm_hashmap_del.
Qed.

Lemma moves_lock_db (G : Prop) : moves G false true lock_db.
Proof.
  intros w Hwf Hb. unfold lock_db. rewrite Hb. split; [|done]. intros u w' [= _ <-]. split; [|done].
  by apply evolves_env.
Qed.

Lemma moves_unlock_db (G : Prop) b : moves G b false unlock_db.
Proof. intros w Hwf Hb. split; [|done]. intros u w' [= _ <-]. split; [|done]. by apply evolves_env. Qed.

Lemma moves_set_peers (G : Prop) b p : moves G b b (modify (set_peers p)).
Proof. apply moves_env; [|done]. by intros w u w' [= _ <-]. Qed.

Lemma moves_time (G : Prop) b : moves G b b time.
Proof. apply moves_same; [|done]. by intros w u w' [= _ ->]. Qed.
Lemma moves_heap_fuel (G : Prop) b : moves G b b heap_fuel.
Proof. apply moves_same; [|done]. by intros w u w' [= _ ->]. Qed.
Lemma moves_take_rands (G : Prop) b n : moves G b b (take_rands n).
Proof. apply moves_env; [|done]. by intros w u w' [= _ <-]. Qed.
#[export] Hint Resolve moves_topics_get moves_topics_put moves_clients_put moves_clients_del moves_lock_db
  moves_unlock_db moves_set_peers moves_time moves_heap_fuel moves_take_rands : moves.

(** ** Lists and queues *)

Lemma moves_list_head_insert (G : Prop) b l v : moves G b b (list_head_insert (St := World) l v).
Proof. unfold list_head_insert. moves. Qed.
Lemma moves_list_release_loop (G : Prop) b fuel l h deep : moves G b b (list_release_loop (St := World) fuel l h deep).
Proof. revert h. induction fuel; intros; cbn [list_release_loop]; moves. Qed.
#[export] Hint Resolve moves_list_head_insert moves_list_release_loop : moves.
Lemma moves_list_release (G : Prop) b l deep : moves G b b (list_release (St := World) l deep).
Proof. unfold list_release. moves. Qed.
Lemma moves_list_remove_node (G : Prop) b fuel head node cmp :
  (∀ x y, moves G b b (cmp x y)) → moves G b b (list_remove_node (St := World) fuel head node cmp).
Proof. intros Hc. revert head. induction fuel; intros; cbn [list_remove_node]; moves. Qed.
Lemma moves_dequeue (G : Prop) b q : moves G b b (dequeue (St := World) q).
Proof. unfold dequeue. moves. Qed.
#[export] Hint Resolve moves_list_release moves_list_remove_node moves_dequeue : moves.
Lemma moves_release_queue_loop (G : Prop) b fuel q : moves G b b (release_queue_loop (St := World) fuel q).
Proof. induction fuel; intros; cbn [release_queue_loop]; moves. Qed.
#[export] Hint Resolve moves_release_queue_loop : moves.
Lemma moves_release_queue (G : Prop) b fuel q : moves G b b (release_queue (St := World) fuel q).
Proof. unfold release_queue. moves. Qed.
Lemma moves_create_queue (G : Prop) b ok : moves G b b (create_queue (St := World) ok).
Proof. unfold create_queue. moves. Qed.
#[export] Hint Resolve moves_release_queue moves_create_queue : moves.

(** ** The data of the broker *)

Lemma moves_update_last (G : Prop) b c : moves G b b (update_client_last_action c).
Proof. unfold update_client_last_action. moves. Qed.
Lemma moves_strdup_of (G : Prop) b s : moves G b b (strdup_of s).
Proof. unfold strdup_of. moves. Qed.
#[export] Hint Resolve moves_update_last moves_strdup_of : moves.
Lemma moves_strdup (G : Prop) b p : moves G b b (strdup p).
Proof. unfold strdup. moves. Qed.
Lemma moves_add_client (G : Prop) calloc_ok b c : (G → no_growth calloc_ok) → moves G b b (add_client calloc_ok c).
Proof. unfold add_client. moves. Qed.
Lemma moves_del_client (G : Prop) b c : moves G b b (del_client c).
Proof. unfold del_client. moves. Qed.
Lemma moves_create_topic (G : Prop) ok b name : moves G b b (create_topic ok name).
Proof. unfold create_topic, list_create. moves. Qed.
Lemma moves_destroy_message (G : Prop) b m : moves G b b (destroy_message m).
Proof. unfold destroy_message. moves. Qed.
#[export] Hint Resolve moves_strdup moves_add_client moves_del_client moves_create_topic
  moves_destroy_message : moves.
Lemma moves_destroy_topic (G : Prop) b t : moves G b b (destroy_topic t).
Proof. unfold destroy_topic. moves. Qed.
Lemma moves_sub_compare (G : Prop) b x y : moves G b b (sub_compare x y).
Proof. unfold sub_compare. moves. Qed.
Lemma moves_create_message (G : Prop) b msg sender : moves G b b (create_message msg sender).
Proof. unfold create_message. moves. Qed.
Lemma moves_create_subscription (G : Prop) b c t q : moves G b b (create_subscription c t q).
Proof. unfold create_subscription. moves. Qed.
#[export] Hint Resolve moves_destroy_topic moves_sub_compare moves_create_message
  moves_create_subscription : moves.

(** The two operations that take the lock. *)
Lemma moves_add_subscriber (G : Prop) s : moves G false false (add_subscriber s).
Proof. unfold add_subscriber, subscription_topic. moves. Qed.

Lemma moves_unlink (G : Prop) b n l node : moves G b b (unlink (St := World) n l node sub_compare).
Proof. unfold unlink, list_attach. moves. Qed.
#[export] Hint Resolve moves_add_subscriber moves_unlink : moves.

Lemma moves_del_subscriber (G : Prop) s : moves G false false (del_subscriber s).
Proof. unfold del_subscriber, subscription_topic. moves. Qed.
#[export] Hint Resolve moves_del_subscriber : moves.

(** ** The server *)

Lemma moves_free_packet (G : Prop) b A `{Cell obj A} p : moves G b b (free_packet A p).
Proof. unfold free_packet. moves. Qed.
#[export] Hint Resolve moves_free_packet : moves.
Lemma moves_free_ack (G : Prop) b p : moves G b b (free_ack p). Proof. apply moves_free_packet. Qed.
Lemma moves_free_connect (G : Prop) b p : moves G b b (free_connect p). Proof. apply moves_free_packet. Qed.
Lemma moves_free_publish (G : Prop) b p : moves G b b (free_publish p). Proof. apply moves_free_packet. Qed.
Lemma moves_free_subscribe (G : Prop) b p : moves G b b (free_subscribe p). Proof. apply moves_free_packet. Qed.
Lemma moves_free_unsubscribe (G : Prop) b p : moves G b b (free_unsubscribe p). Proof. apply moves_free_packet. Qed.
Lemma moves_buffer_destroy (G : Prop) b p : moves G b b (buffer_destroy p).
Proof. unfold buffer_destroy. moves. Qed.
#[export] Hint Resolve moves_free_ack moves_free_connect moves_free_publish moves_free_subscribe
  moves_free_unsubscribe moves_buffer_destroy : moves.

Lemma moves_set_reply (G : Prop) b c op p : moves G b b (set_reply c op p).
Proof. unfold set_reply. moves. Qed.
#[export] Hint Resolve moves_set_reply : moves.
Lemma moves_set_ack_reply (G : Prop) b c op rc : moves G b b (set_ack_reply c op rc).
Proof. unfold set_ack_reply. moves. Qed.
Lemma moves_free_reply (G : Prop) b r : moves G b b (free_reply r).
Proof. unfold free_reply. moves. Qed.
Lemma moves_retain_message (G : Prop) b t msg sender : moves G b b (retain_message t msg sender).
Proof. unfold retain_message. moves. Qed.
Lemma moves_publish_loop (G : Prop) b fuel buf cur total : moves G b b (publish_loop fuel buf cur total).
Proof. revert cur total. induction fuel; intros; cbn [publish_loop]; moves. Qed.
#[export] Hint Resolve moves_set_ack_reply moves_free_reply moves_retain_message moves_publish_loop : moves.
Lemma moves_publish_message (G : Prop) b t msg sender : moves G b b (publish_message t msg sender).
Proof. unfold publish_message. moves. Qed.
#[export] Hint Resolve moves_publish_message : moves.

Lemma moves_iterate_loop (G : Prop) b (f : hashmap_entry key loc → M World Z) es :
  (∀ e, moves G b b (f e)) → moves G b b (iterate_loop f es).
Proof. intros Hf. induction es; intros; cbn [iterate_loop]; moves. Qed.
Lemma moves_iterate (G : Prop) b (f : hashmap_entry key loc → M World Z) (get : World → Hashmap key loc) :
  (∀ e, moves G b b (f e)) → moves G b b (λ w, hashmap_iterate2 (get w) f w).
Proof.
  intros Hf w Hwf Hb. unfold hashmap_iterate2. case_decide.
  - by apply (moves_ret G b HASHMAP_ERR w).
  - by apply moves_iterate_loop.
Qed.
Lemma moves_iterate_topics (G : Prop) b f : (∀ e, moves G b b (f e)) → moves G b b (iterate_topics f).
Proof. apply (moves_iterate G b f (λ w, topics (db w))). Qed.
Lemma moves_iterate_clients (G : Prop) b f : (∀ e, moves G b b (f e)) → moves G b b (iterate_clients f).
Proof. apply (moves_iterate G b f (λ w, clients (db w))). Qed.
Lemma moves_close_socket (G : Prop) b a e : moves G b b (close_socket a e).
Proof. unfold close_socket. moves. Qed.
Lemma moves_check_client_status (G : Prop) b e : moves G b b (check_client_status e).
Proof. unfold check_client_status. moves. Qed.
#[export] Hint Resolve moves_iterate_topics moves_iterate_clients moves_close_socket
  moves_check_client_status : moves.

Section Server.
Context (calloc_ok : Z → bool) (queue_ok : bool) (low_int : loc → Z).
Context (G : Prop) (HG : G → no_growth calloc_ok).

Lemma moves_find_or_create b name : moves G b b (find_or_create_topic calloc_ok queue_ok name).
Proof. unfold find_or_create_topic. moves. Qed.
#[local] Hint Resolve moves_find_or_create : moves.
Lemma moves_connect c : moves G false false (connect_handler calloc_ok c).
Proof. unfold connect_handler, connect_client. moves. Qed.
Lemma moves_publish c : moves G false false (publish_handler c).
Proof. unfold publish_handler. moves. Qed.
Lemma moves_pingreq c : moves G false false (pingreq_handler c).
Proof. unfold pingreq_handler. moves. Qed.
Lemma moves_disconnect c : moves G false false (disconnect_handler c).
Proof. unfold disconnect_handler. moves. Qed.
Lemma moves_subscribe c : moves G false false (subscribe_handler calloc_ok queue_ok c).
Proof. unfold subscribe_handler, subscribe_topic. moves. Qed.
Lemma moves_unsubscribe c : moves G false false (unsubscribe_handler c).
Proof. unfold unsubscribe_handler. moves. Qed.
#[local] Hint Resolve moves_connect moves_publish moves_pingreq moves_disconnect moves_subscribe
  moves_unsubscribe : moves.

Lemma moves_run_commands op c fr ex :
  moves G false false (run_commands (commands_hashmap calloc_ok queue_ok) op c fr ex).
Proof. unfold commands_hashmap. cbn [run_commands]. moves. Qed.

Lemma moves_unpacked b {A} `{Cell obj A} (unpack : bool → M Buffer (Z * option A)) buf :
  calm_run (unpack true) → moves G b b (unpacked unpack buf).
Proof. intros Hu. unfold unpacked. moves. Qed.
Lemma moves_unpack_packet b op buf : moves G b b (unpack_packet op buf).
Proof. unfold unpack_packet. repeat case_decide; try (apply moves_unpacked; calm). apply moves_ret. Qed.
#[local] Hint Resolve moves_run_commands moves_unpack_packet : moves.

Lemma moves_handle_packet c fd buf op : moves G false false (handle_packet calloc_ok queue_ok c fd buf op).
Proof. unfold handle_packet. moves. Qed.
#[local] Hint Resolve moves_handle_packet : moves.
Lemma moves_request fuel c : moves G false false (request_handler calloc_ok queue_ok fuel c).
Proof. unfold request_handler. moves. Qed.
Lemma moves_send_status b fd buf ret : moves G b b (send_status fd buf ret).
Proof. unfold send_status. moves. Qed.
#[local] Hint Resolve moves_send_status : moves.
Lemma moves_reply_publish b c r : moves G b b (reply_publish calloc_ok queue_ok c r).
Proof. unfold reply_publish. moves. Qed.
Lemma moves_reply_retained b c r m : moves G b b (reply_retained c r m).
Proof. unfold reply_retained. moves. Qed.
#[local] Hint Resolve moves_reply_publish moves_reply_retained : moves.
Lemma moves_finish_reply b c ret : moves G b b (finish_reply c ret).
Proof. unfold finish_reply, mod_client_epoll. moves. Qed.
#[local] Hint Resolve moves_finish_reply : moves.
Lemma moves_reply c : moves G false false (reply_handler calloc_ok queue_ok c).
Proof. unfold reply_handler. moves. Qed.
Lemma moves_accept_connection b fd so ok : moves G b b (accept_connection fd so ok).
Proof. unfold accept_connection. moves. Qed.
#[local] Hint Resolve moves_accept_connection : moves.
Lemma moves_accept env c : moves G false false (accept_handler env c).
Proof. unfold accept_handler, accepted_client, new_name. moves. Qed.
#[local] Hint Resolve moves_request moves_reply moves_accept : moves.

Lemma moves_worker_event fuel env ev :
  moves G false false (worker_event calloc_ok queue_ok low_int fuel env ev).
Proof. unfold worker_event, run_handler. moves. Qed.
Lemma moves_keepalive_turn val : moves G false false (keepalive_turn val).
Proof. unfold keepalive_turn. moves. Qed.

End Server.

(** ** Runs *)

Section Runs.
Context (calloc_ok : Z → bool) (queue_ok : bool) (low_int : loc → Z).

(** No lock is held. *)
Definition locks_free (w : World) : Prop := db_lock (db w) = false ∧ maps_free w.

Lemma step_evolves w w' : step calloc_ok queue_ok low_int w w' → heap_wf w → locks_free w →
  evolves w w' ∧ locks_free w'.
Proof.
  intros Hs Hwf [Hl Hm]. assert (∀ A (m : M World A) a, moves False false false m → m w = Ok (a, w') →
    evolves w w' ∧ locks_free w') as Hmv.
  { intros A m a Hmv E. destruct (proj1 (Hmv w Hwf Hl) a w' E) as [He Hl'].
    split; [done|]. split; [done|]. by apply (ev_maps _ _ He). }
  destruct Hs as [fuel env ev w go w' E|val w go w' E|k t rs w].
  - eapply Hmv; [|exact E]. by apply moves_worker_event.
  - eapply Hmv; [|exact E]. apply moves_keepalive_turn.
  - split; [by apply evolves_env|done].
Qed.

(** From there no event and no turn of the scan locks a mutex its thread holds. *)
Lemma event_calm full w fuel env ev : no_growth full → heap_wf w → locks_free w →
  calm (worker_event full queue_ok low_int fuel env ev w).
Proof. intros Hf Hwf [Hl Hm]. by apply (moves_worker_event full queue_ok low_int True (λ _, Hf) fuel env ev w Hwf Hl). Qed.

Lemma keepalive_calm val w : heap_wf w → locks_free w → calm (keepalive_turn val w).
Proof. intros Hwf [Hl Hm]. by apply (moves_keepalive_turn True val w Hwf Hl). Qed.

Lemma run_evolves w w' : rtc (step calloc_ok queue_ok low_int) w w' → heap_wf w → locks_free w →
  evolves w w' ∧ locks_free w'.
Proof.
  induction 1 as [w|w1 w2 w3 Hs Hr IH]; intros Hwf Hl; [split; [by apply evolves_refl|done]|].
  destruct (step_evolves w1 w2 Hs Hwf Hl) as [H12 Hl2].
  destruct (IH (ev_wf _ _ H12) Hl2) as [H23 Hl3]. split; [by eapply evolves_trans|done].
Qed.

(** The heap and the locks alone, for the commands that set the descriptors. *)
Definition sound (w : World) : Prop := heap_wf w ∧ locks_free w.
Definition keeps_sound {A} (m : M World A) : Prop := ∀ w a w', sound w → m w = Ok (a, w') → sound w'.

Lemma sound_bind {A B} (m : M World A) (f : A → M World B) :
  keeps_sound m → (∀ a, keeps_sound (f a)) → keeps_sound (m ≫= f).
Proof.
  intros Hm Hf w b w' Hs. unfold mbind, M_bind. destruct (m w) as [[a w1]|] eqn:E; [|done].
  intros E'. by apply (Hf a w1 b w'); [apply (Hm w a w1)|].
Qed.

Lemma sound_moves {A} (m : M World A) : moves False false false m → keeps_sound m.
Proof.
  intros Hm w a w' [Hwf [Hl Hmf]] E. destruct (proj1 (Hm w Hwf Hl) a w' E) as [He Hl'].
  split; [apply He|]. split; [done|]. by apply (ev_maps _ _ He).
Qed.

Lemma sound_modify f : (∀ w, sound w → sound (f w)) → keeps_sound (modify f).
Proof. intros Hf w a w' Hs [= _ <-]. by apply Hf. Qed.

Lemma sound_descriptors port epfd bepfd w : sound w → sound (set_descriptors port epfd bepfd w).
Proof. by intros [Hwf [Hl Hm]]. Qed.

Lemma listen_sound epfd bepfd fd bfd port : keeps_sound (listen_all epfd bepfd fd bfd port).
Proof.
  unfold listen_all. repeat first [apply sound_modify; intros; by apply sound_descriptors
    | apply sound_bind; [|intros ?] | apply sound_moves; solve [moves]].
Qed.

Lemma start_locks_free run_fd epfd bepfd fd bfd port w w' : heap_wf w →
  (init_server run_fd;; listen_all epfd bepfd fd bfd port) w = Ok ((), w') → heap_wf w' ∧ locks_free w'.
Proof.
  intros Hwf. unfold mbind, M_bind. destruct (init_server run_fd w) as [[[] w1]|] eqn:E; [|done].
  apply listen_sound. revert E. unfold init_server. erewrite M_bind_run by done.
  apply (sound_moves (peers ← list_create; modify (set_peers peers))); [unfold list_create; moves|].
  by split.
Qed.

(** * Properties *)

(** C11. Whatever events arrive, in whatever order the workers and the keepalive thread take
    them, and however the environment moves, between two steps of a running broker neither
    the lock of the database nor the locks of its two maps is held: every path through a
    handler that returns gives back what it took.  From there no event and no turn of the
    keepalive scan waits for a lock that its own thread holds, with one exception, the
    insertion into a map that has to grow: where no larger table can be had, so that it
    gives up instead, no event deadlocks.  The ports, the descriptors, the map of
    unacknowledged messages and the configuration are those of the start. *)
Theorem locks_between_steps run_fd epfd bepfd fd bfd port w0 w1 w :
  heap_wf w0 → (init_server run_fd;; listen_all epfd bepfd fd bfd port) w0 = Ok ((), w1) →
  rtc (step calloc_ok queue_ok low_int) w1 w →
  locks_free w ∧ settled w = settled w1
  ∧ (∀ full fuel env ev, no_growth full → worker_event full queue_ok low_int fuel env ev w ≠ Err SelfDeadlock)
  ∧ (∀ val, keepalive_turn val w ≠ Err SelfDeadlock).
Proof.
  intros Hwf Hs Hr. destruct (start_locks_free _ _ _ _ _ _ _ _ Hwf Hs) as [Hwf1 Hl1].
  destruct (run_evolves w1 w Hr Hwf1 Hl1) as [He Hl]. pose proof (ev_wf _ _ He) as Hwfw. split_and!; [done|apply He| |].
  - intros full fuel env ev Hf. by apply event_calm.
  - intros val. by apply keepalive_calm.
Qed.

End Runs.
#[export] Hint Resolve moves_find_or_create moves_connect moves_publish moves_pingreq moves_disconnect
  moves_unpack_packet moves_send_status moves_reply_retained moves_finish_reply moves_accept_connection : moves.

(** * Witnesses *)

(** The state a command ends in. *)
Definition final {A} (d : World) (r : res (A * World)) : World :=
  match r with Ok (_, w) => w | Err _ => d end.

Lemma final_run {A} d (r : res (A * World)) a : fst <$> r = Ok a → r = Ok (a, final d r).
Proof. destruct r as [[a' w]|]; [|done]. by intros [= ->]. Qed.

(** A server that has started on descriptors 5 and 6, and a connection that it accepts. *)
Definition demo_boot : World := demo_world [] [(5, mk_sock [] [] []); (6, mk_sock [] [] [])].
Definition demo_started : World := final demo_boot ((init_server 9;; listen_all demo_epoll 4 5 6 9090) demo_boot).
Definition demo_accept : accept_env :=
  mk_accept 7 (mk_sock [RxAgain] [] []) true true (Some (cobj [49; 46; 49])) (Some 9090).
Definition demo_event : epoll_event := mk_event EPOLLIN (DataPtr 52%positive).
Definition demo_accepted : World :=
  final demo_boot (worker_event (λ _, true) true (λ _, 0) 10 demo_accept demo_event demo_started).

Lemma locks_between_steps_witness :
  locks_free demo_accepted ∧ settled demo_accepted = settled demo_started
  ∧ worker_event (λ _, false) true (λ _, 0) 10 demo_accept demo_event demo_accepted ≠ Err SelfDeadlock.
Proof.
  assert (Hs : (init_server 9;; listen_all demo_epoll 4 5 6 9090) demo_boot = Ok ((), demo_started)).
  { apply final_run. vm_compute. reflexivity. }
  assert (He : step (λ _, true) true (λ _, 0) demo_started demo_accepted).
  { apply (step_event _ _ _ 10 demo_accept demo_event _ true). apply final_run. vm_compute. reflexivity. }
  destruct (locks_between_steps (λ _, true) true (λ _, 0) 9 demo_epoll 4 5 6 9090 demo_boot demo_started demo_accepted
    ltac:(by apply demo_world_wf) Hs (rtc_once _ _ He)) as (Hl & Hset & Hc & _).
  split; [exact Hl|]. split; [exact Hset|]. apply Hc. intros n. reflexivity.
Defined.
