(* ===== verification/Delivery.v ===== *)
(** From bytes to bytes: a SUBSCRIBE and a PUBLISH served from the stream of one client to
    the sockets of the subscribers. *)
From stdpp Require Import base numbers option list gmap.
From Stdlib Require Import ZArith Lia.
From S2P Require Import Prelude Memory Ringbuf Buffer Protocol Hashmap Chain Lists Queues Network.
From S2P Require Import Receive Util Sizigy Demo Server Broker Publish Subscribe Steps.

Local Open Scope Z_scope.

(** * Frames *)

(** What follows the header of a SUBSCRIBE and of a PUBLISH; [slack] are the bytes that
    the size of the packet leaves over. *)
Definition sub_payload (qos : Z) (t slack : list Z) : list Z :=
  be_split 2 (Z.of_nat (length t)) ++ be_split 1 qos ++ t ++ slack.

Definition pub_payload (qos retain dup : Z) (t m slack : list Z) : list Z :=
  be_split 2 (Z.of_nat (length t)) ++ be_split 4 (Z.of_nat (length m)) ++ be_split 1 qos
    ++ be_split 1 retain ++ be_split 1 dup ++ t ++ m ++ slack.

Lemma sub_payload_enc qos t slack :
  let sz := (8 + length t + length slack)%nat in
  length (sub_payload qos t slack) = (sz - 5)%nat
  ∧ frame SUBSCRIBE (sub_payload qos t slack) = enc_subscribe SUBSCRIBE sz qos t ++ slack.
Proof.
  intros sz. assert (Hl : length (sub_payload qos t slack) = (sz - 5)%nat).
  { unfold sub_payload, sz. rewrite !length_app, !length_be_split. lia. }
  split; [done|]. rewrite frame_enc, Hl by done. replace (5 + (sz - 5))%nat with sz by (unfold sz; lia).
  unfold enc_subscribe, sub_payload. by rewrite <- !(assoc_L (++)).
Qed.

Lemma pub_payload_enc qos retain dup t m slack :
  let sz := (14 + length t + length m + length slack)%nat in
  length (pub_payload qos retain dup t m slack) = (sz - 5)%nat
  ∧ frame PUBLISH (pub_payload qos retain dup t m slack)
    = enc_publish PUBLISH sz qos retain dup t m ++ slack.
Proof.
  intros sz. assert (Hl : length (pub_payload qos retain dup t m slack) = (sz - 5)%nat).
  { unfold pub_payload, sz. rewrite !length_app, !length_be_split. lia. }
  split; [done|]. rewrite frame_enc, Hl by done. replace (5 + (sz - 5))%nat with sz by (unfold sz; lia).
  unfold enc_publish, pub_payload. by rewrite <- !(assoc_L (++)).
Qed.

(** The packets a frame is unpacked to. *)
Definition sub_packet (qos : Z) (t slack : list Z) : Subscribe :=
  mk_subscribe (mk_header SUBSCRIBE (Z.of_nat (8 + length t + length slack))) (Z.of_nat (length t)) qos (cobj t).

Definition pub_packet (qos retain dup : Z) (t m slack : list Z) : Publish :=
  mk_publish (mk_header PUBLISH (Z.of_nat (14 + length t + length m + length slack)))
    (Z.of_nat (length t)) (Z.of_nat (length m)) qos retain dup (cobj t) (cobj m).

Lemma unpack_sub_packet qos t slack w :
  is_byte qos → is_str t → Forall is_byte slack → Z.of_nat (length t) < 2 ^ 16 →
  Z.of_nat (length (sub_payload qos t slack)) ≤ ONEMB * 2 →
  unpack_packet SUBSCRIBE (block (frame SUBSCRIBE (sub_payload qos t slack))) w
  = Ok (Some (fresh_loc w), alloc (sub_packet qos t slack) w).
Proof.
  intros Hq Ht Hk Hl Hmax. change (unpack_packet SUBSCRIBE) with (unpacked (A := Subscribe) unpack_subscribe).
  destruct (sub_payload_enc qos t slack) as [Hpl ->]. rewrite Hpl in Hmax. unfold ONEMB in Hmax.
  eapply (unpacked_run unpack_subscribe dec_subscribe _ _ slack).
  - apply unpack_subscribe_parses.
  - unfold enc_subscribe, enc_header. bytes_ok.
  - apply dec_subscribe_app; [done|lia|done|done].
Qed.

Lemma unpack_pub_packet qos retain dup t m slack w :
  is_byte qos → is_byte retain → is_byte dup → is_str t → is_str m → Forall is_byte slack →
  Z.of_nat (length t) < 2 ^ 16 →
  Z.of_nat (length (pub_payload qos retain dup t m slack)) ≤ ONEMB * 2 →
  unpack_packet PUBLISH (block (frame PUBLISH (pub_payload qos retain dup t m slack))) w
  = Ok (Some (fresh_loc w), alloc (pub_packet qos retain dup t m slack) w).
Proof.
  intros Hq Hr Hd Ht Hm Hk Hl Hmax. change (unpack_packet PUBLISH) with (unpacked (A := Publish) unpack_publish).
  destruct (pub_payload_enc qos retain dup t m slack) as [Hpl ->]. rewrite Hpl in Hmax. unfold ONEMB in Hmax.
  eapply (unpacked_run unpack_publish dec_publish _ _ slack).
  - apply unpack_publish_parses.
  - unfold enc_publish, enc_header. bytes_ok.
  - apply dec_publish_app; try done; lia.
Qed.

(** * Subscribing over the wire *)

(** A state where a client and one new object differ keeps the topics. *)
Lemma keeps_client w w' c cl p : heap_wf w → at_loc w c = Some (OClient cl) → p = fresh_loc w →
  (∀ l, l ≠ c → l ≠ p → at_loc w' l = at_loc w l) → keeps w w'.
Proof.
  intros Hwf Hc -> Ho. eapply keeps_but; [exact Hc|intros []|].
  intros y o Hy Hyo. rewrite Ho; [done|done|]. by eapply heap_wf_ne.
Qed.

Lemma run_subscribe calloc_ok queue_ok c fr ex :
  run_commands (commands_hashmap calloc_ok queue_ok) SUBSCRIBE c fr ex
  = (r ← subscribe_handler calloc_ok queue_ok c; mret (r, true)).
Proof. reflexivity. Qed.

Lemma topics_env_kernel w w' : topics_env w w' → w_kernel w' = w_kernel w.
Proof. intros He. apply (env_kernel _ _ He). Qed.
Lemma topics_env_epollfd w w' : topics_env w w' → epollfd (db w') = epollfd (db w).
Proof. intros He. by rewrite (env_db _ _ He). Qed.

(** The topic [s] with one more subscription at its head. *)
Definition joined (w : World) (g : gmap (list Z) loc) (s : list Z) (c : loc) (qos : Z)
    (xs : list (loc * ptr)) (ret : ptr) (t l : loc) : Prop :=
  ∃ tp n sb nm, topics_repr w (<[s := t]> g) ∧ topic_named w s t tp l ((n, Some sb) :: xs)
    ∧ t_name tp = Some nm ∧ t_retained tp = ret
    ∧ at_loc w sb = Some (OSubscription (mk_subscription (Some c) (Some (KPtr nm)) qos)).

(** The state between the two events of a SUBSCRIBE: the client has joined and waits to
    write the reply at [r], a SUBACK with the message the topic retains. *)
Record subscribing (w w1 : World) (g : gmap (list Z) loc) (c : loc) (cl : Client) (so1 : Sock) (q : Z) (t : list Z)
    (xs : list (loc * ptr)) (ret : ptr) (tl l r b : loc) : Prop := {
  sg_joined : joined w1 g t c q xs ret tl l;
  sg_client : at_loc w1 c = Some (OClient (with_handler ReplyHandler (with_reply (Some r)
                (with_last_action (wrap64 (now w)) (with_ptr (Some (fresh_loc w)) cl)))));
  sg_reply : at_loc w1 r = Some (OReply (mk_reply SUBACK (cl_fd cl) (Some b) (Some ret)));
  sg_buffer : at_loc w1 b = Some (OBuffer (ack_buffer SUBACK 0));
  sg_new : at_loc w r = None ∧ at_loc w b = None;
  sg_old y o : y ≠ c → (∀ lst, o ≠ OList lst) → at_loc w y = Some o → at_loc w1 y = Some o;
  sg_socks fd : get_sock w1 fd = if decide (cl_fd cl = fd) then Some so1 else get_sock w fd;
  sg_armed : armed w1 (cl_fd cl) = Some (event_for EPOLLOUT (cl_fd cl) (Some c));
  sg_others fd : cl_fd cl ≠ fd → armed w1 fd = armed w fd;
  sg_now : now w1 = now w;
  sg_lock : db_lock (db w1) = false;
  sg_wf : heap_wf w1
}.

Lemma joined_kept w w' g s c q xs ret t l : keeps w w' → topics (db w') = topics (db w) →
  (∀ y s, at_loc w y = Some (OSubscription s) → at_loc w' y = Some (OSubscription s)) →
  joined w g s c q xs ret t l → joined w' g s c q xs ret t l.
Proof.
  intros Hk Hd Hs (tp & n & sb & nm & Hr & Hn & Hnm & Hret & Hsb). exists tp, n, sb, nm.
  split_and!; [by apply (topics_repr_keeps w)|by apply (topic_named_keeps w)|done|done|by apply Hs].
Qed.

(** The first event of a SUBSCRIBE. *)
Lemma subscribe_request calloc_ok w g c cl so q t slack more xs ret :
  heap_wf w → at_loc w c = Some (OClient cl) → get_sock w (cl_fd cl) = Some so →
  carries so SUBSCRIBE (sub_payload q t slack) more → is_byte q → is_str t → t ≠ [] →
  Forall is_byte slack → Z.of_nat (length t) < 2 ^ 16 →
  Z.of_nat (length (sub_payload q t slack)) ≤ ONEMB * 2 →
  topic_ready w g t xs ret → is_Some (armed w (cl_fd cl)) →
  ∃ rest w1 tl l r b, request_handler calloc_ok true (length (rx so)) (Some c) w = Ok (0, w1)
    ∧ subscribing w w1 g c cl (mk_sock rest (tx so) (sent_bytes so)) q t xs ret tl l r b.
Proof.
  intros Hwf Hc Hso Hcar Hq Ht Hne Hk Hl Hmax Hready Hi.
  destruct (request_handled calloc_ok true (sub_packet q t slack) w c cl so _ _ more Hwf Hc Hso Hcar Hmax)
    as (rest & wb & Heb & Hwfb & Hfb & Hcb & Hpb & Hob & Hdone); [|done|done|].
  { intros ws. by apply unpack_sub_packet. }
  set (p := fresh_loc w) in *. set (cl2 := with_ptr _ _) in Hcb.
  assert (Hkb : keeps w wb) by (by eapply keeps_client).
  destruct (subscribe_handler_run calloc_ok wb g c cl2 p (sub_packet q t slack) t xs ret)
    as (tl & l & w1 & _ & E1 & Hsub & Hwf1 & Hp1 & Hpl & Hlist & Ho1 & He1); [done..| | | |].
  { cbn. destruct t; [done|cbn; lia]. }
  { by apply cstr_str. }
  { apply (topic_ready_keeps w); [done|by rewrite (env_db _ _ Heb)|done]. }
  set (w3 := remove p w1) in *. apply (subscribed_remove wb w1) with (p := p) (pkt' := sub_packet q t slack) in Hsub; [|done].
  destruct Hsub as (tp & n & sb & nm & r & b & Hr & Hn & Hnm & Hret & Hsb & Hc3 & Hr3 & Hb3 & Hnr & Hnb). fold w3 in Hr, Hn, Hsb, Hc3, Hr3, Hb3.
  assert (Hk3 : w_kernel w3 = w_kernel wb) by exact (topics_env_kernel _ _ He1).
  assert (Hep3 : epollfd (db w3) = epollfd (db w)).
  { change (db w3) with (db w1). by rewrite (topics_env_epollfd _ _ He1), (env_db _ _ Heb). }
  destruct (Hdone 0 true _ w3 ltac:(rewrite run_subscribe; by rewrite (M_bind_run _ _ _ _ _ E1)) Hc3 eq_refl Hk3 Hep3)
    as (w4 & E4 & Hc4 & Ho4 & Hi4 & Hso4 & Hwf4 & Hs4). clear Hdone.
  destruct (moves_ok (moves_request calloc_ok true False (False_ind _) _ _) Hwf (tr_lock _ _ _ _ _ Hready) E4) as [Hev Hl4].
  destruct (request_effects _ _ _ _ _ _ Heb Hk3 Hep3 Hs4) as [Hsocks Harmed].
  assert (Hnew : ∀ y, y ≠ c → at_loc wb y = None → at_loc w y = None).
  { intros y Hyc Hy. destruct (decide (y = p)) as [->|]; [by apply heap_wf_fresh|]. by rewrite <- Hob. }
  exists rest, w4, tl, l, r, b. split; [exact E4|]. split.
  - apply (joined_kept w3); [|by rewrite (sbi_db _ _ _ Hs4)| |].
    + eapply keeps_but; [exact Hc3|intros []|]. intros y o Hy. by rewrite Ho4.
    + intros y s Hy. by rewrite Ho4 by congruence.
    + exists tp, n, sb, nm. split_and!; try done. rewrite Hsb. cbn [s_qos sub_packet]. by rewrite wrap_small.
  - exact Hc4.
  - by rewrite Ho4 by congruence.
  - by rewrite Ho4 by congruence.
  - split; apply Hnew; congruence.
  - intros y o Hyc Hol Hy. assert (y ≠ p) by (by eapply (old_loc w)).
    assert (Hyb : at_loc wb y = Some o) by (by rewrite Hob).
    assert (y ≠ l) by (intros ->; destruct (Hlist o Hyb) as [lst ->]; by apply (Hol lst)).
    rewrite Ho4 by done. unfold w3. rewrite at_remove_ne by congruence. by apply Ho1.
  - exact Hsocks.
  - exact Hi4.
  - exact Harmed.
  - rewrite (sbi_now _ _ _ Hs4). change (now w3) with (now w1).
    rewrite (env_now _ _ He1). exact (env_now _ _ Heb).
  - exact Hl4.
  - by apply Hev.
Qed.

(** The second event, whatever it sends: the reply is gone and the client reads again. *)
Lemma subscribing_answered w w1 w2 g c cl so1 so2 q t xs ret tl l r b :
  subscribing w w1 g c cl so1 q t xs ret tl l r b →
  (∀ y, y ≠ c → y ≠ r → y ≠ b → at_loc w2 y = at_loc w1 y) →
  same_but_interest (cl_fd cl) (set_sock (cl_fd cl) so2 w1) w2 →
  (∃ cl2, at_loc w2 c = Some (OClient cl2)) →
  joined w2 g t c q xs ret tl l
  ∧ (∀ fd, get_sock w2 fd = if decide (cl_fd cl = fd) then Some so2 else get_sock w fd)
  ∧ (∀ fd, cl_fd cl ≠ fd → armed w2 fd = armed w fd)
  ∧ (∀ y o, y ≠ c → (∀ lst, o ≠ OList lst) → at_loc w y = Some o → at_loc w2 y = Some o).
Proof.
  intros Hsg Ho Hs [cl2 Hc2]. pose proof (sg_client _ _ _ _ _ _ _ _ _ _ _ _ _ _ Hsg) as Hc1.
  pose proof (sg_reply _ _ _ _ _ _ _ _ _ _ _ _ _ _ Hsg) as Hr1. pose proof (sg_buffer _ _ _ _ _ _ _ _ _ _ _ _ _ _ Hsg) as Hb1.
  destruct (sg_new _ _ _ _ _ _ _ _ _ _ _ _ _ _ Hsg) as [Hnr Hnb]. split_and!.
  - apply (joined_kept w1); [|by rewrite (sbi_db _ _ _ Hs)| |by apply Hsg].
    + intros y o Hto Hy. rewrite Ho; [done|intros ->; by simplify_eq..].
    + intros y s Hy. by rewrite Ho by congruence.
  - intros fd. rewrite (get_sock_sbi _ _ _ _ Hs), get_set_sock. case_decide; [done|].
    by rewrite (sg_socks _ _ _ _ _ _ _ _ _ _ _ _ _ _ Hsg), decide_False.
  - intros fd Hfd. rewrite <- (sg_others _ _ _ _ _ _ _ _ _ _ _ _ _ _ Hsg) by done.
    unfold armed. rewrite (sbi_others _ _ _ Hs); [by rewrite (sbi_db _ _ _ Hs)|congruence].
  - intros y o Hyc Hol Hy. rewrite Ho by congruence. by eapply (sg_old _ _ _ _ _ _ _ _ _ _ _ _ _ _ Hsg).
Qed.

(** The two events of a SUBSCRIBE: the first registers the client, the second sends the
    SUBACK, and then the client waits for its next request. *)
Definition subscribe_outcome (calloc_ok : Z → bool) (w : World) (g : gmap (list Z) loc) (c : loc)
    (cl : Client) (so : Sock) (q : Z) (t : list Z) (xs : list (loc * ptr)) : Prop :=
  let n := tx_accepts (tx so) 8 in
  ∃ w1 w2 tl l p rest, request_handler calloc_ok true (length (rx so)) (Some c) w = Ok (0, w1)
    ∧ reply_handler calloc_ok true (Some c) w1 = Ok (if decide (n = 8) then 0 else -1, w2)
    ∧ joined w2 g t c q xs None tl l ∧ at_loc w2 c = Some (OClient (served w cl p))
    ∧ armed w2 (cl_fd cl) = Some (event_for EPOLLIN (cl_fd cl) (Some c))
    ∧ (∀ fd, get_sock w2 fd = if decide (cl_fd cl = fd)
                              then Some (after_send (mk_sock rest (tx so) (sent_bytes so))
                                           (Some <$> ack_bytes SUBACK 0) 8)
                              else get_sock w fd)
    ∧ (∀ fd, cl_fd cl ≠ fd → armed w2 fd = armed w fd)
    ∧ (∀ y o, y ≠ c → (∀ lst, o ≠ OList lst) → at_loc w y = Some o → at_loc w2 y = Some o)
    ∧ heap_wf w2.

Lemma subscribe_exchange calloc_ok w g c cl so q t slack more xs :
  heap_wf w → at_loc w c = Some (OClient cl) → get_sock w (cl_fd cl) = Some so →
  carries so SUBSCRIBE (sub_payload q t slack) more → is_byte q → is_str t → t ≠ [] →
  Forall is_byte slack → Z.of_nat (length t) < 2 ^ 16 →
  Z.of_nat (length (sub_payload q t slack)) ≤ ONEMB * 2 →
  topic_ready w g t xs None → is_Some (armed w (cl_fd cl)) →
  subscribe_outcome calloc_ok w g c cl so q t xs.
Proof.
  intros Hwf Hc Hso Hcar Hq Ht Hne Hk Hl Hmax Hready Hi. unfold subscribe_outcome.
  destruct (subscribe_request calloc_ok w g c cl so q t slack more xs None Hwf Hc Hso Hcar Hq Ht Hne Hk Hl Hmax Hready Hi)
    as (rest & w1 & tl & l & r & b & E1 & Hsg).
  pose proof Hsg as [_ Hc1 Hr1 Hb1 _ _ Hs1 Hi1 _ _ Hlock1 Hwf1].
  set (so1 := mk_sock rest (tx so) (sent_bytes so)) in *.
  assert (Hso1 : get_sock w1 (cl_fd cl) = Some so1) by (by rewrite Hs1, decide_True).
  assert (Ha1 : is_Some (armed w1 (cl_fd cl))) by (rewrite Hi1; by eexists).
  destruct (reply_buffer calloc_ok true w1 c _ so1 r SUBACK b (ack_buffer SUBACK 0) (Some None) Hc1 eq_refl Hr1 Hb1)
    as (w2 & E2 & Hc2 & _ & _ & Ho2 & Hi2 & Hs2); try done.
  destruct (subscribing_answered _ _ _ _ _ _ _ _ _ _ _ _ _ _ _ _ Hsg Ho2 Hs2) as (Hj & Hsk & Har & Hold); [by eexists|].
  exists w1, w2, tl, l, (fresh_loc w), rest. split_and!; try done.
  by destruct (moves_ok (moves_reply calloc_ok true False (False_ind _) _) Hwf1 Hlock1 E2) as [[? _ _ _ _ _] _].
Qed.

(** * Publishing over the wire *)

(** A state in which the topics, their subscriptions and the descriptors of the clients are
    still what they were. *)
Record follows (w w' : World) : Prop := {
  fo_keeps : keeps w w';
  fo_subs y s : at_loc w y = Some (OSubscription s) → at_loc w' y = Some (OSubscription s);
  fo_clients y cl : at_loc w y = Some (OClient cl) →
    ∃ cl', at_loc w' y = Some (OClient cl') ∧ cl_fd cl' = cl_fd cl
}.

#[export] Instance follows_preorder : PreOrder follows.
Proof.
  split; [intros w; split; [done|done|by eauto]|]. intros w1 w2 w3 H12 H23. split.
  - etrans; [apply (fo_keeps _ _ H12)|apply (fo_keeps _ _ H23)].
  - intros y s Hy. by apply (fo_subs _ _ H23), (fo_subs _ _ H12).
  - intros y cl (cl' & Hy & Hf)%(fo_clients _ _ H12). destruct (fo_clients _ _ H23 y cl' Hy) as (cl3 & Hy3 & Hf3).
    exists cl3. split; [done|congruence].
Qed.

(** One client changes, but not its descriptor. *)
Lemma follows_client w w' c cl cl' : at_loc w c = Some (OClient cl) → at_loc w' c = Some (OClient cl') →
  cl_fd cl' = cl_fd cl →
  (∀ y o, y ≠ c → (topical o ∨ (∃ s, o = OSubscription s) ∨ ∃ cl, o = OClient cl) →
     at_loc w y = Some o → at_loc w' y = Some o) → follows w w'.
Proof.
  intros Hc Hc' Hf Hk. split.
  - intros y o Ht Hy. apply Hk; [|by left|done]. intros ->. by simplify_eq.
  - intros y s Hy. apply Hk; [congruence|eauto|done].
  - intros y cl0 Hy. destruct (decide (y = c)) as [->|Hyc]; [exists cl'; split; [done|congruence]|].
    exists cl0. split; [|done]. apply Hk; eauto.
Qed.

Lemma follows_extends w w' : extends w w' → follows w w'.
Proof. intros He. split; [by apply extends_keeps|intros; by apply He|]. intros y cl Hy. eauto. Qed.

Lemma subscribers_follow w w' xs cs : follows w w' → Forall2 (subscriber w) xs cs → Forall2 (subscriber w') xs cs.
Proof.
  intros Hfo Hsubs. eapply Forall2_impl; [exact Hsubs|]. intros x c (s & sub & cl & Hx & Hsx & Hsc & Hc).
  destruct (fo_clients _ _ Hfo _ _ Hc) as (cl' & Hc' & _). exists s, sub, cl'.
  split_and!; [done|by apply (fo_subs _ _ Hfo)|done|done].
Qed.

Lemma descriptors_follow w w' cs fds : follows w w' →
  Forall2 (λ c fd, ∃ cl, at_loc w c = Some (OClient cl) ∧ cl_fd cl = fd) cs fds →
  Forall2 (λ c fd, ∃ cl, at_loc w' c = Some (OClient cl) ∧ cl_fd cl = fd) cs fds.
Proof.
  intros Hfo Hfds. eapply Forall2_impl; [exact Hfds|]. intros c fd (cl & Hc & Hf).
  destruct (fo_clients _ _ Hfo _ _ Hc) as (cl' & Hc' & Hf'). exists cl'. split; [done|congruence].
Qed.

Lemma topic_subs_follows w w' t tp l xs cs fds : follows w w' →
  topic_subs w t tp l xs cs fds → topic_subs w' t tp l xs cs fds.
Proof.
  intros Hfo [Ht Hlst (hd & Hl & Hseg & Hnd) Hsubs Hfds]. pose proof (fo_keeps _ _ Hfo) as Hk. split.
  - by apply Hk.
  - done.
  - exists hd. split_and!; [by apply Hk| |done]. apply (chain_frame _ w); [|done].
    intros x ([x' d] & -> & Hx)%list_elem_of_fmap.
    destruct (chain_at _ _ _ _ _ _ _ Hseg Hx) as [n Hn]. cbn [fst]. rewrite Hn. by apply Hk.
  - by apply (subscribers_follow w).
  - by apply (descriptors_follow w).
Qed.

Lemma run_publish calloc_ok queue_ok c fr ex :
  run_commands (commands_hashmap calloc_ok queue_ok) PUBLISH c fr ex
  = (r ← publish_handler c; mret (r, true)).
Proof. reflexivity. Qed.

Lemma publish_handler_run w d dl p pkt :
  heap_wf w → at_loc w d = Some (OClient dl) → cl_ptr dl = Some p → at_loc w p = Some (OPublish pkt) →
  p_topic_len pkt ≠ 0 →
  ∃ w', publish_handler (Some d) w = Ok (1, w') ∧ env_eq w w' ∧ heap_wf w'
    ∧ fresh_loc w' = Pos.succ (fresh_loc w)
    ∧ at_loc w' d = Some (OClient (with_reply (Some (fresh_loc w)) dl))
    ∧ at_loc w' (fresh_loc w) = Some (OReply (mk_reply PUBLISH (cl_fd dl) (Some p) None))
    ∧ ∀ y, y ≠ d → y ≠ fresh_loc w → at_loc w' y = at_loc w y.
Proof.
  intros Hwf Hd Hp Hpkt Hz. unfold publish_handler. run_deref. rewrite Hp. run_deref.
  rewrite decide_False by done. pose proof (heap_wf_ne _ _ _ Hwf Hd) as Hdr.
  set (rep := mk_reply PUBLISH (cl_fd dl) (Some p) None). set (w1 := alloc rep w).
  assert (Hd1 : at_loc w1 d = Some (inj dl)) by (unfold w1; by rewrite at_alloc_ne).
  erewrite M_bind_run; last first.
  { run_malloc. exact (modify_at_run d dl (with_reply (Some (fresh_loc w))) w1 Hd1). }
  eexists. split; [done|]. split_and!.
  - done.
  - apply update_wf; [by apply alloc_wf|]. unfold w1. rewrite fresh_alloc. apply Hwf in Hd. unfold fresh_loc. lia.
  - unfold w1. by rewrite fresh_update, fresh_alloc.
  - by rewrite at_update_eq.
  - rewrite at_update_ne by done. exact (at_alloc_eq rep w).
  - intros y Hyd Hyf. rewrite at_update_ne by congruence. unfold w1. by rewrite at_alloc_ne.
Qed.

Lemma find_existing_run calloc_ok queue_ok w g obj s t :
  topics_repr w g → cstr obj = Ok s → g !! s = Some t →
  find_or_create_topic calloc_ok queue_ok obj w = Ok (Some t, w).
Proof.
  intros Hr Hs Hg. unfold find_or_create_topic.
  rewrite (M_bind_run _ _ _ _ _ (topics_get_run w g _ s Hr (str_of_key w obj s Hs))), Hg.
  by rewrite decide_False.
Qed.

(** Besides sockets and new objects, only the last actions of clients change. *)
Record touched (w w' : World) : Prop := {
  tc_interest : interest (w_kernel w') = interest (w_kernel w); tc_db : db w' = db w;
  tc_other y o : at_loc w y = Some o → (∀ cl, o ≠ OClient cl) → at_loc w' y = Some o;
  tc_client y cl : at_loc w y = Some (OClient cl) →
    ∃ ts, at_loc w' y = Some (OClient (with_last_action ts cl))
}.

Lemma touched_trans w1 w2 w3 : touched w1 w2 → touched w2 w3 → touched w1 w3.
Proof.
  intros H12 H23. split.
  - by rewrite (tc_interest _ _ H23), (tc_interest _ _ H12).
  - by rewrite (tc_db _ _ H23), (tc_db _ _ H12).
  - intros y o Hy Ho. apply (tc_other _ _ H23 y o); [|done]. by apply (tc_other _ _ H12 y o).
  - intros y cl [ts Hy]%(tc_client _ _ H12). destruct (tc_client _ _ H23 _ _ Hy) as [ts' Hy'].
    exists ts'. by rewrite Hy'.
Qed.

Lemma touched_same w w' : interest (w_kernel w') = interest (w_kernel w) → db w' = db w →
  extends w w' → touched w w'.
Proof.
  intros Hi Hd Hx. split; [done|done|intros; by apply Hx|].
  intros y cl Hy. exists (cl_last_action_time cl). rewrite with_last_action_id. by apply Hx.
Qed.

Lemma touched_delivered w w' : delivered w w' → touched w w'.
Proof.
  intros Hd. split; [apply Hd|apply Hd| |apply Hd]. intros y o Hy Ho. by apply (delivered_other w).
Qed.

Lemma touched_last w d dl : at_loc w d = Some (OClient dl) →
  touched w (update d (OClient (with_last_action (wrap64 (now w)) dl)) w).
Proof.
  intros Hd. split; [done|done| |].
  - intros y o Hy Ho. rewrite at_update_ne; [done|]. intros <-. rewrite Hd in Hy. injection Hy as <-. by apply (Ho dl).
  - intros y cl Hy. rewrite at_update. case_decide as Hdy; [subst y; rewrite Hd in Hy; injection Hy as <-; eauto|].
    exists (cl_last_action_time cl). by rewrite with_last_action_id.
Qed.

Lemma touched_follows w w' : touched w w' → follows w w'.
Proof.
  intros Htc. split; [intros y o Hto Hy; apply (tc_other _ _ Htc y o Hy); by intros cl ->| |].
  - intros y s Hy. by apply (tc_other _ _ Htc y).
  - intros y cl [ts Hy]%(tc_client _ _ Htc). eauto.
Qed.

(** The state once the packet was distributed, before any acknowledgement. *)
Definition distributed (w : World) (d : loc) (buf : Buffer) (cs : list loc) : World :=
  let r := foldl (publish_step buf) (0, w) cs in
  if decide (r.1 > -1) then
    match at_loc r.2 d with
    | Some (OClient dl) => update d (OClient (with_last_action (wrap64 (now r.2)) dl)) r.2
    | _ => r.2
    end
  else r.2.

Lemma distributed_touched w d buf cs : touched w (distributed w d buf cs).
Proof.
  unfold distributed. pose proof (publish_fold_delivered buf cs 0 w) as Hd.
  set (r := foldl _ _ cs) in *. apply touched_delivered in Hd. case_decide; [|done].
  destruct (at_loc r.2 d) as [o|] eqn:Ho; [|done]. destruct o; try done.
  eapply touched_trans; [exact Hd|]. by apply touched_last.
Qed.

Lemma distributed_sock w d buf cs fd :
  get_sock (distributed w d buf cs) fd = get_sock (foldl (publish_step buf) (0, w) cs).2 fd.
Proof. unfold distributed. repeat case_match; try done. Qed.

Lemma distributed_run w d dl buf cs : at_loc w d = Some (OClient dl) →
  let r := foldl (publish_step buf) (0, w) cs in
  when (bool_decide (r.1 > -1)) (update_client_last_action (Some d)) r.2 = Ok ((), distributed w d buf cs).
Proof.
  intros Hd r. unfold distributed. fold r.
  destruct (dl_client _ _ (publish_fold_delivered buf cs 0 w) _ _ Hd) as [ts Hr]. fold r in Hr.
  destruct (decide (r.1 > -1)) as [Hp|Hp].
  - rewrite bool_decide_eq_true_2 by done. unfold when. rewrite Hr. by apply update_last_run.
  - by rewrite bool_decide_eq_false_2 by done.
Qed.

(** What the sockets of the subscribers get. *)
Definition offered_to (buf : Buffer) (fds : list Z) (w : World) (fd : Z) : option Sock :=
  if decide (fd ∈ fds) then (λ so, after_send so (b_data buf) (Z.of_nat (b_size buf))) <$> get_sock w fd
  else get_sock w fd.

(** ** The acknowledgement *)

(** What the publisher's socket has after the answer of its QoS. *)
Definition puback (q : Z) (so : Sock) : Sock :=
  if decide (q = 1) then after_send so (Some <$> ack_bytes PUBACK 0) 8 else so.

Lemma send_ack_run w fd so q :
  get_sock w fd = Some so →
  (if decide (q = 1) then
     res ← lift (pack_into (a_header (ack_pkt PUBACK 0 0)) (pack_ack (ack_pkt PUBACK 0 0)));
     send_status fd res 0
   else mret 0) w
  = Ok (if decide (q = 1 ∧ tx_accepts (tx so) 8 ≠ 8) then -1 else 0, set_sock fd (puback q so) w).
Proof.
  intros Hso. unfold puback. destruct (decide (q = 1)) as [Hq|Hq].
  - rewrite pack_ack_into by done. cbn [lift]. erewrite M_bind_run by done. unfold send_status.
    pose proof (send_buffer_run w fd (ack_buffer PUBACK 0) so Hso eq_refl eq_refl) as E. cbv zeta in E.
    change (Z.of_nat (b_size (ack_buffer PUBACK 0))) with 8 in E. rewrite (M_bind_run _ _ _ _ _ E).
    unfold mret, M_ret. do 2 f_equal. repeat case_decide; naive_solver lia.
  - rewrite decide_False by naive_solver. unfold mret, M_ret. by rewrite set_sock_id.
Qed.

(** The end of the reply: the packet is distributed from [w1], leaving [w2] before the first
    transfer, the last action of the publisher is now, and its QoS is answered. *)
Lemma publish_answered w1 w2 tl pkt sender buf d dl so cs fds :
  publish_message (Some tl) pkt sender w1 = Ok (foldl (publish_step buf) (0, w2) cs) →
  Forall2 (λ c fd, ∃ cl, at_loc w2 c = Some (OClient cl) ∧ cl_fd cl = fd) cs fds → NoDup fds →
  at_loc w2 d = Some (OClient dl) → get_sock w2 (cl_fd dl) = Some so →
  ∃ so1 w', offered_to buf fds w2 (cl_fd dl) = Some so1
    ∧ (sent ← publish_message (Some tl) pkt sender;
       when (bool_decide (sent > -1)) (update_client_last_action (Some d));;
       if decide (p_qos pkt = 1) then
         res ← lift (pack_into (a_header (ack_pkt PUBACK 0 0)) (pack_ack (ack_pkt PUBACK 0 0)));
         send_status (cl_fd dl) res 0
       else mret 0) w1
      = Ok (if decide (p_qos pkt = 1 ∧ tx_accepts (tx so1) 8 ≠ 8) then -1 else 0, w')
    ∧ touched w2 w'
    ∧ ∀ fd, get_sock w' fd = if decide (cl_fd dl = fd) then Some (puback (p_qos pkt) so1) else offered_to buf fds w2 fd.
Proof.
  intros E Hfds Hnd Hd Hso. pose proof (distributed_run w2 d dl buf cs Hd) as E2.
  pose proof (λ fd, publish_fold_socks buf cs fds 0 w2 fd Hfds Hnd) as Hsocks.
  pose proof (distributed_touched w2 d buf cs) as Htc. cbv zeta in E2.
  set (r1 := foldl _ _ cs) in *. rewrite (surjective_pairing r1) in E.
  rewrite (M_bind_run _ _ _ _ _ E), (M_bind_run _ _ _ _ _ E2).
  set (w3 := distributed w2 d buf cs) in *.
  assert (Hs3 : ∀ fd, get_sock w3 fd = offered_to buf fds w2 fd).
  { intros fd. unfold w3. rewrite distributed_sock. apply Hsocks. }
  assert (∃ so1, get_sock w3 (cl_fd dl) = Some so1) as [so1 Hso1].
  { rewrite Hs3. unfold offered_to. rewrite Hso. destruct (decide _); eexists; reflexivity. }
  exists so1, (set_sock (cl_fd dl) (puback (p_qos pkt) so1) w3). split_and!.
  - by rewrite <- Hs3.
  - by apply send_ack_run.
  - eapply touched_trans; [exact Htc|]. apply touched_same; [done|done|by intros y o Hy].
  - intros fd. rewrite get_set_sock. by rewrite Hs3.
Qed.

Lemma reply_publish_run calloc_ok queue_ok w g d dl idl bs name r p q dup t m slack tl tp l xs cs fds so :
  heap_wf w → at_loc w d = Some (OClient dl) → cl_id dl = Some idl → at_loc w idl = Some (OStr bs) →
  cstr bs = Ok name → at_loc w p = Some (OPublish (pub_packet q 0 dup t m slack)) →
  is_str t → is_str m →
  Z.of_nat (14 + length t + length m + length slack) < 2 ^ 31 →
  topics_repr w g → g !! t = Some tl → topic_subs w tl tp l xs cs fds → NoDup fds →
  r_body r = Some p → r_fd r = cl_fd dl → get_sock w (cl_fd dl) = Some so →
  let buf := publish_buffer (pub_packet q 0 dup t m slack) t m (length slack) in
  ∃ so1 w', offered_to buf fds w (cl_fd dl) = Some so1
    ∧ reply_publish calloc_ok queue_ok (Some d) r w
      = Ok (if decide (q = 1 ∧ tx_accepts (tx so1) 8 ≠ 8) then -1 else 0, w')
    ∧ touched w w'
    ∧ ∀ fd, get_sock w' fd = if decide (cl_fd dl = fd) then Some (puback q so1) else offered_to buf fds w fd.
Proof.
  intros Hwf Hd Hid Hidl Hbs Hp Ht Hm Hsz Hr Hg Hts Hnd Hbody Hfd Hso buf.
  unfold reply_publish. rewrite Hbody. run_deref. cbn [p_topic pub_packet].
  rewrite (M_bind_run _ _ _ _ _ (find_existing_run calloc_ok queue_ok w g (cobj t) t tl Hr (cstr_str t Ht) Hg)).
  run_deref. rewrite Hid. unfold strdup. erewrite M_bind_run; last first.
  { run_deref. exact (strdup_of_run w bs name Hbs). }
  set (f := fresh_loc w). set (w1 := alloc (cobj name) w).
  assert (Hx1 : extends w w1) by (by apply extends_alloc).
  assert (Hf1 : at_loc w1 f = Some (OStr (cobj name))) by exact (at_alloc_eq (cobj name) w).
  assert (Hts1 : topic_subs w1 tl tp l xs cs fds) by (by apply (topic_subs_follows w); [apply follows_extends|]).
  pose proof (publish_message_run w1 tl tp l xs cs fds (pub_packet q 0 dup t m slack) t m (length slack) f _ Hts1
    (cstr_str t Ht) (cstr_str m Hm) eq_refl Hsz eq_refl Hf1) as E. fold buf in E.
  destruct (topic_subs_remove _ _ _ _ _ _ _ _ _ Hf1 Hts1) as [_ _ _ _ Hfds2].
  set (w2 := remove f w1) in *.
  assert (Hx2 : extends w w2).
  { intros y o Hy. unfold w2. rewrite at_remove_ne; [by apply Hx1|]. intros <-. by apply (heap_wf_ne w f o Hwf Hy). }
  destruct (publish_answered w1 w2 tl _ (Some f) buf d dl so cs fds E Hfds2 Hnd (Hx2 _ _ Hd) Hso)
    as (so1 & w' & Hoff & E' & Htc & Hsocks). exists so1, w'. rewrite Hfd. split_and!; try done.
  eapply touched_trans; [by apply (touched_same w w2)|done].
Qed.

Lemma offered_to_ext buf fds w w' fd : get_sock w' fd = get_sock w fd → offered_to buf fds w' fd = offered_to buf fds w fd.
Proof. intros E. unfold offered_to. by rewrite E. Qed.

(** The reply to a PUBLISH as the worker runs it. *)
Lemma publish_reply_run calloc_ok queue_ok w g d dl idl bs name r p q dup t m slack tl tp l xs cs fds so :
  heap_wf w → at_loc w d = Some (OClient dl) → cl_reply dl = Some r →
  at_loc w r = Some (OReply (mk_reply PUBLISH (cl_fd dl) (Some p) None)) →
  cl_id dl = Some idl → at_loc w idl = Some (OStr bs) → cstr bs = Ok name →
  at_loc w p = Some (OPublish (pub_packet q 0 dup t m slack)) →
  is_str t → is_str m →
  Z.of_nat (14 + length t + length m + length slack) < 2 ^ 31 →
  topics_repr w g → g !! t = Some tl → topic_subs w tl tp l xs cs fds → NoDup fds →
  get_sock w (cl_fd dl) = Some so → is_Some (armed w (cl_fd dl)) →
  let buf := publish_buffer (pub_packet q 0 dup t m slack) t m (length slack) in
  ∃ so1 w', offered_to buf fds w (cl_fd dl) = Some so1
    ∧ reply_handler calloc_ok queue_ok (Some d) w
      = Ok (if decide (q = 1 ∧ tx_accepts (tx so1) 8 ≠ 8) then -1 else 0, w')
    ∧ (∃ dl', at_loc w' d = Some (OClient dl') ∧ cl_ctx_handler dl' = RequestHandler ∧ cl_reply dl' = None
              ∧ cl_fd dl' = cl_fd dl)
    ∧ (∀ fd, get_sock w' fd = if decide (cl_fd dl = fd) then Some (puback q so1) else offered_to buf fds w fd)
    ∧ armed w' (cl_fd dl) = Some (event_for EPOLLIN (cl_fd dl) (Some d))
    ∧ follows w w' ∧ db w' = db w.
Proof.
  intros Hwf Hd Hrep Hr Hid Hidl Hbs Hp Ht Hm Hsz Htr Hg Hts Hnd Hso Hi buf.
  destruct (reply_publish_run calloc_ok queue_ok w g d dl idl bs name (mk_reply PUBLISH (cl_fd dl) (Some p) None)
    p q dup t m slack tl tp l xs cs fds so) as (so1 & w1 & Hoff & E & Htc & Hsocks); [done..|].
  assert (Hr1 : at_loc w1 r = Some (OReply (mk_reply PUBLISH (cl_fd dl) (Some p) None))) by (by apply (tc_other _ _ Htc r)).
  assert (Hp1 : at_loc w1 p = Some (OPublish (pub_packet q 0 dup t m slack))) by (by apply (tc_other _ _ Htc p)).
  destruct (tc_client _ _ Htc d dl Hd) as [ts Hd1].
  assert (Hso1 : get_sock w1 (cl_fd dl) = Some (puback q so1)) by (by rewrite Hsocks, decide_True).
  assert (Hi1 : is_Some (armed w1 (cl_fd dl))) by (unfold armed; by rewrite (tc_interest _ _ Htc), (tc_db _ _ Htc)).
  destruct (finish_reply_run w1 d (with_last_action ts dl) (puback q so1) r _ p _
    (if decide (q = 1 ∧ tx_accepts (tx so1) 8 ≠ 8) then -1 else 0) Hd1 Hrep Hr1 eq_refl Hp1)
    as (w2 & E2 & Hd2 & _ & _ & Ho2 & Hi2 & Hs2); [by eexists|done|done|].
  exists so1, w2. split; [done|]. split.
  { unfold reply_handler. run_deref. rewrite Hrep, decide_False by done. run_deref.
    cbn [r_opcode]. rewrite decide_True by done. by rewrite (M_bind_run _ _ _ _ _ E). }
  split_and!.
  - eexists. split; [exact Hd2|done].
  - intros fd. by rewrite (get_sock_sbi _ _ _ _ Hs2).
  - exact Hi2.
  - etrans; [by apply touched_follows|]. eapply follows_client; [exact Hd1|exact Hd2|done|].
    intros y o Hyd Hkind Hy. rewrite Ho2; [done|done|intros ->; naive_solver..].
  - by rewrite (sbi_db _ _ _ Hs2), (tc_db _ _ Htc).
Qed.

(** The state between the two events of a PUBLISH: the publisher waits to write, and its
    reply at [r] has the packet at [p]. *)
Record publishing (w w1 : World) (d : loc) (dl : Client) (so1 : Sock) (pkt : Publish) (p r : loc) : Prop := {
  pg_client : at_loc w1 d = Some (OClient (with_handler ReplyHandler (with_reply (Some r)
                (with_ptr (Some p) (with_last_action (wrap64 (now w)) dl)))));
  pg_reply : at_loc w1 r = Some (OReply (mk_reply PUBLISH (cl_fd dl) (Some p) None));
  pg_packet : at_loc w1 p = Some (OPublish pkt);
  pg_new : at_loc w r = None ∧ at_loc w p = None;
  pg_old y o : y ≠ d → at_loc w y = Some o → at_loc w1 y = Some o;
  pg_db : db w1 = db w;
  pg_socks fd : get_sock w1 fd = if decide (cl_fd dl = fd) then Some so1 else get_sock w fd;
  pg_armed : armed w1 (cl_fd dl) = Some (event_for EPOLLOUT (cl_fd dl) (Some d));
  pg_others fd : cl_fd dl ≠ fd → armed w1 fd = armed w fd;
  pg_wf : heap_wf w1
}.

Lemma publish_request calloc_ok queue_ok w d dl so q retain dup t m slack more :
  heap_wf w → at_loc w d = Some (OClient dl) → get_sock w (cl_fd dl) = Some so →
  carries so PUBLISH (pub_payload q retain dup t m slack) more →
  is_byte q → is_byte retain → is_byte dup → is_str t → is_str m → Forall is_byte slack → t ≠ [] →
  Z.of_nat (length t) < 2 ^ 16 → Z.of_nat (length (pub_payload q retain dup t m slack)) ≤ ONEMB * 2 →
  is_Some (armed w (cl_fd dl)) →
  ∃ rest w1 p r, request_handler calloc_ok queue_ok (length (rx so)) (Some d) w = Ok (0, w1)
    ∧ publishing w w1 d dl (mk_sock rest (tx so) (sent_bytes so)) (pub_packet q retain dup t m slack) p r.
Proof.
  intros Hwf Hd Hso Hcar Hq Hret Hdup Ht Hm Hk Hne Hl Hmax Hi.
  destruct (request_handled calloc_ok queue_ok (pub_packet q retain dup t m slack) w d dl so _ _ more Hwf Hd Hso Hcar Hmax)
    as (rest & wb & Heb & Hwfb & Hfb & Hdb & Hpb & Hob & Hdone); [|done|done|].
  { intros ws. by apply unpack_pub_packet. }
  set (p := fresh_loc w) in *. set (dl2 := with_ptr _ _) in Hdb.
  destruct (publish_handler_run wb d dl2 p _ Hwfb Hdb eq_refl Hpb)
    as (w3 & E3 & He3 & Hwf3 & _ & Hd3 & Hr3 & Ho3); [by destruct t|].
  set (r := fresh_loc wb) in *.
  assert (Hep3 : epollfd (db w3) = epollfd (db w)) by (by rewrite (env_db _ _ He3), (env_db _ _ Heb)).
  destruct (Hdone 1 true _ w3 ltac:(rewrite run_publish; by rewrite (M_bind_run _ _ _ _ _ E3)) Hd3 eq_refl
    (env_kernel _ _ He3) Hep3) as (w4 & E4 & Hd4 & Ho4 & Hi4 & Hso4 & Hwf4 & Hs4). clear Hdone.
  destruct (request_effects _ _ _ _ _ _ Heb (env_kernel _ _ He3) Hep3 Hs4) as [Hsocks Harmed].
  assert (d ≠ p) by (by eapply (old_loc w)). assert (p ≠ r) by lia. assert (d ≠ r) by (by eapply (old_loc wb)).
  exists rest, w4, p, r. split; [exact E4|]. split; try done.
  - by rewrite Ho4, Hr3.
  - by rewrite Ho4, Ho3.
  - split; [|by apply heap_wf_fresh]. apply at_fresh_None; [done|lia].
  - intros y o Hyd Hy. assert (y ≠ p) by (by eapply (old_loc w)).
    assert (y ≠ r) by (eapply (old_loc w); [done..|lia]). by rewrite Ho4, Ho3, Hob.
  - by rewrite (sbi_db _ _ _ Hs4), (env_db _ _ He3), (env_db _ _ Heb).
  - by apply Hwf4.
Qed.

(** The two events of a PUBLISH: the first leaves the publisher waiting to write, the second
    distributes the packet and answers the publisher. *)
Definition publish_outcome (calloc_ok : Z → bool) (queue_ok : bool) (w : World) (g : gmap (list Z) loc) (d : loc)
    (dl : Client) (so : Sock) (q dup : Z) (t m slack : list Z) (tl : loc) (tp : Topic) (l : loc)
    (xs : list (loc * ptr)) (cs : list loc) (fds : list Z) : Prop :=
  let buf := publish_buffer (pub_packet q 0 dup t m slack) t m (length slack) in
  ∃ w1 w2 rest so1,
    let w0 := set_sock (cl_fd dl) (mk_sock rest (tx so) (sent_bytes so)) w in
    request_handler calloc_ok queue_ok (length (rx so)) (Some d) w = Ok (0, w1)
    ∧ offered_to buf fds w0 (cl_fd dl) = Some so1
    ∧ reply_handler calloc_ok queue_ok (Some d) w1
      = Ok (if decide (q = 1 ∧ tx_accepts (tx so1) 8 ≠ 8) then -1 else 0, w2)
    ∧ (∀ fd, get_sock w2 fd = if decide (cl_fd dl = fd) then Some (puback q so1) else offered_to buf fds w fd)
    ∧ (∃ dl', at_loc w2 d = Some (OClient dl') ∧ cl_ctx_handler dl' = RequestHandler ∧ cl_reply dl' = None)
    ∧ armed w2 (cl_fd dl) = Some (event_for EPOLLIN (cl_fd dl) (Some d))
    ∧ topics_repr w2 g ∧ topic_subs w2 tl tp l xs cs fds.

Lemma publish_exchange calloc_ok queue_ok w g d dl so idl bs name q dup t m slack more tl tp l xs cs fds :
  heap_wf w → at_loc w d = Some (OClient dl) → get_sock w (cl_fd dl) = Some so →
  carries so PUBLISH (pub_payload q 0 dup t m slack) more →
  cl_id dl = Some idl → at_loc w idl = Some (OStr bs) → cstr bs = Ok name →
  is_byte q → is_byte dup → is_str t → is_str m → Forall is_byte slack → t ≠ [] →
  Z.of_nat (length t) < 2 ^ 16 → Z.of_nat (length (pub_payload q 0 dup t m slack)) ≤ ONEMB * 2 →
  topics_repr w g → g !! t = Some tl → topic_subs w tl tp l xs cs fds → NoDup fds →
  is_Some (armed w (cl_fd dl)) →
  publish_outcome calloc_ok queue_ok w g d dl so q dup t m slack tl tp l xs cs fds.
Proof.
  intros Hwf Hd Hso Hcar Hid Hidl Hbs Hq Hdup Ht Hm Hk Hne Hl Hmax Htr Hg Hts Hnd Hi. unfold publish_outcome.
  set (buf := publish_buffer (pub_packet q 0 dup t m slack) t m (length slack)).
  destruct (publish_request calloc_ok queue_ok w d dl so q 0 dup t m slack more Hwf Hd Hso Hcar Hq ltac:(done) Hdup Ht Hm Hk Hne Hl Hmax Hi)
    as (rest & w4 & p & r & E4 & [Hd4 Hr4 Hp4 _ Hold Hdb4 Hs4 Hi4 _ Hwf4]).
  set (so0 := mk_sock rest (tx so) (sent_bytes so)) in *.
  assert (Hfo : follows w w4) by (eapply follows_client; [exact Hd|exact Hd4|done|]; intros; by apply Hold).
  set (dl4 := with_handler _ _) in Hd4.
  assert (Hso4 : get_sock w4 (cl_fd dl4) = Some so0) by (by rewrite Hs4, decide_True).
  assert (Ha4 : is_Some (armed w4 (cl_fd dl4))) by (change (cl_fd dl4) with (cl_fd dl); rewrite Hi4; by eexists).
  destruct (publish_reply_run calloc_ok queue_ok w4 g d dl4 idl bs name r p q dup t m slack tl tp l xs cs fds so0)
    as (so1 & w5 & Hoff & E5 & Hd5 & Hsk & Hi5 & Hf5 & Hdb5); try done.
  { apply Hold; [congruence|done]. }
  { destruct (pub_payload_enc q 0 dup t m slack) as [Hpl _]. rewrite Hpl in Hmax. unfold ONEMB in Hmax. lia. }
  { apply (topics_repr_keeps w); [apply (fo_keeps _ _ Hfo)|by rewrite Hdb4|done]. }
  { by apply (topic_subs_follows w). }
  change (cl_fd dl4) with (cl_fd dl) in *.
  exists w4, w5, rest, so1. cbv zeta. split_and!; [exact E4| |exact E5| | |exact Hi5| |].
  - rewrite <- Hoff. symmetry. apply offered_to_ext. by rewrite Hs4, get_set_sock.
  - intros fd. rewrite Hsk. destruct (decide (cl_fd dl = fd)) as [|Hfd]; [done|].
    apply offered_to_ext. by rewrite Hs4, decide_False.
  - destruct Hd5 as (dl' & ? & ? & ? & _). eauto.
  - apply (topics_repr_keeps w); [|by rewrite Hdb5, Hdb4|done]. etrans; [apply (fo_keeps _ _ Hfo)|apply (fo_keeps _ _ Hf5)].
  - apply (topic_subs_follows w4); [done|]. by apply (topic_subs_follows w).
Qed.

(** The first subscriber of a topic is its only one. *)
Lemma joined_topic_subs w g t c cl q tl l : joined w g t c q [] None tl l →
  at_loc w c = Some (OClient cl) →
  topics_repr w (<[t := tl]> g) ∧ ∃ tp xs, topic_subs w tl tp l xs [c] [cl_fd cl].
Proof.
  intros (tp & n & sb & nm & Hr & (Htl & _ & Hl & Hlst) & _ & _ & Hsb) Hc. split; [done|].
  exists tp, [(n, Some sb)]. split; [done|done|done| |].
  - repeat constructor. exists sb. do 2 eexists. split_and!; [done|exact Hsb|done|exact Hc].
  - repeat constructor. exists cl. by split.
Qed.

(** * Properties *)

(** A SUBSCRIBE is served in two steps.  Reading it registers the client under the
    topic of that name, before the subscribers it has; writing sends the eight bytes of a
    SUBACK with return code 0, as many as the descriptor takes, and leaves the client
    waiting for its next request.  No other socket is touched and, but for the list of
    subscribers, no object that was allocated before changes. *)
Theorem subscribe_served calloc_ok w g c cl so q t slack more xs :
  heap_wf w → at_loc w c = Some (OClient cl) → get_sock w (cl_fd cl) = Some so →
  carries so SUBSCRIBE (sub_payload q t slack) more → is_byte q → is_str t → t ≠ [] →
  Forall is_byte slack → Z.of_nat (length t) < 2 ^ 16 →
  Z.of_nat (length (sub_payload q t slack)) ≤ ONEMB * 2 →
  topic_ready w g t xs None → is_Some (armed w (cl_fd cl)) →
  subscribe_outcome calloc_ok w g c cl so q t xs.
Proof. apply subscribe_exchange. Qed.

(** C8. A PUBLISH that is not to be retained, on a topic that exists, is served in two steps;
    no client has subscribed to the topic twice, so that the descriptors of its subscribers
    are distinct (one that had would be offered the packet twice).  Reading it leaves the
    client waiting to write; the reply offers the packet, as it was received, once to the
    socket of every subscriber of its topic and to no other socket, then acknowledges it
    to the publisher with a PUBACK if and only if its QoS is 1, and leaves the publisher
    waiting for its next request and the topics and their subscribers as they were. *)
Theorem publish_served calloc_ok queue_ok w g d dl so idl bs name q dup t m slack more tl tp l xs cs fds :
  heap_wf w → at_loc w d = Some (OClient dl) → get_sock w (cl_fd dl) = Some so →
  carries so PUBLISH (pub_payload q 0 dup t m slack) more →
  cl_id dl = Some idl → at_loc w idl = Some (OStr bs) → cstr bs = Ok name →
  is_byte q → is_byte dup → is_str t → is_str m → Forall is_byte slack → t ≠ [] →
  Z.of_nat (length t) < 2 ^ 16 → Z.of_nat (length (pub_payload q 0 dup t m slack)) ≤ ONEMB * 2 →
  topics_repr w g → g !! t = Some tl → topic_subs w tl tp l xs cs fds → NoDup fds →
  is_Some (armed w (cl_fd dl)) →
  publish_outcome calloc_ok queue_ok w g d dl so q dup t m slack tl tp l xs cs fds.
Proof. apply publish_exchange. Qed.

(** C7. What one client publishes reaches another that subscribed.  Take two clients with
    descriptors of their own: on the first a SUBSCRIBE to a topic nobody has used yet, on
    the second a PUBLISH to it.  After the two events of each exchange, the socket of the
    first was offered the SUBACK and then the packet, in this order, and nothing else. *)
Theorem subscriber_receives calloc_ok w g c cl sc q t slack more d dl sd idl bs name q' dup m slack' more' :
  heap_wf w → at_loc w c = Some (OClient cl) → get_sock w (cl_fd cl) = Some sc →
  at_loc w d = Some (OClient dl) → get_sock w (cl_fd dl) = Some sd → cl_fd cl ≠ cl_fd dl →
  is_Some (armed w (cl_fd cl)) → is_Some (armed w (cl_fd dl)) →
  carries sc SUBSCRIBE (sub_payload q t slack) more → carries sd PUBLISH (pub_payload q' 0 dup t m slack') more' →
  cl_id dl = Some idl → at_loc w idl = Some (OStr bs) → cstr bs = Ok name →
  is_byte q → is_byte q' → is_byte dup → is_str t → is_str m → Forall is_byte slack → Forall is_byte slack' →
  t ≠ [] → Z.of_nat (length t) < 2 ^ 16 → Z.of_nat (length (sub_payload q t slack)) ≤ ONEMB * 2 →
  Z.of_nat (length (pub_payload q' 0 dup t m slack')) ≤ ONEMB * 2 →
  topic_ready w g t [] None →
  let buf := publish_buffer (pub_packet q' 0 dup t m slack') t m (length slack') in
  ∃ rest w1 w2 w3 w4 r1 r2,
    request_handler calloc_ok true (length (rx sc)) (Some c) w = Ok (0, w1)
    ∧ reply_handler calloc_ok true (Some c) w1 = Ok (r1, w2)
    ∧ request_handler calloc_ok true (length (rx sd)) (Some d) w2 = Ok (0, w3)
    ∧ reply_handler calloc_ok true (Some d) w3 = Ok (r2, w4)
    ∧ get_sock w4 (cl_fd cl)
      = Some (after_send (after_send (mk_sock rest (tx sc) (sent_bytes sc)) (Some <$> ack_bytes SUBACK 0) 8)
                (b_data buf) (Z.of_nat (b_size buf))).
Proof.
  intros Hwf Hc Hsc Hd Hsd Hfd Hic Hid Hcs Hcp Hidl Hbs Hname Hq Hq' Hdup Ht Hm Hsl Hsl' Hne Hl Hm1 Hm2 Hready buf.
  destruct (subscribe_exchange calloc_ok w g c cl sc q t slack more []) as
    (w1 & w2 & tl & l & p & rest & E1 & E2 & Hj & Hc2 & _ & Hs2 & Hi2 & Hk2 & Hwf2); [done..|].
  destruct (joined_topic_subs _ _ _ _ _ _ _ _ Hj Hc2) as (Htr & tp & xs & Hts).
  assert (Hcd : d ≠ c) by congruence.
  assert (Hsd2 : get_sock w2 (cl_fd dl) = Some sd) by (by rewrite Hs2, decide_False).
  assert (Hd2 : at_loc w2 d = Some (OClient dl)) by (by apply Hk2).
  assert (Hid2 : at_loc w2 idl = Some (OStr bs)) by (apply Hk2; [congruence|done|done]).
  assert (Hia2 : is_Some (armed w2 (cl_fd dl))) by (by rewrite Hi2).
  destruct (publish_exchange calloc_ok true w2 (<[t := tl]> g) d dl sd idl bs name q' dup t m slack' more' tl tp l xs
    [c] [cl_fd cl]) as (w3 & w4 & rest' & so1 & E3 & _ & E4 & Hs4 & _); try done.
  { apply lookup_insert_eq. }
  { apply NoDup_singleton. }
  exists rest, w1, w2, w3, w4. do 2 eexists.
  split; [exact E1|]. split; [exact E2|]. split; [exact E3|]. split; [exact E4|].
  rewrite Hs4, decide_False by done. unfold offered_to. rewrite decide_True by left.
  by rewrite Hs2, decide_True.
Qed.

(** * Witnesses *)

Local Open Scope positive_scope.

(** Two clients, on descriptors 7 and 9; one subscribes to [t], the other publishes [y]
    to it with QoS 1 and the two bytes of slack its packets have. *)
Definition demo_sub_sock : Sock := demo_sock SUBSCRIBE (sub_payload 1 [116%Z] [0%Z]).
Definition demo_pub_sock : Sock := demo_sock PUBLISH (pub_payload 1 0 0 [116%Z] [121%Z] [0%Z; 0%Z]).
Definition demo_two : World := demo_world
  [(5, OClient (demo_client 7 (Some 6) None None)); (6, demo_str [99%Z]);
   (8, OClient (demo_client 9 (Some 10) None None)); (10, demo_str [100%Z])]
  [(7%Z, demo_sub_sock); (9%Z, demo_pub_sock)].

Lemma demo_two_ready : topic_ready demo_two ∅ [116%Z] [] None.
Proof.
  split; [apply create_repr|by split| |done|done].
  intros _. apply (bool_decide_unpack _). vm_compute. reflexivity.
Qed.

Lemma subscribe_served_witness :
  subscribe_outcome (λ _, true) demo_two ∅ 5 (demo_client 7 (Some 6) None None) demo_sub_sock 1 [116%Z] [].
Proof.
  exact (subscribe_served (λ _, true) demo_two ∅ 5 (demo_client 7 (Some 6) None None) demo_sub_sock 1 [116%Z] [0%Z]
    [] [] ltac:(by apply demo_world_wf) eq_refl eq_refl (demo_sock_carries _ _) ltac:(done)
    ltac:(by repeat constructor) ltac:(done) ltac:(by repeat constructor) ltac:(done) ltac:(done) demo_two_ready
    ltac:(by eexists)).
Defined.

Lemma subscriber_receives_witness : ∃ w1 w2 w3 w4 r1 r2 so,
  request_handler (λ _, true) true 2 (Some 5) demo_two = Ok (0%Z, w1)
  ∧ reply_handler (λ _, true) true (Some 5) w1 = Ok (r1, w2)
  ∧ request_handler (λ _, true) true 2 (Some 8) w2 = Ok (0%Z, w3)
  ∧ reply_handler (λ _, true) true (Some 8) w3 = Ok (r2, w4)
  ∧ get_sock w4 7%Z = Some so ∧ length (sent_bytes so) = 26%nat.
Proof.
  destruct (subscriber_receives (λ _, true) demo_two ∅ 5 (demo_client 7 (Some 6) None None) demo_sub_sock 1 [116%Z]
    [0%Z] [] 8 (demo_client 9 (Some 10) None None) demo_pub_sock 10 (cobj [100%Z]) [100%Z] 1 0 [121%Z] [0%Z; 0%Z] []
    ltac:(by apply demo_world_wf) eq_refl eq_refl eq_refl eq_refl ltac:(done) ltac:(by eexists) ltac:(by eexists)
    (demo_sock_carries _ _) (demo_sock_carries _ _) eq_refl eq_refl eq_refl ltac:(done) ltac:(done) ltac:(done)
    ltac:(by repeat constructor) ltac:(by repeat constructor) ltac:(by repeat constructor)
    ltac:(by repeat constructor) ltac:(done) ltac:(done) ltac:(done) ltac:(done) demo_two_ready)
    as (rest & w1 & w2 & w3 & w4 & r1 & r2 & E1 & E2 & E3 & E4 & Hso).
  do 7 eexists. split; [exact E1|]. split; [exact E2|]. split; [exact E3|]. split; [exact E4|].
  split; [exact Hso|]. vm_compute. reflexivity.
Defined.

(** The topic of [Publish]'s demonstrations in a map, and one more client, with
    the given socket. *)
Definition demo_known (so : Sock) : World :=
  let w := demo_world
    ([(14, OClient (demo_client 11 (Some 6) None None))] ++ demo_topic_objs)
    ((11%Z, so) :: demo_socks) in
  set_topics (after_put (str_of w) created (default 0%nat (place (str_of w) (created (V := loc)) [116%Z])) (KPtr 2) (Some 1)) w.

Lemma demo_known_topics so : topics_repr (demo_known so) {[ [116%Z] := 1 ]}.
Proof.
  unfold topics_repr, demo_known. set (w := demo_world _ _).
  change (str_of (set_topics _ w)) with (str_of w). cbn [topics db set_topics set_db].
  rewrite map_fmap_singleton. apply (hm_repr_put (str_of w) created ∅ _ (KPtr 2) [116%Z] (Some 1)).
  - pose proof (create_repr (V := loc) (str_of w)) as Hr. by rewrite fmap_empty in Hr.
  - by apply key_of.
  - done.
  - vm_compute. reflexivity.
Qed.

Lemma demo_known_subs so : topic_subs (demo_known so) 1 demo_topic 3 demo_subs [5; 8] [7%Z; 9%Z].
Proof.
  split; [done|done| | |].
  - exists (Some 20). split; [done|]. split.
    + split; [done|]. exists (Some 21). split; [done|]. split; [done|]. exists None. by split.
    + apply (bool_decide_unpack _). by vm_compute.
  - repeat constructor; do 3 eexists; split_and!; done.
  - repeat constructor; eexists; split; done.
Qed.

Lemma demo_known_wf so : heap_wf (demo_known so).
Proof.
  apply (heap_wf_same (demo_world ([(14, OClient (demo_client 11 (Some 6) None None))] ++ demo_topic_objs)
    ((11%Z, so) :: demo_socks))); [done|done|by apply demo_world_wf].
Qed.

(** The client is the publisher. *)
Definition demo_published : World := demo_known demo_pub_sock.

Lemma publish_served_witness :
  publish_outcome (λ _, true) true demo_published {[ [116%Z] := 1 ]} 14 (demo_client 11 (Some 6) None None)
    demo_pub_sock 1 0 [116%Z] [121%Z] [0%Z; 0%Z] 1 demo_topic 3 demo_subs [5; 8] [7%Z; 9%Z].
Proof.
  exact (publish_served (λ _, true) true demo_published {[ [116%Z] := 1 ]} 14 (demo_client 11 (Some 6) None None)
    demo_pub_sock 6 (cobj [99%Z]) [99%Z] 1 0 [116%Z] [121%Z] [0%Z; 0%Z] [] 1 demo_topic 3 demo_subs [5; 8]
    [7%Z; 9%Z] (demo_known_wf _) eq_refl eq_refl (demo_sock_carries _ _) eq_refl eq_refl eq_refl
    ltac:(done) ltac:(done) ltac:(by repeat constructor) ltac:(by repeat constructor) ltac:(by repeat constructor)
    ltac:(done) ltac:(done) ltac:(done) (demo_known_topics _) eq_refl (demo_known_subs _)
    ltac:(apply (bool_decide_unpack _); by vm_compute) ltac:(by eexists)).
Defined.
