(* ===== verification/Retained.v ===== *)
(** Retained messages from bytes to bytes: a PUBLISH that is to be retained, and the answer
    to a later SUBSCRIBE, which sends the retained message after the SUBACK. *)
From stdpp Require Import base numbers option list gmap.
From Stdlib Require Import ZArith Lia.
From S2P Require Import Prelude Memory Ringbuf Buffer Protocol Hashmap Chain Lists Queues Network.
From S2P Require Import Receive Util Sizigy Demo Server Broker Publish Subscribe Steps Delivery.

Local Open Scope Z_scope.

(** * The retained message *)

(** A message with the given QoS, topic and payload. *)
Definition holds (w : World) (mp : loc) (q : Z) (t m : list Z) : Prop :=
  ∃ d r ts sd tl pl, at_loc w mp = Some (OMessage (mk_message q d r ts sd (Some tl) (Some pl)))
    ∧ at_loc w tl = Some (OStr (cobj t)) ∧ at_loc w pl = Some (OStr (cobj m)) ∧ no_nul t ∧ no_nul m.

Lemma holds_kept w w' mp q t m : holds w mp q t m →
  (∀ y o, (∃ bs, o = OStr bs) ∨ (∃ msg, o = OMessage msg) → at_loc w y = Some o → at_loc w' y = Some o) →
  holds w' mp q t m.
Proof. intros (d & r & ts & sd & tl & pl & H1 & H2 & H3 & Hs) Hk. exists d, r, ts, sd, tl, pl. split_and!; try apply Hk; naive_solver. Qed.

(** The packet it is sent in, and the block the packet is sent from. *)
Definition retained_packet (q : Z) (t m : list Z) : Publish :=
  mk_publish (mk_header PUBLISH (Z.of_nat (16 + length t + length m))) (Z.of_nat (length t)) (Z.of_nat (length m))
    q 1 0 (cobj t) (cobj m).
Definition retained_buffer (q : Z) (t m : list Z) : Buffer := publish_buffer (retained_packet q t m) t m 2.

Lemma publish_pkt_retained q t m : is_byte q → no_nul t → no_nul m →
  Z.of_nat (length t) < 2 ^ 16 → Z.of_nat (16 + length t + length m) < 2 ^ 32 →
  publish_pkt (cobj t) (cobj m) q 1 0 = Ok (retained_packet q t m).
Proof.
  intros Hq Ht Hm Hl Hs. unfold publish_pkt. rewrite !strlen_nul by done. cbn [mbind res_bind].
  rewrite !(wrap_small 8), u16_small, !(wrap_small 32) by (done || unfold urange, HEADERLEN; lia).
  unfold retained_packet. do 3 f_equal. unfold HEADERLEN. lia.
Qed.

Lemma retained_packed q t m : no_nul t → no_nul m →
  pack_into (p_header (retained_packet q t m)) (pack_publish (retained_packet q t m)) = Ok (retained_buffer q t m).
Proof.
  intros Ht Hm. unfold retained_buffer, publish_buffer.
  apply (pack_publish_into (retained_packet q t m) t m 2); [by apply cstr_nul..|]. cbn. lia.
Qed.

(** * The answer to a late subscriber *)

(** A block sent whole or not, on a status. *)
Lemma send_status_run w fd b so ret : get_sock w fd = Some so → length (b_data b) = b_size b →
  Z.of_nat (b_size b) < 2 ^ 31 →
  send_status fd b ret w
  = Ok (if decide (tx_accepts (tx so) (Z.of_nat (b_size b)) = Z.of_nat (b_size b)) then ret else -1,
        set_sock fd (after_send so (b_data b) (Z.of_nat (b_size b))) w).
Proof.
  intros Hso Hd Hl. unfold send_status. pose proof (send_buffer_run w fd b so Hso Hd Hl) as E. cbv zeta in E.
  rewrite (M_bind_run _ _ _ _ _ E). unfold mret, M_ret. do 2 f_equal. by repeat case_decide.
Qed.

(** What the socket has after both packets, and the result of the handler. *)
Definition after_both (so : Sock) (b1 b2 : Buffer) : Sock :=
  after_send (after_send so (b_data b1) (Z.of_nat (b_size b1))) (b_data b2) (Z.of_nat (b_size b2)).
Definition both_sent (so : Sock) (b1 b2 : Buffer) : Z :=
  let n1 := Z.of_nat (b_size b1) in let n2 := Z.of_nat (b_size b2) in
  if decide (tx_accepts (tx so) n1 = n1 ∧ tx_accepts (tx (after_send so (b_data b1) n1)) n2 = n2) then 0 else -1.

Lemma reply_retained_run w c cl so rep b buf mp q t m :
  at_loc w c = Some (OClient cl) → r_fd rep = cl_fd cl → r_body rep = Some b → at_loc w b = Some (OBuffer buf) →
  get_sock w (cl_fd cl) = Some so → length (b_data buf) = b_size buf → Z.of_nat (b_size buf) < 2 ^ 31 →
  holds w mp q t m → is_byte q → Z.of_nat (length t) < 2 ^ 16 → Z.of_nat (16 + length t + length m) < 2 ^ 31 →
  let pub := retained_buffer q t m in
  reply_retained (Some c) rep (Some mp) w
  = Ok (both_sent so buf pub,
        update c (OClient (with_last_action (wrap64 (now w)) cl)) (set_sock (cl_fd cl) (after_both so buf pub) w)).
Proof.
  intros Hc Hfd Hbody Hb Hso Hd Hl (d & r & ts & sd & tl & pl & Hmp & Htl & Hpl & Ht & Hm) Hq Hlt Hsz pub.
  unfold reply_retained. rewrite Hbody, Hfd. run_deref.
  rewrite (M_bind_run _ _ _ _ _ (send_status_run w (cl_fd cl) buf so 0 Hso Hd Hl)).
  set (so1 := after_send so _ _). set (w1 := set_sock _ so1 w).
  erewrite M_bind_run by (eapply (@deref_run); exact Hmp). cbn [m_topic m_payload m_qos].
  erewrite M_bind_run by (eapply (@deref_run); exact Htl). erewrite M_bind_run by (eapply (@deref_run); exact Hpl).
  rewrite !cstr_cobj_nul by done. cbn [lift]. erewrite M_bind_run by done. erewrite M_bind_run by done.
  rewrite publish_pkt_retained by (done || lia). cbn [lift]. erewrite M_bind_run by done.
  rewrite retained_packed by done. fold pub. cbn [lift]. erewrite M_bind_run by done.
  assert (Hso1 : get_sock w1 (cl_fd cl) = Some so1) by apply get_set_sock_eq.
  rewrite (M_bind_run _ _ _ _ _ (send_status_run w1 (cl_fd cl) pub so1 _ Hso1 (publish_buffer_length _ _ _ _)
    ltac:(cbn [b_size pub retained_buffer publish_buffer]; lia))).
  set (w2 := set_sock _ _ w1). assert (Hc2 : at_loc w2 c = Some (OClient cl)) by done.
  rewrite (M_bind_run _ _ _ _ _ (update_last_run c cl w2 Hc2)). unfold w2, w1. rewrite set_set_sock.
  unfold mret, M_ret. do 2 f_equal. unfold both_sent. repeat case_decide; naive_solver.
Qed.

Section Handlers.
Context (calloc_ok : Z → bool).

(** The reply to a SUBSCRIBE whose topic retains a message: the SUBACK, then the message. *)
Lemma reply_both w c cl so r b buf mp q t m :
  at_loc w c = Some (OClient cl) → cl_reply cl = Some r →
  at_loc w r = Some (OReply (mk_reply SUBACK (cl_fd cl) (Some b) (Some (Some mp)))) →
  at_loc w b = Some (OBuffer buf) → get_sock w (cl_fd cl) = Some so → is_Some (armed w (cl_fd cl)) →
  length (b_data buf) = b_size buf → Z.of_nat (b_size buf) < 2 ^ 31 →
  holds w mp q t m → is_byte q → Z.of_nat (length t) < 2 ^ 16 → Z.of_nat (16 + length t + length m) < 2 ^ 31 →
  let pub := retained_buffer q t m in
  ∃ w', reply_handler calloc_ok true (Some c) w = Ok (both_sent so buf pub, w')
    ∧ at_loc w' c = Some (OClient (with_handler RequestHandler (with_reply None (with_last_action (wrap64 (now w)) cl))))
    ∧ (∀ l, l ≠ c → l ≠ r → l ≠ b → at_loc w' l = at_loc w l)
    ∧ armed w' (cl_fd cl) = Some (event_for EPOLLIN (cl_fd cl) (Some c))
    ∧ same_but_interest (cl_fd cl) (set_sock (cl_fd cl) (after_both so buf pub) w) w'.
Proof.
  intros Hc Hr Hrep Hb Hso Hi Hd Hl Hmp Hq Hlt Hsz pub. unfold reply_handler. run_deref.
  rewrite Hr, decide_False by done. run_deref. cbn [r_opcode r_retained].
  rewrite (decide_False (P := SUBACK = PUBLISH)), (decide_True (P := SUBACK = SUBACK)) by done.
  set (rep := mk_reply _ _ _ _) in *. set (cl1 := with_last_action (wrap64 (now w)) cl).
  set (w1 := update c (OClient cl1) (set_sock (cl_fd cl) (after_both so buf pub) w)).
  erewrite M_bind_run; last first.
  { cbn [of_option lift]. erewrite M_bind_run by done. rewrite decide_True by done.
    exact (reply_retained_run w c cl so rep b buf mp q t m Hc eq_refl eq_refl Hb Hso Hd Hl Hmp Hq Hlt Hsz). }
  fold pub cl1 w1.
  assert (Hso1 : get_sock w1 (cl_fd cl1) = Some (after_both so buf pub)).
  { exact (get_set_sock_eq (cl_fd cl) (after_both so buf pub) w). }
  destruct (finish_reply_run w1 c cl1 (after_both so buf pub) r rep b (OBuffer buf) (both_sent so buf pub))
    as (w' & E & Hc' & _ & _ & Ho & Hi' & Hs); try done.
  - unfold w1. by rewrite at_update_eq.
  - unfold w1. by rewrite at_update_ne by congruence.
  - unfold w1. by rewrite at_update_ne by congruence.
  - eexists. reflexivity.
  - exists w'. split; [exact E|]. split_and!; [exact Hc'| |exact Hi'|].
    + intros l ???. rewrite Ho by done. unfold w1. by rewrite at_update_ne by congruence.
    + eapply sbi_trans; [|exact Hs]. apply sbi_env. done.
Qed.

(** The two events of a SUBSCRIBE to a topic that retains a message. *)
Definition late_outcome (w : World) (g : gmap (list Z) loc) (c : loc) (cl : Client) (so : Sock) (q : Z) (t : list Z)
    (xs : list (loc * ptr)) (mp : loc) (qm : Z) (m : list Z) : Prop :=
  let ack := ack_buffer SUBACK 0 in let pub := retained_buffer qm t m in
  ∃ w1 w2 tl l rest, let so1 := mk_sock rest (tx so) (sent_bytes so) in
    request_handler calloc_ok true (length (rx so)) (Some c) w = Ok (0, w1)
    ∧ reply_handler calloc_ok true (Some c) w1 = Ok (both_sent so1 ack pub, w2)
    ∧ joined w2 g t c q xs (Some mp) tl l ∧ at_loc w2 c = Some (OClient (served w cl (fresh_loc w)))
    ∧ armed w2 (cl_fd cl) = Some (event_for EPOLLIN (cl_fd cl) (Some c))
    ∧ (∀ fd, get_sock w2 fd = if decide (cl_fd cl = fd) then Some (after_both so1 ack pub) else get_sock w fd)
    ∧ (∀ fd, cl_fd cl ≠ fd → armed w2 fd = armed w fd)
    ∧ (∀ y o, y ≠ c → (∀ lst, o ≠ OList lst) → at_loc w y = Some o → at_loc w2 y = Some o).

Lemma late_exchange w g c cl so q t slack more xs mp qm m :
  heap_wf w → at_loc w c = Some (OClient cl) → get_sock w (cl_fd cl) = Some so →
  carries so SUBSCRIBE (sub_payload q t slack) more → is_byte q → is_str t → t ≠ [] →
  Forall is_byte slack → Z.of_nat (length t) < 2 ^ 16 →
  Z.of_nat (length (sub_payload q t slack)) ≤ ONEMB * 2 →
  topic_ready w g t xs (Some mp) → holds w mp qm t m → is_byte qm → Z.of_nat (16 + length t + length m) < 2 ^ 31 →
  is_Some (armed w (cl_fd cl)) →
  late_outcome w g c cl so q t xs mp qm m.
Proof.
  intros Hwf Hc Hso Hcar Hq Ht Hne Hk Hl Hmax Hready Hmp Hqm Hsz Hi. unfold late_outcome.
  set (ack := ack_buffer SUBACK 0). set (pub := retained_buffer qm t m).
  destruct (subscribe_request calloc_ok w g c cl so q t slack more xs (Some mp) Hwf Hc Hso Hcar Hq Ht Hne Hk Hl Hmax Hready Hi)
    as (rest & w1 & tl & l & r & b & E1 & Hsg).
  pose proof Hsg as [_ Hc1 Hr1 Hb1 _ Hold1 Hs1 Hi1 _ Hn1 Hlock1 Hwf1].
  set (so1 := mk_sock rest (tx so) (sent_bytes so)) in *.
  assert (Hso1 : get_sock w1 (cl_fd cl) = Some so1) by (by rewrite Hs1, decide_True).
  assert (Ha1 : is_Some (armed w1 (cl_fd cl))) by (rewrite Hi1; by eexists).
  assert (Hmp1 : holds w1 mp qm t m).
  { apply (holds_kept w); [done|]. intros y o Hy Hyo. apply Hold1; [|by destruct Hy as [[? ->]|[? ->]]|done].
    intros ->. destruct Hy as [[? ->]|[? ->]]; congruence. }
  destruct (reply_both w1 c _ so1 r b ack mp qm t m Hc1 eq_refl Hr1 Hb1) as (w2 & E2 & Hc2 & Ho2 & Hi2 & Hs2); try done.
  destruct (subscribing_answered _ _ _ _ _ _ _ _ _ _ _ _ _ _ _ _ Hsg Ho2 Hs2) as (Hj & Hsk & Har & Hold); [by eexists|].
  exists w1, w2, tl, l, rest. cbv zeta. split_and!; try done. rewrite Hc2, Hn1. done.
Qed.

End Handlers.

(** * Publishing a message that is retained *)

(** A state where one topic has changed, but neither its name nor its list, and otherwise
    the topics, their subscriptions and the descriptors of the clients are what they were. *)
Record follows_at (tl : loc) (tp : Topic) (w w' : World) : Prop := {
  fa_topic : at_loc w' tl = Some (OTopic tp);
  fa_keeps y o : y ≠ tl → topical o → at_loc w y = Some o → at_loc w' y = Some o;
  fa_subs y s : at_loc w y = Some (OSubscription s) → at_loc w' y = Some (OSubscription s);
  fa_clients y cl : at_loc w y = Some (OClient cl) → ∃ cl', at_loc w' y = Some (OClient cl') ∧ cl_fd cl' = cl_fd cl
}.

Lemma follows_at_before tl tp w1 w2 w3 : follows w1 w2 → follows_at tl tp w2 w3 → follows_at tl tp w1 w3.
Proof.
  intros H12 H23. split.
  - apply H23.
  - intros y o Hy Ho Hyo. apply (fa_keeps _ _ _ _ H23); [done|done|]. by apply (fo_keeps _ _ H12).
  - intros y s Hy. by apply (fa_subs _ _ _ _ H23), (fo_subs _ _ H12).
  - intros y cl (cl' & Hy & Hf)%(fo_clients _ _ H12). destruct (fa_clients _ _ _ _ H23 y cl' Hy) as (cl3 & Hy3 & Hf3).
    exists cl3. split; [done|congruence].
Qed.

Lemma follows_at_after tl tp w1 w2 w3 : follows_at tl tp w1 w2 → follows w2 w3 → follows_at tl tp w1 w3.
Proof.
  intros H12 H23. split.
  - by apply (fo_keeps _ _ H23); [|apply H12].
  - intros y o Hy Ho Hyo. apply (fo_keeps _ _ H23); [done|]. by apply (fa_keeps _ _ _ _ H12).
  - intros y s Hy. by apply (fo_subs _ _ H23), (fa_subs _ _ _ _ H12).
  - intros y cl (cl' & Hy & Hf)%(fa_clients _ _ _ _ H12). destruct (fo_clients _ _ H23 y cl' Hy) as (cl3 & Hy3 & Hf3).
    exists cl3. split; [done|congruence].
Qed.

Section FollowsAt.
Context (w w' : World) (tl : loc) (tp tp' : Topic) (Hf : follows_at tl tp' w w').
Context (Htl : at_loc w tl = Some (OTopic tp)).
Context (Hname : t_name tp' = t_name tp) (Hlist : t_subscribers tp' = t_subscribers tp).

Local Lemma fa_kept y o : topical o → (∀ tp, o ≠ OTopic tp) → at_loc w y = Some o → at_loc w' y = Some o.
Proof. intros Ho Hnt Hy. apply (fa_keeps _ _ _ _ Hf); [|done..]. intros ->. rewrite Htl in Hy. injection Hy as <-. by apply (Hnt tp). Qed.

Lemma fa_repr g : topics (db w') = topics (db w) → topics_repr w g → topics_repr w' g.
Proof.
  intros Hd Hr. unfold topics_repr. rewrite Hd. apply (repr_kept w); [|done]. apply kept_heap.
  intros y bs. by apply fa_kept.
Qed.

Lemma fa_list l xs : list_wf w l xs → list_wf w' l xs.
Proof.
  intros (hd & Hl & Hseg & Hnd). exists hd. split_and!; [by apply fa_kept| |done]. apply (chain_frame _ w); [|done].
  intros x ([x' d] & -> & Hx)%list_elem_of_fmap.
  destruct (chain_at _ _ _ _ _ _ _ Hseg Hx) as [n Hn]. cbn [fst]. rewrite Hn. by apply fa_kept.
Qed.

Lemma fa_named s l xs : topic_named w s tl tp l xs → topic_named w' s tl tp' l xs.
Proof.
  intros (_ & (nm & Hnm & Hs) & Hl & Hlst). split_and!.
  - apply Hf.
  - exists nm. split; [congruence|]. unfold str_at in *. destruct (at_loc w nm) as [o|] eqn:Hn; [|done].
    destruct o as [bs| | | | | | | | | | | | | | |]; try done. by rewrite (fa_kept nm (OStr bs)).
  - congruence.
  - by apply fa_list.
Qed.

Lemma fa_topic_subs l xs cs fds : topic_subs w tl tp l xs cs fds → topic_subs w' tl tp' l xs cs fds.
Proof.
  intros [_ Hl Hlst Hsubs Hfds]. split.
  - apply Hf.
  - congruence.
  - by apply fa_list.
  - eapply Forall2_impl; [exact Hsubs|]. intros x c (s & sub & cl & Hx & Hsx & Hsc & Hc).
    destruct (fa_clients _ _ _ _ Hf _ _ Hc) as (cl' & Hc' & _). exists s, sub, cl'.
    split_and!; [done|by apply (fa_subs _ _ _ _ Hf)|done|done].
  - eapply Forall2_impl; [exact Hfds|]. intros c fd (cl & Hc & Hcf).
    destruct (fa_clients _ _ _ _ Hf _ _ Hc) as (cl' & Hc' & Hf'). exists cl'. split; [done|congruence].
Qed.

End FollowsAt.

(** The topic with a message to retain. *)
Definition retaining (mp : loc) (tp : Topic) : Topic :=
  mk_topic (t_name tp) (t_subscribers tp) (t_messages tp) (Some mp).

(** The message is stored, then distributed. *)
Lemma publish_retain_run w tl tp l xs cs fds msg topic message k sender :
  heap_wf w → topic_subs w tl tp l xs cs fds → t_retained tp = None →
  cstr (p_topic msg) = Ok topic → cstr (p_message msg) = Ok message →
  let buf := publish_buffer msg topic message k in
  hsize (p_header msg) = Z.of_nat (b_size buf) → Z.of_nat (b_size buf) < 2 ^ 31 → p_retain msg ≠ 0 →
  ∃ mp w1, publish_message (Some tl) msg sender w = Ok (foldl (publish_step buf) (0, w1) cs)
    ∧ env_eq w w1 ∧ heap_wf w1 ∧ follows_at tl (retaining mp tp) w w1
    ∧ holds w1 mp (p_qos msg) topic message
    ∧ topic_subs w1 tl (retaining mp tp) l xs cs fds
    ∧ ∀ y o, y ≠ tl → at_loc w y = Some o → at_loc w1 y = Some o.
Proof.
  intros Hwf Hts Hnone Htop Hmsg buf Hsz Hsmall Hret. pose proof Hts as [Htl Hlst _ _ _].
  assert (Hobjs : retained_objs w tp []) by (unfold retained_objs; by rewrite Hnone).
  destruct (retain_message_run w tl tp msg sender topic message [] Hwf Htl Hobjs Htop Hmsg)
    as (w1 & E & He & Hwf1 & Ht1 & Hm1 & Hs1 & Hp1 & _ & Ho).
  set (mp := fresh_loc w) in *.
  assert (Hold : ∀ y o, y ≠ tl → at_loc w y = Some o → at_loc w1 y = Some o).
  { intros y o Hy Hyo. rewrite Ho; [done|done|apply not_elem_of_nil|]. rewrite !not_elem_of_cons.
    split_and!; try (eapply (old_loc w); [exact Hwf|exact Hyo|unfold mp; lia]). apply not_elem_of_nil. }
  assert (Hf : follows_at tl (retaining mp tp) w w1).
  { split; [exact Ht1|intros; by apply Hold|intros y s Hy; apply Hold; [congruence|done]|].
    intros y cl Hy. exists cl. split; [apply Hold; [congruence|done]|done]. }
  pose proof (fa_topic_subs w w1 tl tp (retaining mp tp) Hf Htl eq_refl l xs cs fds Hts) as Hts1.
  exists mp, w1. split_and!; try done.
  - apply (publish_message_from w w1 tl (retaining mp tp) l xs cs fds); try done. by rewrite decide_True.
  - eexists _, 1, (now w), sender, _, _. split_and!; [exact Hm1|exact Hs1|exact Hp1|by eapply cstr_no_nul..].
Qed.

(** The topic [t] with a message retained, in a state reached from [w]. *)
Record retained_at (w w' : World) (g : gmap (list Z) loc) (t : list Z) (tl mp : loc) (q : Z) (m : list Z)
    (xs : list (loc * ptr)) : Prop := {
  ra_repr : topics_repr w' (<[t := tl]> g);
  ra_named : ∃ tp l, topic_named w' t tl tp l xs ∧ t_retained tp = Some mp;
  ra_holds : holds w' mp q t m;
  ra_topic o : at_loc w tl = Some o → ∃ tp, o = OTopic tp;
  ra_other y o : y ≠ tl → (∀ cl, o ≠ OClient cl) → at_loc w y = Some o → at_loc w' y = Some o;
  ra_client y cl : at_loc w y = Some (OClient cl) → ∃ ts, at_loc w' y = Some (OClient (with_last_action ts cl));
  ra_interest : interest (w_kernel w') = interest (w_kernel w);
  ra_epollfd : epollfd (db w') = epollfd (db w)
}.

Section Publishing.
Context (calloc_ok : Z → bool).

Lemma reply_publish_retain w g d dl idl bs name r p q ret dup t m slack xs cs fds so :
  heap_wf w → at_loc w d = Some (OClient dl) → cl_id dl = Some idl → at_loc w idl = Some (OStr bs) →
  cstr bs = Ok name → at_loc w p = Some (OPublish (pub_packet q ret dup t m slack)) → ret ≠ 0 →
  is_str t → is_str m → Z.of_nat (14 + length t + length m + length slack) < 2 ^ 31 →
  topic_ready w g t xs None → Forall2 (subscriber w) xs cs →
  Forall2 (λ c fd, ∃ cl, at_loc w c = Some (OClient cl) ∧ cl_fd cl = fd) cs fds → NoDup fds →
  r_body r = Some p → r_fd r = cl_fd dl → get_sock w (cl_fd dl) = Some so →
  let buf := publish_buffer (pub_packet q ret dup t m slack) t m (length slack) in
  ∃ so1 w' tl mp, offered_to buf fds w (cl_fd dl) = Some so1
    ∧ reply_publish calloc_ok true (Some d) r w
      = Ok (if decide (q = 1 ∧ tx_accepts (tx so1) 8 ≠ 8) then -1 else 0, w')
    ∧ retained_at w w' g t tl mp q m xs
    ∧ ∀ fd, get_sock w' fd = if decide (cl_fd dl = fd) then Some (puback q so1) else offered_to buf fds w fd.
Proof.
  intros Hwf Hd Hid Hidl Hbs Hp Hret Ht Hm Hsz [Hr Hst Hent Hlock Hroom] Hsubs Hfds Hnd Hbody Hfd Hso buf.
  unfold reply_publish. rewrite Hbody, Hfd. run_deref. cbn [p_topic pub_packet].
  destruct (find_or_create_run calloc_ok w g (cobj t) t xs None Hwf Hr (cstr_str t Ht) Hst Hent)
    as (tl & tp & l & w5 & E5 & Hr5 & Hn5 & Hnone & Hwf5 & Hx5 & He5).
  rewrite (M_bind_run _ _ _ _ _ E5). pose proof (Hx5 _ _ Hd) as Hd5. run_deref. rewrite Hid. unfold strdup.
  erewrite M_bind_run; last first.
  { erewrite M_bind_run by (eapply (@deref_run); exact (Hx5 _ _ Hidl)). exact (strdup_of_run w5 bs name Hbs). }
  set (f := fresh_loc w5). set (w6 := alloc (cobj name) w5).
  assert (Hx : extends w w6) by (etrans; [exact Hx5|by apply extends_alloc]).
  assert (Hwf6 : heap_wf w6) by (by apply alloc_wf).
  assert (Hn6 : topic_named w6 t tl tp l xs) by (by apply (topic_named_extends w5); [apply extends_alloc|]).
  assert (Hts6 : topic_subs w6 tl tp l xs cs fds).
  { destruct Hn6 as (? & _ & ? & ?). split; [done..| |].
    - eapply Forall2_impl; [exact Hsubs|]. intros x c (s & sub & cl & ? & ? & ? & ?). exists s, sub, cl. by eauto 10.
    - eapply Forall2_impl; [exact Hfds|]. intros c fd (cl & ? & ?). exists cl. by eauto. }
  destruct (publish_retain_run w6 tl tp l xs cs fds (pub_packet q ret dup t m slack) t m (length slack) (Some f) Hwf6 Hts6
    Hnone (cstr_str t Ht) (cstr_str m Hm) eq_refl Hsz Hret) as (mp & w7 & E7 & He7 & Hwf7 & Hf7 & Hmp7 & Hts7 & Ho7).
  fold buf in E7.
  assert (Hdtl : d ≠ tl) by (destruct Hn6 as (Htl & _); apply Hx in Hd; congruence).
  assert (Hk7 : w_kernel w7 = w_kernel w) by (rewrite (env_kernel _ _ He7); exact (topics_env_kernel _ _ He5)).
  assert (Hs7 : ∀ fd, get_sock w7 fd = get_sock w fd).
  { intros fd. unfold get_sock. change (get_kernel ?x) with (w_kernel x). by rewrite Hk7. }
  destruct (publish_answered w6 w7 tl (pub_packet q ret dup t m slack) (Some f) buf d dl so cs fds E7
    (ts_fds _ _ _ _ _ _ _ Hts7) Hnd) as (so1 & w' & Hoff & E' & Htc & Hsocks);
    [apply Ho7; [done|by apply Hx]|by rewrite Hs7|].
  pose proof (touched_follows _ _ Htc) as Hfo. pose proof (follows_at_after _ _ _ _ _ Hf7 Hfo) as Hfa.
  pose proof Hn6 as (Htl6 & _).
  exists so1, w', tl, mp. split; [by rewrite <- (offered_to_ext _ _ _ _ _ (Hs7 _))|]. split; [exact E'|]. split.
  - split.
    + apply (fa_repr w6 w' tl tp _ Hfa Htl6); [by rewrite (tc_db _ _ Htc), (env_db _ _ He7)|].
      by apply (topics_repr_keeps w5); [apply extends_keeps, extends_alloc|done|].
    + exists (retaining mp tp), l. split; [|done]. by apply (fa_named w6 w' tl tp (retaining mp tp) Hfa Htl6).
    + apply (holds_kept w7); [done|]. intros y o Ho Hy. apply (tc_other _ _ Htc y o Hy).
      intros cl ->. by destruct Ho as [[? ?]|[? ?]].
    + intros o Ho. apply Hx in Ho. exists tp. congruence.
    + intros y o Hy Ho Hyo. apply (tc_other _ _ Htc); [|done]. apply Ho7; [done|]. by apply Hx.
    + intros y cl Hy. apply (tc_client _ _ Htc). apply Ho7; [|by apply Hx]. intros ->. apply Hx in Hy. congruence.
    + by rewrite (tc_interest _ _ Htc), Hk7.
    + rewrite (tc_db _ _ Htc), (env_db _ _ He7). exact (topics_env_epollfd _ _ He5).
  - intros fd. rewrite Hsocks. destruct (decide (cl_fd dl = fd)); [done|]. by apply offered_to_ext.
Qed.

(** The second event of a PUBLISH that is to be retained: [w1] is the state once the packet
    was distributed and acknowledged. *)
Lemma retain_reply w0 w g d dl so idl bs name q ret dup t m slack xs cs fds p r :
  publishing w0 w d dl so (pub_packet q ret dup t m slack) p r →
  cl_id dl = Some idl → at_loc w idl = Some (OStr bs) → cstr bs = Ok name → ret ≠ 0 →
  is_str t → is_str m → Z.of_nat (14 + length t + length m + length slack) < 2 ^ 31 →
  topic_ready w g t xs None → Forall2 (subscriber w) xs cs →
  Forall2 (λ c fd, ∃ cl, at_loc w c = Some (OClient cl) ∧ cl_fd cl = fd) cs fds → NoDup fds →
  let buf := publish_buffer (pub_packet q ret dup t m slack) t m (length slack) in
  ∃ so1 w1 w' tl mp, offered_to buf fds w (cl_fd dl) = Some so1
    ∧ reply_handler calloc_ok true (Some d) w = Ok (if decide (q = 1 ∧ tx_accepts (tx so1) 8 ≠ 8) then -1 else 0, w')
    ∧ retained_at w w1 g t tl mp q m xs
    ∧ (∃ dl', at_loc w' d = Some (OClient dl') ∧ cl_ctx_handler dl' = RequestHandler ∧ cl_reply dl' = None)
    ∧ (∀ y o, y ≠ d → at_loc w1 y = Some o → (∀ rep, o ≠ OReply rep) → (∀ pkt, o ≠ OPublish pkt) →
         at_loc w' y = Some o)
    ∧ follows w1 w' ∧ armed w' (cl_fd dl) = Some (event_for EPOLLIN (cl_fd dl) (Some d))
    ∧ (∀ fd, cl_fd dl ≠ fd → armed w' fd = armed w fd) ∧ topics (db w') = topics (db w1)
    ∧ ∀ fd, get_sock w' fd = if decide (cl_fd dl = fd) then Some (puback q so1) else offered_to buf fds w fd.
Proof.
  intros [Hd Hr Hp _ _ _ Hs Hi _ Hwf] Hid Hidl Hbs Hrz Ht Hm Hsz Hready Hsubs Hfds Hnd buf.
  set (dl1 := with_handler _ _) in Hd. set (rep := mk_reply PUBLISH (cl_fd dl) (Some p) None) in *.
  assert (Hso : get_sock w (cl_fd dl1) = Some so) by (by rewrite Hs, decide_True).
  destruct (reply_publish_retain w g d dl1 idl bs name rep p q ret dup t m slack xs cs fds so)
    as (so1 & w1 & tl & mp & Hoff & E1 & Hra & Hs1); try done.
  change (cl_fd dl1) with (cl_fd dl) in *.
  destruct (ra_client _ _ _ _ _ _ _ _ _ Hra d dl1 Hd) as [ts Hd1].
  assert (Hkept : ∀ y o, at_loc w y = Some o → (∀ tp, o ≠ OTopic tp) → (∀ cl, o ≠ OClient cl) → at_loc w1 y = Some o).
  { intros y o Hy Hnt Hnc. apply (ra_other _ _ _ _ _ _ _ _ _ Hra); [|done..]. intros ->.
    destruct (ra_topic _ _ _ _ _ _ _ _ _ Hra o Hy) as [tp ->]. by apply (Hnt tp). }
  pose proof (Hkept r _ Hr ltac:(done) ltac:(done)) as Hr1. pose proof (Hkept p _ Hp ltac:(done) ltac:(done)) as Hp1.
  assert (Ha1 : ∀ fd, armed w1 fd = armed w fd).
  { intros fd. unfold armed. by rewrite (ra_interest _ _ _ _ _ _ _ _ _ Hra), (ra_epollfd _ _ _ _ _ _ _ _ _ Hra). }
  assert (Hso1 : get_sock w1 (cl_fd dl) = Some (puback q so1)) by (by rewrite Hs1, decide_True).
  set (rc := if decide _ then -1 else 0) in E1.
  destruct (finish_reply_run w1 d (with_last_action ts dl1) (puback q so1) r rep p _ rc Hd1 eq_refl Hr1 eq_refl Hp1)
    as (w' & E & Hd' & _ & _ & Ho & Hi' & Hsb); [by eexists|done|cbn; rewrite Ha1, Hi; by eexists|].
  assert (Hold : ∀ y o, y ≠ d → at_loc w1 y = Some o → (∀ rep, o ≠ OReply rep) → (∀ pkt, o ≠ OPublish pkt) → at_loc w' y = Some o).
  { intros y o Hy Hyo Hnr Hnp. rewrite Ho; [done|done|intros ->; congruence..]. }
  exists so1, w1, w', tl, mp. split_and!; try done.
  - unfold reply_handler. run_deref. cbn [cl_reply dl1 with_handler with_reply]. rewrite decide_False by done.
    run_deref. cbn [r_opcode rep]. rewrite decide_True by done. by rewrite (M_bind_run _ _ _ _ _ E1).
  - eexists. split; [exact Hd'|done].
  - eapply follows_client; [exact Hd1|exact Hd'|done|]. intros y o Hy Hkind Hyo. apply Hold; naive_solver.
  - intros fd Hfd. rewrite <- Ha1. unfold armed. rewrite (sbi_others _ _ _ Hsb); [by rewrite (sbi_db _ _ _ Hsb)|cbn; congruence].
  - by rewrite (sbi_db _ _ _ Hsb).
  - intros fd. rewrite (get_sock_sbi _ _ _ _ Hsb), Hs1. done.
Qed.

(** The two events of a PUBLISH that is to be retained. *)
Definition retain_outcome (w : World) (g : gmap (list Z) loc) (d : loc) (dl : Client) (so : Sock) (q ret dup : Z)
    (t m slack : list Z) (xs : list (loc * ptr)) (fds : list Z) (w2 : World) (tl mp : loc) : Prop :=
  let buf := publish_buffer (pub_packet q ret dup t m slack) t m (length slack) in
  ∃ w1 rest so1 rc,
    let w0 := set_sock (cl_fd dl) (mk_sock rest (tx so) (sent_bytes so)) w in
    request_handler calloc_ok true (length (rx so)) (Some d) w = Ok (0, w1)
    ∧ offered_to buf fds w0 (cl_fd dl) = Some so1
    ∧ rc = (if decide (q = 1 ∧ tx_accepts (tx so1) 8 ≠ 8) then -1 else 0)
    ∧ reply_handler calloc_ok true (Some d) w1 = Ok (rc, w2)
    ∧ (∀ fd, get_sock w2 fd = if decide (cl_fd dl = fd) then Some (puback q so1) else offered_to buf fds w fd)
    ∧ armed w2 (cl_fd dl) = Some (event_for EPOLLIN (cl_fd dl) (Some d))
    ∧ (∀ fd, cl_fd dl ≠ fd → armed w2 fd = armed w fd)
    ∧ (∃ dl', at_loc w2 d = Some (OClient dl') ∧ cl_ctx_handler dl' = RequestHandler ∧ cl_reply dl' = None)
    ∧ (∀ y cl, y ≠ d → at_loc w y = Some (OClient cl) → ∃ ts, at_loc w2 y = Some (OClient (with_last_action ts cl)))
    ∧ topic_ready w2 (<[t := tl]> g) t xs (Some mp) ∧ holds w2 mp q t m ∧ heap_wf w2.

Lemma retain_exchange w g d dl so idl bs name q ret dup t m slack more xs cs fds :
  heap_wf w → at_loc w d = Some (OClient dl) → get_sock w (cl_fd dl) = Some so →
  carries so PUBLISH (pub_payload q ret dup t m slack) more →
  cl_id dl = Some idl → at_loc w idl = Some (OStr bs) → cstr bs = Ok name →
  is_byte q → is_byte ret → ret ≠ 0 → is_byte dup → is_str t → is_str m → Forall is_byte slack → t ≠ [] →
  Z.of_nat (length t) < 2 ^ 16 → Z.of_nat (length (pub_payload q ret dup t m slack)) ≤ ONEMB * 2 →
  topic_ready w g t xs None → Forall2 (subscriber w) xs cs →
  Forall2 (λ c fd, ∃ cl, at_loc w c = Some (OClient cl) ∧ cl_fd cl = fd) cs fds → NoDup fds →
  is_Some (armed w (cl_fd dl)) →
  ∃ w2 tl mp, retain_outcome w g d dl so q ret dup t m slack xs fds w2 tl mp.
Proof.
  intros Hwf Hd Hso Hcar Hid Hidl Hbs Hq Hret Hrz Hdup Ht Hm Hk Hne Hl Hmax Hready Hsubs Hfds Hnd Hi.
  destruct (publish_request calloc_ok true w d dl so q ret dup t m slack more Hwf Hd Hso Hcar Hq Hret Hdup Ht Hm Hk Hne Hl Hmax Hi)
    as (rest & w4 & p & r & E4 & Hpg). pose proof Hpg as [Hd4 _ _ _ Hold Hdb4 Hs4 _ Ho4 Hwf4].
  set (so0 := mk_sock rest (tx so) (sent_bytes so)) in *.
  assert (Hfo : follows w w4) by (eapply follows_client; [exact Hd|exact Hd4|done|]; intros; by apply Hold).
  destruct (retain_reply w w4 g d dl so0 idl bs name q ret dup t m slack xs cs fds p r Hpg)
    as (so1 & w5 & w6 & tl & mp & Hoff & E & Hra & Hd6 & Ho6 & Hfo6 & Hi6 & Ha6 & Htop6 & Hs6); try done.
  { apply Hold; [congruence|done]. }
  { destruct (pub_payload_enc q ret dup t m slack) as [Hpl _]. rewrite Hpl in Hmax. unfold ONEMB in Hmax. lia. }
  { by apply (topic_ready_keeps w); [apply Hfo|..]. }
  { by apply (subscribers_follow w). }
  { by apply (descriptors_follow w). }
  set (rc := if decide _ then -1 else 0) in E.
  destruct (moves_ok (moves_request calloc_ok true False (False_ind _) _ _) Hwf (tr_lock _ _ _ _ _ Hready) E4) as [_ Hlock4].
  destruct (moves_ok (moves_reply calloc_ok true False (False_ind _) _) Hwf4 Hlock4 E) as [Hev6 Hlock6].
  destruct (ra_named _ _ _ _ _ _ _ _ _ Hra) as (tp & l & Hn & Hmp).
  exists w6, tl, mp, w4, rest, so1, rc. cbv zeta. split_and!; try done.
  - rewrite <- Hoff. symmetry. apply offered_to_ext. by rewrite Hs4, get_set_sock.
  - intros fd. rewrite Hs6. destruct (decide (cl_fd dl = fd)) as [|Hfd]; [done|].
    apply offered_to_ext. by rewrite Hs4, decide_False.
  - intros fd Hfd. by rewrite Ha6, Ho4.
  - intros y cl Hyd Hy. apply Hold in Hy; [|done]. destruct (ra_client _ _ _ _ _ _ _ _ _ Hra y cl Hy) as [ts' Hy5].
    exists ts'. by apply Ho6.
  - split; [by apply (topics_repr_keeps w5); [apply Hfo6|done|apply Hra]| | |done|apply Hready].
    + unfold topic_state. rewrite lookup_insert_eq. exists tp, l. split; [by apply (topic_named_keeps w5); [apply Hfo6|]|done].
    + intros Hg. by rewrite lookup_insert_eq in Hg.
  - apply (holds_kept w5); [apply Hra|]. intros y o Ho Hy. apply Ho6; try done; [intros ->|..];
      destruct Ho as [[? ->]|[? ->]]; try done;
      destruct (ra_client _ _ _ _ _ _ _ _ _ Hra d _ Hd4) as [ts Hd5]; congruence.
  - by apply Hev6.
Qed.

End Publishing.

(** * Properties *)

(** C9. A retained message reaches a client that subscribes after it was published.  Take
    two clients with descriptors of their own: on the second a PUBLISH that is to be
    retained, on a topic that retains nothing yet and that the first has not subscribed
    to; then on the first a SUBSCRIBE to it.  After the two events of each exchange, the
    socket of the first was offered the SUBACK and then the message, and nothing else. *)
Theorem retained_reaches_later_subscriber calloc_ok w g c cl sc q t slack more d dl sd idl bs name q' ret dup m
    slack' more' xs cs fds :
  heap_wf w → at_loc w c = Some (OClient cl) → get_sock w (cl_fd cl) = Some sc →
  at_loc w d = Some (OClient dl) → get_sock w (cl_fd dl) = Some sd → cl_fd cl ≠ cl_fd dl →
  is_Some (armed w (cl_fd cl)) → is_Some (armed w (cl_fd dl)) →
  carries sd PUBLISH (pub_payload q' ret dup t m slack') more' → carries sc SUBSCRIBE (sub_payload q t slack) more →
  cl_id dl = Some idl → at_loc w idl = Some (OStr bs) → cstr bs = Ok name →
  is_byte q → is_byte q' → is_byte ret → ret ≠ 0 → is_byte dup → is_str t → is_str m →
  Forall is_byte slack → Forall is_byte slack' → t ≠ [] → Z.of_nat (length t) < 2 ^ 16 →
  Z.of_nat (length (sub_payload q t slack)) ≤ ONEMB * 2 →
  Z.of_nat (length (pub_payload q' ret dup t m slack')) ≤ ONEMB * 2 →
  topic_ready w g t xs None → Forall2 (subscriber w) xs cs →
  Forall2 (λ c fd, ∃ cl, at_loc w c = Some (OClient cl) ∧ cl_fd cl = fd) cs fds → NoDup fds → cl_fd cl ∉ fds →
  ∃ rest w1 w2 w3 w4 r1 r2,
    request_handler calloc_ok true (length (rx sd)) (Some d) w = Ok (0, w1)
    ∧ reply_handler calloc_ok true (Some d) w1 = Ok (r1, w2)
    ∧ request_handler calloc_ok true (length (rx sc)) (Some c) w2 = Ok (0, w3)
    ∧ reply_handler calloc_ok true (Some c) w3 = Ok (r2, w4)
    ∧ get_sock w4 (cl_fd cl)
      = Some (after_both (mk_sock rest (tx sc) (sent_bytes sc)) (ack_buffer SUBACK 0) (retained_buffer q' t m)).
Proof.
  intros Hwf Hc Hsc Hd Hsd Hfd Hic Hid Hcp Hcs Hidl Hbs Hname Hq Hq' Hret Hrz Hdup Ht Hm Hsl Hsl' Hne Hl Hm1 Hm2
    Hready Hsubs Hfds Hnd Hnin.
  destruct (retain_exchange calloc_ok w g d dl sd idl bs name q' ret dup t m slack' more' xs cs fds) as
    (w2 & tl & mp & w1 & rest1 & so1 & rc & E1 & _ & _ & E2 & Hs2 & _ & Ha2 & _ & Hcl2 & Hready2 & Hmp2 & Hwf2); [done..|].
  destruct (Hcl2 c cl ltac:(congruence) Hc) as [ts Hc2].
  assert (Hsc2 : get_sock w2 (cl_fd cl) = Some sc).
  { rewrite Hs2, decide_False by done. unfold offered_to. by rewrite decide_False. }
  assert (Hsz : Z.of_nat (16 + length t + length m) < 2 ^ 31).
  { destruct (pub_payload_enc q' ret dup t m slack') as [Hpl _]. rewrite Hpl in Hm2. unfold ONEMB in Hm2. lia. }
  destruct (late_exchange calloc_ok w2 (<[t := tl]> g) c _ sc q t slack more xs mp q' m Hwf2 Hc2)
    as (w3 & w4 & tl' & l & rest & E3 & E4 & _ & _ & _ & Hs4 & _); try done.
  { change (is_Some (armed w2 (cl_fd cl))). by rewrite Ha2. }
  exists rest, w1, w2, w3, w4, rc. eexists. split; [exact E1|]. split; [exact E2|]. split; [exact E3|].
  split; [exact E4|]. rewrite Hs4. by rewrite decide_True.
Qed.

(** * Witnesses *)

Local Open Scope positive_scope.

(** The first client subscribes to [t] after the second has published [y] to it, to be
    retained. *)
Definition demo_keep_sock : Sock := demo_sock PUBLISH (pub_payload 1 1 0 [116%Z] [121%Z] [0%Z; 0%Z]).
Definition demo_late : World := demo_world
  [(5, OClient (demo_client 7 (Some 6) None None)); (6, demo_str [99%Z]);
   (8, OClient (demo_client 9 (Some 10) None None)); (10, demo_str [100%Z])]
  [(7%Z, demo_sub_sock); (9%Z, demo_keep_sock)].

Lemma demo_late_ready : topic_ready demo_late ∅ [116%Z] [] None.
Proof.
  split; [apply create_repr|by split| |done|done].
  intros _. apply (bool_decide_unpack _). vm_compute. reflexivity.
Qed.

Lemma retained_reaches_later_subscriber_witness : ∃ w1 w2 w3 w4 r1 r2 so,
  request_handler (λ _, true) true 2 (Some 8) demo_late = Ok (0%Z, w1)
  ∧ reply_handler (λ _, true) true (Some 8) w1 = Ok (r1, w2)
  ∧ request_handler (λ _, true) true 2 (Some 5) w2 = Ok (0%Z, w3)
  ∧ reply_handler (λ _, true) true (Some 5) w3 = Ok (r2, w4)
  ∧ get_sock w4 7%Z = Some so
  ∧ sent_bytes so = ((Some <$> [SUBACK; 0; 0; 0; 8; 0; 0; 0]%Z)
      ++ (Some <$> [PUBLISH; 0; 0; 0; 18; 0; 1; 0; 0; 0; 1; 1; 1; 0; 116; 121]%Z) ++ [None; None])%list.
Proof.
  destruct (retained_reaches_later_subscriber (λ _, true) demo_late ∅ 5 (demo_client 7 (Some 6) None None) demo_sub_sock
    1 [116%Z] [0%Z] [] 8 (demo_client 9 (Some 10) None None) demo_keep_sock 10 (cobj [100%Z]) [100%Z] 1 1 0 [121%Z]
    [0%Z; 0%Z] [] [] [] []
    ltac:(by apply demo_world_wf) eq_refl eq_refl eq_refl eq_refl ltac:(done) ltac:(by eexists) ltac:(by eexists)
    (demo_sock_carries _ _) (demo_sock_carries _ _) eq_refl eq_refl eq_refl ltac:(done) ltac:(done) ltac:(done) ltac:(done)
    ltac:(done) ltac:(by repeat constructor) ltac:(by repeat constructor) ltac:(by repeat constructor)
    ltac:(by repeat constructor) ltac:(done) ltac:(done) ltac:(done) ltac:(done) demo_late_ready
    ltac:(constructor) ltac:(constructor) ltac:(constructor) ltac:(apply not_elem_of_nil))
    as (rest & w1 & w2 & w3 & w4 & r1 & r2 & E1 & E2 & E3 & E4 & Hso).
  do 7 eexists. split; [exact E1|]. split; [exact E2|]. split; [exact E3|]. split; [exact E4|].
  split; [exact Hso|]. vm_compute. reflexivity.
Defined.
