(* ===== verification/Connect.v ===== *)
(** Connecting: the map of clients, and a CONNECT from its bytes to its acknowledgement. *)
From stdpp Require Import base numbers option list gmap.
From Stdlib Require Import ZArith Lia.
From S2P Require Import Prelude Memory Ringbuf Buffer Protocol Hashmap Chain Lists Queues Network.
From S2P Require Import Receive Util Sizigy Demo Server Broker Publish Subscribe Steps.

Local Open Scope Z_scope.

(** * The map of clients *)

(** The clients by identifier. *)
Definition clients_repr (w : World) (g : gmap (list Z) loc) : Prop :=
  hm_repr (str_of w) (clients (db w)) (Some <$> g).

(** The map has room for the identifier. *)
Definition admits (w : World) (s : list Z) : Prop := is_Some (place (str_of w) (clients (db w)) s).

Lemma set_clients_id w m : clients (db w) = m → set_clients m w = w.
Proof. intros <-. by destruct w as [?? [] ???]. Qed.

Lemma clients_del_run w g k s0 : clients_repr w g → key_is (str_of w) k s0 →
  ∃ rc m, clients_del k w = Ok (rc, set_clients m w)
    ∧ clients_repr (set_clients m w) (delete s0 g) ∧ ∀ s, admits w s → admits (set_clients m w) s.
Proof.
  intros Hr Hk. pose proof (repr_wf _ _ _ Hr) as Hwf. unfold clients_del.
  rewrite (hashmap_del_found _ _ k s0 Hwf (repr_lock _ _ _ Hr) Hk).
  destruct (found (str_of w) (clients (db w)) s0) as [i|] eqn:Hf; cbn [mbind res_bind]; do 2 eexists.
  - split; [done|]. split; [|by intros s; apply place_after_del].
    unfold clients_repr. rewrite fmap_delete. by apply hm_repr_del.
  - split; [done|]. rewrite set_clients_id by done. split; [|done].
    rewrite delete_id; [done|]. pose proof (repr_lookup _ _ _ Hr s0) as Hl. rewrite lookup_fmap in Hl.
    apply (mlookup_None _ _ _ Hwf) in Hf. rewrite Hf in Hl. by destruct (g !! s0).
Qed.

Lemma clients_put_run calloc_ok w g k s c : clients_repr w g → key_is (str_of w) k s → g !! s = None →
  admits w s →
  ∃ m, clients_put calloc_ok k (Some c) w = Ok (HASHMAP_OK, set_clients m w)
    ∧ clients_repr (set_clients m w) (<[s := c]> g).
Proof.
  intros Hr Hk Hg [i Hp]. unfold clients_put.
  rewrite (hashmap_put_cases _ calloc_ok 1 _ k s _ (repr_wf _ _ _ Hr) (repr_lock _ _ _ Hr) Hk), Hp.
  eexists. split; [done|]. unfold clients_repr. rewrite fmap_insert. eapply hm_repr_put; try done.
  by rewrite lookup_fmap, Hg.
Qed.

Lemma del_client_run w g c cl il s0 : clients_repr w g → at_loc w c = Some (OClient cl) → cl_id cl = Some il →
  key_is (str_of w) (KPtr il) s0 →
  ∃ m, del_client (Some c) w = Ok ((), set_clients m w)
    ∧ clients_repr (set_clients m w) (delete s0 g) ∧ ∀ s, admits w s → admits (set_clients m w) s.
Proof.
  intros Hr Hc Hid Hk. destruct (clients_del_run w g _ s0 Hr Hk) as (rc & m & E & Hm).
  exists m. split; [|done]. unfold del_client. run_deref. rewrite Hid. cbn [to_key of_option mbind res_bind lift].
  erewrite M_bind_run by done. by rewrite (M_bind_run _ _ _ _ _ E).
Qed.

Lemma add_client_run calloc_ok w g c cl il s : clients_repr w g → at_loc w c = Some (OClient cl) →
  cl_id cl = Some il → key_is (str_of w) (KPtr il) s → g !! s = None → admits w s →
  ∃ m, add_client calloc_ok (Some c) w = Ok ((), set_clients m w) ∧ clients_repr (set_clients m w) (<[s := c]> g).
Proof.
  intros Hr Hc Hid Hk Hg Ha. destruct (clients_put_run calloc_ok w g _ s c Hr Hk Hg Ha) as (m & E & Hm).
  exists m. split; [|done]. unfold add_client. run_deref. rewrite Hid. cbn [to_key of_option mbind res_bind lift].
  erewrite M_bind_run by done. by rewrite (M_bind_run _ _ _ _ _ E).
Qed.

(** The string of a name that the map does not have can be freed: no stored key is it. *)
Lemma forget_stored (w w' : World) (m : Hashmap key loc) (g : gmap (list Z) loc) il s0 :
  hm_repr (str_of w) m (Some <$> g) → g !! s0 = None → str_at w il = Some s0 →
  (∀ l s, l ≠ il → str_at w l = Some s → str_at w' l = Some s) →
  ∀ k, stored_key m k → str_of w' k = str_of w k.
Proof.
  intros Hr Hg Hil Hk k (i & e & He & Hu & Hek).
  destruct (hm_keys _ _ (repr_wf _ _ _ Hr) i e He Hu) as (k' & s & Hk' & Hs & _).
  assert (k' = k) as -> by congruence. destruct k as [l|bs]; [|done]. cbn in *. rewrite Hs. apply Hk; [|done].
  intros ->. assert (s = s0) as -> by congruence.
  apply (repr_absent _ _ _ i s0 Hr); [by rewrite lookup_fmap, Hg|].
  unfold slot_str. rewrite He. cbn. rewrite Hu, Hek. exact Hs.
Qed.

(** Everything but the heap and the map of clients is the same. *)
Definition clients_env (w w' : World) : Prop := env_eq (set_clients (clients (db w')) w) w'.

(** The first half of a change of name: the old one leaves the map, its string is freed, and
    the client gets the new one. *)
Lemma rename_half calloc_ok w m c cl il bs obj s :
  heap_wf w → at_loc w c = Some (OClient cl) → cl_id cl = Some il → at_loc w il = Some (OStr bs) →
  cstr obj = Ok s → del_client (Some c) w = Ok ((), set_clients m w) →
  let nid := fresh_loc w in
  ∃ w4, (del_client (Some c);; free (cl_id cl);; id ← strdup_of obj; modify_at (Some c) (with_id id);;
         add_client calloc_ok (Some c);; mret 0) w = (add_client calloc_ok (Some c);; mret 0) w4
    ∧ heap_wf w4 ∧ fresh_loc w4 = Pos.succ nid ∧ clients (db w4) = m
    ∧ at_loc w4 c = Some (OClient (with_id (Some nid) cl)) ∧ at_loc w4 nid = Some (OStr (cobj s))
    ∧ at_loc w4 il = None ∧ (∀ l, l ≠ c → l ≠ nid → l ≠ il → at_loc w4 l = at_loc w l)
    ∧ env_eq (set_clients m w) w4.
Proof.
  intros Hwf Hc Hid Hil Hs E1 nid.
  assert (c ≠ il) by congruence. assert (nid ≠ c) by (by apply not_eq_sym; eapply old_loc).
  assert (nid ≠ il) by (by apply not_eq_sym; eapply (old_loc w)).
  rewrite (M_bind_run _ _ _ _ _ E1), Hid. set (w1 := set_clients m w) in *.
  assert (Hil1 : at_loc w1 il = Some (OStr bs)) by done. assert (Hc1 : at_loc w1 c = Some (OClient cl)) by done.
  assert (Hwf1 : heap_wf w1) by (by apply (heap_wf_same w)).
  run_free. set (w2 := remove il w1). assert (Hwf2 : heap_wf w2) by (by apply remove_wf).
  rewrite (M_bind_run _ _ _ _ _ (strdup_of_run w2 _ _ Hs)).
  change (fresh_loc w2) with nid. set (w3 := alloc (cobj s) w2).
  assert (Hwf3 : heap_wf w3) by (by apply alloc_wf).
  assert (Hc3 : at_loc w3 c = Some (OClient cl)).
  { unfold w3. rewrite at_alloc_ne by done. unfold w2. by rewrite at_remove_ne. }
  rewrite (M_bind_run _ _ _ _ _ (modify_client_run c cl (with_id (Some nid)) w3 Hc3)).
  eexists. split; [reflexivity|]. split_and!; try done.
  - apply update_wf; [done|]. by apply Hwf3 in Hc3.
  - by rewrite at_update_eq.
  - rewrite at_update_ne by done. exact (at_alloc_eq (cobj s) w2).
  - rewrite at_update_ne by done. unfold w3. rewrite at_alloc_ne by done. unfold w2. by rewrite at_remove, decide_True.
  - intros l ???. rewrite at_update_ne by congruence. unfold w3. rewrite at_alloc_ne by done.
    unfold w2. by rewrite at_remove_ne.
Qed.

(** A client that changes its name: the old one leaves the map and its string is freed, the
    new one enters. *)
Lemma rename_run calloc_ok w g c cl il bs s0 obj s :
  heap_wf w → clients_repr w g → at_loc w c = Some (OClient cl) → cl_id cl = Some il →
  at_loc w il = Some (OStr bs) → cstr bs = Ok s0 → cstr obj = Ok s →
  g !! s = None ∨ s = s0 → admits w s →
  let nid := fresh_loc w in
  ∃ w', (del_client (Some c);; free (cl_id cl);; id ← strdup_of obj; modify_at (Some c) (with_id id);;
         add_client calloc_ok (Some c);; mret 0) w = Ok (0, w')
    ∧ clients_repr w' (<[s := c]> (delete s0 g)) ∧ heap_wf w' ∧ fresh_loc w' = Pos.succ nid
    ∧ at_loc w' c = Some (OClient (with_id (Some nid) cl)) ∧ at_loc w' nid = Some (OStr (cobj s))
    ∧ at_loc w' il = None ∧ (∀ l, l ≠ c → l ≠ nid → l ≠ il → at_loc w' l = at_loc w l)
    ∧ clients_env w w'.
Proof.
  intros Hwf Hr Hc Hid Hil Hbs Hs Hg Hadm nid.
  assert (Hsil : str_at w il = Some s0) by (unfold str_at; by rewrite Hil, Hbs).
  destruct (del_client_run w g c cl il s0 Hr Hc Hid) as (m & E1 & Hr1 & Hadm1); [by apply key_of|].
  destruct (rename_half calloc_ok w m c cl il bs obj s Hwf Hc Hid Hil Hs E1)
    as (w4 & E4 & Hwf4 & Hf4 & Hm4 & Hc4 & Hn4 & Hil4 & Ho4 & He4). rewrite E4. fold nid in Hf4, Hc4, Hn4, Ho4.
  assert (Hkeys : ∀ k, stored_key m k → str_of w4 k = str_of w k).
  { apply (forget_stored w w4 m (delete s0 g) il s0); [exact Hr1|apply lookup_delete_eq|done|].
    intros l s' Hl. unfold str_at. destruct (at_loc w l) as [[]|] eqn:Ho; try done. rewrite Ho4; [by rewrite Ho|congruence| |done].
    exact (old_loc w l _ nid Hwf Ho (Pos.le_refl _)). }
  destruct (add_client_run calloc_ok w4 (delete s0 g) c (with_id (Some nid) cl) nid s) as (m' & E5 & Hr5).
  - unfold clients_repr. rewrite Hm4. by apply (hm_repr_frame (str_of w)).
  - done.
  - done.
  - by apply key_of, (str_at_cobj _ _ obj).
  - destruct (decide (s = s0)) as [->|Hne]; [apply lookup_delete_eq|]. rewrite lookup_delete_ne by done.
    by destruct Hg.
  - unfold admits. rewrite Hm4, (place_frame (str_of w)) by done. by apply Hadm1.
  - rewrite (M_bind_run _ _ _ _ _ E5). eexists. split; [done|]. split_and!; try done.
    unfold clients_env. destruct He4 as [Hk Hd Hcf Hn Hrs]. split; [exact Hk| |exact Hcf|exact Hn|exact Hrs].
    cbn [set_clients set_db db clients]. by rewrite Hd.
Qed.

(** * What a CONNECT does *)

(** The return code, the registered clients and the name of the client after it. *)
Definition connected (g : gmap (list Z) loc) (c : loc) (s0 id : list Z) (clean : Z) : Z * gmap (list Z) loc * list Z :=
  if decide (id = []) then (1, g, s0)
  else if decide (clean = 1) then (0, <[id := c]> (delete s0 g), id)
  else (0, <[s0 := c]> g, s0).

(** The name it is entered under is free and there is room for it. *)
Definition connectable (w : World) (g : gmap (list Z) loc) (s0 id : list Z) (clean : Z) : Prop :=
  id ≠ [] → if decide (clean = 1) then admits w id ∧ (g !! id = None ∨ id = s0)
            else admits w s0 ∧ g !! s0 = None.

(** A client with the string of its name. *)
Definition named (w : World) (cl : Client) (il : loc) (s : list Z) : Prop :=
  ∃ bs, cl_id cl = Some il ∧ at_loc w il = Some (OStr bs) ∧ cstr bs = Ok s.

Lemma with_id_id cl il : cl_id cl = Some il → with_id (Some il) cl = cl.
Proof. by destruct cl; cbn; intros ->. Qed.

Lemma connect_client_run calloc_ok w g c cl il s0 pkt id :
  heap_wf w → clients_repr w g → at_loc w c = Some (OClient cl) → named w cl il s0 →
  cstr (c_id pkt) = Ok id → c_idlen pkt = Z.of_nat (length id) →
  connectable w g s0 id (c_clean_session pkt) →
  let '(rc, g', s) := connected g c s0 id (c_clean_session pkt) in
  ∃ nid w', connect_client calloc_ok (Some c) cl pkt w = Ok (rc, w')
    ∧ clients_repr w' g' ∧ heap_wf w' ∧ (fresh_loc w ≤ fresh_loc w')%positive
    ∧ at_loc w' c = Some (OClient (with_id (Some nid) cl)) ∧ named w' (with_id (Some nid) cl) nid s
    ∧ (nid = il ∨ nid = fresh_loc w ∧ at_loc w' il = None)
    ∧ (∀ l, l ≠ c → l ≠ nid → l ≠ il → at_loc w' l = at_loc w l) ∧ clients_env w w'.
Proof.
  intros Hwf Hr Hc (bs & Hid & Hil & Hbs) Hs Hlen Hcon. unfold connected, connect_client.
  destruct (decide (id = [])) as [->|Hne].
  { rewrite decide_True by done. exists il, w. rewrite with_id_id by done. split_and!; try done; [by exists bs|by left|].
    unfold clients_env. by rewrite set_clients_id. }
  rewrite (decide_False (P := c_idlen pkt = 0)) by (destruct id; [done|cbn in Hlen; lia]). specialize (Hcon Hne).
  destruct (decide (c_clean_session pkt = 1)) as [Hcl|Hcl].
  - destruct Hcon as [Hadm Hfree].
    destruct (rename_run calloc_ok w g c cl il bs s0 (c_id pkt) id)
      as (w' & E & Hr' & Hwf' & Hf' & Hc' & Hn' & Hgone & Ho & He); [done..|].
    exists (fresh_loc w), w'. split_and!; try done; [lia| |by right].
    exists (cobj id). split_and!; [done|done|]. by apply cstr_nul, (cstr_no_nul _ _ Hs).
  - destruct Hcon as [Hadm Hg].
    destruct (add_client_run calloc_ok w g c cl il s0 Hr Hc Hid) as (m & E & Hrm); [|done|done|].
    { apply key_of. cbn. unfold str_at. by rewrite Hil, Hbs. }
    rewrite (M_bind_run _ _ _ _ _ E). exists il, (set_clients m w). rewrite with_id_id by done.
    split_and!; try done; [by exists bs|by left].
Qed.

(** The acknowledgement, and the packet freed. *)
Lemma connack_run w c cl p (a : Connect) rc :
  heap_wf w → at_loc w c = Some (OClient cl) → at_loc w p = Some (OConnect a) → is_byte rc →
  let b := fresh_loc w in let r := Pos.succ b in
  ∃ w', (set_ack_reply (Some c) CONNACK rc;; update_client_last_action (Some c);; free_connect (Some p);; mret 0) w
        = Ok (0, w') ∧ env_eq w w' ∧ heap_wf w'
    ∧ at_loc w' c = Some (OClient (with_last_action (wrap64 (now w)) (with_reply (Some r) cl)))
    ∧ at_loc w' r = Some (OReply (mk_reply CONNACK (cl_fd cl) (Some b) None))
    ∧ at_loc w' b = Some (OBuffer (ack_buffer CONNACK rc)) ∧ at_loc w' p = None
    ∧ ∀ l, l ≠ c → l ≠ r → l ≠ b → l ≠ p → at_loc w' l = at_loc w l.
Proof.
  intros Hwf Hc Ha Hrc b r.
  destruct (acknowledge_run w c cl p _ CONNACK rc Hwf Hc Ha) as (w1 & Hk & _ & Hp1 & H); [congruence|done..|].
  exists (remove p w1). split; [|exact H]. rewrite Hk. by run_release.
Qed.

Section Exchange.
Context (calloc_ok : Z → bool) (queue_ok : bool).

Lemma connect_handler_run w g c cl il s0 p pkt id :
  heap_wf w → clients_repr w g → at_loc w c = Some (OClient cl) → named w cl il s0 →
  cl_ptr cl = Some p → at_loc w p = Some (OConnect pkt) →
  cstr (c_id pkt) = Ok id → c_idlen pkt = Z.of_nat (length id) →
  connectable w g s0 id (c_clean_session pkt) →
  let '(rc, g', s) := connected g c s0 id (c_clean_session pkt) in
  ∃ nid b r w', connect_handler calloc_ok (Some c) w = Ok (0, w') ∧ clients_repr w' g' ∧ heap_wf w'
    ∧ (fresh_loc w ≤ b)%positive ∧ r = Pos.succ b
    ∧ at_loc w' c = Some (OClient (with_last_action (wrap64 (now w)) (with_reply (Some r) (with_id (Some nid) cl))))
    ∧ at_loc w' r = Some (OReply (mk_reply CONNACK (cl_fd cl) (Some b) None))
    ∧ at_loc w' b = Some (OBuffer (ack_buffer CONNACK rc)) ∧ at_loc w' p = None
    ∧ named w' (with_id (Some nid) cl) nid s ∧ (nid = il ∨ (fresh_loc w ≤ nid)%positive ∧ at_loc w' il = None)
    ∧ (∀ l, l ≠ c → l ≠ nid → l ≠ il → l ≠ r → l ≠ b → l ≠ p → at_loc w' l = at_loc w l) ∧ clients_env w w'.
Proof.
  intros Hwf Hr Hc Hnm Hp Hpkt Hs Hlen Hcon.
  pose proof (connect_client_run calloc_ok w g c cl il s0 pkt id Hwf Hr Hc Hnm Hs Hlen Hcon) as Hrun.
  assert (is_byte (connected g c s0 id (c_clean_session pkt)).1.1) as Hrc
    by (unfold connected; by repeat case_decide).
  destruct (connected _ _ _ _ _) as [[rc g'] s]. cbn in Hrc.
  destruct Hrun as (nid & w1 & E1 & Hr1 & Hwf1 & Hf1 & Hc1 & Hnm1 & Hnid & Ho1 & He1).
  destruct Hnm as (bs & Hid & Hil & _). assert (p ≠ c) by congruence. assert (p ≠ il) by congruence.
  assert (p ≠ nid) by (destruct Hnid as [->|[-> _]]; [done|by eapply (old_loc w)]).
  assert (Hp1 : at_loc w1 p = Some (OConnect pkt)) by (by rewrite Ho1).
  destruct (connack_run w1 c _ p pkt rc Hwf1 Hc1 Hp1 Hrc)
    as (w' & E & He & Hwf' & Hc' & Hr' & Hb' & Hp' & Ho').
  set (b := fresh_loc w1) in *. set (r := Pos.succ b) in *.
  assert (Hstr : ∀ y bs', at_loc w1 y = Some (OStr bs') → at_loc w' y = Some (OStr bs')).
  { intros y bs' Hy. rewrite Ho'; [done|congruence| | |congruence]; eapply (old_loc w1); try done; unfold r, b; lia. }
  exists nid, b, r, w'. split_and!; try done.
  - unfold connect_handler. run_deref. rewrite Hp. run_deref. by rewrite (M_bind_run _ _ _ _ _ E1).
  - unfold clients_repr. rewrite (env_db _ _ He). apply (repr_kept w1); [by apply kept_heap|done].
  - by rewrite Hc', (env_now _ _ He1).
  - destruct Hnm1 as (bs' & ? & Hx & ?). exists bs'. split_and!; auto.
  - destruct Hnid as [->|[-> Hgone]]; [by left|right]. split; [done|].
    assert (Hold : ∀ n, (fresh_loc w ≤ n)%positive → il ≠ n) by (intros n; by apply (old_loc w _ _ _ Hwf Hil)).
    rewrite Ho'; [done|congruence| | |done]; apply Hold; unfold r, b; lia.
  - intros l ??????. by rewrite Ho', Ho1.
  - unfold clients_env. rewrite (env_db _ _ He). etrans; [exact He1|done].
Qed.

(** ** The bytes *)

(** What follows the header of a CONNECT, in the order in which it is read. *)
Definition con_payload (clean ka : Z) (id slack : list Z) : list Z :=
  be_split 2 (Z.of_nat (length id)) ++ be_split 1 clean ++ be_split 2 ka ++ id ++ slack.
Definition con_packet (clean ka : Z) (id slack : list Z) : Connect :=
  mk_connect (mk_header CONNECT (Z.of_nat (10 + length id + length slack))) (Z.of_nat (length id)) (cobj id) ka clean.

Lemma dec_con_payload sz clean ka id slack :
  Z.of_nat sz < 2 ^ 32 → is_byte clean → urange 16 ka → Z.of_nat (length id) < 2 ^ 16 →
  dec_connect (enc_header CONNECT sz ++ con_payload clean ka id slack)
  = Some (mk_connect (mk_header CONNECT (Z.of_nat sz)) (Z.of_nat (length id)) (cobj id) ka clean, slack).
Proof.
  intros Hsz Hcl Hka Hl. assert (is_byte CONNECT) by done.
  unfold dec_connect, con_payload, mbind, parser_bind, mbind, option_bind, mret, parser_ret.
  rewrite dec_header_app by done. dec_steps. by rewrite dec_string_app.
Qed.

Lemma unpack_con_packet clean ka id slack w :
  is_byte clean → urange 16 ka → is_str id → Forall is_byte slack → Z.of_nat (length id) < 2 ^ 16 →
  Z.of_nat (length (con_payload clean ka id slack)) ≤ ONEMB * 2 →
  unpack_packet CONNECT (block (frame CONNECT (con_payload clean ka id slack))) w
  = Ok (Some (fresh_loc w), alloc (con_packet clean ka id slack) w).
Proof.
  intros Hcl Hka Hid Hsl Hl Hmax. change (unpack_packet CONNECT) with (unpacked (A := Connect) unpack_connect).
  assert (Hpl : length (con_payload clean ka id slack) = (5 + length id + length slack)%nat).
  { unfold con_payload. rewrite !length_app, !length_be_split. lia. }
  rewrite frame_enc, Hpl by done. rewrite Hpl in Hmax. unfold ONEMB in Hmax.
  eapply (unpacked_run unpack_connect dec_connect _ _ slack).
  - apply unpack_connect_parses.
  - unfold con_payload. bytes_ok.
  - unfold con_packet. apply dec_con_payload; [lia|done..].
Qed.

Lemma run_connect c fr ex :
  run_commands (commands_hashmap calloc_ok queue_ok) CONNECT c fr ex
  = (r ← connect_handler calloc_ok c; mret (r, true)).
Proof. reflexivity. Qed.

(** ** The exchange *)

(** The two events of a CONNECT: the first registers the client, the second sends the
    CONNACK, and then the client waits for its next request. *)
Definition connect_outcome (w : World) (g : gmap (list Z) loc) (c : loc) (cl : Client) (il : loc) (so : Sock)
    (s0 id : list Z) (clean : Z) : Prop :=
  let n := tx_accepts (tx so) 8 in
  let '(rc, g', s) := connected g c s0 id clean in
  ∃ w1 w2 nid p rest, request_handler calloc_ok queue_ok (length (rx so)) (Some c) w = Ok (0, w1)
    ∧ reply_handler calloc_ok queue_ok (Some c) w1 = Ok (if decide (n = 8) then 0 else -1, w2)
    ∧ clients_repr w2 g' ∧ at_loc w2 c = Some (OClient (served w (with_id (Some nid) cl) p))
    ∧ named w2 (with_id (Some nid) cl) nid s
    ∧ (nid = il ∨ at_loc w nid = None ∧ at_loc w2 il = None)
    ∧ (∀ y, y ≠ c → y ≠ nid → y ≠ il → at_loc w2 y = at_loc w y)
    ∧ armed w2 (cl_fd cl) = Some (event_for EPOLLIN (cl_fd cl) (Some c))
    ∧ (∀ fd, get_sock w2 fd = if decide (cl_fd cl = fd)
                              then Some (after_send (mk_sock rest (tx so) (sent_bytes so))
                                           (Some <$> ack_bytes CONNACK rc) 8)
                              else get_sock w fd)
    ∧ (∀ fd, cl_fd cl ≠ fd → armed w2 fd = armed w fd)
    ∧ topics (db w2) = topics (db w).

(** Receiving the packet keeps the clients. *)
Lemma received_keeps w wb fd so c cl cl2 g il s0 id clean :
  heap_wf w → clients_repr w g → at_loc w c = Some (OClient cl) → env_eq (set_sock fd so w) wb →
  (∀ l, l ≠ c → l ≠ fresh_loc w → at_loc wb l = at_loc w l) → cl_id cl2 = cl_id cl →
  named w cl il s0 → connectable w g s0 id clean →
  clients_repr wb g ∧ named wb cl2 il s0 ∧ connectable wb g s0 id clean ∧ il ≠ c ∧ db wb = db w.
Proof.
  intros Hwf Hr Hc Heb Hob Hid (bs & Hidl & Hil & Hbs) Hcon.
  assert (Hdb : db wb = db w) by (by rewrite (env_db _ _ Heb)).
  assert (Hkb : strings_kept w wb).
  { apply kept_heap. intros y bs' Hy. rewrite Hob; [done|congruence|by eapply (old_loc w)]. }
  assert (il ≠ c) by congruence. assert (il ≠ fresh_loc w) by (by eapply (old_loc w)).
  split_and!; [|exists bs; split_and!; [congruence|by rewrite Hob|done]| |done|done].
  - unfold clients_repr. rewrite Hdb. by apply (repr_kept w).
  - intros Hne. specialize (Hcon Hne). unfold admits in *. rewrite Hdb.
    by rewrite !(place_kept w wb) by (done || apply (repr_wf _ _ _ Hr)).
Qed.


End Exchange.

(** * Witness *)

Local Open Scope positive_scope.

(** A client that still has the random name it was accepted under connects as [x], with a
    clean session. *)
Definition demo_con : list Z := con_payload 1 30 [120%Z] [0%Z].

