(* ===== verification/Accept.v ===== *)
(** Accepting: a connection becomes a client that waits for its first request, or is
    lost together with the listening descriptor. *)
From stdpp Require Import base numbers option list gmap.
From Stdlib Require Import ZArith Lia.
From S2P Require Import Prelude Memory Ringbuf Buffer Protocol Hashmap Chain Lists Queues Network.
From S2P Require Import Receive Util Sizigy Demo Server Broker Publish Subscribe Steps.

Local Open Scope Z_scope.

(** * Running the parts *)

Lemma add_epoll_run w efd fd data so :
  get_sock w fd = Some so → interest (w_kernel w) !! (efd, fd) = None →
  add_epoll efd fd data w
  = Ok ((), set_kernel (mk_kernel (socks (w_kernel w))
              (<[(efd, fd) := event_for EPOLLIN fd data]> (interest (w_kernel w)))) w).
Proof.
  intros Hso Hi. unfold add_epoll, epoll_ctl. rewrite Hso. change (get_kernel w) with (w_kernel w).
  by rewrite Hi.
Qed.

Lemma accept_connection_run w fd so : 0 ≤ fd → accept_connection fd so true w = Ok (fd, set_sock fd so w).
Proof. intros Hfd. unfold accept_connection. by rewrite decide_False by lia. Qed.

Lemma take_rands_run n w :
  take_rands n w = Ok (take n (rands w), mk_world (w_heap w) (w_kernel w) (db w) (config w) (now w) (drop n (rands w))).
Proof. done. Qed.

Lemma new_name_run w : (16 ≤ length (rands w))%nat →
  ∃ s w', new_name 16 w = Ok (Some (fresh_loc w), w') ∧ length s = 16%nat ∧ is_str s ∧ Forall (.∈ pool) s
    ∧ w' = alloc (cobj s) (mk_world (w_heap w) (w_kernel w) (db w) (config w) (now w) (drop 16 (rands w))).
Proof.
  intros Hl. destruct (random_name_string (take 16 (rands w)) 16) as (s & E & Hs & Hstr & Hp).
  { rewrite length_take. lia. }
  do 2 eexists. split_and!; [|exact Hs|exact Hstr|exact Hp|reflexivity].
  unfold new_name. rewrite (M_bind_run _ _ _ _ _ (take_rands_run 16 w)). rewrite E. cbn [lift].
  by erewrite M_bind_run by done.
Qed.

(** Closing a descriptor takes it, and no other, off the interest lists. *)
Lemma interest_close (m : gmap (Z * Z) epoll_event) efd fd fd' : fd' ≠ fd →
  filter (λ '((_, f), _), f ≠ fd) m !! (efd, fd') = m !! (efd, fd').
Proof.
  intros Hne. destruct (m !! (efd, fd')) as [e|] eqn:Hm.
  - by apply map_lookup_filter_Some_2.
  - apply map_lookup_filter_None_2. by left.
Qed.

(** The client a connection is given, its address and its name, at the next locations. *)
Lemma accepted_client_run w ipb ip fd : heap_wf w → cstr ipb = Ok ip → (16 ≤ length (rands w))%nat →
  let c := fresh_loc w in let a := Pos.succ c in let i := Pos.succ a in
  ∃ s w', accepted_client ipb fd w = Ok (Some c, w') ∧ length s = 16%nat ∧ Forall (.∈ pool) s
    ∧ at_loc w' c = Some (OClient (mk_client ONLINE (wrap16 (keepalive (config w))) (wrap64 (now w)) (Some a)
                             fd RequestHandler (Some i) None None))
    ∧ at_loc w' a = Some (OStr (cobj ip)) ∧ at_loc w' i = Some (OStr (cobj s))
    ∧ (∀ y, y ≠ c → y ≠ a → y ≠ i → at_loc w' y = at_loc w y) ∧ w_kernel w' = w_kernel w ∧ db w' = db w.
Proof.
  intros Hwf Hip Hrs c a i. unfold accepted_client. rewrite M_get_run. run_malloc. fold c.
  set (c0 := mk_client _ _ _ _ _ _ _ _ _). set (w1 := alloc c0 w).
  rewrite (M_bind_run _ _ _ _ _ (strdup_of_run w1 _ _ Hip)).
  assert (Ha : fresh_loc w1 = a) by apply fresh_alloc. rewrite Ha. set (w2 := alloc (cobj ip) w1).
  assert (Hc2 : at_loc w2 c = Some (OClient c0)).
  { unfold w2. rewrite at_alloc_ne by (rewrite Ha; unfold a; lia). exact (at_alloc_eq c0 w). }
  assert (Ha2 : at_loc w2 a = Some (OStr (cobj ip))) by (rewrite <- Ha; exact (at_alloc_eq (cobj ip) w1)).
  rewrite (M_bind_run _ _ _ _ _ (modify_client_run c c0 (with_addr (Some a)) w2 Hc2)).
  set (w3 := update c _ w2). assert (Hc3 := at_update_eq c (OClient (with_addr (Some a) c0)) w2 : at_loc w3 c = _).
  rewrite (M_bind_run _ _ _ _ _ (update_last_run c _ w3 Hc3)).
  set (cl4 := with_last_action _ _). set (w4 := update c _ w3).
  destruct (new_name_run w4 Hrs) as (s & w5 & E5 & Hs & _ & Hpool & Hw5). rewrite (M_bind_run _ _ _ _ _ E5).
  assert (Hi : fresh_loc w4 = i).
  { unfold w4, w3, w2. by rewrite !fresh_update, fresh_alloc, Ha. }
  rewrite Hi in *.
  assert (Hat5 : ∀ y, y ≠ i → at_loc w5 y = at_loc w4 y).
  { intros y Hy. rewrite Hw5, at_alloc_ne; [done|]. change (y ≠ fresh_loc w4). by rewrite Hi. }
  assert (Hc5 : at_loc w5 c = Some (OClient cl4)).
  { rewrite Hat5 by (unfold i, a; lia). apply at_update_eq. }
  rewrite (M_bind_run _ _ _ _ _ (modify_client_run c cl4 (with_id (Some i)) w5 Hc5)). set (w6 := update c _ w5).
  rewrite (M_bind_run _ _ _ _ _ (modify_client_run c (with_id (Some i) cl4) (with_reply None) w6 (at_update_eq _ _ _))).
  assert (Hold : ∀ y o, y ≠ c → at_loc (update c o w6) y = at_loc w5 y).
  { intros y o Hy. unfold w6. by rewrite !at_update_ne by congruence. }
  assert (Hold4 : ∀ y, y ≠ c → at_loc w4 y = at_loc w2 y).
  { intros y Hy. unfold w4, w3. by rewrite !at_update_ne by congruence. }
  exists s. eexists. split; [done|]. split; [done|]. split; [done|]. split_and!.
  - by rewrite at_update_eq.
  - rewrite Hold, Hat5, Hold4 by (unfold i, a; lia). exact Ha2.
  - rewrite Hold by (unfold i, a; lia). rewrite Hw5.
    rewrite <- Hi. exact (at_alloc_eq (cobj s) _).
  - intros y Hyc Hya Hyi. rewrite Hold, Hat5, Hold4 by done. unfold w2. rewrite at_alloc_ne by (by rewrite Ha).
    unfold w1. by rewrite at_alloc_ne.
  - change (w_kernel w5 = w_kernel w). by rewrite Hw5.
  - change (db w5 = db w). by rewrite Hw5.
Qed.

(** The new descriptor is listed, and the listening one armed again. *)
Lemma listen_run w efd fd c so lfd sv lso : get_sock w fd = Some so → get_sock w lfd = Some lso →
  interest (w_kernel w) !! (efd, fd) = None → is_Some (interest (w_kernel w) !! (efd, lfd)) →
  (add_epoll efd fd c;; mod_epoll efd lfd EPOLLIN sv;; mret 0) w
  = Ok (0, set_kernel (mk_kernel (socks (w_kernel w))
             (<[(efd, lfd) := event_for EPOLLIN lfd sv]> (<[(efd, fd) := event_for EPOLLIN fd c]> (interest (w_kernel w))))) w).
Proof.
  intros Hso Hlso Hn Hi. rewrite (M_bind_run _ _ _ _ _ (add_epoll_run w efd fd c so Hso Hn)).
  set (w1 := set_kernel _ w). assert (Hlso1 : get_sock w1 lfd = Some lso) by done.
  assert (Hi1 : is_Some (interest (w_kernel w1) !! (efd, lfd))).
  { change (is_Some (<[(efd, fd) := event_for EPOLLIN fd c]> (interest (w_kernel w)) !! (efd, lfd))).
    rewrite lookup_insert_ne; [done|]. intros [= ->]. rewrite Hn in Hi. by destruct Hi. }
  by rewrite (M_bind_run _ _ _ _ _ (mod_epoll_run w1 efd lfd EPOLLIN sv lso Hlso1 Hi1)).
Qed.

(** * Accepting *)

Section Accept.
Variables (env : accept_env) (w : World) (sv : loc) (srv : Client).
Hypothesis (Hwf : heap_wf w) (Hsv : at_loc w sv = Some (OClient srv)).

(** C38. Accepting a connection on the client port makes a client for it: on line, with the
    keepalive of the configuration, the time, the printed address, a random name of sixteen
    letters, and no reply.  It waits for its first request, and the listening descriptor
    for the next connection.  No object of the broker changes, and the client is not in
    the map of clients: only a CONNECT enters it. *)
Theorem accept_makes_client ipb ip port so :
  0 ≤ ae_fd env → ae_ntop env = true → ae_peername env = true → ae_addr env = Some ipb → cstr ipb = Ok ip →
  ae_sin_port env = Some port → port ≠ bus_port (db w) → (16 ≤ length (rands w))%nat →
  get_sock w (cl_fd srv) = Some so → is_Some (armed w (cl_fd srv)) →
  armed w (ae_fd env) = None →
  ∃ c a i s w', accept_handler env (Some sv) w = Ok (0, w')
    ∧ at_loc w' c = Some (OClient (mk_client ONLINE (wrap16 (keepalive (config w))) (wrap64 (now w)) (Some a)
                             (ae_fd env) RequestHandler (Some i) None None))
    ∧ at_loc w' a = Some (OStr (cobj ip))
    ∧ at_loc w' i = Some (OStr (cobj s)) ∧ length s = 16%nat ∧ Forall (.∈ pool) s
    ∧ at_loc w c = None ∧ (∀ y o, at_loc w y = Some o → at_loc w' y = Some o)
    ∧ armed w' (ae_fd env) = Some (event_for EPOLLIN (ae_fd env) (Some c))
    ∧ armed w' (cl_fd srv) = Some (event_for EPOLLIN (cl_fd srv) (Some sv))
    ∧ get_sock w' (ae_fd env) = Some (ae_traffic env) ∧ db w' = db w.
Proof.
  intros Hfd Hnt Hpn Ha Hip Hp Hport Hrs Hso Harm Hnew. set (fd := ae_fd env) in *.
  unfold accept_handler. run_deref. rewrite Hnt. fold fd.
  rewrite (M_bind_run _ _ _ _ _ (accept_connection_run w fd (ae_traffic env) Hfd)).
  rewrite decide_False by lia. rewrite Hpn, Ha, Hp. cbn [negb]. set (w1 := set_sock fd _ w).
  destruct (accepted_client_run w1 ipb ip fd) as (s & w2 & E & Hs & Hpool & Hc2 & Ha2 & Hi2 & Ho2 & Hk2 & Hd2); [done..|].
  change (fresh_loc w1) with (fresh_loc w) in *. set (c := fresh_loc w) in *.
  rewrite (M_bind_run _ _ _ _ _ E), M_get_run, decide_False by (by rewrite Hd2). erewrite M_bind_run by done.
  rewrite Hd2. change (db w1) with (db w).
  assert (Hne : fd ≠ cl_fd srv) by (intros He; rewrite <- He, Hnew in Harm; by destruct Harm).
  assert (Hso2 : ∀ x, get_sock w2 x = get_sock w1 x).
  { intros x. unfold get_sock. change (get_kernel w2) with (w_kernel w2). by rewrite Hk2. }
  rewrite (listen_run w2 (epollfd (db w)) fd (Some c) (ae_traffic env) (cl_fd srv) (Some sv) so);
    rewrite ?Hso2, ?Hk2; [|apply get_set_sock_eq|unfold w1; by rewrite get_set_sock, decide_False|done..].
  exists c, (Pos.succ c), (Pos.succ (Pos.succ c)), s. eexists. split; [done|].
  split_and!; [exact Hc2|exact Ha2|exact Hi2|done|done|exact (heap_wf_fresh w Hwf)| | | | |exact Hd2].
  - intros y o Hy. rewrite <- Hy. apply Ho2; eapply (old_loc w); try done; lia.
  - unfold armed. cbn. rewrite Hd2. cbn. rewrite lookup_insert_ne by congruence. apply lookup_insert_eq.
  - unfold armed. cbn. rewrite Hd2. apply lookup_insert_eq.
  - unfold get_sock. cbn. apply lookup_insert_eq.
Qed.

(** Every call of an accept succeeds. *)
Definition ae_ok : bool :=
  bool_decide (0 ≤ ae_fd env) && ae_ntop env && ae_peername env && bool_decide (is_Some (ae_addr env))
    && bool_decide (is_Some (ae_sin_port env)).

(** C40. When one of the calls of an accept fails, the handler returns before it arms the
    one-shot event of the listening descriptor: the interest in it and in every other
    descriptor but the new one, the objects and the database are as before, so no worker is
    told of another connection.  A connection
    that was accepted before the failure stays open without a client. *)
Theorem accept_failure_stalls : ae_ok = false →
  ∃ w', accept_handler env (Some sv) w = Ok (-1, w')
    ∧ (∀ fd, fd ≠ ae_fd env → armed w' fd = armed w fd) ∧ w_heap w' = w_heap w ∧ db w' = db w
    ∧ (0 ≤ ae_fd env → ae_ntop env = true → get_sock w' (ae_fd env) = Some (ae_traffic env)).
Proof.
  intros Hok. unfold accept_handler. run_deref. destruct (decide (0 ≤ ae_fd env)) as [Hfd|Hfd]; last first.
  { exists w. unfold accept_connection. rewrite decide_True by lia. by split_and!. }
  destruct (ae_ntop env) eqn:Hnt; last first.
  { eexists. unfold accept_connection. rewrite decide_False by lia. split; [done|]. split_and!; [|done..].
    intros fd Hne. unfold armed. cbn. by apply interest_close. }
  rewrite (M_bind_run _ _ _ _ _ (accept_connection_run w _ (ae_traffic env) Hfd)). rewrite decide_False by lia.
  exists (set_sock (ae_fd env) (ae_traffic env) w). split; [|split_and!; [done..|intros _ _; apply get_set_sock_eq]].
  unfold ae_ok in Hok. rewrite bool_decide_eq_true_2, Hnt in Hok by done.
  destruct (ae_peername env); [|done]. destruct (ae_addr env); [|done]. by destruct (ae_sin_port env).
Qed.

End Accept.

(** * Witnesses *)

Local Open Scope positive_scope.

(** The listening client of descriptor 5, about to accept a connection on descriptor 7. *)
Definition demo_listening : World := demo_world [(8, OClient (demo_client 5 None None None))]
  [(5%Z, mk_sock [] [] [])].
Definition demo_connection (port : option Z) : accept_env :=
  mk_accept 7 (mk_sock [RxAgain] [] []) true true (Some (cobj [49%Z; 46%Z; 49%Z])) port.

Lemma accept_makes_client_witness : ∃ c w' cl,
  accept_handler (demo_connection (Some 9090%Z)) (Some 8) demo_listening = Ok (0%Z, w')
  ∧ at_loc w' c = Some (OClient cl) ∧ cl_fd cl = 7%Z
  ∧ armed w' 7 = Some (event_for EPOLLIN 7 (Some c)).
Proof.
  destruct (accept_makes_client (demo_connection (Some 9090%Z)) demo_listening 8 (demo_client 5 None None None)
    ltac:(by apply demo_world_wf) eq_refl (cobj [49%Z; 46%Z; 49%Z]) [49%Z; 46%Z; 49%Z] 9090 (mk_sock [] [] [])
    ltac:(done) eq_refl eq_refl eq_refl eq_refl eq_refl ltac:(done) ltac:(by vm_compute; lia) eq_refl
    ltac:(by eexists) eq_refl) as (c & a & i & s & w' & E & Hc & _ & _ & _ & _ & _ & _ & Harm & _).
  exists c, w'. eexists. split; [exact E|]. split; [exact Hc|]. split; [done|exact Harm].
Defined.

Lemma accept_failure_stalls_witness : ∃ w',
  accept_handler (demo_connection None) (Some 8) demo_listening = Ok ((-1)%Z, w')
  ∧ armed w' 5 = armed demo_listening 5.
Proof.
  destruct (accept_failure_stalls (demo_connection None) demo_listening 8 (demo_client 5 None None None)
    eq_refl eq_refl) as (w' & E & Hi & _).
  exists w'. split; [exact E|by apply Hi].
Defined.
