(* ===== verification/Shutdown.v ===== *)
(** Stopping the broker: the signal handler of main.c, the event descriptor it writes, and
    the threads that are to read it.

    Six threads run [worker] of server.c on one epoll instance: the bus worker, the four of
    the pool, and the main thread, which joins the others when its own loop has ended.  A
    thread leaves its loop when epoll_wait reports the event descriptor, or when a signal
    interrupts epoll_wait.  The keepalive thread reads the same descriptor.

    The state has the threads side by side and an action is one move of one of them, so a
    run is any interleaving.  The value of the event descriptor goes up by each write, a
    read takes all of it, and it is reported for as long as it is not zero. *)
From stdpp Require Import base numbers option list relations.
From Stdlib Require Import ZArith Lia.
From S2P Require Import Prelude Memory Hashmap Network Sizigy Server Broker.

Local Open Scope Z_scope.

(** * Definitions *)

(** A thread in [worker]: in epoll_wait; serving events, [quit] when the event descriptor is
    behind them in the batch; about to read the event descriptor, then to leave; running
    the signal handler, which interrupted its epoll_wait; or at the end. *)
Inductive wstate := Waiting | Serving (quit : bool) | Leaving | Interrupted | Left.

#[export] Instance wstate_eq_dec : EqDecision wstate.
Proof. solve_decision. Defined.

(** [to_write] counts the writes the signal handler has still to do; [counter] is the value
    of the event descriptor; [keeper] is [val] of the keepalive thread while it runs. *)
Record threads := mk_threads { to_write : nat; counter : Z; crew : list wstate; keeper : option Z }.

Inductive action :=
  | Write | Keep | Wake (i : nat) | Serve (i : nat) (quit : bool) | Served (i : nat) | Leave (i : nat)
  | Return (i : nat).

(** A move of thread [i], which may leave another value in the event descriptor. *)
Definition moved (i : nat) (s : threads) (f : wstate → option (Z * wstate)) : option threads :=
  x ← crew s !! i; '(n, y) ← f x; Some (mk_threads (to_write s) n (<[i := y]> (crew s)) (keeper s)).

(** The handler of SIGINT and SIGTERM: one write to the event descriptor for each thread of
    the pool and one more. *)
Definition sigint_handler : nat := S EPOLL_WORKERS.

(** The signal is delivered to thread [i], or to the keepalive thread when there is no such
    one; it ends an epoll_wait, nothing else. *)
Definition signalled (i : nat) (s : threads) : threads :=
  mk_threads sigint_handler (counter s)
    (match crew s !! i with Some Waiting => <[i := Interrupted]> (crew s) | _ => crew s end) (keeper s).

(** A turn of the keepalive thread: a read of nothing leaves [val] as it is. *)
Definition keeper_turn (s : threads) : option threads :=
  v ← keeper s;
  let v := if decide (0 < counter s) then counter s else v in
  Some (mk_threads (to_write s) 0 (crew s) (if decide (v = 1) then None else Some v)).

Definition act (a : action) (s : threads) : option threads :=
  match a with
  | Write =>
      match to_write s with
      | O => None
      | S n => Some (mk_threads n (counter s + 1) (crew s) (keeper s))
      end
  | Keep => keeper_turn s
  | Wake i => moved i s (λ x,
      if decide (x = Waiting ∧ 0 < counter s) then Some (counter s, Leaving) else None)
  | Serve i quit => moved i s (λ x,
      if decide (x = Waiting ∧ (quit = true → 0 < counter s)) then Some (counter s, Serving quit) else None)
  | Served i => moved i s (λ x,
      match x with Serving quit => Some (counter s, if quit : bool then Leaving else Waiting) | _ => None end)
  | Leave i => moved i s (λ x, if decide (x = Leaving) then Some (0, Left) else None)
  | Return i => moved i s (λ x,
      if decide (x = Interrupted ∧ to_write s = O) then Some (counter s, Left) else None)
  end.

Fixpoint run_actions (l : list action) (s : threads) : option threads :=
  match l with
  | [] => Some s
  | a :: l => s ← act a s; run_actions l s
  end.

(** The threads while the broker serves, [v] being what the keepalive thread has in [val]. *)
Definition running (v : Z) : threads := mk_threads 0 0 (replicate (S (S EPOLL_WORKERS)) Waiting) (Some v).

(** A thread that no read of the event descriptor is ahead of, and one that will read it
    next. *)
Definition stays (x : wstate) : bool := match x with Waiting | Serving false => true | _ => false end.
Definition goes (x : wstate) : bool := match x with Leaving | Serving true => true | _ => false end.

(** Nothing is under way that could stop a thread. *)
Definition stalled (s : threads) : Prop :=
  to_write s = O ∧ counter s = 0 ∧ Forall (λ x, ¬ goes x) (crew s).

(** The main thread ends when its loop and those it joins have. *)
Definition stopped (s : threads) : Prop := Forall (λ x, x = Left) (crew s).

(** * The moves and the code *)

(** The event descriptor, reported as readable, ends the loop of a worker. *)
Lemma worker_leaves calloc_ok queue_ok low_int fuel env evs waits w :
  worker calloc_ok queue_ok low_int fuel
    (((mk_event EPOLLIN (DataFd (run (config w))), env) :: evs) :: waits) w = Ok (false, w).
Proof.
  set (ev := mk_event _ _).
  assert (E : worker_event calloc_ok queue_ok low_int fuel env ev w = Ok (false, w)).
  { unfold worker_event. rewrite M_get_run. rewrite decide_False by (vm_compute; naive_solver).
    by rewrite decide_True. }
  cbn [worker worker_batch]. erewrite M_bind_run; [|by rewrite (M_bind_run _ _ _ _ _ E)]. done.
Qed.

(** The turn of the keepalive thread ends its loop when [val] is 1. *)
Lemma keeper_turn_agrees v w go w' : keepalive_turn (Some v) w = Ok (go, w') → go = bool_decide (v ≠ 1).
Proof.
  unfold keepalive_turn. cbn [of_option lift]. erewrite M_bind_run by done.
  case_decide as Hv; [intros [= <- _]; by rewrite bool_decide_eq_false_2 by naive_solver|].
  intros (? & ? & _ & [= <- _])%M_bind_Ok. by rewrite bool_decide_eq_true_2.
Qed.

(** * Lemmas *)

Lemma moved_inv i s f s' : moved i s f = Some s' → ∃ x n y, crew s !! i = Some x ∧ f x = Some (n, y)
  ∧ s' = mk_threads (to_write s) n (<[i := y]> (crew s)) (keeper s).
Proof.
  unfold moved. destruct (crew s !! i) as [x|] eqn:Hx; [|done]. cbn [mbind option_bind].
  destruct (f x) as [[n y]|] eqn:Hf; [|done]. intros [= <-]. by exists x, n, y.
Qed.

Lemma moved_run i s f x n y : crew s !! i = Some x → f x = Some (n, y) →
  moved i s f = Some (mk_threads (to_write s) n (<[i := y]> (crew s)) (keeper s)).
Proof. intros Hx Hf. unfold moved. rewrite Hx. cbn [mbind option_bind]. by rewrite Hf. Qed.

(** What an action does to the thread that moves. *)
Ltac inv_act H :=
  match type of H with
  | moved _ _ _ = Some _ =>
      let x := fresh "x" in let n := fresh "n" in let y := fresh "y" in
      let Hx := fresh "Hx" in let Hf := fresh "Hf" in
      apply moved_inv in H as (x & n & y & Hx & Hf & ->);
      repeat match type of Hf with
      | (if decide ?P then _ else _) = Some _ => destruct (decide P) as [[-> ?]|?]; [|done]
      | (if decide ?P then _ else _) = Some _ => destruct (decide P) as [->|?]; [|done]
      | match ?z with _ => _ end = Some _ => destruct z; try done
      end;
      injection Hf as <- <-
  end.

(** An invariant of every action is one of every run. *)
Lemma run_preserves (P : threads → Prop) l s s' :
  (∀ a s s', P s → act a s = Some s' → P s') → P s → run_actions l s = Some s' → P s'.
Proof.
  intros Hact. revert s. induction l as [|a l IH]; intros s Hs; cbn; [by intros [= <-]|].
  destruct (act a s) as [s1|] eqn:Ha; [|done]. apply IH. by eapply Hact.
Qed.

(** A thread that stays keeps staying while nothing can stop one. *)
Lemma stalled_act i a s s' : stalled s ∧ (∃ x, crew s !! i = Some x ∧ stays x) → act a s = Some s' →
  stalled s' ∧ (∃ x, crew s' !! i = Some x ∧ stays x).
Proof.
  intros [(Hw & Hc & Hall) (x & Hi & Hx)] H.
  assert (Hput : ∀ j z y, crew s !! j = Some z → ¬ goes y → (stays z → stays y) →
    stalled (mk_threads (to_write s) 0 (<[j := y]> (crew s)) (keeper s))
    ∧ (∃ x, <[j := y]> (crew s) !! i = Some x ∧ stays x)).
  { intros j z y Hj Hy Hst. split.
    - split_and!; [done|done|]. by apply Forall_insert.
    - destruct (decide (j = i)) as [->|Hji].
      + exists y. split; [apply list_lookup_insert_eq; by eapply lookup_lt_Some|]. apply Hst. by simplify_eq.
      + exists x. by rewrite list_lookup_insert_ne. }
  assert (Hgo : ∀ j y, crew s !! j = Some y → ¬ goes y) by (intros j y Hj; by apply (Forall_lookup_1 _ _ _ _ Hall Hj)).
  destruct a as [| |j|j q|j|j|j]; cbn [act] in H.
  - by rewrite Hw in H.
  - unfold keeper_turn in H. destruct (keeper s) as [v|]; [|done]. injection H as <-. split; [done|by exists x].
  - inv_act H. lia.
  - inv_act H. rewrite Hc. destruct q; [specialize (H eq_refl); lia|]. apply (Hput j Waiting); [done|by intros []|done].
  - inv_act H. rewrite Hc. destruct quit; [by destruct (Hgo _ _ Hx0)|]. apply (Hput j (Serving false)); [done|by intros []|done].
  - inv_act H. by destruct (Hgo _ _ Hx0).
  - inv_act H. rewrite Hc. apply (Hput j Interrupted); [done|by intros []|by intros []].
Qed.

(** The broker does not stop while a signal has not come, nor once what one wrote is used up. *)
Lemma stalled_run s l s' i x : stalled s → crew s !! i = Some x → stays x → run_actions l s = Some s' →
  ¬ stopped s'.
Proof.
  intros Hs Hi Hx Hrun Hst.
  assert (stalled s' ∧ ∃ x', crew s' !! i = Some x' ∧ stays x') as (_ & x' & Hi' & Hx').
  { apply (run_preserves (λ s, stalled s ∧ ∃ x, crew s !! i = Some x ∧ stays x) l s); eauto using stalled_act. }
  by pose proof (Forall_lookup_1 _ _ _ _ Hst Hi') as ->.
Qed.

(** ** Paced runs *)

(** The handler pauses after each write, for what it has written to take effect: no thread
    is about to read the event descriptor, and it was read, or no thread is left to. *)
Definition settled (s : threads) : Prop :=
  Forall (λ x, ¬ goes x) (crew s) ∧ (counter s = 0 ∨ Forall (λ x, ¬ stays x) (crew s)).

(** A move in which the pause was long enough and the keepalive thread is asleep. *)
Definition paced_step (s s' : threads) : Prop :=
  ∃ a, act a s = Some s' ∧ a ≠ Keep ∧ (a = Write → settled s).

(** How many threads of a kind there are. *)
Definition count (P : wstate → bool) (l : list wstate) : nat := length (filter P l).

Lemma count_insert P l i x y : l !! i = Some x →
  (count P (<[i := y]> l) + Nat.b2n (P x) = count P l + Nat.b2n (P y))%nat.
Proof.
  assert (Hcons : ∀ z l, count P (z :: l) = (Nat.b2n (P z) + count P l)%nat).
  { intros z l'. unfold count. rewrite filter_cons. by destruct (P z). }
  revert i. induction l as [|z l IH]; intros i; [done|]. destruct i as [|i].
  - intros [= ->]. change (<[0%nat := y]> (x :: l)) with (y :: l). rewrite !Hcons. lia.
  - intros Hi. change (<[S i := y]> (z :: l)) with (z :: <[i := y]> l). rewrite !Hcons. specialize (IH i Hi). lia.
Qed.

Lemma count_none P l : count P l = O ↔ Forall (λ x, ¬ P x) l.
Proof.
  unfold count. induction l as [|z l IH]; [by split; [constructor|]|].
  rewrite filter_cons, Forall_cons. case_decide; cbn [length]; naive_solver.
Qed.

Lemma count_some P l : count P l ≠ O → ∃ i x, l !! i = Some x ∧ P x.
Proof.
  rewrite count_none. intros Hn. destruct (decide (Exists P l)) as [(x & Hx & Hp)%Exists_exists|He].
  - apply list_elem_of_lookup in Hx as [i Hi]. eauto.
  - destruct Hn. by apply not_Exists_Forall in He; [|apply _].
Qed.

(** There are no more threads that stay than writes to come; a write that no thread has
    seen yet counts as one to come. *)
Definition covered (s : threads) : Prop :=
  0 ≤ counter s
  ∧ (count stays (crew s) ≤ to_write s + (if decide (count goes (crew s) = O ∧ (0 < counter s)%Z) then 1 else 0))%nat.

Lemma covered_step s s' : covered s → paced_step s s' → covered s'.
Proof.
  intros [Hc Hn] (a & Ha & Hk & Hp). unfold covered.
  destruct a as [| |j|j q|j|j|j]; cbn [act] in Ha; try done; [|inv_act Ha..];
    try (pose proof (λ y, count_insert stays _ _ _ y Hx) as H1; pose proof (λ y, count_insert goes _ _ _ y Hx) as H2);
    cbn [counter to_write crew].
  - destruct (to_write s) as [|n] eqn:Hw; [done|]. injection Ha as <-. cbn [counter to_write crew].
    destruct (Hp eq_refl) as [Hg%count_none Hs]. rewrite Hg in *. split; [lia|].
    rewrite decide_True by (split; [done|lia]). destruct Hs as [Hz|Hs%count_none]; [|lia].
    rewrite decide_False in Hn by lia. lia.
  - specialize (H1 Leaving). specialize (H2 Leaving). cbn [Nat.b2n stays goes] in *. split; [done|]. repeat case_decide; lia.
  - specialize (H1 (Serving q)). specialize (H2 (Serving q)). destruct q; cbn [Nat.b2n stays goes] in *; (split; [done|]); repeat case_decide; lia.
  - destruct quit; [specialize (H1 Leaving); specialize (H2 Leaving)|specialize (H1 Waiting); specialize (H2 Waiting)];
      cbn [Nat.b2n stays goes] in *; (split; [done|]); repeat case_decide; lia.
  - specialize (H1 Left). specialize (H2 Left). cbn [Nat.b2n stays goes] in *. split; [done|]. repeat case_decide; lia.
  - specialize (H1 Left). specialize (H2 Left). cbn [Nat.b2n stays goes] in *. split; [done|]. repeat case_decide; lia.
Qed.

Lemma paced_covered s s' : rtc paced_step s s' → covered s → covered s'.
Proof. induction 1; [done|]. intros Hs. eauto using covered_step. Qed.

(** ** Progress *)

(** What is left to do: writes, and moves of the threads. *)
Definition ahead (x : wstate) : nat :=
  match x with Serving _ => 3 | Waiting => 2 | Leaving | Interrupted => 1 | Left => 0 end.
Definition work (s : threads) : nat := (to_write s + sum_list_with ahead (crew s))%nat.

Lemma work_moved i s n x y : crew s !! i = Some x → (ahead y < ahead x)%nat →
  (work (mk_threads (to_write s) n (<[i := y]> (crew s)) (keeper s)) < work s)%nat.
Proof.
  unfold work. cbn [to_write crew]. intros Hi Hlt.
  enough (sum_list_with ahead (<[i := y]> (crew s)) + ahead x = sum_list_with ahead (crew s) + ahead y)%nat by lia.
  clear Hlt. generalize dependent i. generalize (crew s) as l. induction l as [|z l IH]; intros i; [done|].
  destruct i as [|i].
  - intros [= ->]. change (<[0%nat := y]> (x :: l)) with (y :: l). cbn [sum_list_with]. lia.
  - intros Hi. change (<[S i := y]> (z :: l)) with (z :: <[i := y]> l). cbn [sum_list_with].
    specialize (IH i Hi). lia.
Qed.

(** A move of a thread that is not in epoll_wait, and has something to do. *)
Lemma busy_moves s i x : crew s !! i = Some x → goes x ∨ x = Serving false →
  ∃ s', paced_step s s' ∧ (work s' < work s)%nat.
Proof.
  intros Hi Hx. destruct x as [|[]| | |]; try (by destruct Hx as [[]|?]).
  - eexists. split; [|apply (work_moved i _ (counter s) (Serving true) Leaving); [done|cbn; lia]].
    exists (Served i). split; [by apply (moved_run _ _ _ (Serving true))|done].
  - eexists. split; [|apply (work_moved i _ (counter s) (Serving false) Waiting); [done|cbn; lia]].
    exists (Served i). split; [by apply (moved_run _ _ _ (Serving false))|done].
  - eexists. split; [|apply (work_moved i _ 0 Leaving Left); [done|cbn; lia]].
    exists (Leave i). split; [by apply (moved_run _ _ _ Leaving)|done].
Qed.

Lemma paced_progress s : covered s → stopped s ∨ ∃ s', paced_step s s' ∧ (work s' < work s)%nat.
Proof.
  intros [Hc Hn]. destruct (decide (Exists (λ x, goes x ∨ x = Serving false) (crew s))) as [He|He].
  { right. apply Exists_exists in He as (x & [i Hi]%list_elem_of_lookup & Hx). by apply (busy_moves s i x). }
  apply not_Exists_Forall in He; [|apply _].
  assert (Hg : Forall (λ x, ¬ goes x) (crew s)) by (eapply Forall_impl; [exact He|naive_solver]).
  destruct (decide (count stays (crew s) = O)) as [Hz|Hz].
  - destruct (to_write s) as [|n] eqn:Hw; [|right].
    + destruct (decide (Exists (λ x, x = Interrupted) (crew s))) as [Hx|Hx].
      * right. apply Exists_exists in Hx as (x & [i Hi]%list_elem_of_lookup & ->). eexists.
        split; [|apply (work_moved i _ (counter s) Interrupted Left); [done|cbn; lia]].
        exists (Return i). split; [|done]. apply (moved_run _ _ _ Interrupted); [done|]. by rewrite decide_True.
      * left. apply not_Exists_Forall in Hx; [|apply _]. apply count_none in Hz. unfold stopped.
        rewrite Forall_forall in *. intros x Hin. specialize (Hx x Hin). specialize (Hz x Hin). specialize (Hg x Hin).
        destruct x as [|[]| | |]; [destruct (Hz I)|destruct (Hg I)|destruct (Hz I)|destruct (Hg I)|destruct (Hx eq_refl)|done].
    + exists (mk_threads n (counter s + 1) (crew s) (keeper s)). split; [|unfold work; cbn; lia].
      exists Write. split; [cbn; by rewrite Hw|]. split; [done|]. intros _. split; [done|]. right. by apply count_none.
  - right. destruct (count_some _ _ Hz) as (i & x & Hi & Hx).
    assert (x = Waiting) as ->.
    { pose proof (Forall_lookup_1 _ _ _ _ He Hi) as Hns. destruct x as [|[]| | |]; try done. naive_solver. }
    destruct (decide (0 < counter s)) as [Hp|Hp].
    + eexists. split; [|apply (work_moved i _ (counter s) Waiting Leaving); [done|cbn; lia]].
      exists (Wake i). split; [|done]. apply (moved_run _ _ _ Waiting); [done|]. by rewrite decide_True.
    + rewrite decide_False in Hn by naive_solver. destruct (to_write s) as [|n] eqn:Hw; [lia|].
      exists (mk_threads n (counter s + 1) (crew s) (keeper s)). split; [|unfold work; cbn; lia].
      exists Write. split; [cbn; by rewrite Hw|]. split; [done|]. intros _. split; [done|]. left. lia.
Qed.

Lemma paced_finishes s : covered s → ∃ s', rtc paced_step s s' ∧ stopped s'.
Proof.
  remember (work s) as n eqn:Hn. revert s Hn. induction (lt_wf n) as [n _ IH]. intros s -> Hs.
  destruct (paced_progress s Hs) as [?|(s1 & H1 & Hlt)]; [by exists s|].
  destruct (IH _ Hlt s1 eq_refl (covered_step _ _ Hs H1)) as (s2 & H2 & Hst).
  exists s2. split; [by eapply rtc_l|done].
Qed.

(** * Properties *)

(** C13. One signal may fail to stop the broker.  The handler writes five times, and six threads
    have to leave.  If the signal reaches the keepalive thread, or a worker that is not in
    epoll_wait, and each write wakes one thread, one thread stays.  If the signal reaches a
    worker in epoll_wait, which it interrupts, but the keepalive thread reads one of the
    writes, one thread stays as well.  Then no move of the threads, in whatever order,
    makes that thread leave: the main thread waits for it for ever. *)
Theorem one_signal_may_not_stop v i : i = 6%nat ∨ i = O →
  ∃ l s, run_actions l (signalled i (running v)) = Some s ∧ to_write s = O ∧ crew s !! 5%nat = Some Waiting
    ∧ ∀ l' s', run_actions l' s = Some s' → ¬ stopped s'.
Proof.
  intros Hi. assert (∃ l s, run_actions l (signalled i (running v)) = Some s ∧ stalled s
    ∧ crew s !! 5%nat = Some Waiting) as (l & s & Hl & Hs & Hc).
  { destruct Hi as [-> | ->].
    - exists (flat_map (λ i, [Write; Wake i; Leave i]) [0; 1; 2; 3; 4]%nat). eexists.
      split; [vm_compute; reflexivity|]. split; [|done]. split_and!; [done..|]. apply (bool_decide_unpack _). by vm_compute.
    - exists ([Write; Keep] ++ flat_map (λ i, [Write; Wake i; Leave i]) [1; 2; 3; 4]%nat ++ [Return 0]). eexists.
      split; [vm_compute; reflexivity|]. split; [|done]. split_and!; [done..|]. apply (bool_decide_unpack _). by vm_compute. }
  exists l, s. split_and!; [done|apply Hs|done|]. intros l' s' Hl'. by apply (stalled_run s l' s' 5 Waiting).
Qed.

(** C12. One signal stops the broker if it interrupts a worker in epoll_wait, the keepalive
    thread sleeps meanwhile, and the pauses of the handler are long enough for each write
    to be read before the next: in every such run, when the handler has returned and what
    it wrote has taken effect, every thread has left or is the interrupted one, and
    whatever was done so far, the run can be continued until all have left. *)
Theorem paced_signal_stops s i s' :
  stalled s → length (crew s) = S (S EPOLL_WORKERS) → crew s !! i = Some Waiting →
  rtc paced_step (signalled i s) s' →
  (to_write s' = O → settled s' → Forall (λ x, x = Left ∨ x = Interrupted) (crew s'))
  ∧ ∃ s'', rtc paced_step s' s'' ∧ stopped s''.
Proof.
  intros (Hw & Hc & Hg) Hlen Hi Hrun.
  assert (Hcov : covered (signalled i s)).
  { unfold covered, signalled. rewrite Hi. cbn [counter to_write crew]. rewrite Hc. split; [done|].
    pose proof (count_insert stays (crew s) i Waiting Interrupted Hi) as H. cbn [Nat.b2n stays] in H.
    assert (count stays (crew s) ≤ length (crew s))%nat by apply length_filter.
    unfold sigint_handler. lia. }
  apply (paced_covered _ _ Hrun) in Hcov. split; [|by apply paced_finishes].
  intros Hw' [Hg' Hst]. destruct Hcov as [_ Hn]. rewrite Hw' in Hn.
  assert (Hz : Forall (λ x, ¬ stays x) (crew s')).
  { destruct Hst as [Hz|]; [|done]. apply count_none. rewrite decide_False in Hn by lia. lia. }
  rewrite Forall_forall in *. intros x Hx. specialize (Hg' x Hx). specialize (Hz x Hx).
  destruct x as [|[]| | |]; [destruct (Hz I)|destruct (Hg' I)|destruct (Hz I)|destruct (Hg' I)|by right|by left].
Qed.

(** * Witnesses *)

Lemma running_stalled v : stalled (running v).
Proof. split_and!; [done..|]. apply (bool_decide_unpack _). by vm_compute. Qed.

Lemma one_signal_may_not_stop_witness : ∃ l s, run_actions l (signalled 0 (running 0)) = Some s
  ∧ ∀ l' s', run_actions l' s = Some s' → ¬ stopped s'.
Proof.
  destruct (one_signal_may_not_stop 0 0 ltac:(by right)) as (l & s & E & _ & _ & Hn).
  exists l, s. split; [exact E|exact Hn].
Defined.

Lemma paced_signal_stops_witness : ∃ s, rtc paced_step (signalled 5 (running 0)) s ∧ stopped s.
Proof.
  exact (proj2 (paced_signal_stops (running 0) 5 (signalled 5 (running 0)) (running_stalled 0) eq_refl eq_refl (rtc_refl _ _))).
Defined.
