(* ===== verification/Guard.v ===== *)
(** What the broker never frees while it runs.

    The topics, their lists, nodes, subscriptions and queues, and the clients are rooted: once
    allocated they stay.  The strings that name the topics stay too, and a retained message
    stays with its strings until another takes its place.  All these form the guarded set
    [T] of locations; a pointer that a handler may free is loose, outside of [T].
    [quiet] says of a command that it leaves the guarded objects as they are, up to the
    fields of the clients, that no topic retains another message, and that what the command
    returns and stores stays loose.  A loose pointer is below the next location, [n], so
    that it stays loose when [T] takes in new objects. *)
From stdpp Require Import base numbers option list gmap.
From Stdlib Require Import ZArith Lia.
From S2P Require Import Prelude Memory Ringbuf Buffer Protocol Hashmap Lists Queues Network Receive.
From S2P Require Import Util Sizigy Server Steps.

Local Open Scope Z_scope.

(** * Guarded locations *)

Definition rooted (o : obj) : bool :=
  match o with OList _ | ONode _ | OQueue _ | OClient _ | OTopic _ | OSubscription _ => true | _ => false end.

(** Neither rooted, nor a string, nor a message: such an object is never guarded. *)
Definition unguarded (o : obj) : bool :=
  match o with OStr _ | OMessage _ => false | o => negb (rooted o) end.

Definition loose (T : gset loc) (n : loc) (p : ptr) : Prop := ∀ l, p = Some l → l ∉ T ∧ (l < n)%positive.

(** The strings that name the clients are loose. *)
Definition sane (T : gset loc) (n : loc) (o : obj) : Prop :=
  match o with OClient c => loose T n (cl_id c) | _ => True end.

Record guarded (T : gset loc) (w : World) : Prop := {
  gd_wf : heap_wf w;
  gd_alive l : l ∈ T → ∃ o, at_loc w l = Some o ∧ unguarded o = false;
  gd_rooted l o : at_loc w l = Some o → rooted o = true → l ∈ T;
  gd_sane l o : at_loc w l = Some o → sane T (fresh_loc w) o
}.

(** The same but for what a handler may change in a rooted object. *)
Definition alike (o o' : obj) : Prop :=
  match o, o' with
  | OClient _, OClient _ => True
  | OTopic t, OTopic t' => t_name t' = t_name t ∧ t_subscribers t' = t_subscribers t ∧ t_messages t' = t_messages t
  | o, o' => o' = o
  end.

(** In particular, the same retained message. *)
Definition steady (o o' : obj) : Prop :=
  alike o o' ∧ match o, o' with OTopic t, OTopic t' => t_retained t' = t_retained t | _, _ => True end.

(** No topic retains another message than it did. *)
Definition retains_same (w w' : World) : Prop := ∀ t tp' m, at_loc w' t = Some (OTopic tp') → t_retained tp' = Some m →
  ∃ tp, at_loc w t = Some (OTopic tp) ∧ t_retained tp = Some m.

(** The guarded objects are kept, except perhaps the one at [x]. *)
Record unmoved (T : gset loc) (x : ptr) (w w' : World) : Prop := {
  um_fresh : (fresh_loc w ≤ fresh_loc w')%positive;
  um_at l o : l ∈ T → Some l ≠ x → at_loc w l = Some o → ∃ o', at_loc w' l = Some o' ∧ alike o o';
  um_topics : topics (db w') = topics (db w);
  um_peers : peers (db w') = peers (db w)
}.

Record calm (T : gset loc) (w w' : World) : Prop := {
  cm_unmoved : unmoved T None w w';
  cm_retains : retains_same w w'
}.

(** From a state whose next location is at least [n], [m] keeps the guarded objects and
    returns what [Q] says. *)
Definition quiet (T : gset loc) (n : loc) {A} (m : M World A) (Q : A → loc → Prop) : Prop :=
  ∀ w a w', guarded T w → (n ≤ fresh_loc w)%positive → m w = Ok (a, w') →
    guarded T w' ∧ calm T w w' ∧ Q a (fresh_loc w').

(** * Lemmas *)

Lemma kind_rooted o o' : kind o' = kind o → rooted o' = rooted o ∧ unguarded o' = unguarded o.
Proof. by destruct o, o'. Qed.

Lemma loose_le T n n' p : (n ≤ n')%positive → loose T n p → loose T n' p.
Proof. intros Hn Hl l E. destruct (Hl l E). split; [done|]. by eapply Pos.lt_le_trans. Qed.

Lemma loose_None T n : loose T n None.
Proof. done. Qed.

Lemma sane_le T n n' o : (n ≤ n')%positive → sane T n o → sane T n' o.
Proof.
  intros Hn. destruct o; try done; cbn; by apply loose_le.
Qed.

Lemma alike_refl o : alike o o.
Proof. by destruct o. Qed.

Lemma alike_trans o1 o2 o3 : alike o1 o2 → alike o2 o3 → alike o1 o3.
Proof.
  destruct o1, o2; cbn; try congruence; destruct o3; cbn; try congruence; try done.
  intros (? & ? & ?) (? & ? & ?). split_and!; congruence.
Qed.

#[export] Instance unmoved_preorder T x : PreOrder (unmoved T x).
Proof.
  split.
  - intros w. split; try done. intros l o _ _ Hl. exists o. split; [done|apply alike_refl].
  - intros w1 w2 w3 H12 H23. split.
    + etrans; [apply (um_fresh _ _ _ _ H12)|apply (um_fresh _ _ _ _ H23)].
    + intros l o Hl Hx Ho. destruct (um_at _ _ _ _ H12 l o Hl Hx Ho) as (o2 & Ho2 & Ha2).
      destruct (um_at _ _ _ _ H23 l o2 Hl Hx Ho2) as (o3 & Ho3 & Ha3). exists o3.
      split; [done|by eapply alike_trans].
    + by rewrite (um_topics _ _ _ _ H23), (um_topics _ _ _ _ H12).
    + by rewrite (um_peers _ _ _ _ H23), (um_peers _ _ _ _ H12).
Qed.

Lemma unmoved_any T x w w' : unmoved T None w w' → unmoved T x w w'.
Proof. intros [Hf Ha Ht Hp]. split; [done| |done|done]. intros l o Hl _. by apply Ha. Qed.

#[export] Instance retains_same_preorder : PreOrder retains_same.
Proof.
  split; [intros w t tp m Ht Hm; by exists tp|]. intros w1 w2 w3 H12 H23 t tp m Ht Hm.
  destruct (H23 t tp m Ht Hm) as (tp2 & Ht2 & Hm2). by apply (H12 t tp2 m).
Qed.

#[export] Instance calm_preorder T : PreOrder (calm T).
Proof. split; [by split|]. intros w1 w2 w3 [? ?] [? ?]. split; by etrans. Qed.

(** The heap alone matters. *)
Lemma guarded_heap T w w' : w_heap w' = w_heap w → guarded T w → guarded T w'.
Proof.
  intros Hh [Hwf Ha Hr Hs]. assert (Hat : ∀ l, at_loc w' l = at_loc w l).
  { intros l. unfold at_loc. change (get_heap w') with (w_heap w'). by rewrite Hh. }
  assert (Hf : fresh_loc w' = fresh_loc w).
  { unfold fresh_loc. change (get_heap w') with (w_heap w'). by rewrite Hh. }
  split.
  - intros l o. rewrite Hat. change (next_loc (get_heap w')) with (fresh_loc w'). rewrite Hf. apply Hwf.
  - intros l Hl. rewrite Hat. by apply Ha.
  - intros l o. rewrite Hat. apply Hr.
  - intros l o. rewrite Hat, Hf. apply Hs.
Qed.

Lemma unmoved_heap T x w w' : w_heap w' = w_heap w → topics (db w') = topics (db w) →
  peers (db w') = peers (db w) → unmoved T x w w'.
Proof.
  intros Hh Ht Hp. split; [|intros l o _ _ Hl; exists o; split; [|apply alike_refl]|done|done].
  - unfold fresh_loc. change (get_heap w') with (w_heap w'). by rewrite Hh.
  - unfold at_loc in *. change (get_heap w') with (w_heap w'). by rewrite Hh.
Qed.

Lemma retains_same_heap w w' : w_heap w' = w_heap w → retains_same w w'.
Proof.
  intros Hh t tp m. unfold at_loc. change (get_heap ?x) with (w_heap x). rewrite Hh. intros Ht Hm. by exists tp.
Qed.

(** A new object that is not rooted. *)
Lemma guarded_alloc T w {A} `{Cell obj A} (a : A) :
  guarded T w → rooted (inj a) = false → sane T (fresh_loc w) (inj a) → guarded T (alloc a w).
Proof.
  intros [Hwf Ha Hr Hs] Hna Hsa.
  assert (Hle : (fresh_loc w ≤ fresh_loc (alloc a w))%positive) by (rewrite fresh_alloc; lia). split.
  - by apply alloc_wf.
  - intros l Hl. destruct (Ha l Hl) as (o & Ho & Hu). exists o. split; [|done].
    rewrite at_alloc_ne; [done|by eapply heap_wf_ne].
  - intros l o. rewrite at_alloc. case_decide; [intros [= <-]; congruence|apply Hr].
  - intros l o. rewrite at_alloc. case_decide; [intros [= <-]|intros Ho%Hs]; by eapply sane_le.
Qed.

Lemma unmoved_alloc T x w {A} `{Cell obj A} (a : A) : heap_wf w → unmoved T x w (alloc a w).
Proof.
  intros Hwf. split; [rewrite fresh_alloc; lia| |done|done].
  intros l o _ _ Ho. exists o. split; [|apply alike_refl]. rewrite at_alloc_ne; [done|by eapply heap_wf_ne].
Qed.

Lemma retains_same_alloc w {A} `{Cell obj A} (a : A) : (∀ tp, inj a = OTopic tp → t_retained tp = None) →
  retains_same w (alloc a w).
Proof.
  intros Ha t tp m. rewrite at_alloc. case_decide; [|intros Ht Hm; by exists tp].
  intros [= E] Hm. by rewrite (Ha tp E) in Hm.
Qed.

Lemma guarded_update T w l o o' : guarded T w → at_loc w l = Some o → kind o' = kind o →
  sane T (fresh_loc w) o' → guarded T (update l o' w).
Proof.
  intros [Hwf Ha Hr Hs] Hl Hk Hso. destruct (kind_rooted _ _ Hk) as [Hkr Hku]. split.
  - apply update_wf; [done|]. by apply Hwf in Hl.
  - intros l' Hl'. rewrite at_update. case_decide as Hd; [subst l'|by apply Ha].
    exists o'. split; [done|]. rewrite Hku. destruct (Ha l Hl') as (o2 & Ho2 & Hu). congruence.
  - intros l' o2. rewrite at_update. case_decide as Hd; [subst l'|apply Hr].
    intros [= <-]. rewrite Hkr. by apply Hr.
  - intros l' o2. rewrite at_update, fresh_update. case_decide; [by intros [= <-]|apply Hs].
Qed.

Lemma unmoved_update T x w l o o' : at_loc w l = Some o → alike o o' ∨ l ∉ T ∨ Some l = x →
  unmoved T x w (update l o' w).
Proof.
  intros Hl Ho. split; [by rewrite fresh_update| |done|done]. intros l' o2 Hl' Hx Ho2.
  rewrite at_update. case_decide as Hd; [subst l'|exists o2; split; [done|apply alike_refl]].
  exists o'. split; [done|]. destruct Ho as [Ho|[Ho|Ho]]; [congruence|done|done].
Qed.

Lemma retains_same_update w l o o' : at_loc w l = Some o → kind o' = kind o → steady o o' ∨ unguarded o = true →
  retains_same w (update l o' w).
Proof.
  intros Hl Hk Ho t tp m. rewrite at_update. case_decide as Hd; [subst t|intros Ht Hm; by exists tp].
  intros [= ->] Hm. destruct o; try done. destruct Ho as [[_ Hr]|]; [|done]. eexists. split; [exact Hl|congruence].
Qed.

Lemma retains_same_remove w l : retains_same w (remove l w).
Proof. intros t tp m. rewrite at_remove. case_decide; [done|]. intros Ht Hm. by exists tp. Qed.

Lemma guarded_unguarded T w l o : guarded T w → at_loc w l = Some o → unguarded o = true → l ∉ T.
Proof. intros Hg Hl Hu HT. destruct (gd_alive _ _ Hg l HT) as (o2 & Ho2 & Hu2). congruence. Qed.

Section Quiet.
Context (T : gset loc).

Lemma quiet_bind n {A B} (m : M World A) (f : A → M World B) Q R :
  quiet T n m Q → (∀ a n', (n ≤ n')%positive → Q a n' → quiet T n' (f a) R) → quiet T n (m ≫= f) R.
Proof.
  intros Hm Hf w b w' Hg Hn. unfold mbind, M_bind. destruct (m w) as [[a w1]|] eqn:E; [|done].
  intros E'. destruct (Hm w a w1 Hg Hn E) as (Hg1 & Hu1 & HQ).
  destruct (Hf a (fresh_loc w1)) with (w := w1) (a := b) (w' := w') as (Hg2 & Hu2 & HR); try done.
  - etrans; [exact Hn|apply Hu1].
  - split_and!; [done| |done]. by etrans.
Qed.

Lemma quiet_conseq n {A} (m : M World A) (Q R : A → loc → Prop) :
  quiet T n m Q → (∀ a n', (n ≤ n')%positive → Q a n' → R a n') → quiet T n m R.
Proof.
  intros Hm HQ w a w' Hg Hn E. destruct (Hm w a w' Hg Hn E) as (? & Hu & ?). split_and!; try done.
  apply HQ; [|done]. etrans; [exact Hn|apply Hu].
Qed.

Lemma quiet_any n {A} (m : M World A) Q : quiet T n m Q → quiet T n m (λ _ _, True).
Proof. intros Hm. by eapply quiet_conseq. Qed.

Lemma quiet_ret n {A} (a : A) (Q : A → loc → Prop) : (∀ n', (n ≤ n')%positive → Q a n') → quiet T n (mret a) Q.
Proof. intros HQ w b w' Hg Hn [= <- <-]. split_and!; [done|done|by apply HQ]. Qed.

Lemma quiet_lift n {A} (r : res A) : quiet T n (lift r) (λ a _, r = Ok a).
Proof. intros w b w' Hg Hn. destruct r; [|done]. intros [= <- <-]. by split_and!. Qed.

Lemma quiet_heap n {A} (m : M World A) :
  (∀ w a w', m w = Ok (a, w') → w_heap w' = w_heap w ∧ topics (db w') = topics (db w)
     ∧ peers (db w') = peers (db w)) → quiet T n m (λ _ _, True).
Proof.
  intros Hm w a w' Hg Hn E. destruct (Hm w a w' E) as (Hh & Ht & Hp).
  split_and!; [by eapply guarded_heap|split; [by apply unmoved_heap|by apply retains_same_heap]|done].
Qed.

Lemma quiet_same n {A} (m : M World A) : (∀ w a w', m w = Ok (a, w') → w' = w) → quiet T n m (λ _ _, True).
Proof. intros Hm. apply quiet_heap. by intros w a w' ->%Hm. Qed.

Lemma quiet_kernel n {A} (m : M World A) : kernel_only m → quiet T n m (λ _ _, True).
Proof. intros Hm. apply quiet_heap. intros w a w' E. by destruct (proj1 Hm w a w' E) as [k ->]. Qed.

Lemma quiet_get n : quiet T n get (λ _ _, True).
Proof. apply quiet_same. by intros w a w' [= _ ->]. Qed.

Lemma quiet_deref n {A} `{Cell obj A} p :
  quiet T n (deref (A := A) p) (λ a n', sane T n' (inj a) ∧ (unguarded (inj a) = true → loose T n' p)).
Proof.
  intros w a w' Hg Hn (l & -> & Hl & ->)%deref_inv. split_and!; [done|done| |].
  - by apply (gd_sane _ _ Hg l).
  - intros Hu l' [= <-]. split; [by eapply guarded_unguarded|]. by apply (gd_wf _ _ Hg) in Hl.
Qed.

Lemma quiet_malloc n {A} `{Cell obj A} (a : A) : rooted (inj a) = false → sane T n (inj a) →
  quiet T n (malloc a) (λ l n', loose T n' (Some l)).
Proof.
  intros Hr Hs w l w' Hg Hn E. rewrite malloc_run in E. assert (l = fresh_loc w ∧ w' = alloc a w) as [-> ->] by (split; congruence).
  split_and!.
  - apply guarded_alloc; [done|done|by eapply sane_le].
  - split; [apply unmoved_alloc, Hg|]. apply retains_same_alloc. intros tp E'. by rewrite E' in Hr.
  - intros l [= <-]. split; [|rewrite fresh_alloc; lia]. intros Hl.
    destruct (gd_alive _ _ Hg _ Hl) as (o & Ho & _). by rewrite (heap_wf_fresh w (gd_wf _ _ Hg)) in Ho.
Qed.

(** Writing to an object that is not guarded, or to a client. *)
Lemma quiet_assign n {A} `{Kinded A} p (a : A) : sane T n (inj a) →
  (∀ a0 : A, steady (inj a0) (inj a) ∨ unguarded (inj a0) = true) → quiet T n (assign p a) (λ _ _, True).
Proof.
  intros Hs Ha w u w' Hg Hn (l & a0 & -> & Hl & ->)%assign_inv. split_and!; [| |done].
  - eapply guarded_update; [done|exact Hl|apply kind_inj|by eapply sane_le].
  - split; [|eapply retains_same_update; [exact Hl|apply kind_inj|apply Ha]].
    eapply unmoved_update; [exact Hl|]. destruct (Ha a0) as [[? _]|]; [by left|right; left]. by eapply guarded_unguarded.
Qed.

Lemma quiet_modify_at n {A} `{Kinded A} p (f : A → A) :
  (∀ a n', (n ≤ n')%positive → sane T n' (inj a) → sane T n' (inj (f a))) →
  (∀ a, steady (inj a) (inj (f a)) ∨ unguarded (inj a) = true) → quiet T n (modify_at p f) (λ _ _, True).
Proof.
  intros Hs Ha w u w' Hg Hn. unfold modify_at. intros E.
  apply M_bind_Ok in E as (a & w1 & (l & -> & Hl & ->)%deref_inv & E2).
  apply assign_inv in E2 as (l' & a0 & [= <-] & Hl' & ->). split_and!; [| |done].
  - eapply guarded_update; [done|exact Hl|apply kind_inj|]. apply Hs; [done|]. by apply (gd_sane _ _ Hg l).
  - split; [|eapply retains_same_update; [exact Hl|apply kind_inj|apply Ha]].
    eapply unmoved_update; [exact Hl|]. destruct (Ha a) as [[? _]|]; [by left|right; left]. by apply (guarded_unguarded T w l _ Hg Hl).
Qed.

(** A pointer to such an object is loose. *)
Lemma quiet_modify_own n {A} `{Kinded A} p (f : A → A) :
  (∀ a, unguarded (inj a) = true) → (∀ n' a, sane T n' (inj a) → sane T n' (inj (f a))) →
  quiet T n (modify_at p f) (λ _ n', loose T n' p).
Proof.
  intros Hu Hs. assert (Hq : quiet T n (deref (A := A) p) (λ a n', sane T n' (inj a) ∧ loose T n' p)).
  { eapply quiet_conseq; [apply quiet_deref|]. intros a n' _ [? Hl]. split; [done|by apply Hl]. }
  eapply quiet_bind; [exact Hq|]. intros a n' _ [Ha Hl].
  eapply quiet_conseq; [apply quiet_assign; [exact H0|by apply Hs|by right]|].
  intros u n2 Hn _. by eapply loose_le.
Qed.

Lemma quiet_free n p : loose T n p → quiet T n (free p) (λ _ _, True).
Proof.
  intros Hp w u w' Hg Hn [->|(l & o & -> & Hl & ->)]%free_inv; [by split_and!|].
  destruct (Hp l eq_refl) as [HT _]. destruct Hg as [Hwf Ha Hr Hs]. split_and!; [| |done].
  - split.
    + by apply remove_wf.
    + intros l' Hl'. rewrite at_remove_ne by congruence. by apply Ha.
    + intros l' o'. rewrite at_remove. case_decide; [done|apply Hr].
    + intros l' o'. rewrite at_remove, fresh_remove. case_decide; [done|apply Hs].
  - split; [|apply retains_same_remove]. split; [by rewrite fresh_remove| |done|done]. intros l' o' Hl' _ Ho'. exists o'.
    rewrite at_remove_ne by congruence. split; [done|apply alike_refl].
Qed.

Lemma quiet_when n c m : quiet T n m (λ _ _, True) → quiet T n (when c m) (λ _ _, True).
Proof. destruct c; [done|]. intros _. by apply quiet_ret. Qed.

End Quiet.

(** ** Following a sequence of commands *)

Create HintDb quiet discriminated.

(** A pointer known to be loose at an earlier location. *)
Ltac loose_side :=
  intros; cbn in *; destruct_and?; split_and?; try done;
  try (eapply loose_le; [|eassumption]; lia).

Ltac quiet_facts :=
  intros ? ? ? ?; cbv beta in *;
  repeat match goal with
  | H : sane _ _ _ ∧ _ |- _ => destruct H
  | H : unguarded _ = true → _ |- _ => first [specialize (H eq_refl) | clear H]
  end.

Ltac alike_side := intros; cbn; first [by right | left; split; done | left; split; [by split_and!|done]].

Ltac quiet :=
  cbv beta zeta;
  lazymatch goal with
  | |- quiet _ _ (_ ≫= _) _ => eapply quiet_bind; [quiet_head|quiet_facts; quiet]
  | |- quiet _ _ (match ?x with _ => _ end) _ => destruct x; quiet
  | |- _ => quiet_tail
  end
with quiet_head :=
  first [ quiet_leaf | eapply quiet_any; quiet_leaf
        | simple refine (_ : quiet _ _ _ (λ _ _, True)); quiet ]
with quiet_tail :=
  first [ quiet_leaf | eapply quiet_any; quiet_leaf
        | apply quiet_when; quiet ]
with quiet_leaf :=
  first [ apply quiet_ret; solve [loose_side]
        | solve [eauto 2 with quiet nocore]
        | apply quiet_lift
        | apply quiet_deref
        | apply quiet_malloc; [reflexivity|solve [loose_side]]
        | apply quiet_modify_at; [apply _|solve [loose_side]|solve [alike_side]]
        | apply quiet_assign; [apply _|solve [loose_side]|solve [alike_side]]
        | apply quiet_free; solve [loose_side]
        | apply quiet_when; apply quiet_free; solve [loose_side] ].

#[export] Hint Resolve quiet_get : quiet.
#[export] Hint Extern 1 (loose _ _ _) => solve [loose_side] : quiet.

(** ** The kernel *)

Section Commands.
Context (T : gset loc).

Lemma quiet_shutdown n fd : quiet T n (shutdown fd) (λ _ _, True).
Proof. apply quiet_kernel, kernel_shutdown. Qed.
Lemma quiet_close n fd : quiet T n (close fd) (λ _ _, True).
Proof. apply quiet_kernel, kernel_close. Qed.
Lemma quiet_recv n fd k : quiet T n (recv fd k) (λ _ _, True).
Proof. apply quiet_kernel, kernel_recv. Qed.
Lemma quiet_send n fd d : quiet T n (send fd d) (λ _ _, True).
Proof. apply quiet_kernel, kernel_send. Qed.
Lemma quiet_epoll_ctl n f ok efd fd : quiet T n (epoll_ctl f ok efd fd) (λ _ _, True).
Proof. apply quiet_kernel, kernel_epoll_ctl. Qed.
Lemma quiet_add_epoll n efd fd d : quiet T n (add_epoll efd fd d) (λ _ _, True).
Proof. apply quiet_epoll_ctl. Qed.
Lemma quiet_mod_epoll n efd fd evs d : quiet T n (mod_epoll efd fd evs d) (λ _ _, True).
Proof. apply quiet_epoll_ctl. Qed.
Lemma quiet_open_fd n fd so : quiet T n (open_fd fd so) (λ _ _, True).
Proof. apply quiet_kernel. split; [|done]. intros w r w' [= _ <-]. unfold set_sock. eauto. Qed.
Lemma quiet_rx_fuel n fd : quiet T n (rx_fuel fd) (λ _ _, True).
Proof. apply quiet_same. by intros w c w' [= _ ->]. Qed.
Lemma quiet_tx_fuel n fd : quiet T n (tx_fuel fd) (λ _ _, True).
Proof. apply quiet_same. by intros w c w' [= _ ->]. Qed.
Lemma quiet_time n : quiet T n time (λ _ _, True).
Proof. apply quiet_same. by intros w u w' [= _ ->]. Qed.
Lemma quiet_heap_fuel n : quiet T n heap_fuel (λ _ _, True).
Proof. apply quiet_same. by intros w u w' [= _ ->]. Qed.
Lemma quiet_take_rands n k : quiet T n (take_rands k) (λ _ _, True).
Proof. apply quiet_heap. by intros w u w' [= _ <-]. Qed.
#[local] Hint Resolve quiet_shutdown quiet_close quiet_recv quiet_send quiet_epoll_ctl quiet_add_epoll quiet_mod_epoll
  quiet_open_fd quiet_rx_fuel quiet_tx_fuel quiet_time quiet_heap_fuel quiet_take_rands : quiet.

Lemma quiet_sendall_loop n fuel fd buf len total left k : quiet T n (sendall_loop fuel fd buf len total left k) (λ _ _, True).
Proof. revert n total left k. induction fuel; intros; cbn [sendall_loop]; quiet. Qed.
#[local] Hint Resolve quiet_sendall_loop : quiet.

Lemma quiet_send_buffer n fd buf : quiet T n (send_buffer fd buf) (λ _ _, True).
Proof. unfold send_buffer, sendall. quiet. Qed.

Lemma quiet_recvbytes_loop n fuel fd rb size total : quiet T n (recvbytes_loop fuel fd rb size total) (λ _ _, True).
Proof. revert n rb total. induction fuel; intros; cbn [recvbytes_loop]; quiet. Qed.
#[local] Hint Resolve quiet_send_buffer quiet_recvbytes_loop : quiet.

Lemma quiet_recv_bytes n fd rb all size : quiet T n (recv_bytes fd rb all size) (λ _ _, True).
Proof. unfold recv_bytes, recvbytes. quiet. Qed.
#[local] Hint Resolve quiet_recv_bytes : quiet.

Lemma quiet_header_loop n fuel fd rb k : quiet T n (header_loop fuel fd rb k) (λ _ _, True).
Proof. revert n rb k. induction fuel; intros; cbn [header_loop]; quiet. Qed.
Lemma quiet_body_loop n fuel fd rb k : quiet T n (body_loop fuel fd rb k) (λ _ _, True).
Proof. revert n rb k. induction fuel; intros; cbn [body_loop]; quiet. Qed.
#[local] Hint Resolve quiet_header_loop quiet_body_loop : quiet.

Lemma quiet_recv_packet n fuel fd rb : quiet T n (recv_packet fuel fd rb) (λ _ _, True).
Proof. unfold recv_packet. quiet. Qed.

End Commands.

#[export] Hint Resolve quiet_shutdown quiet_close quiet_add_epoll quiet_mod_epoll quiet_open_fd quiet_time quiet_heap_fuel
  quiet_take_rands quiet_send_buffer quiet_recv_packet : quiet.

(** ** The data of the broker *)

(** A lookup that returns leaves the map as it was. *)
Lemma get_same {K V} (str : K → option (list Z)) (m : Hashmap K V) k v m' :
  hashmap_get str m k = Ok (v, m') → m' = m.
Proof.
  unfold hashmap_get, mutex_lock. destruct (m_lock m) eqn:Hl; [done|]. cbn [mbind res_bind].
  set (m1 := mk_hashmap _ _ _ _). assert (Hm : mutex_unlock m1 = m) by (unfold m1, mutex_unlock; cbn; rewrite <- Hl; by destruct m).
  destruct (hash_key str m1 k); [|done]. cbn [mbind res_bind].
  destruct (probe_key _ _ _ _ _) as [[i|]|]; [|by intros [= _ <-]|done].
  cbn [mbind res_bind]. destruct (entry_at m1 i); [|done]. by intros [= _ <-].
Qed.

Lemma topics_get_same k w v w' : topics_get k w = Ok (v, w') → w' = w.
Proof.
  unfold topics_get. destruct (hashmap_get _ _ k) as [[v1 m]|] eqn:E; [|done]. apply get_same in E as ->.
  intros [= _ <-]. by destruct w as [?? [] ???].
Qed.

Section Broker.
Context (T : gset loc).

Lemma quiet_topics_get n k : quiet T n (topics_get k) (λ _ _, True).
Proof. apply quiet_same. intros w a w'. apply topics_get_same. Qed.

Lemma quiet_clients_put calloc_ok n k v : quiet T n (clients_put calloc_ok k v) (λ _ _, True).
Proof.
  apply quiet_heap. intros w a w'. unfold clients_put.
  destruct (hashmap_put _ _ _ _ k v) as [[rc m]|]; [|done]. by intros [= _ <-].
Qed.

Lemma quiet_clients_del n k : quiet T n (clients_del k) (λ _ _, True).
Proof.
  apply quiet_heap. intros w a w'. unfold clients_del.
  destruct (hashmap_del _ _ k) as [[rc m]|]; [|done]. by intros [= _ <-].
Qed.
#[local] Hint Resolve quiet_topics_get quiet_clients_put quiet_clients_del : quiet.

Lemma quiet_update_last n c : quiet T n (update_client_last_action c) (λ _ _, True).
Proof. unfold update_client_last_action. quiet. Qed.
Lemma quiet_strdup_of n bs : quiet T n (strdup_of bs) (λ p n', loose T n' p).
Proof. unfold strdup_of. quiet. Qed.
#[local] Hint Resolve quiet_update_last quiet_strdup_of : quiet.
Lemma quiet_strdup n p : quiet T n (strdup p) (λ p n', loose T n' p).
Proof. unfold strdup. quiet. Qed.
Lemma quiet_add_client calloc_ok n c : quiet T n (add_client calloc_ok c) (λ _ _, True).
Proof. unfold add_client. quiet. Qed.
Lemma quiet_del_client n c : quiet T n (del_client c) (λ _ _, True).
Proof. unfold del_client. quiet. Qed.
#[local] Hint Resolve quiet_strdup quiet_add_client quiet_del_client : quiet.

(** A packet is never guarded. *)
Lemma quiet_free_packet n A `{Cell obj A} p : (∀ a : A, unguarded (inj a) = true) →
  quiet T n (free_packet A p) (λ _ _, True).
Proof.
  intros Hu. unfold free_packet. case_decide; [by apply quiet_ret|].
  eapply quiet_bind; [apply quiet_deref|]. intros a n' Hn [_ Hl]. apply quiet_free, Hl, Hu.
Qed.
Lemma quiet_free_ack n p : quiet T n (free_ack p) (λ _ _, True). Proof. by apply quiet_free_packet. Qed.
Lemma quiet_free_connect n p : quiet T n (free_connect p) (λ _ _, True). Proof. by apply quiet_free_packet. Qed.
Lemma quiet_free_publish n p : quiet T n (free_publish p) (λ _ _, True). Proof. by apply quiet_free_packet. Qed.
Lemma quiet_free_subscribe n p : quiet T n (free_subscribe p) (λ _ _, True). Proof. by apply quiet_free_packet. Qed.

(** A buffer is read back before it is freed. *)
Lemma quiet_buffer_destroy n p : quiet T n (buffer_destroy p) (λ _ _, True).
Proof.
  unfold buffer_destroy. eapply quiet_bind; [quiet_head|quiet_facts].
  eapply quiet_bind; [by apply quiet_modify_own|quiet_facts]. quiet.
Qed.
#[local] Hint Resolve quiet_free_ack quiet_free_connect quiet_free_publish quiet_free_subscribe
  quiet_buffer_destroy : quiet.

(** ** The server *)

Lemma quiet_set_reply n c op p : quiet T n (set_reply c op p) (λ _ _, True).
Proof. unfold set_reply. quiet. Qed.
#[local] Hint Resolve quiet_set_reply : quiet.
Lemma quiet_set_ack_reply n c op rc : quiet T n (set_ack_reply c op rc) (λ _ _, True).
Proof. unfold set_ack_reply. quiet. Qed.
Lemma quiet_free_reply n r : quiet T n (free_reply r) (λ _ _, True).
Proof. unfold free_reply. quiet. Qed.
Lemma quiet_publish_loop n fuel buf cur total : quiet T n (publish_loop fuel buf cur total) (λ _ _, True).
Proof. revert n cur total. induction fuel; intros; cbn [publish_loop]; quiet. Qed.
#[local] Hint Resolve quiet_set_ack_reply quiet_free_reply quiet_publish_loop : quiet.

Lemma quiet_iterate_loop n (f : hashmap_entry key loc → M World Z) es :
  (∀ n e, quiet T n (f e) (λ _ _, True)) → quiet T n (iterate_loop f es) (λ _ _, True).
Proof. intros Hf. revert n. induction es; intros; cbn [iterate_loop]; quiet. Qed.
Lemma quiet_iterate n (f : hashmap_entry key loc → M World Z) (get : World → Hashmap key loc) :
  (∀ n e, quiet T n (f e) (λ _ _, True)) → quiet T n (λ w, hashmap_iterate2 (get w) f w) (λ _ _, True).
Proof.
  intros Hf w a w' Hg Hn. unfold hashmap_iterate2. case_decide.
  - by apply (quiet_ret T n HASHMAP_ERR (λ _ _, True) ltac:(done) w).
  - by apply (quiet_iterate_loop n).
Qed.
Lemma quiet_close_socket n a e : quiet T n (close_socket a e) (λ _ _, True).
Proof. unfold close_socket. quiet. Qed.
Lemma quiet_check_client_status n e : quiet T n (check_client_status e) (λ _ _, True).
Proof. unfold check_client_status. quiet. Qed.
Lemma quiet_close_sockets n a : quiet T n (iterate_topics (close_socket a)) (λ _ _, True).
Proof. apply (quiet_iterate n _ (λ w, topics (db w))). intros. apply quiet_close_socket. Qed.
Lemma quiet_check_clients n : quiet T n (iterate_clients check_client_status) (λ _ _, True).
Proof. apply (quiet_iterate n _ (λ w, clients (db w))). intros. apply quiet_check_client_status. Qed.
#[local] Hint Resolve quiet_close_sockets quiet_check_clients : quiet.

Lemma quiet_connect calloc_ok n c : quiet T n (connect_handler calloc_ok c) (λ _ _, True).
Proof. unfold connect_handler, connect_client. quiet. Qed.
Lemma quiet_publish n c : quiet T n (publish_handler c) (λ _ _, True).
Proof. unfold publish_handler. quiet. Qed.
Lemma quiet_pingreq n c : quiet T n (pingreq_handler c) (λ _ _, True).
Proof. unfold pingreq_handler. quiet. Qed.
Lemma quiet_disconnect n c : quiet T n (disconnect_handler c) (λ _ _, True).
Proof. unfold disconnect_handler. quiet. Qed.

Lemma quiet_unpacked n {A} `{Cell obj A} (unpack : bool → M Buffer (Z * option A)) buf :
  (∀ a : A, rooted (inj a) = false) → (∀ a n, sane T n (inj a)) → quiet T n (unpacked unpack buf) (λ _ _, True).
Proof.
  intros Hr Hs. unfold unpacked. eapply quiet_bind; [quiet_head|]. intros [[rc p] b] n' Hn _. cbv beta zeta iota.
  eapply quiet_bind; [quiet_head|quiet_facts]. eapply quiet_bind; [by apply quiet_malloc|quiet_facts]. quiet.
Qed.
Lemma quiet_unpack_packet n op buf : quiet T n (unpack_packet op buf) (λ _ _, True).
Proof. unfold unpack_packet. repeat case_decide; try by apply quiet_unpacked. by apply quiet_ret. Qed.

Lemma quiet_send_status n fd buf ret : quiet T n (send_status fd buf ret) (λ _ _, True).
Proof. unfold send_status. quiet. Qed.
#[local] Hint Resolve quiet_send_status : quiet.
Lemma quiet_reply_retained n c r m : quiet T n (reply_retained c r m) (λ _ _, True).
Proof. unfold reply_retained. quiet. Qed.
Lemma quiet_finish_reply n c ret : quiet T n (finish_reply c ret) (λ _ _, True).
Proof. unfold finish_reply, mod_client_epoll. quiet. Qed.
Lemma quiet_accept_connection n fd so ok : quiet T n (accept_connection fd so ok) (λ _ _, True).
Proof. unfold accept_connection. quiet. Qed.
Lemma quiet_new_name n k : quiet T n (new_name k) (λ p n', loose T n' p).
Proof. unfold new_name. quiet. Qed.

End Broker.

#[export] Hint Resolve quiet_topics_get quiet_update_last quiet_strdup_of quiet_strdup quiet_free_subscribe
  quiet_set_ack_reply quiet_free_reply quiet_publish_loop quiet_close_sockets quiet_check_clients
  quiet_connect quiet_publish quiet_pingreq quiet_disconnect quiet_unpack_packet quiet_send_status
  quiet_reply_retained quiet_finish_reply quiet_accept_connection quiet_new_name : quiet.
