(* ===== verification/Invariant.v ===== *)
(** The topics of a running broker.

    In every state the broker can reach, each topic of the map is found under its own
    name, its list of subscribers is intact and belongs to no other topic, every
    subscription in it leads to a client that is still there, and what a topic retains is a
    message of its name that owns its strings.  Every object of a topic belongs to that
    topic alone, in one [role]: a map from locations to their [owners] goes with the state.
    Together this is [topics_inv].  Most commands are [quiet] and
    keep it for that; the others are a topic that is made, a subscription that enters a
    list, a client that is accepted, which grow the guarded set, and a message that takes
    the place of the retained one ([swapped]).  A list counts its nodes on 64 bits, so the
    runs are those that allocated fewer than 2^64 objects. *)
From stdpp Require Import base numbers option list gmap.
From Stdlib Require Import ZArith Lia.
From S2P Require Import Prelude Memory Ringbuf Buffer Protocol Hashmap Chain Lists Queues Network.
From S2P Require Import Receive Util Sizigy Demo Server Calm Broker Publish Subscribe Steps Delivery Guard.

Local Open Scope Z_scope.

(** * The invariant *)

(** What an object is to the topic it belongs to. *)
Inductive role := RName | RKey | RList | RNode | RSub | RQueue.

(** Every object of a topic belongs to it, and to no other. *)
Notation owners := (gmap loc (loc * role)).

Record topic_owns (ow : owners) (w : World) (t : loc) (tp : Topic) (l : loc) (xs : list (loc * ptr)) : Prop := {
  to_name nm : t_name tp = Some nm → ow !! nm = Some (t, RName);
  to_list : ow !! l = Some (t, RList);
  to_nodes x : x ∈ xs.*1 → ow !! x = Some (t, RNode);
  to_subs d : d ∈ xs.*2 → ∃ y, d = Some y ∧ ow !! y = Some (t, RSub);
  to_once : NoDup xs.*2;
  to_queue q : t_messages tp = Some q → ow !! q = Some (t, RQueue);
  to_empty : empty_queue_at w (t_messages tp)
}.

(** A topic under its name, with a list that is not the list of the peers, and live
    subscribers. *)
Definition topic_ok (T : gset loc) (ow : owners) (w : World) (s : list Z) (t : loc) : Prop :=
  ∃ tp nm l xs cs, topic_named w s t tp l xs ∧ t_name tp = Some nm ∧ nm ∈ T ∧ peers (db w) ≠ Some l
    ∧ Forall2 (subscriber w) xs cs ∧ topic_owns ow w t tp l xs.

(** The list of a topic. *)
Definition owns (w : World) (t l : loc) : Prop := ∃ tp, at_loc w t = Some (OTopic tp) ∧ t_subscribers tp = Some l.

(** An entry of the map of topics: its key is a string of its own. *)
Definition entry_ok (T : gset loc) (ow : owners) (e : hashmap_entry key loc) : Prop :=
  ∃ k t, e = mk_entry (Some (KPtr k)) (Some t) true ∧ k ∈ T ∧ ow !! k = Some (t, RKey).

Record topics_core (T : gset loc) (ow : owners) (w : World) (g : gmap (list Z) loc) : Prop := {
  ti_repr : topics_repr w g;
  ti_keys i e : m_entries (topics (db w)) !! i = Some e → e_in_use e = true → entry_ok T ow e;
  ti_topics s t : g !! s = Some t → topic_ok T ow w s t;
  ti_owned y x : ow !! y = Some x → y ∈ T;
  ti_peers l : peers (db w) = Some l → l ∈ T
}.

(** A message as a topic retains it: it owns three distinct strings. *)
Definition keeps_msg (w : World) (m sd tl pl : loc) (q : Z) (s p : list Z) : Prop :=
  ∃ d r ts, at_loc w m = Some (OMessage (mk_message q d r ts (Some sd) (Some tl) (Some pl)))
    ∧ NoDup [sd; tl; pl] ∧ (∃ bs, at_loc w sd = Some (OStr bs))
    ∧ at_loc w tl = Some (OStr (cobj s)) ∧ at_loc w pl = Some (OStr (cobj p)) ∧ no_nul s ∧ no_nul p.

(** An object of the message that a topic retains. *)
Definition retains_obj (w : World) (t y : loc) : Prop :=
  ∃ tp m, at_loc w t = Some (OTopic tp) ∧ t_retained tp = Some m
    ∧ (y = m ∨ ∃ msg, at_loc w m = Some (OMessage msg) ∧ Some y ∈ [m_sender msg; m_topic msg; m_payload msg]).

(** [T] guards what is never freed, [R] the retained messages with their strings.  Each
    belongs to one topic, and has its name. *)
Record topics_inv (T : gset loc) (ow : owners) (R : gset loc) (w : World) (g : gmap (list Z) loc) : Prop := {
  ti_core : topics_core T ow w g;
  ti_guarded : guarded (T ∪ R) w;
  ti_apart : T ## R;
  ti_kept t tp m : at_loc w t = Some (OTopic tp) → t_retained tp = Some m →
    ∃ sd tl pl q s p, keeps_msg w m sd tl pl q s p ∧ Forall (λ y, y ∈ R) [m; sd; tl; pl]
      ∧ ∀ s', g !! s' = Some t → s' = s;
  ti_single t1 t2 y : retains_obj w t1 y → retains_obj w t2 y → t1 = t2
}.
Coercion ti_core : topics_inv >-> topics_core.

Definition inv (w : World) : Prop := ∃ T ow R g, topics_inv T ow R w g.

(** Fewer than 2^64 objects were allocated. *)
Definition fits (w : World) : Prop := Zpos (fresh_loc w) < 2 ^ 64.

(** * Lemmas *)

Lemma inv_wf w : inv w → heap_wf w.
Proof. intros (T & ow & R & g & Hi). apply (gd_wf _ _ (ti_guarded _ _ _ _ _ Hi)). Qed.

(** What is looked at of a topic is kept when the guarded objects are. *)
Section Kept.
Context (T T' G : gset loc) (ow ow' : owners) (x : ptr) (w w' : World).
Context (Hg : guarded G w) (HG : T ⊆ G) (HT : T ⊆ T') (How : ow ⊆ ow') (Hu : unmoved G x w w').

Lemma kept_same l o : at_loc w l = Some o → rooted o = true → Some l ≠ x →
  ∃ o', at_loc w' l = Some o' ∧ alike o o'.
Proof. intros Hl Hr Hx. apply (um_at _ _ _ _ Hu l o); [|done|done]. by apply (gd_rooted _ _ Hg l o). Qed.

Lemma kept_str l s : l ∈ G → Some l ≠ x → str_at w l = Some s → str_at w' l = Some s.
Proof.
  intros Hl Hx (bs & Ho & Hbs)%str_at_inv. destruct (um_at _ _ _ _ Hu l _ Hl Hx Ho) as (o' & Ho' & Ha).
  cbn in Ha. subst o'. unfold str_at. by rewrite Ho', Hbs.
Qed.

(** [x] is a list other than the one of [t]. *)
Definition aside (t : loc) : Prop :=
  ∀ l, x = Some l → (∃ lst, at_loc w l = Some (OList lst)) ∧ ¬ owns w t l.

Lemma not_aside t l o : aside t → at_loc w l = Some o → (∀ lst, o ≠ OList lst) → Some l ≠ x.
Proof. intros Ha Hl Ho E. destruct (Ha l (eq_sym E)) as [[lst Hlst] _]. apply (Ho lst). congruence. Qed.

Lemma subscriber_kept t y c : aside t → subscriber w y c → subscriber w' y c.
Proof.
  intros Ha (s & sub & cl & Hy & Hs & Hsc & Hc).
  destruct (kept_same s _ Hs eq_refl) as (o & Ho & Hal); [by eapply not_aside|].
  destruct (kept_same c _ Hc eq_refl) as (o2 & Ho2 & Hal2); [by eapply not_aside|].
  cbn in Hal. subst o. destruct o2; try done. by exists s, sub, c0.
Qed.

Lemma list_kept l xs : Some l ≠ x → (∀ y lx, y ∈ xs.*1 → x = Some lx → ∃ lst, at_loc w lx = Some (OList lst)) →
  list_wf w l xs → list_wf w' l xs.
Proof.
  intros Hx Hn (hd & Hl & Hseg & Hnd).
  destruct (kept_same l _ Hl eq_refl Hx) as (o & Ho & Ha). cbn in Ha. subst o.
  exists hd. split_and!; [done| |done]. apply (chain_frame _ w); [|done].
  intros y Hy. pose proof Hy as ([y' d] & -> & Hyd)%list_elem_of_fmap.
  destruct (chain_at _ _ _ _ _ _ _ Hseg Hyd) as [n Hnd'].
  change (at_loc w y' = Some (ONode (mk_node d n))) in Hnd'. cbn [fst] in *. rewrite Hnd'.
  destruct (kept_same y' _ Hnd' eq_refl) as (o & Ho' & Ha).
  - intros E. destruct (Hn y' y' Hy (eq_sym E)) as [lst Hlst]. congruence.
  - cbn in Ha. by subst o.
Qed.

Lemma owns_kept s t l : topic_ok T ow w s t → Some t ≠ x → owns w' t l ↔ owns w t l.
Proof.
  intros (tp & nm & l0 & xs & cs & (Ht & _) & _) Hx.
  destruct (kept_same t _ Ht eq_refl Hx) as (o & Ho & Ha). destruct o as [| | | | | | |tp'| | | | | | | |]; try done.
  destruct Ha as (Hn & Hs & _). split; intros (tq & Htq & Hl); simplify_eq; eexists; (split; [done|congruence]).
Qed.

Lemma owned_kept t tp tp' l xs : aside t → t_name tp' = t_name tp → t_messages tp' = t_messages tp →
  topic_owns ow w t tp l xs → topic_owns ow' w' t tp' l xs.
Proof.
  intros Ha Hn Hm [H1 H2 H3 H4 H5 H6 H7]. split.
  - intros nm. rewrite Hn. intros Hnm%H1. by eapply lookup_weaken.
  - by eapply lookup_weaken.
  - intros y Hy%H3. by eapply lookup_weaken.
  - intros d (y & -> & Hy)%H4. exists y. split; [done|]. by eapply lookup_weaken.
  - done.
  - intros q. rewrite Hm. intros Hq%H6. by eapply lookup_weaken.
  - rewrite Hm. intros q Hq%H7. destruct (kept_same q _ Hq eq_refl) as (o & Ho & Hal); [by eapply not_aside|].
    cbn in Hal. by subst o.
Qed.

Lemma topic_kept s t : aside t → topic_ok T ow w s t → topic_ok T' ow' w' s t.
Proof.
  intros Ha (tp & nm & l & xs & cs & (Ht & (nm' & Hnm' & Hs) & Hl & Hlst) & Hnm & HnT & Hp & Hsubs & Hown).
  assert (nm' = nm) as -> by congruence. assert (Some t ≠ x) as Htx by (by eapply not_aside).
  destruct (kept_same t _ Ht eq_refl Htx) as (o & Ho & Hal). destruct o as [| | | | | | |tp'| | | | | | | |]; try done.
  destruct Hal as (Hn' & Hs' & Hm'). pose proof Hs as (bs & Hnb & _)%str_at_inv.
  assert (Some l ≠ x) as Hlx.
  { intros E. destruct (Ha l (eq_sym E)) as [_ Hno]. apply Hno. by exists tp. }
  exists tp', nm, l, xs, cs. split_and!.
  - split_and!; [done| |congruence|].
    + exists nm. split; [congruence|]. apply kept_str; [by apply HG|by eapply not_aside|done].
    + apply list_kept; [done| |done]. intros y lx _ Hlx'. by destruct (Ha lx Hlx').
  - congruence.
  - by apply HT.
  - by rewrite (um_peers _ _ _ _ Hu).
  - eapply Forall2_impl; [exact Hsubs|]. intros y c. by apply (subscriber_kept t).
  - by apply (owned_kept t tp).
Qed.

End Kept.

(** The descriptors of the subscribers. *)
Lemma subscriber_fds w xs cs : Forall2 (subscriber w) xs cs →
  ∃ fds, Forall2 (λ c fd, ∃ cl, at_loc w c = Some (OClient cl) ∧ cl_fd cl = fd) cs fds.
Proof.
  induction 1 as [|x c xs cs (s & sub & cl & _ & _ & _ & Hc) _ [fds IH]]; [by exists []|].
  exists (cl_fd cl :: fds). constructor; [by exists cl|done].
Qed.

(** A topic keeps its subscribers. *)
Lemma topic_subs_kept G w w' s t tp l xs cs : guarded G w → unmoved G None w w' →
  topic_named w s t tp l xs → Forall2 (subscriber w) xs cs → ∃ tp' fds, topic_subs w' t tp' l xs cs fds.
Proof.
  intros Hg Hu (Ht & _ & Hl & Hlst) Hsubs.
  destruct (kept_same G None w w' Hg Hu t _ Ht eq_refl) as (o & Ho & Ha); [done|].
  destruct o as [| | | | | | |tp'| | | | | | | |]; try done.
  assert (Hsubs' : Forall2 (subscriber w') xs cs).
  { eapply Forall2_impl; [exact Hsubs|]. intros x c. by apply (subscriber_kept G None w w' Hg Hu t). }
  destruct (subscriber_fds w' xs cs Hsubs') as [fds Hfds]. exists tp', fds. split; [done| | |done|done].
  - by destruct Ha as (_ & -> & _).
  - by apply (list_kept G None w w' Hg Hu).
Qed.

(** ** Growing the guarded set *)

Lemma loose_grow T N n n' p : (∀ y, y ∈ N → (n ≤ y)%positive) → (n ≤ n')%positive →
  loose T n p → loose (T ∪ N) n' p.
Proof.
  intros HN Hn Hp l E. destruct (Hp l E) as [HT Hlt]. split; [|lia].
  apply not_elem_of_union. split; [done|]. intros Hge%HN. lia.
Qed.

Lemma sane_grow T N n n' o : (∀ y, y ∈ N → (n ≤ y)%positive) → (n ≤ n')%positive →
  sane T n o → sane (T ∪ N) n' o.
Proof.
  intros HN Hn Hs. destruct o; try done; cbn in *. by eapply loose_grow.
Qed.

(** New rooted objects, and strings, enter; the others are kept up to their type, or are
    loose. *)
Lemma guarded_grow T N w w' :
  guarded T w → heap_wf w' → (fresh_loc w ≤ fresh_loc w')%positive →
  (∀ y, y ∈ N → (fresh_loc w ≤ y)%positive ∧ ∃ o, at_loc w' y = Some o ∧ unguarded o = false) →
  (∀ y o, y ∈ T → at_loc w y = Some o → ∃ o', at_loc w' y = Some o' ∧ kind o' = kind o) →
  (∀ y o, at_loc w' y = Some o → at_loc w y = Some o
     ∨ (rooted o = true → y ∈ T ∪ N) ∧ sane (T ∪ N) (fresh_loc w') o) →
  guarded (T ∪ N) w'.
Proof.
  intros Hg Hwf Hf HN HT Ho. destruct Hg as [Hwf0 Ha Hr Hs].
  split; [done| | |].
  - intros y [Hy|Hy]%elem_of_union; [|by apply HN]. destruct (Ha y Hy) as (o & Hyo & Hu).
    destruct (HT y o Hy Hyo) as (o' & Hyo' & Hk). exists o'. split; [done|].
    by rewrite (proj2 (kind_rooted _ _ Hk)).
  - intros y o [Hy|[Hy _]]%Ho; [|done]. intros Hro. apply elem_of_union_l. by apply (Hr y o).
  - intros y o [Hy|[_ Hy]]%Ho; [|done]. apply Hs in Hy. eapply sane_grow; [|done|done]. by intros x [? _]%HN.
Qed.

Lemma entry_ok_grow T T' ow ow' e : T ⊆ T' → ow ⊆ ow' → entry_ok T ow e → entry_ok T' ow' e.
Proof. intros HT How (k & t & -> & Hk & Ho). exists k, t. split_and!; [done|by apply HT|by eapply lookup_weaken]. Qed.

Lemma entry_key T ow w g k : topics_core T ow w g → stored_key (topics (db w)) k → ∃ l, k = KPtr l ∧ l ∈ T.
Proof.
  intros Hi (i & e & He & Hu & Hk). destruct (ti_keys _ _ _ _ Hi i e He Hu) as (l & t & -> & Hl & _).
  injection Hk as <-. by exists l.
Qed.

(** A list belongs to one topic. *)
Lemma one_owner T ow w g s1 t1 s2 t2 l : topics_core T ow w g →
  g !! s1 = Some t1 → g !! s2 = Some t2 → owns w t1 l → owns w t2 l → t1 = t2.
Proof.
  intros Hi (tp1 & nm1 & l1 & xs1 & cs1 & (Ht1 & _ & Hl1 & _) & _ & _ & _ & _ & Ho1)%(ti_topics _ _ _ _ Hi)
    (tp2 & nm2 & l2 & xs2 & cs2 & (Ht2 & _ & Hl2 & _) & _ & _ & _ & _ & Ho2)%(ti_topics _ _ _ _ Hi)
    (tq1 & Hq1 & Hm1) (tq2 & Hq2 & Hm2).
  pose proof (to_list _ _ _ _ _ _ Ho1). pose proof (to_list _ _ _ _ _ _ Ho2). congruence.
Qed.

(** The core of the invariant where the map of topics does not change. *)
Lemma core_unmoved T T' ow ow' G x w w' g :
  topics_core T ow w g → guarded G w → T ⊆ G → T ⊆ T' → ow ⊆ ow' → unmoved G x w w' →
  (∀ y z, ow' !! y = Some z → y ∈ T') →
  (∀ l, x = Some l → ∃ lst, at_loc w l = Some (OList lst)) →
  (∀ s t, g !! s = Some t → aside x w t ∨ topic_ok T' ow' w' s t) → topics_core T' ow' w' g.
Proof.
  intros Hi Hg HG HT How Hu HT' Hx Hts. pose proof Hi as [Hr Hk Ht Ho Hp]. split.
  - unfold topics_repr. rewrite (um_topics _ _ _ _ Hu). apply (hm_repr_frame (str_of w)); [|exact Hr].
    intros k Hks. destruct (stored_key_str w _ k (repr_wf _ _ _ Hr) Hks) as [s Hs]. rewrite Hs.
    destruct (entry_key T ow w g k Hi Hks) as (l & -> & Hl). cbn in *. apply (kept_str G x w w' Hu); [by apply HG| |done].
    intros E. destruct (Hx l (eq_sym E)) as [lst Hlst]. apply str_at_inv in Hs as (bs & Hbs & _). congruence.
  - intros i e. rewrite (um_topics _ _ _ _ Hu). intros He Hus. apply (entry_ok_grow T T' ow ow'); [done|done|]. by apply (Hk i).
  - intros s t Hst. destruct (Hts s t Hst) as [Ha|]; [|done]. by apply (topic_kept T T' G ow ow' x w w' Hg HG HT How Hu), Ht.
  - done.
  - intros l. rewrite (um_peers _ _ _ _ Hu). intros Hl%Hp. by apply HT.
Qed.

Lemma aside_None w t : aside None w t.
Proof. done. Qed.

(** A retained message is kept where its strings and itself are. *)
Lemma keeps_msg_kept w w' m sd tl pl q s p : keeps_msg w m sd tl pl q s p →
  (∀ y o, y ∈ [m; sd; tl; pl] → at_loc w y = Some o → (∃ bs, o = OStr bs) ∨ (∃ msg, o = OMessage msg) →
     at_loc w' y = Some o) →
  keeps_msg w' m sd tl pl q s p.
Proof.
  intros (d & r & ts & Hm & Hnd & (bs & Hs) & Ht & Hp & Hcs) Hk. exists d, r, ts.
  assert (Hstr : ∀ y b, y ∈ [sd; tl; pl] → at_loc w y = Some (OStr b) → at_loc w' y = Some (OStr b)).
  { intros y b Hy Hb. apply (Hk y); [by apply elem_of_cons; right|done|left; by exists b]. }
  split; [apply (Hk m); [apply elem_of_cons; by left|done|right; by eexists]|]. split; [done|].
  split; [exists bs; apply Hstr; [set_solver|done]|]. split; [apply Hstr; [set_solver|done]|].
  split; [apply Hstr; [set_solver|done]|done].
Qed.

Lemma keeps_msg_objs w m sd tl pl q s p y : keeps_msg w m sd tl pl q s p →
  y ∈ [m; sd; tl; pl] ↔ (y = m ∨ ∃ msg, at_loc w m = Some (OMessage msg) ∧ Some y ∈ [m_sender msg; m_topic msg; m_payload msg]).
Proof.
  intros (d & r & ts & Hm & _). rewrite !elem_of_cons, elem_of_nil. split.
  - intros [->|Hy]; [by left|]. right. eexists. split; [exact Hm|]. cbn. rewrite !elem_of_cons, elem_of_nil. naive_solver.
  - intros [->|(msg & Hmsg & Hy)]; [by left|]. right. simplify_eq. cbn in Hy.
    rewrite !elem_of_cons, elem_of_nil in Hy. naive_solver.
Qed.

(** The whole invariant where the map of topics and the retained messages do not change. *)
Lemma inv_unmoved T T' ow ow' R x w w' g :
  topics_inv T ow R w g → guarded (T' ∪ R) w' → T ⊆ T' → T' ## R → ow ⊆ ow' → (∀ y z, ow' !! y = Some z → y ∈ T') → unmoved (T ∪ R) x w w' → retains_same w w' →
  (∀ l, x = Some l → ∃ lst, at_loc w l = Some (OList lst)) →
  (∀ s t, g !! s = Some t → aside x w t ∨ topic_ok T' ow' w' s t) → topics_inv T' ow' R w' g.
Proof.
  intros [Hcore Hg HTR Hk Hsg] Hg' HT HTR' How HT' Hu Hrs Hx Hts.
  assert (Hkept : ∀ m sd tl pl q s p, keeps_msg w m sd tl pl q s p → Forall (λ y, y ∈ R) [m; sd; tl; pl] →
    keeps_msg w' m sd tl pl q s p).
  { intros m sd tl pl q s p Hm HR. apply (keeps_msg_kept w); [done|]. intros y o Hy Hyo Hko.
    rewrite Forall_forall in HR. destruct (um_at _ _ _ _ Hu y o) as (o' & Ho' & Ha);
      [apply elem_of_union_r; by apply HR| |done|].
    - intros E. destruct (Hx y (eq_sym E)) as [lst Hlst]. destruct Hko as [[? ->]|[? ->]]; congruence.
    - destruct Hko as [[? ->]|[? ->]]; cbn in Ha; by subst o'. }
  assert (Hobj : ∀ t y, retains_obj w' t y → retains_obj w t y).
  { intros t y (tp' & m & Ht' & Hm & Hy). destruct (Hrs t tp' m Ht' Hm) as (tp & Ht & Hm0).
    exists tp, m. split_and!; [done|done|].
    destruct (Hk t tp m Ht Hm0) as (sd & tl & pl & q & s & p & Hmsg & HR & _).
    apply (keeps_msg_objs w' m sd tl pl q s p y (Hkept _ _ _ _ _ _ _ Hmsg HR)) in Hy.
    by apply (keeps_msg_objs w m sd tl pl q s p y Hmsg). }
  split.
  - apply (core_unmoved T T' ow ow' (T ∪ R) x w w' g); try done. set_solver.
  - done.
  - done.
  - intros t tp' m Ht' Hm. destruct (Hrs t tp' m Ht' Hm) as (tp & Ht & Hm0).
    destruct (Hk t tp m Ht Hm0) as (sd & tl & pl & q & s & p & Hmsg & HR & Hs).
    exists sd, tl, pl, q, s, p. split_and!; [by apply Hkept|done|done].
  - intros t1 t2 y H1%Hobj H2%Hobj. by eapply Hsg.
Qed.

(** Quiet commands keep the invariant. *)
Lemma inv_quiet {A} (m : M World A) Q w a w' : inv w → (∀ T n, quiet T n m (Q T)) → m w = Ok (a, w') →
  inv w' ∧ ∃ T, guarded T w' ∧ Q T a (fresh_loc w').
Proof.
  intros (T & ow & R & g & Hi) Hm E.
  destruct (Hm (T ∪ R) (fresh_loc w) w a w' (ti_guarded _ _ _ _ _ Hi) (Pos.le_refl _) E) as (Hg' & [Hu Hr] & HQ).
  split; [|by exists (T ∪ R)]. exists T, ow, R, g.
  apply (inv_unmoved T T ow ow R None w); try done; [apply Hi|apply Hi|]. left. apply aside_None.
Qed.

(** What is new is none of the retained objects. *)
Lemma grow_apart T R N w : guarded (T ∪ R) w → T ## R → (∀ y, y ∈ N → (fresh_loc w ≤ y)%positive) → T ∪ N ## R.
Proof.
  intros Hg HTR HN. apply disjoint_union_l. split; [done|]. intros y Hy%HN HR.
  destruct (gd_alive _ _ Hg y) as (o & Ho & _); [set_solver|]. apply (gd_wf _ _ Hg) in Ho. unfold fresh_loc in Hy. lia.
Qed.

Lemma union_swap (T R N : gset loc) : T ∪ N ∪ R = T ∪ R ∪ N.
Proof. apply set_eq. set_solver. Qed.

(** A new rooted object. *)
Lemma topics_inv_alloc {A} `{Cell obj A} (a : A) T ow R w g : topics_inv T ow R w g → rooted (inj a) = true →
  (∀ tp, inj a = OTopic tp → t_retained tp = None) →
  sane (T ∪ R) (fresh_loc w) (inj a) → topics_inv (T ∪ {[fresh_loc w]}) ow R (alloc a w) g.
Proof.
  intros Hi Hr Hret Hs. pose proof (ti_guarded _ _ _ _ _ Hi) as Hg. pose proof (gd_wf _ _ Hg) as Hwf.
  assert (Hf : (fresh_loc w ≤ fresh_loc (alloc a w))%positive) by (rewrite fresh_alloc; lia).
  assert (HN : ∀ y, y ∈ ({[fresh_loc w]} : gset loc) → (fresh_loc w ≤ y)%positive) by (by intros y ->%elem_of_singleton).
  apply (inv_unmoved T _ ow ow R None w); [done| |set_solver|by apply (grow_apart T R _ w); [|apply Hi|]|done| |
    by apply unmoved_alloc|by apply retains_same_alloc|done|left; apply aside_None].
  2:{ intros y z Hy%(ti_owned _ _ _ _ Hi). by apply elem_of_union_l. }
  rewrite union_swap. apply (guarded_grow (T ∪ R) _ w); [done|by apply alloc_wf|done| | |].
  - intros y Hy. split; [by apply HN|]. apply elem_of_singleton in Hy as ->. exists (inj a). split; [apply at_alloc_eq|].
    by destruct (inj a).
  - intros y o _ Hy. exists o. split; [|done]. rewrite at_alloc_ne; [done|by eapply heap_wf_ne].
  - intros y o. rewrite at_alloc. case_decide; [|by left]. intros [= <-]. right. split; [set_solver|].
    by apply (sane_grow _ _ (fresh_loc w)).
Qed.

Lemma inv_alloc {A} `{Cell obj A} (a : A) w : inv w → rooted (inj a) = true →
  (∀ tp, inj a = OTopic tp → t_retained tp = None) → (∀ T n, sane T n (inj a)) → inv (alloc a w).
Proof. intros (T & ow & R & g & Hi) Hr Hret Hs. eexists _, ow, R, g. by apply topics_inv_alloc. Qed.

(** The lists grow at their heads. *)
Lemma list_insert_inv w p v r w' : heap_wf w → (∀ l, p = Some l → (l < fresh_loc w)%positive) →
  list_head_insert p v w = Ok (r, w') →
  ∃ l lst lst' nd, p = Some l ∧ r = Some l ∧ at_loc w l = Some (OList lst) ∧ at_loc w' l = Some (OList lst')
    ∧ at_loc w' (fresh_loc w) = Some (ONode nd) ∧ heap_wf w' ∧ env_eq w w'
    ∧ ∀ y, y ≠ l → y ≠ fresh_loc w → at_loc w' y = at_loc w y.
Proof.
  intros Hwf Hp E. pose proof (heap_only_env _ _ _ _ (list_head_insert_heap _ _) E) as He. pose proof E as E0.
  unfold list_head_insert in E. apply M_bind_Ok in E as (n & w1 & [= <- <-] & E).
  apply M_bind_Ok in E as (lst & w2 & (l & -> & Hl & _)%deref_inv & _).
  specialize (Hp l eq_refl). change (at_loc (alloc (mk_node v None) w) l = Some (inj lst)) in Hl.
  rewrite at_alloc_ne in Hl by lia. destruct lst as [hd tl len].
  destruct (list_head_insert_run w l hd tl len v Hwf Hl) as (w3 & E3 & Hl3 & Hn3 & Hwf3 & Ho3).
  rewrite E3 in E0. injection E0 as <- <-. do 4 eexists. split_and!; done.
Qed.

Lemma guarded_insert T w w' l lst lst' nd :
  guarded T w → at_loc w l = Some (OList lst) → at_loc w' l = Some (OList lst') →
  at_loc w' (fresh_loc w) = Some (ONode nd) → heap_wf w' → env_eq w w' →
  (∀ y, y ≠ l → y ≠ fresh_loc w → at_loc w' y = at_loc w y) →
  guarded (T ∪ {[fresh_loc w]}) w' ∧ unmoved T (Some l) w w' ∧ retains_same w w'.
Proof.
  intros Hg Hl Hl' Hn Hwf He Ho. pose proof (gd_wf _ _ Hg) as Hwf0.
  assert (Hf : (fresh_loc w ≤ fresh_loc w')%positive) by (apply Hwf in Hn; unfold fresh_loc in *; lia).
  assert (Hold : ∀ y o, at_loc w y = Some o → y ≠ l → at_loc w' y = Some o).
  { intros y o Hy Hyl. rewrite Ho; [done|done|by eapply heap_wf_ne]. }
  split.
  - apply (guarded_grow T _ w); [done|done|done| | |].
    + intros y ->%elem_of_singleton. split; [done|]. by exists (ONode nd).
    + intros y o _ Hy. destruct (decide (y = l)) as [->|Hyl]; [|by exists o; split; [apply Hold|]].
      exists (OList lst'). split; [done|]. by simplify_eq.
    + intros y o Hy. destruct (decide (y = l)) as [->|Hyl].
      { right. simplify_eq. split; [|done]. intros _. apply elem_of_union_l. by apply (gd_rooted _ _ Hg l (OList lst)). }
      destruct (decide (y = fresh_loc w)) as [->|Hyf]; [|left; by rewrite <- Ho].
      right. simplify_eq. split; [set_solver|done].
  - split.
    + split; [done| |by rewrite (env_db _ _ He)..]. intros y o _ Hyl Hy. exists o.
      split; [apply Hold; [done|congruence]|apply alike_refl].
    + intros t tp m Ht Hm. exists tp. split; [|done]. rewrite <- Ho; [done|congruence..].
Qed.

(** A topic keeps its list, or takes in the new head as [topic_ok] asks. *)
Lemma inv_inserted T ow ow' R w w' g l lst lst' nd :
  topics_inv T ow R w g → at_loc w l = Some (OList lst) → at_loc w' l = Some (OList lst') →
  at_loc w' (fresh_loc w) = Some (ONode nd) → heap_wf w' → env_eq w w' →
  (∀ y, y ≠ l → y ≠ fresh_loc w → at_loc w' y = at_loc w y) →
  ow ⊆ ow' → (∀ y z, ow' !! y = Some z → y ∈ T ∪ {[fresh_loc w]}) →
  (∀ s t, g !! s = Some t → aside (Some l) w t ∨ topic_ok (T ∪ {[fresh_loc w]}) ow' w' s t) → inv w'.
Proof.
  intros Hi Hl Hl' Hn Hwf He Ho How HT' Hts.
  destruct (guarded_insert (T ∪ R) w w' l lst lst' nd (ti_guarded _ _ _ _ _ Hi) Hl Hl' Hn Hwf He Ho) as (Hg1 & Hu1 & Hr1).
  exists (T ∪ {[fresh_loc w]}), ow', R, g.
  apply (inv_unmoved T _ ow ow' R (Some l) w); try done; [by rewrite union_swap|set_solver| |intros l' [= <-]; by exists lst].
  apply (grow_apart T R _ w); [apply Hi..|]. by intros y ->%elem_of_singleton.
Qed.

(** ** A connection from the bus *)

Lemma inv_peers w v r w' : inv w → (l ← list_head_insert (peers (db w)) v; modify (set_peers l)) w = Ok (r, w') →
  inv w'.
Proof.
  intros (T & ow & R & g & Hi) E. apply M_bind_Ok in E as (p & w1 & E & [= _ <-]).
  pose proof (ti_guarded _ _ _ _ _ Hi) as Hg.
  assert (Hpl : ∀ l, peers (db w) = Some l → (l < fresh_loc w)%positive).
  { intros l Hl%(ti_peers _ _ _ _ Hi). destruct (gd_alive _ _ Hg l) as (o & Ho & _); [by apply elem_of_union_l|].
    by apply (gd_wf _ _ Hg) in Ho. }
  apply list_insert_inv in E as (l & lst & lst' & nd & Hp & -> & Hl & Hl' & Hn & Hwf & He & Ho);
    [|apply Hg|done].
  assert (set_peers (Some l) w1 = w1) as ->.
  { rewrite <- Hp, <- (env_db _ _ He). by destruct w1 as [?? [] ???]. }
  apply (inv_inserted T ow ow R w w1 g l lst lst' nd Hi Hl Hl' Hn Hwf He Ho); [done| |].
  { intros y z Hy%(ti_owned _ _ _ _ Hi). by apply elem_of_union_l. }
  intros s t Hst. left. intros l' [= <-]. split; [by exists lst|].
  intros (tp & Htp & Hs). destruct (ti_topics _ _ _ _ Hi s t Hst) as (tp' & nm & l2 & xs & cs & (Ht & _ & Hl2 & _) & _ & _ & Hne & _).
  assert (tp' = tp) as -> by congruence. apply Hne. rewrite <- Hl2, Hs. exact Hp.
Qed.

(** ** A new subscriber *)

(** The nodes of a list are fewer than the objects. *)
Lemma chain_fits w p xs : heap_wf w → lseg w p xs None → NoDup xs.*1 → fits w → Z.of_nat (length xs) + 1 < 2 ^ 64.
Proof.
  intros Hwf Hseg Hnd Hfit. unfold fits in Hfit.
  assert (Hsub : (Pos.to_nat <$> xs.*1) ⊆ seq 1 (Pos.to_nat (fresh_loc w) - 1)).
  { intros i (l & -> & Hl)%list_elem_of_fmap. destruct (chain_allocated _ _ _ _ _ _ Hseg Hl) as [o Ho].
    apply Hwf in Ho. apply elem_of_seq. unfold fresh_loc. lia. }
  assert (Hnd' : NoDup (Pos.to_nat <$> xs.*1)) by (apply NoDup_fmap_2; [apply _|done]).
  pose proof (submseteq_length _ _ (NoDup_submseteq _ _ Hnd' Hsub)) as Hl.
  rewrite !length_fmap, length_seq in Hl. lia.
Qed.

(** A lookup that returns had a string to look for. *)
Lemma get_key {K V} (str : K → option (list Z)) (m : Hashmap K V) k v m' :
  hashmap_get str m k = Ok (v, m') → ∃ s, str k = Some s.
Proof.
  unfold hashmap_get, mutex_lock. destruct (m_lock m); [done|]. cbn [mbind res_bind].
  unfold hash_key, key_string. destruct (str k) as [s|]; [eauto|done].
Qed.

Lemma topics_get_inv w g k v w' : topics_repr w g → topics_get k w = Ok (v, w') →
  ∃ s, str_of w k = Some s ∧ v = g !! s ∧ w' = w.
Proof.
  intros Hr E. assert (∃ s, str_of w k = Some s) as [s Hs].
  { unfold topics_get in E. destruct (hashmap_get _ _ k) as [[v1 m]|] eqn:Eg; [|done].
    by eapply get_key. }
  exists s. rewrite (topics_get_run w g k s Hr (key_of w k s Hs)) in E. by simplify_eq.
Qed.

(** What is new belongs to no topic. *)
Lemma fresh_unowned T ow R w g y : topics_inv T ow R w g → (fresh_loc w ≤ y)%positive → ow !! y = None.
Proof.
  intros Hi Hy. destruct (ow !! y) as [z|] eqn:Ho; [|done]. apply (ti_owned _ _ _ _ Hi) in Ho.
  destruct (gd_alive _ _ (ti_guarded _ _ _ _ _ Hi) y) as (o & Hyo & _); [by apply elem_of_union_l|].
  apply (gd_wf _ _ (ti_guarded _ _ _ _ _ Hi)) in Hyo. unfold fresh_loc in Hy. lia.
Qed.

(** A node and a subscription come to belong to the topic. *)
Lemma owns_insert ow w w' t tp l xs n sb : topic_owns ow w t tp l xs → ow !! n = None → ow !! sb = None → n ≠ sb →
  empty_queue_at w' (t_messages tp) →
  let ow' := <[n := (t, RNode)]> (<[sb := (t, RSub)]> ow) in
  ow ⊆ ow' ∧ topic_owns ow' w' t tp l ((n, Some sb) :: xs).
Proof.
  intros [H1 H2 H3 H4 H5 H6 H7] Hn Hs Hne Hq ow'.
  assert (How : ow ⊆ ow').
  { etrans; [by apply (insert_subseteq _ sb (t, RSub))|]. apply insert_subseteq. by rewrite lookup_insert_ne. }
  split; [done|]. split.
  - intros nm Hnm%H1. by eapply lookup_weaken.
  - by eapply lookup_weaken.
  - intros y. cbn [fmap list_fmap fst]. intros [->|Hy%H3]%elem_of_cons; [apply lookup_insert_eq|by eapply lookup_weaken].
  - intros d. cbn [fmap list_fmap snd]. intros [->|(y & -> & Hy)%H4]%elem_of_cons.
    + exists sb. split; [done|]. unfold ow'. by rewrite lookup_insert_ne, lookup_insert_eq.
    + exists y. split; [done|by eapply lookup_weaken].
  - cbn [fmap list_fmap snd]. apply NoDup_cons_2; [|done]. intros (y & [= <-] & Hy)%H4. congruence.
  - intros q Hq'%H6. by eapply lookup_weaken.
  - done.
Qed.

Lemma inv_add_subscriber T ow R w g sb c cl k q r w' :
  topics_inv T ow R w g → sb ∈ T → ow !! sb = None → at_loc w sb = Some (OSubscription (mk_subscription (Some c) k q)) → at_loc w c = Some (OClient cl) →
  fits w → add_subscriber (Some sb) w = Ok (r, w') → inv w'.
Proof.
  intros Hi HsbT Hsbo Hsb Hc Hfit E. pose proof (ti_guarded _ _ _ _ _ Hi) as Hg. pose proof (gd_wf _ _ Hg) as Hwf.
  pose proof (ti_repr _ _ _ _ Hi) as Hr. pose proof E as E0. unfold add_subscriber in E.
  erewrite M_bind_run in E by exact (deref_run sb (mk_subscription (Some c) k q) w Hsb).
  apply M_bind_Ok in E as (topic & w1 & E1 & E). unfold subscription_topic in E1. cbn [sub_topic] in E1.
  destruct k as [k|]; [|done]. erewrite M_bind_run in E1 by done.
  destruct (topics_get_inv w g k topic w1 Hr E1) as (s & Hs & -> & ->).
  apply M_bind_Ok in E as (u & w2 & El & E). unfold lock_db in El. destruct (db_lock (db w)) eqn:Hlock; [done|].
  injection El as <- <-. apply M_bind_Ok in E as (tp & w3 & (t & Ht & Htp & _)%deref_inv & _).
  destruct (ti_topics _ _ _ _ Hi s t Ht) as (tp' & nm & l & xs & cs & Hn & Hnm & HnT & Hp & Hsubs & Hto).
  pose proof Hn as (Htp' & _ & Hl & Hlst). pose proof Hlst as (hd & Hlo & Hseg & Hnd).
  destruct (add_subscriber_run w g s t tp' l xs sb (Some c) q k Hwf Hr Ht Hn Hs) as (w4 & E4 & Hr4 & Hn4 & Hwf4 & He4 & Ho4);
    [apply (chain_fits w hd xs); [done|done|by apply NoDup_cons in Hnd as [_ ?]|done]|done|done|].
  rewrite E4 in E0. injection E0 as _ <-.
  pose proof Hn4 as (_ & _ & _ & (hd4 & Hl4 & (_ & nd & Hnd4 & _) & _)).
  assert (Hold : ∀ y o, at_loc w y = Some o → (∀ lst, o ≠ OList lst) → at_loc w4 y = Some o).
  { intros y o Hy Hno. rewrite Ho4; [done| |by eapply heap_wf_ne]. intros ->.
    apply (Hno (mk_list hd (last xs.*1) (Z.of_nat (length xs)))). rewrite Hlo in Hy. by injection Hy as <-. }
  destruct (owns_insert ow w w4 t tp' l xs (fresh_loc w) sb Hto) as [How Hto4];
    [by eapply fresh_unowned|done|exact (not_eq_sym (heap_wf_ne w _ _ Hwf Hsb))| |].
  { intros y Hy%(to_empty _ _ _ _ _ _ Hto). by apply Hold. }
  apply (inv_inserted T ow _ R w w4 g l _ _ _ Hi Hlo Hl4 Hnd4 Hwf4 He4 Ho4 How).
  { intros y z. rewrite !lookup_insert_Some. intros [[<- _]|[_ [[<- _]|[_ Hy%(ti_owned _ _ _ _ Hi)]]]]; set_solver. }
  intros s' t' Ht'. destruct (decide (t' = t)) as [->|Hne].
  - right. assert (s' = s) as ->.
    { destruct (ti_topics _ _ _ _ Hi s' t Ht') as (tq & nq & lq & xq & cq & (Htq & (n1 & Hn1 & Hs1) & _) & _).
      destruct Hn as (_ & (n2 & Hn2 & Hs2) & _). congruence. }
    exists tp', nm, l, ((fresh_loc w, Some sb) :: xs), (c :: cs). split_and!; [done|done|set_solver|by rewrite (env_db _ _ He4)| |done].
    constructor.
    + exists sb, (mk_subscription (Some c) (Some k) q), cl. split_and!; [done|by apply Hold|done|by apply Hold].
    + eapply Forall2_impl; [exact Hsubs|]. intros y c' (s1 & sub1 & cl1 & Hy & Hs1 & Hc1 & Hcl1).
      exists s1, sub1, cl1. split_and!; [done|by apply Hold|done|by apply Hold].
  - left. intros l' [= <-]. split; [by eexists|]. intros Hown. apply Hne.
    apply (one_owner T ow w g s' t' s t l Hi); [done|done|done|]. by exists tp'.
Qed.

(** ** A retained message *)

(** Objects that are not rooted may leave. *)
Lemma guarded_shrink G G' w : guarded G w → G' ⊆ G →
  (∀ y o, at_loc w y = Some o → rooted o = true → y ∈ G → y ∈ G') → guarded G' w.
Proof.
  intros [Hwf Ha Hr Hs] Hsub Hout. split; [done| | |].
  - intros y Hy. by apply Ha, Hsub.
  - intros y o Hy Ho. apply (Hout y o); [done|done|by eapply Hr].
  - intros y o Hy. pose proof (Hs y o Hy) as Hso. destruct o; try done. intros l Hl. destruct (Hso l Hl) as [Hno ?].
    split; [|done]. intros Hin. by apply Hno, Hsub.
Qed.

(** What the topic at [t] retains. *)
Lemma kept_objs T ow R w g t tp : topics_inv T ow R w g → at_loc w t = Some (OTopic tp) →
  ∃ objs, retained_objs w tp objs ∧ (∀ y, y ∈ objs → y ∈ R ∧ retains_obj w t y)
    ∧ (∀ y, y ∈ objs → ∃ o, at_loc w y = Some o ∧ rooted o = false)
    ∧ NoDup objs ∧ ∀ y, retains_obj w t y → y ∈ objs.
Proof.
  intros Hi Ht. unfold retained_objs. destruct (t_retained tp) as [m|] eqn:Hm.
  2:{ exists []. split_and!; [done|by intros y ?%elem_of_nil..|constructor|].
      intros y (tq & m & Htq & Hmq & _). congruence. }
  destruct (ti_kept _ _ _ _ _ Hi t tp m Ht Hm) as (sd & tl & pl & q & s & p & Hmsg & HR & _).
  pose proof Hmsg as (d & r & ts & Hmo & Hnd & (bs & Hsd) & Htl & Hpl & _).
  exists [m; sd; tl; pl]. split_and!.
  - exists sd, tl, pl. split; [|done]. exists q, d, r, ts. split_and!; [done|done|]. repeat constructor; by eexists.
  - intros y Hy. split; [rewrite Forall_forall in HR; by apply HR|]. exists tp, m. split_and!; [done|done|].
    by apply (keeps_msg_objs w m sd tl pl q s p y Hmsg).
  - intros y. rewrite !elem_of_cons, elem_of_nil. intros [->|[->|[->|[->|[]]]]]; by eexists.
  - apply NoDup_cons_2; [|done]. rewrite !elem_of_cons, elem_of_nil. intros [->|[->|[->|[]]]]; congruence.
  - intros y (tq & m' & Htq & Hmq & Hy). assert (m' = m) as -> by congruence.
    by apply (keeps_msg_objs w m sd tl pl q s p y Hmsg).
Qed.

Lemma retains_obj_old T ow R w g t y : topics_inv T ow R w g → retains_obj w t y → ∃ o, at_loc w y = Some o.
Proof.
  intros Hi (tp & m & Ht & Hm & Hy). destruct (ti_kept _ _ _ _ _ Hi t tp m Ht Hm) as (sd & tl & pl & q & s & p & Hmsg & HR & _).
  apply (keeps_msg_objs w m sd tl pl q s p y Hmsg) in Hy. rewrite Forall_forall in HR.
  destruct (gd_alive _ _ (ti_guarded _ _ _ _ _ Hi) y) as (o & Ho & _); [apply elem_of_union_r; by apply HR|by exists o].
Qed.

Lemma retained_objs_keeps w w' tp objs : extends w w' → retained_objs w tp objs → retained_objs w' tp objs.
Proof.
  unfold retained_objs. destruct (t_retained tp) as [m|]; [|done]. intros Hx (sd & tl & pl & (q & d & r & ts & Hm & Hnd & Hf) & ->).
  exists sd, tl, pl. split; [|done]. exists q, d, r, ts. split_and!; [by apply Hx|done|].
  eapply Forall_impl; [exact Hf|]. intros l [bs Hbs]. exists bs. by apply Hx.
Qed.

Lemma modify_at_inv {A} `{Cell obj A} p (f : A → A) w u w' : modify_at p f w = Ok (u, w') →
  ∃ l a, p = Some l ∧ at_loc w l = Some (inj a) ∧ w' = update l (inj (f a)) w.
Proof.
  unfold modify_at. intros (a & w1 & (l & -> & Hl & ->)%deref_inv & (l' & a0 & [= <-] & _ & ->)%assign_inv)%M_bind_Ok.
  by exists l, a.
Qed.

(** A message that was copied has a payload that ends. *)
Lemma retained_payload t msg sender w r : retain_message t msg sender w = Ok r → ∃ p, cstr (p_message msg) = Ok p.
Proof.
  unfold retain_message. destruct r. intros (m & w1 & E & _)%M_bind_Ok. unfold create_message in E.
  do 3 apply M_bind_Ok in E as (? & ? & _ & E). apply M_bind_Ok in E as (? & ? & E & _).
  unfold strdup_of in E. destruct (cstr (p_message msg)) as [p|]; [by exists p|done].
Qed.

(** It was copied for a topic. *)
Lemma retained_topic t msg sender s w r : heap_wf w → cstr (p_topic msg) = Ok s → retain_message t msg sender w = Ok r →
  ∃ l tp, t = Some l ∧ at_loc w l = Some (OTopic tp).
Proof.
  intros Hwf Hs E. destruct (retained_payload _ _ _ _ _ E) as [p Hp].
  destruct (create_message_run w msg sender s p Hwf Hs Hp) as (w1 & E1 & _ & _ & _ & Hm & Htl & Hpl & Ho).
  unfold retain_message in E. rewrite (M_bind_run _ _ _ _ _ E1) in E. destruct r as [u w'].
  apply M_bind_Ok in E as (v & w2 & (l0 & a & [= <-] & Hl0 & ->)%modify_at_inv & E).
  apply M_bind_Ok in E as (tp & w3 & (l & -> & Hl & _)%deref_inv & _). exists l, tp. split; [done|].
  rewrite at_update in Hl. case_decide; [done|]. change (at_loc w1 l = Some (OTopic tp)) in Hl.
  rewrite <- Ho; [done|congruence..].
Qed.

(** A new message, in [new], takes the place of the old one, in [old], at the topic [t]. *)
Record swapped (w w' : World) (t : loc) (tp : Topic) (m : loc) (old new : list loc) : Prop := {
  sw_wf : heap_wf w';
  sw_env : env_eq w w';
  sw_before : at_loc w t = Some (OTopic tp);
  sw_topic : at_loc w' t = Some (OTopic (mk_topic (t_name tp) (t_subscribers tp) (t_messages tp) (Some m)));
  sw_old y : y ∈ old → at_loc w' y = None;
  sw_fresh y : y ∈ new → (fresh_loc w ≤ y)%positive;
  sw_alive y : y ∈ new → ∃ o, at_loc w' y = Some o ∧ rooted o = false ∧ unguarded o = false;
  sw_objs y : y ∈ new ↔ (y = m ∨ ∃ msg, at_loc w' m = Some (OMessage msg) ∧ Some y ∈ [m_sender msg; m_topic msg; m_payload msg]);
  sw_other y : y ≠ t → y ∉ old → y ∉ new → at_loc w' y = at_loc w y
}.

Section Swapped.
Context (T R : gset loc) (ow : owners) (w w' : World) (g : gmap (list Z) loc) (t : loc) (tp : Topic) (m : loc) (old new : list loc).
Context (Hi : topics_inv T ow R w g) (Hsw : swapped w w' t tp m old new).
Context (Hold : ∀ y, y ∈ old → y ∈ R ∧ retains_obj w t y).
Context (Holdo : ∀ y, y ∈ old → ∃ o, at_loc w y = Some o ∧ rooted o = false).

Let O : gset loc := list_to_set old.
Let N : gset loc := list_to_set new.

Lemma swapped_fresh y o : y ∈ new → at_loc w y = Some o → False.
Proof. intros Hy%(sw_fresh _ _ _ _ _ _ _ Hsw) Ho%(gd_wf _ _ (ti_guarded _ _ _ _ _ Hi)). unfold fresh_loc in Hy. lia. Qed.

(** The other objects are the same. *)
Lemma swapped_kept y o : at_loc w y = Some o → y ≠ t → y ∉ old → at_loc w' y = Some o.
Proof.
  intros Ho Ht Hy. rewrite (sw_other _ _ _ _ _ _ _ Hsw); [done|done|done|]. intros Hn. by eapply swapped_fresh.
Qed.

Lemma swapped_guard : guarded ((T ∪ R) ∖ O) w ∧ T ⊆ (T ∪ R) ∖ O ∧ unmoved ((T ∪ R) ∖ O) None w w'
  ∧ ∀ y o, y ∈ (T ∪ R) ∖ O → at_loc w y = Some o → ∃ o', at_loc w' y = Some o' ∧ kind o' = kind o.
Proof.
  assert (Hk : ∀ y o, y ∈ (T ∪ R) ∖ O → at_loc w y = Some o → ∃ o', at_loc w' y = Some o' ∧ kind o' = kind o ∧ alike o o').
  { intros y o [_ Hy]%elem_of_difference Ho. unfold O in Hy. rewrite elem_of_list_to_set in Hy.
    destruct (decide (y = t)) as [->|Hyt].
    - rewrite (sw_before _ _ _ _ _ _ _ Hsw) in Ho. injection Ho as <-. eexists. split; [apply Hsw|done].
    - exists o. split; [by apply swapped_kept|]. split; [done|apply alike_refl]. }
  split_and!.
  - apply (guarded_shrink (T ∪ R)); [apply Hi|set_solver|]. intros y o Hy Ho Hin. apply elem_of_difference. split; [done|].
    unfold O. rewrite elem_of_list_to_set. intros (o' & Ho' & Hr)%Holdo. congruence.
  - intros y Hy. apply elem_of_difference. split; [by apply elem_of_union_l|]. unfold O. rewrite elem_of_list_to_set.
    intros [HR _]%Hold. pose proof (ti_apart _ _ _ _ _ Hi). set_solver.
  - split; [|intros y o Hy _ Ho; destruct (Hk y o Hy Ho) as (o' & ? & _ & ?); by exists o'|
      by rewrite (env_db _ _ (sw_env _ _ _ _ _ _ _ Hsw))..].
    assert (m ∈ new) as Hm by (apply Hsw; by left). destruct (sw_alive _ _ _ _ _ _ _ Hsw m Hm) as (o & Ho & _).
    apply (sw_fresh _ _ _ _ _ _ _ Hsw) in Hm. apply (sw_wf _ _ _ _ _ _ _ Hsw) in Ho. unfold fresh_loc in *. lia.
  - intros y o Hy Ho. destruct (Hk y o Hy Ho) as (o' & ? & ? & _). by exists o'.
Qed.

Lemma swapped_core : guarded ((T ∪ R) ∖ O ∪ N) w' ∧ topics_core T ow w' g.
Proof.
  destruct swapped_guard as (Hg0 & HT & Hu & Hk). split.
  - apply (guarded_grow _ N w); [done|apply Hsw|apply Hu| |done|].
    + intros y. unfold N. rewrite elem_of_list_to_set. intros Hy. split; [by apply Hsw|].
      destruct (sw_alive _ _ _ _ _ _ _ Hsw y Hy) as (o & Ho & _ & Hun). by exists o.
    + intros y o Ho. destruct (decide (y ∈ old)) as [Hyo|Hyo]; [rewrite (sw_old _ _ _ _ _ _ _ Hsw y Hyo) in Ho; done|].
      destruct (decide (y = t)) as [->|Hyt].
      { right. rewrite (sw_topic _ _ _ _ _ _ _ Hsw) in Ho. injection Ho as <-. split; [|done]. intros _.
        apply elem_of_union_l. by apply (gd_rooted _ _ Hg0 t (OTopic tp)); [apply Hsw|]. }
      destruct (decide (y ∈ new)) as [Hyn|Hyn]; [|left; by rewrite <- (sw_other _ _ _ _ _ _ _ Hsw)].
      right. destruct (sw_alive _ _ _ _ _ _ _ Hsw y Hyn) as (o' & Ho' & Hr & Hun).
      assert (o' = o) as -> by congruence. split; [by rewrite Hr|]. by destruct o.
  - apply (core_unmoved T T ow ow ((T ∪ R) ∖ O) None w); [apply Hi|done|done|done|done|done|apply Hi|done|left; apply aside_None].
Qed.

(** The other topics retain what they did. *)
Lemma swapped_msg t' tq m' : t' ≠ t → at_loc w' t' = Some (OTopic tq) → t_retained tq = Some m' →
  at_loc w t' = Some (OTopic tq) ∧ ∃ sd tl pl q s p, keeps_msg w m' sd tl pl q s p ∧ keeps_msg w' m' sd tl pl q s p
    ∧ Forall (λ y, y ∈ R ∧ y ∉ old) [m'; sd; tl; pl] ∧ ∀ s', g !! s' = Some t' → s' = s.
Proof.
  intros Hne Ht' Hm'. assert (Htw : at_loc w t' = Some (OTopic tq)).
  { rewrite <- (sw_other _ _ _ _ _ _ _ Hsw); [done|done| |].
    - intros Ho. by rewrite (sw_old _ _ _ _ _ _ _ Hsw t' Ho) in Ht'.
    - intros (o & Ho & Hr & _)%(sw_alive _ _ _ _ _ _ _ Hsw). rewrite Ht' in Ho. by injection Ho as <-. }
  split; [done|]. destruct (ti_kept _ _ _ _ _ Hi t' tq m' Htw Hm') as (sd & tl & pl & q & s & p & Hmsg & HR & Hs).
  assert (Hout : ∀ y, y ∈ [m'; sd; tl; pl] → y ∉ old).
  { intros y Hy%(keeps_msg_objs w m' sd tl pl q s p y Hmsg) [_ Ho]%Hold. apply Hne.
    apply (ti_single _ _ _ _ _ Hi t' t y); [|done]. by exists tq, m'. }
  exists sd, tl, pl, q, s, p. split; [done|]. split; [|split; [|done]].
  - apply (keeps_msg_kept w); [done|]. intros y o Hy Ho Hk. apply swapped_kept; [done| |by apply Hout].
    intros ->. rewrite (sw_before _ _ _ _ _ _ _ Hsw) in Ho. injection Ho as <-. by destruct Hk as [[??]|[??]].
  - rewrite Forall_forall in HR. apply Forall_forall. intros y Hy. split; [by apply HR|by apply Hout].
Qed.

Lemma swapped_retains t' y : retains_obj w' t' y → (t' = t ∧ y ∈ new) ∨ (t' ≠ t ∧ retains_obj w t' y).
Proof.
  intros (tq & m' & Ht' & Hm' & Hy). destruct (decide (t' = t)) as [->|Hne].
  - left. split; [done|]. rewrite (sw_topic _ _ _ _ _ _ _ Hsw) in Ht'. injection Ht' as <-. injection Hm' as <-.
    by apply (sw_objs _ _ _ _ _ _ _ Hsw).
  - right. split; [done|]. destruct (swapped_msg t' tq m' Hne Ht' Hm') as (Htw & sd & tl & pl & q & s & p & H1 & H2 & _).
    exists tq, m'. split_and!; [done|done|]. apply (keeps_msg_objs w m' sd tl pl q s p y H1).
    by apply (keeps_msg_objs w' m' sd tl pl q s p y H2).
Qed.

Lemma swapped_inv sd tl pl q s p : new = [m; sd; tl; pl] → keeps_msg w' m sd tl pl q s p →
  (∀ s', g !! s' = Some t → s' = s) → topics_inv T ow (R ∖ O ∪ N) w' g.
Proof.
  intros Hnew Hmsg Hs. destruct swapped_core as [Hg Hc].
  assert (HTO : ∀ y, y ∈ T → y ∉ O).
  { intros y Hy. unfold O. rewrite elem_of_list_to_set. intros [HR _]%Hold. pose proof (ti_apart _ _ _ _ _ Hi). set_solver. }
  split.
  - done.
  - assert (T ∪ (R ∖ O ∪ N) = (T ∪ R) ∖ O ∪ N) as ->; [|done]. apply set_eq. set_solver.
  - apply disjoint_union_r. split; [pose proof (ti_apart _ _ _ _ _ Hi); set_solver|]. intros y Hy. unfold N.
    rewrite elem_of_list_to_set. intros Hn. destruct (gd_alive _ _ (ti_guarded _ _ _ _ _ Hi) y) as (o & Ho & _);
      [by apply elem_of_union_l|]. by apply (swapped_fresh y o).
  - intros t' tq m' Ht' Hm'. destruct (decide (t' = t)) as [->|Hne].
    + rewrite (sw_topic _ _ _ _ _ _ _ Hsw) in Ht'. injection Ht' as <-. injection Hm' as <-.
      exists sd, tl, pl, q, s, p. split; [done|]. split; [|done]. rewrite <- Hnew. apply Forall_forall. intros y Hy.
      apply elem_of_union_r. unfold N. by rewrite elem_of_list_to_set.
    + destruct (swapped_msg t' tq m' Hne Ht' Hm') as (_ & sd' & tl' & pl' & q' & s' & p' & _ & H2 & HR & Hs').
      exists sd', tl', pl', q', s', p'. split; [done|]. split; [|done]. eapply Forall_impl; [exact HR|].
      intros y [Hy Ho]. apply elem_of_union_l, elem_of_difference. split; [done|]. unfold O. by rewrite elem_of_list_to_set.
  - intros t1 t2 y [[-> H1]|[Hn1 H1]]%swapped_retains [[-> H2]|[Hn2 H2]]%swapped_retains; [done| | |].
    + destruct (retains_obj_old T ow R w g t2 y Hi H2) as [o Ho]. by destruct (swapped_fresh y o H1 Ho).
    + destruct (retains_obj_old T ow R w g t1 y Hi H1) as [o Ho]. by destruct (swapped_fresh y o H2 Ho).
    + by apply (ti_single _ _ _ _ _ Hi t1 t2 y).
Qed.

End Swapped.

(** The string of the sender is duplicated first. *)
Lemma retain_swaps T ow R w g t tp msg bs s p : topics_inv T ow R w g → at_loc w t = Some (OTopic tp) →
  cstr (p_topic msg) = Ok s → cstr (p_message msg) = Ok p →
  let sd := fresh_loc w in let m := Pos.succ sd in let tl := Pos.succ m in let pl := Pos.succ tl in
  ∃ w' old, retain_message (Some t) msg (Some sd) (alloc (cobj bs) w) = Ok ((), w')
    ∧ swapped w w' t tp m old [m; sd; tl; pl] ∧ (∀ y, y ∈ old → y ∈ R ∧ retains_obj w t y)
    ∧ (∀ y, y ∈ old → ∃ o, at_loc w y = Some o ∧ rooted o = false)
    ∧ keeps_msg w' m sd tl pl (p_qos msg) s p.
Proof.
  intros Hi Ht Hs Hp sd m tl pl. pose proof (gd_wf _ _ (ti_guarded _ _ _ _ _ Hi)) as Hwf.
  destruct (kept_objs T ow R w g t tp Hi Ht) as (old & Hobjs & HobjR & Hobjo & _).
  set (w1 := alloc (cobj bs) w). assert (Hx : extends w w1) by (by apply extends_alloc).
  assert (Hm : m = fresh_loc w1) by (unfold w1; by rewrite fresh_alloc).
  assert (Hnone : at_loc w sd = None) by (by apply heap_wf_fresh).
  assert (Hobjs1 : retained_objs w1 tp old) by (by apply (retained_objs_keeps w)).
  destruct (retain_message_run w1 t tp msg (Some sd) s p old) as (w' & E & He & Hwf' & Ht' & Hm' & Htl & Hpl & Hno & Ho);
    [by apply alloc_wf|by apply Hx|done|done|done|]. rewrite <- Hm in Ht', Hm', Htl, Hpl, Ho. fold tl pl in Hm', Htl, Hpl, Ho.
  assert (Hsd : at_loc w' sd = Some (OStr (cobj bs))).
  { rewrite Ho; [exact (at_alloc_eq (cobj bs) w)| | |].
    - congruence.
    - intros (o & Hsd & _)%Hobjo. congruence.
    - rewrite !elem_of_cons, elem_of_nil. unfold pl, tl, m. lia. }
  assert (Hmsg : keeps_msg w' m sd tl pl (p_qos msg) s p).
  { exists (p_dup msg), 1, (now w1). split_and!; [done| |by eexists|done|done|by eapply cstr_no_nul..].
    unfold pl, tl, m. repeat (constructor; [rewrite ?elem_of_cons, elem_of_nil; lia|]). constructor. }
  exists w', old. split_and!; [done| |done|done|done]. split; try done.
  - by etrans; [|exact He].
  - intros y. rewrite !elem_of_cons, elem_of_nil. unfold pl, tl, m, sd. lia.
  - intros y. rewrite !elem_of_cons, elem_of_nil. intros [->|[->|[->|[->|[]]]]]; eexists; by split_and!.
  - intros y. by apply (keeps_msg_objs w' m sd tl pl (p_qos msg) s p).
  - intros y Hyt Hyo Hyn. rewrite Ho; [|done|done|set_solver]. apply at_alloc_ne. set_solver.
Qed.

Lemma inv_retain T ow R w g t tp msg bs s w' :
  topics_inv T ow R w g → at_loc w t = Some (OTopic tp) → (∀ s', g !! s' = Some t → s' = s) →
  cstr (p_topic msg) = Ok s →
  retain_message (Some t) msg (Some (fresh_loc w)) (alloc (cobj bs) w) = Ok ((), w') → inv w'.
Proof.
  intros Hi Ht Hts Hs E. destruct (retained_payload _ _ _ _ _ E) as [p Hp].
  destruct (retain_swaps T ow R w g t tp msg bs s p Hi Ht Hs Hp) as (w1 & old & E1 & Hsw & Hold & Holdo & Hmsg).
  rewrite E1 in E. injection E as <-. eexists T, ow, _, g. by apply (swapped_inv T R ow w w1 g t tp _ old _ Hi Hsw Hold Holdo _ _ _ _ s p eq_refl Hmsg).
Qed.

(** ** A new topic *)

(** The map of topics itself does not matter to a topic. *)
Lemma topic_ok_map T ow w m s t : topic_ok T ow w s t → topic_ok T ow (set_topics m w) s t.
Proof.
  intros (tp & nm & l & xs & cs & (Ht & Hs & Hl & Hlst) & Hnm & HnT & Hp & Hsubs & [H1 H2 H3 H4 H5 H6 H7]).
  exists tp, nm, l, xs, cs. split; [split_and!; [done|done|done|by apply (list_wf_same w)]|].
  split_and!; [done|done|done|done|by split].
Qed.

Lemma entry_after_put {K V} (m : Hashmap K V) i k v j e : m_entries (after_put (λ _, None) m i k v) !! j = Some e →
  e = mk_entry (Some k) v true ∨ m_entries m !! j = Some e.
Proof. cbn. intros [(_ & <- & _)|[_ He]]%list_lookup_insert_Some; [by left|by right]. Qed.

Section Handlers.
Context (calloc_ok : Z → bool) (queue_ok : bool) (low_int : loc → Z).

(** Entering a topic: it enters, or the map has no room and stays as it was. *)
Lemma topics_put_inv w g k s t rc w' : topics_repr w g → str_of w k = Some s → g !! s = None →
  topics_put calloc_ok k (Some t) w = Ok (rc, w') →
  w' = w ∨ ∃ m, w' = set_topics m w ∧ topics_repr w' (<[s := t]> g)
                ∧ ∀ j e, m_entries m !! j = Some e →
                    e = mk_entry (Some k) (Some t) true ∨ m_entries (topics (db w)) !! j = Some e.
Proof.
  intros Hr Hk Hg E. unfold topics_put in E.
  rewrite (hashmap_put_cases _ calloc_ok 1 _ k s _ (repr_wf _ _ _ Hr) (repr_lock _ _ _ Hr) (key_of w k s Hk)) in E.
  destruct (place (str_of w) (topics (db w)) s) as [i|] eqn:Hp.
  - right. injection E as _ <-. eexists. split; [done|]. split.
    + unfold topics_repr. rewrite fmap_insert. change (str_of (set_topics _ w)) with (str_of w).
      eapply hm_repr_put; [done|by apply key_of| |done]. by rewrite lookup_fmap, Hg.
    + intros j e. exact (entry_after_put (topics (db w)) i k (Some t) j e).
  - left. destruct (calloc_ok _); [done|]. injection E as _ <-. by apply set_topics_id.
Qed.

(** What is made for a topic: itself, its name, its list, the string for its key, and its
    queue. *)
Definition made_objs (t nm l d : loc) (q : ptr) : gset loc := list_to_set (d :: t :: nm :: l :: option_list q).

Lemma elem_of_made y t nm l d q : y ∈ made_objs t nm l d q ↔ y = d ∨ y ∈ t :: nm :: l :: option_list q.
Proof. unfold made_objs. by rewrite elem_of_list_to_set, elem_of_cons. Qed.

Definition made_owners (ow : owners) (t nm l d : loc) (q : ptr) : owners :=
  let ow := <[nm := (t, RName)]> (<[l := (t, RList)]> (<[d := (t, RKey)]> ow)) in
  match q with Some q => <[q := (t, RQueue)]> ow | None => ow end.

(** The state where the topic was made, but not entered yet: [w1], and the string for its
    key after it. *)
Section Made.
Context (T : gset loc) (ow : owners) (R : gset loc) (w w1 : World) (g : gmap (list Z) loc).
Context (tl nm l : loc) (tp : Topic) (s : list Z).
Context (Hi : topics_inv T ow R w g) (Hwf1 : heap_wf w1) (He : env_eq w w1) (Hx : extends w w1).
Context (Hn : topic_named w1 s tl tp l []) (Hret : t_retained tp = None) (Hnm : t_name tp = Some nm).
Context (Hq : empty_queue_at w1 (t_messages tp)) (Hmade : made w w1 (tl :: nm :: l :: option_list (t_messages tp))).

Let d : loc := fresh_loc w1.
Let w2 : World := alloc (cobj s) w1.
Let N : gset loc := made_objs tl nm l d (t_messages tp).
Let ow2 : owners := made_owners ow tl nm l d (t_messages tp).

(** The objects, by their types. *)
Lemma made_at y : y ∈ tl :: nm :: l :: option_list (t_messages tp) →
  ∃ o, at_loc w1 y = Some o ∧ unguarded o = false ∧ (∀ n, sane (T ∪ R ∪ N) n o) ∧ (y ≠ tl → ∀ tq, o ≠ OTopic tq).
Proof.
  destruct Hn as (Ht & (nm' & Hnm' & Hs) & Hl & Hlst). assert (nm' = nm) as -> by congruence.
  apply str_at_inv in Hs as (bs & Hnb & _). destruct (list_wf_at _ _ _ Hlst) as [lst Hlo].
  rewrite !elem_of_cons. intros [->|[->|[->|Hy]]]; [by eexists; split_and!..|].
  destruct (t_messages tp) as [q|] eqn:Hqm; [|by apply elem_of_nil in Hy]. apply list_elem_of_singleton in Hy as ->.
  eexists. split; [by apply Hq|done].
Qed.

Lemma made_new y : y ∈ N → (fresh_loc w ≤ y)%positive ∧ ∀ o, at_loc w y ≠ Some o.
Proof.
  intros Hy. assert (fresh_loc w ≤ y)%positive as Hle.
  { destruct Hmade as [Hge _]. rewrite Forall_forall in Hge. apply elem_of_made in Hy as [->|Hy]; [|by apply Hge].
    assert (fresh_loc w ≤ tl)%positive by (apply Hge; left). destruct Hn as (Ht & _). apply Hwf1 in Ht.
    unfold d, fresh_loc in *. lia. }
  split; [done|]. intros o Ho%(gd_wf _ _ (ti_guarded _ _ _ _ _ Hi)). unfold fresh_loc in Hle. lia.
Qed.

Lemma made_extends : heap_wf w2 ∧ extends w w2 ∧ extends w1 w2.
Proof.
  assert (extends w1 w2) by (by apply extends_alloc). split_and!; [by apply alloc_wf| |done]. by etrans; [exact Hx|].
Qed.

Lemma made_guarded : guarded (T ∪ R ∪ N) w2 ∧ unmoved (T ∪ R) None w w2 ∧ retains_same w w2.
Proof.
  destruct made_extends as (Hwf2 & Hx2 & H12). destruct Hmade as [Hge Hm].
  assert (Hd : at_loc w2 d = Some (OStr (cobj s))) by exact (at_alloc_eq (cobj s) w1).
  assert (Hf2 : (fresh_loc w ≤ fresh_loc w2)%positive).
  { destruct (made_new d) as [Hle _]; [apply elem_of_made; by left|]. unfold w2. rewrite fresh_alloc. unfold d in Hle. lia. }
  split; [|split].
  - apply (guarded_grow (T ∪ R) _ w); [apply Hi|done|done| | |].
    + intros y Hy. split; [by apply made_new|]. apply elem_of_made in Hy as [->|Hy]; [by eexists|].
      destruct (made_at y Hy) as (o & Ho & Hu & _). exists o. split; [by apply H12|done].
    + intros y o _ Hy. exists o. split; [by apply Hx2|done].
    + intros y o. unfold w2. rewrite at_alloc. case_decide as Hyd.
      { intros [= <-]. right. split; [|done]. intros _. apply elem_of_union_r, elem_of_made. by left. }
      intros Hyo. destruct (Hm y o Hyo) as [Hy|Hy]; [by left|]. right. split.
      { intros _. apply elem_of_union_r, elem_of_made. by right. }
      destruct (made_at y Hy) as (o' & Ho & _ & Hs & _). assert (o' = o) as -> by congruence. apply Hs.
  - split; [done| |by rewrite <- (env_db _ _ He)..]. intros y o _ _ Hy. exists o.
    split; [by apply Hx2|apply alike_refl].
  - intros y tq m. unfold w2. rewrite at_alloc. case_decide; [done|]. intros Hy Hmq. exists tq. split; [|done].
    destruct (Hm y _ Hy) as [Ho|Ho]; [done|]. destruct (made_at y Ho) as (o & Ho' & _ & _ & Hno).
    destruct (decide (y = tl)) as [->|Hne]; [|by destruct (Hno Hne tq); congruence].
    destruct Hn as (Ht & _). congruence.
Qed.

(** They belong to the topic. *)
Lemma made_owned : ow ⊆ ow2 ∧ (∀ y z, ow2 !! y = Some z → y ∈ T ∪ N) ∧ ow2 !! d = Some (tl, RKey)
  ∧ topic_owns ow2 w2 tl tp l [].
Proof.
  destruct made_extends as (_ & _ & H12).
  assert (Hout : ∀ y, y ∈ N → ow !! y = None).
  { intros y [Hy _]%made_new. by eapply fresh_unowned. }
  destruct Hn as (Ht & (nm' & Hnm' & Hs) & Hl & Hlst). assert (nm' = nm) as -> by congruence.
  apply str_at_inv in Hs as (bs & Hnb & _). destruct (list_wf_at _ _ _ Hlst) as [lst Hlo].
  assert (nm ≠ l) by congruence. assert (nm ≠ d) by (by eapply heap_wf_ne).
  assert (l ≠ d) by (by eapply heap_wf_ne).
  assert (Hqd : ∀ q, t_messages tp = Some q → q ≠ nm ∧ q ≠ l ∧ q ≠ d).
  { intros q Hqm%Hq. split_and!; [congruence|congruence|by eapply heap_wf_ne]. }
  set (ow1 := <[nm := (tl, RName)]> (<[l := (tl, RList)]> (<[d := (tl, RKey)]> ow))).
  assert (Hlook : ow1 !! nm = Some (tl, RName) ∧ ow1 !! l = Some (tl, RList) ∧ ow1 !! d = Some (tl, RKey) ∧ ow ⊆ ow1).
  { unfold ow1. split_and!; [apply lookup_insert_eq|by rewrite lookup_insert_ne, lookup_insert_eq|
      by rewrite 2!lookup_insert_ne, lookup_insert_eq|].
    apply map_subseteq_spec. intros y z Hy. rewrite !lookup_insert_ne; [done|..]; intros ->;
      rewrite Hout in Hy; try done; apply elem_of_made; set_solver. }
  assert (Hmore : ow1 ⊆ ow2 ∧ ∀ q, t_messages tp = Some q → ow2 !! q = Some (tl, RQueue)).
  { unfold ow2, made_owners. fold ow1. destruct (t_messages tp) as [q|] eqn:Hqm; [|done].
    split; [|intros ? [= <-]; apply lookup_insert_eq]. destruct (Hqd q eq_refl) as (? & ? & ?).
    apply insert_subseteq. unfold ow1. rewrite !lookup_insert_ne by done.
    apply Hout. apply elem_of_made. set_solver. }
  destruct Hlook as (Ha & Hb & Hc & How). destruct Hmore as [Hs2 Hq2].
  split_and!.
  - by etrans.
  - intros y z. unfold ow2, made_owners. intros Hy. apply elem_of_union.
    assert (y ∈ d :: tl :: nm :: l :: option_list (t_messages tp) ∨ ow !! y = Some z) as [HN|Ho].
    { rewrite !elem_of_cons. destruct (t_messages tp) as [q|]; rewrite !lookup_insert_Some in Hy; set_solver. }
    + right. unfold N. apply elem_of_made. by rewrite elem_of_cons in HN.
    + left. by apply (ti_owned _ _ _ _ Hi y z).
  - by eapply lookup_weaken.
  - split.
    + intros ? [= <-]%(eq_trans (eq_sym Hnm)). by eapply lookup_weaken.
    + by eapply lookup_weaken.
    + intros y. by rewrite elem_of_nil.
    + intros y. by rewrite elem_of_nil.
    + constructor.
    + done.
    + intros q Hqm%Hq. by apply H12.
Qed.

(** The invariant holds of it, and it can enter the map. *)
Lemma made_inv : topics_inv (T ∪ N) ow2 R w2 g ∧ topic_ok (T ∪ N) ow2 w2 s tl ∧ ∀ s' t', g !! s' = Some t' → t' ≠ tl.
Proof.
  destruct made_guarded as (Hg2 & Hu2 & Hr2). destruct made_owned as (How & HT' & _ & Hto).
  destruct made_extends as (_ & _ & H12). split_and!.
  - apply (inv_unmoved T _ ow ow2 R None w); try done; [by rewrite union_swap|set_solver| |left; apply aside_None].
    apply (grow_apart T R N w); [apply Hi|apply Hi|]. by intros y [? _]%made_new.
  - exists tp, nm, l, [], []. split_and!; [by apply (topic_named_extends w1)|done| | |constructor|done].
    + apply elem_of_union_r, elem_of_made. set_solver.
    + change (peers (db w1) ≠ Some l). rewrite (env_db _ _ He). intros Hp%(ti_peers _ _ _ _ Hi).
      destruct (gd_alive _ _ (ti_guarded _ _ _ _ _ Hi) l) as (o & Ho & _); [by apply elem_of_union_l|].
      destruct (made_new l) as [_ Hno]; [apply elem_of_made; set_solver|]. by apply Hno in Ho.
  - intros s' t' Ht' ->. destruct (ti_topics _ _ _ _ Hi s' tl Ht') as (tq & nq & lq & xq & cq & (Htq & _) & _).
    destruct (made_new tl) as [_ Hno]; [apply elem_of_made; set_solver|]. by apply Hno in Htq.
Qed.

End Made.

(** It enters the map; it retains nothing. *)
Lemma inv_enter T ow R w g s tl d m :
  topics_inv T ow R w g → topics_repr (set_topics m w) (<[s := tl]> g) →
  (∀ j e, m_entries m !! j = Some e →
     e = mk_entry (Some (KPtr d)) (Some tl) true ∨ m_entries (topics (db w)) !! j = Some e) →
  d ∈ T → ow !! d = Some (tl, RKey) → topic_ok T ow w s tl →
  (∀ tq, at_loc w tl = Some (OTopic tq) → t_retained tq = None) →
  topics_inv T ow R (set_topics m w) (<[s := tl]> g).
Proof.
  intros [Hc Hg HTR Hk Hsg] Hrm Hkm Hd Hdo Hok Hret. split.
  - split.
    + done.
    + intros j e He Hu. destruct (Hkm j e He) as [->|He']; [by exists d, tl|]. by apply (ti_keys _ _ _ _ Hc j).
    + intros s' t'. rewrite lookup_insert_Some. intros [[<- <-]|[_ Ht']]; apply topic_ok_map; [done|].
      by apply (ti_topics _ _ _ _ Hc).
    + apply Hc.
    + exact (ti_peers _ _ _ _ Hc).
  - by apply (guarded_heap (T ∪ R) w).
  - done.
  - intros t tq m' Ht Hm. destruct (Hk t tq m' Ht Hm) as (sd & tq' & pl & q & s0 & p & Hmsg & HR & Hs).
    exists sd, tq', pl, q, s0, p. split; [exact Hmsg|]. split; [done|].
    intros s'. rewrite lookup_insert_Some. intros [[<- <-]|[_ Ht']]; [|by apply Hs].
    apply Hret in Ht. congruence.
  - exact Hsg.
Qed.

(** A topic is entered under one name. *)
Lemma one_name T ow w g s1 s2 t : topics_core T ow w g → g !! s1 = Some t → g !! s2 = Some t → s2 = s1.
Proof.
  intros Hi (? & ? & ? & ? & ? & (H1 & (? & H2 & H3) & _) & _)%(ti_topics _ _ _ _ Hi)
    (? & ? & ? & ? & ? & (H4 & (? & H5 & H6) & _) & _)%(ti_topics _ _ _ _ Hi). congruence.
Qed.

(** A new topic, made and entered, or an old one; it is entered under no other name than
    the one it was asked for. *)
Lemma find_or_create_inv T ow R w g name t w' :
  topics_inv T ow R w g → find_or_create_topic calloc_ok queue_ok name w = Ok (t, w') →
  ∃ T' ow' g' s, topics_inv T' ow' R w' g' ∧ cstr name = Ok s ∧ ∀ l s', t = Some l → g' !! s' = Some l → s' = s.
Proof.
  intros Hi E. pose proof (ti_repr _ _ _ _ Hi) as Hr. pose proof (gd_wf _ _ (ti_guarded _ _ _ _ _ Hi)) as Hwf.
  unfold find_or_create_topic in E.
  apply M_bind_Ok in E as (raw & w0 & E1 & E). destruct (topics_get_inv w g _ raw w0 Hr E1) as (s & Hs & -> & ->).
  assert (Hc : cstr name = Ok s) by (cbn in Hs; destruct (cstr name); by simplify_eq).
  case_decide as Hnone.
  2:{ injection E as <- <-. exists T, ow, g, s. split; [done|]. split; [done|]. intros l s' Hl Hl'.
      by apply (one_name T ow w g s s' l (ti_core _ _ _ _ _ Hi)). }
  destruct (create_topic_run queue_ok w name s Hwf Hc)
    as (tl & nm & tp & l & w1 & E2 & He & Hwf1 & Hx & Hn & Hret & Hnm & Hq & Hmade).
  rewrite (M_bind_run _ _ _ _ _ E2), (M_bind_run _ _ _ _ _ (strdup_of_run w1 _ _ Hc)) in E.
  cbn [to_key of_option mbind res_bind lift] in E. erewrite M_bind_run in E by done.
  destruct (made_inv T ow R w w1 g tl nm l tp s Hi Hwf1 He Hx Hn Hret Hnm Hq Hmade) as (Hi2 & Hok & Hold).
  destruct (made_owned T ow R w w1 g tl nm l tp s Hi Hwf1 He Hx Hn Hret Hnm Hq Hmade) as (_ & _ & Hdo & _).
  set (d := fresh_loc w1) in *. set (w2 := alloc (cobj s) w1) in *.
  apply M_bind_Ok in E as (rc & w3 & E3 & [= <- <-]).
  assert (Hsd : str_of w2 (KPtr d) = Some s).
  { apply (str_at_cobj _ _ name); [done|]. exact (at_alloc_eq (cobj s) w1). }
  do 2 eexists. destruct (topics_put_inv w2 g (KPtr d) s tl rc w3 (ti_repr _ _ _ _ Hi2) Hsd Hnone E3)
    as [->|(m & -> & Hrm & Hkm)].
  { exists g, s. split; [exact Hi2|]. split; [done|]. intros l' s' [= <-] Hl'. by destruct (Hold s' tl Hl'). }
  exists (<[s := tl]> g), s. split; [|split; [done|]].
  - apply (inv_enter _ _ R w2 g s tl d m Hi2); try done.
    + apply elem_of_union_r, elem_of_made. by left.
    + intros tq Htq. destruct Hn as (Ht & _).
      assert (extends w1 w2) as H12 by (by apply extends_alloc). apply H12 in Ht. congruence.
  - intros l' s' [= <-]. rewrite lookup_insert_Some. intros [[<- _]|[_ Hl']]; [done|]. by destruct (Hold s' tl Hl').
Qed.

Lemma inv_find_or_create w name t w' : inv w → find_or_create_topic calloc_ok queue_ok name w = Ok (t, w') → inv w'.
Proof. intros (T & ow & R & g & Hi) E. destruct (find_or_create_inv T ow R w g name t w' Hi E) as (T' & ow' & g' & s & Hi' & _). by exists T', ow', R, g'. Qed.

(** ** Commands *)

(** [m] keeps the invariant, given the lock of the database as [b]. *)
Definition preserves (b b' : bool) {A} (m : M World A) : Prop :=
  moves False b b' m ∧ ∀ w a w', inv w → db_lock (db w) = b → fits w' → m w = Ok (a, w') → inv w'.

Lemma fits_before b b' {A} (m : M World A) w a w' : moves False b b' m → heap_wf w → db_lock (db w) = b →
  m w = Ok (a, w') → fits w' → fits w.
Proof.
  intros Hm Hwf Hb E. destruct (moves_ok Hm Hwf Hb E) as [He _]. pose proof (ev_fresh _ _ He).
  unfold fits. lia.
Qed.

Lemma preserves_bind b b1 b2 {A B} (m : M World A) (f : A → M World B) :
  preserves b b1 m → (∀ a, preserves b1 b2 (f a)) → preserves b b2 (m ≫= f).
Proof.
  intros [Hm Im] Hf. split; [eapply moves_bind; [exact Hm|]; intros a; apply Hf|].
  intros w c w' Hi Hb Hfit (a & w1 & E1 & E2)%M_bind_Ok. pose proof (inv_wf _ Hi) as Hwf.
  destruct (moves_ok Hm Hwf Hb E1) as [He Hb1]. destruct (Hf a) as [Hfm If].
  assert (Hi1 : inv w1) by (apply (Im w a w1 Hi Hb); [by eapply (fits_before b1 b2); [|apply He| |exact E2|]|done]).
  by apply (If w1 c w').
Qed.

Lemma preserves_quiet b b' {A} (m : M World A) : moves False b b' m → (∀ T n, quiet T n m (λ _ _, True)) → preserves b b' m.
Proof. intros Hm Hq. split; [done|]. intros w a w' Hi _ _ E. by apply (inv_quiet m (λ _ _ _, True) w a w'). Qed.

Lemma preserves_find_or_create b name : preserves b b (find_or_create_topic calloc_ok queue_ok name).
Proof. split; [by apply moves_find_or_create|]. intros w t w' Hi _ _. by apply inv_find_or_create. Qed.

(** A client that is accepted; later it gets its name. *)
Lemma preserves_client b cl : cl_id cl = None → preserves b b (malloc cl).
Proof.
  intros Hid. split; [apply moves_malloc|]. intros w l w' Hi _ _. rewrite malloc_run. intros E.
  assert (w' = alloc cl w) as -> by congruence. apply inv_alloc; [done|done|done|]. intros T n. cbn. by rewrite Hid.
Qed.

Ltac preserves_quiet := apply preserves_quiet; [solve [moves]|intros ? ?; solve [quiet | eauto 2 with quiet nocore]].
Ltac preserves :=
  repeat first
    [ progress intros
    | solve [eauto 3 with preserves nocore]
    | preserves_quiet
    | eapply preserves_bind
    | case_match ].

Create HintDb preserves discriminated.
#[local] Hint Resolve preserves_find_or_create : preserves.

(** ** Subscribing *)

(** What answers a client was given a client. *)
Lemma set_ack_reply_client c op rc w u w' : set_ack_reply c op rc w = Ok (u, w') →
  ∃ l cl, c = Some l ∧ at_loc w' l = Some (OClient cl).
Proof.
  unfold set_ack_reply, set_reply. intros E.
  repeat match type of E with (_ ≫= _) _ = _ => apply M_bind_Ok in E as (? & ? & _ & E) end.
  apply modify_at_inv in E as (l & cl & -> & _ & ->). eexists _, _. split; [done|]. by rewrite at_update_eq.
Qed.

(** The subscription enters the list of its topic. *)
Lemma inv_join c cl k q w r w' : inv w → at_loc w c = Some (OClient cl) → db_lock (db w) = false → fits w' →
  (s ← create_subscription (Some c) k q; add_subscriber s) w = Ok (r, w') → inv w'.
Proof.
  intros Hi Hc Hb Hfit E. unfold create_subscription in E. set (sub := mk_subscription (Some c) k (wrap8 q)) in *.
  destruct Hi as (T & ow & R & g & Hi).
  assert (Hi1 : topics_inv (T ∪ {[fresh_loc w]}) ow R (alloc sub w) g) by (by apply topics_inv_alloc).
  pose proof (gd_wf _ _ (ti_guarded _ _ _ _ _ Hi)) as Hwf.
  erewrite M_bind_run in E by (by run_malloc).
  apply (inv_add_subscriber _ ow R (alloc sub w) g (fresh_loc w) c cl k (wrap8 q) r w' Hi1); [set_solver| | | | |done].
  - apply (fresh_unowned T ow R w g _ Hi). done.
  - exact (at_alloc_eq sub w).
  - rewrite at_alloc_ne; [done|by eapply heap_wf_ne].
  - by eapply (fits_before false false); [apply moves_add_subscriber|by apply alloc_wf| |exact E|].
Qed.

Lemma preserves_subscribe_topic c p : preserves false false (subscribe_topic calloc_ok queue_ok c p).
Proof.
  unfold subscribe_topic. eapply preserves_bind; [apply preserves_find_or_create|]. intros t.
  split; [moves|]. intros w r w' Hi Hb Hfit (u & w1 & E1 & E)%M_bind_Ok.
  destruct (set_ack_reply_client _ _ _ _ _ _ E1) as (l & cl & -> & Hl).
  assert (Hi1 : inv w1).
  { apply (inv_quiet (set_ack_reply (Some l) SUBACK 0) (λ _ _ _, True) w u w1 Hi); [|exact E1]. intros. apply quiet_set_ack_reply. }
  destruct (moves_ok (moves_set_ack_reply False false (Some l) SUBACK 0) (inv_wf _ Hi) Hb E1) as [_ Hb1].
  apply M_bind_Ok in E as (tp & w2 & (tl & _ & _ & ->)%deref_inv & E).
  apply M_bind_Ok in E as (s & w2 & Es & E). apply M_bind_Ok in E as ([] & w3 & Ea & E3).
  match type of E3 with ?k _ = _ => assert (Hk : preserves false false k) by preserves_quiet end.
  assert (E2 : (s ← create_subscription (Some l) (KPtr <$> t_name tp) (s_qos p); add_subscriber s) w1 = Ok ((), w3))
    by (by rewrite (M_bind_run _ _ _ _ _ Es)).
  assert (Hm : moves False false false (s ← create_subscription (Some l) (KPtr <$> t_name tp) (s_qos p); add_subscriber s)) by moves.
  destruct (moves_ok Hm (inv_wf _ Hi1) Hb1 E2) as [He3 Hb3].
  assert (Hfit3 : fits w3) by (by eapply (fits_before false false); [apply Hk|apply He3| |exact E3|]).
  assert (Hi3 : inv w3) by (by apply (inv_join l cl (KPtr <$> t_name tp) (s_qos p) w1 () w3)).
  by apply (proj2 Hk w3 r w').
Qed.
#[local] Hint Resolve preserves_subscribe_topic : preserves.

Lemma preserves_subscribe c : preserves false false (subscribe_handler calloc_ok queue_ok c).
Proof. unfold subscribe_handler. preserves. Qed.
#[local] Hint Resolve preserves_subscribe : preserves.

(** ** Requests, replies and accepting *)

Lemma preserves_commands cmds op c : (∀ ctype h, (ctype, h) ∈ cmds → ctype = op → preserves false false (h c)) →
  ∀ fr ex, preserves false false (run_commands cmds op c fr ex).
Proof.
  induction cmds as [|[ctype h] cmds IH]; intros Hh fr ex; cbn [run_commands]; [preserves_quiet|].
  assert (Hc : ∀ fr ex, preserves false false (run_commands cmds op c fr ex)).
  { apply IH. intros ct h' Hin. apply Hh. by right. }
  case_decide as Hd; [|done]. eapply preserves_bind; [|done]. apply (Hh ctype); [by left|done].
Qed.

Lemma preserves_run_commands op c fr ex : op ≠ UNSUBSCRIBE →
  preserves false false (run_commands (commands_hashmap calloc_ok queue_ok) op c fr ex).
Proof.
  intros Hop. apply preserves_commands. intros ctype h Hin <-. unfold commands_hashmap in Hin.
  rewrite !elem_of_cons, elem_of_nil in Hin. destruct_or!; simplify_eq; try done.
  - apply preserves_quiet; [by apply moves_connect|intros; apply quiet_connect].
  - apply preserves_quiet; [apply moves_publish|intros; apply quiet_publish].
  - apply preserves_quiet; [apply moves_pingreq|intros; apply quiet_pingreq].
  - apply preserves_subscribe.
  - apply preserves_quiet; [apply moves_disconnect|intros; apply quiet_disconnect].
Qed.

(** Of the packets that are unpacked, none is an UNSUBSCRIBE or a PUBREC. *)
Lemma preserves_handle_packet c fd buf op : preserves false false (handle_packet calloc_ok queue_ok c fd buf op).
Proof.
  destruct (unpackable op) eqn:Hop.
  - apply bool_decide_eq_true_1 in Hop. assert (op ≠ UNSUBSCRIBE ∧ op ≠ PUBREC) as [Hu Hp].
    { split; intros ->; by rewrite !elem_of_cons, elem_of_nil in Hop; naive_solver. }
    pose proof preserves_run_commands as Hrun. unfold handle_packet.
    eapply preserves_bind; [preserves_quiet|intros pkt]. case_decide; [preserves_quiet|].
    do 2 (eapply preserves_bind; [preserves_quiet|intros ?]).
    eapply preserves_bind; [by apply Hrun|intros [free_reply executed]].
    do 2 (eapply preserves_bind; [preserves_quiet|intros ?]).
    rewrite decide_True by (by left). preserves_quiet.
  - split; [by apply moves_handle_packet|]. intros w r w' Hi _ _. unfold handle_packet.
    rewrite (M_bind_run _ _ _ _ _ (unpack_unknown calloc_ok op buf w Hop)), decide_True by done. by intros [= _ <-].
Qed.
#[local] Hint Resolve preserves_handle_packet : preserves.

Lemma preserves_request fuel c : preserves false false (request_handler calloc_ok queue_ok fuel c).
Proof. unfold request_handler. preserves. Qed.

(** Publishing changes what the topic retains, and is quiet apart from that. *)
Lemma inv_publish T ow R w g t msg s sp r w' :
  topics_inv T ow R w g → (∀ l s', t = Some l → g !! s' = Some l → s' = s) → cstr (p_topic msg) = Ok s →
  (sender ← strdup sp; publish_message t msg sender) w = Ok (r, w') → inv w'.
Proof.
  intros Hi Hts Hs (sender & w1 & E1 & E)%M_bind_Ok.
  unfold publish_message in E. apply M_bind_Ok in E as (b & wb & Eb & E). assert (wb = w1) as ->.
  { destruct (pack_into _ _); [by injection Eb|done]. }
  apply M_bind_Ok in E as ([] & w2 & E2 & E).
  apply (inv_quiet (tp ← deref (A := Topic) t; lst ← deref (A := List) (t_subscribers tp); n ← heap_fuel;
    publish_loop n b (l_head lst) 0) (λ _ _ _, True) w2 r w'); [|intros; quiet|done]. clear E.
  case_decide as Hret.
  2:{ apply (inv_quiet (sender ← strdup sp; free sender) (λ _ _ _, True) w () w2); [by exists T, ow, R, g|intros; quiet|].
      by rewrite (M_bind_run _ _ _ _ _ E1). }
  unfold strdup in E1. apply M_bind_Ok in E1 as (o & w0 & (ls & _ & _ & ->)%deref_inv & E1). unfold strdup_of in E1.
  apply M_bind_Ok in E1 as (bs & w0 & Ebs & E1). assert (w0 = w) as -> by (by destruct (cstr o); [injection Ebs|]).
  apply M_bind_Ok in E1 as (sd & w0 & Esd & [= <- <-]). rewrite malloc_run in Esd.
  assert (sd = fresh_loc w ∧ w0 = alloc (cobj bs) w) as [-> ->] by (split; congruence). clear Esd.
  destruct (retained_topic _ _ _ _ _ _ (alloc_wf (cobj bs) w (gd_wf _ _ (ti_guarded _ _ _ _ _ Hi))) Hs E2) as (l & tp & -> & Hl).
  apply (inv_retain T ow R w g l tp msg bs s w2); [done| |by intros s'; apply Hts|done|done].
  rewrite at_alloc in Hl. by case_decide.
Qed.

Lemma preserves_reply_publish c r : preserves false false (reply_publish calloc_ok queue_ok c r).
Proof.
  split; [by apply moves_reply_publish|]. intros w a w' Hi _ _ E. unfold reply_publish in E.
  apply M_bind_Ok in E as (p & w0 & (lp & _ & _ & ->)%deref_inv & E).
  apply M_bind_Ok in E as (t & w1 & E1 & E). destruct Hi as (T & ow & R & g & Hi).
  destruct (find_or_create_inv T ow R w g _ t w1 Hi E1) as (T' & ow' & g' & s & Hi1 & Hs & Hts).
  apply M_bind_Ok in E as (cl & w0 & (lc & _ & _ & ->)%deref_inv & E).
  apply M_bind_Ok in E as (sender & w2 & E2 & E). apply M_bind_Ok in E as (sent & w3 & E3 & E).
  assert (Hi3 : inv w3).
  { eapply (inv_publish T' ow' R w1 g' t p s); [done..|]. by rewrite (M_bind_run _ _ _ _ _ E2). }
  match type of E with ?k w3 = _ => apply (inv_quiet k (λ _ _ _, True) w3 a w'); [done|intros; quiet|done] end.
Qed.
#[local] Hint Resolve preserves_reply_publish : preserves.

Lemma preserves_reply c : preserves false false (reply_handler calloc_ok queue_ok c).
Proof. unfold reply_handler. preserves. Qed.

Lemma preserves_accepted_client ip fd : preserves false false (accepted_client ip fd).
Proof.
  unfold accepted_client. eapply preserves_bind; [preserves_quiet|intros w].
  eapply preserves_bind; [by apply preserves_client|intros c]. preserves_quiet.
Qed.
#[local] Hint Resolve preserves_accepted_client : preserves.

(** The state is read before the peers are changed. *)
Lemma preserves_peers {B} (k : World → M World B) c port : (∀ w, preserves false false (k w)) →
  preserves false false (w ← get;
    (if decide (port = bus_port (db w)) then l ← list_head_insert (peers (db w)) c; modify (set_peers l)
     else mret ());; k w).
Proof.
  intros Hk. assert (Hb : ∀ w : World, moves False false false (if decide (port = bus_port (db w))
    then l ← list_head_insert (peers (db w)) c; modify (set_peers l) else mret ())) by moves.
  split; [eapply moves_bind; [apply moves_get|intros w]; eapply moves_bind; [apply Hb|intros _; apply Hk]|].
  intros w r w' Hi Hl Hfit (w0 & w1 & [= <- <-] & E)%M_bind_Ok.
  apply M_bind_Ok in E as (u & w1 & E1 & E2).
  destruct (moves_ok (Hb w) (inv_wf _ Hi) Hl E1) as [_ Hl1]. apply (proj2 (Hk w) w1 r w'); [|done..].
  case_decide; [by eapply inv_peers|]. by injection E1 as _ <-.
Qed.

Lemma preserves_accept env c : preserves false false (accept_handler env c).
Proof.
  unfold accept_handler. eapply preserves_bind; [preserves_quiet|intros srv].
  eapply preserves_bind; [apply preserves_quiet; [apply moves_accept_connection|intros; apply quiet_accept_connection]|intros fd].
  case_decide; [preserves_quiet|].
  destruct (negb _); [preserves_quiet|]. destruct (ae_addr env) as [ip|]; [|preserves_quiet].
  destruct (ae_sin_port env) as [port|]; [|preserves_quiet].
  eapply preserves_bind; [apply preserves_accepted_client|intros cl].
  apply (preserves_peers (λ w, add_epoll (epollfd (db w)) fd cl;; mod_epoll (epollfd (db w)) (cl_fd srv) EPOLLIN c;; mret 0)).
  intros w. preserves_quiet.
Qed.
#[local] Hint Resolve preserves_request preserves_reply preserves_accept : preserves.

Lemma preserves_worker_event fuel env ev : preserves false false (worker_event calloc_ok queue_ok low_int fuel env ev).
Proof. unfold worker_event, run_handler. preserves. Qed.

Lemma preserves_keepalive val : preserves false false (keepalive_turn val).
Proof. apply preserves_quiet; [apply moves_keepalive_turn|]. intros T n. unfold keepalive_turn. quiet. Qed.

(** ** Runs *)

(** Only the heap, the map of topics and the list of the peers matter. *)
Lemma inv_same w w' : w_heap w' = w_heap w → topics (db w') = topics (db w) → peers (db w') = peers (db w) →
  inv w → inv w'.
Proof.
  intros Hh Ht Hp (T & ow & R & g & Hi). exists T, ow, R, g. pose proof (ti_guarded _ _ _ _ _ Hi) as Hg.
  apply (inv_unmoved T T ow ow R None w); [done|by apply (guarded_heap (T ∪ R) w)|done|apply Hi|done|apply Hi|by apply unmoved_heap|
    by apply retains_same_heap|done|left; apply aside_None].
Qed.

Lemma step_inv w w' : step calloc_ok queue_ok low_int w w' → inv w → locks_free w → fits w' → inv w'.
Proof.
  intros Hs Hi [Hl Hm] Hfit. destruct Hs as [fuel env ev w go w' E|val w go w' E|k t rs w].
  - by apply (proj2 (preserves_worker_event fuel env ev) w go w').
  - by apply (proj2 (preserves_keepalive val) w go w').
  - by apply (inv_same w).
Qed.

Lemma run_inv w w' : rtc (step calloc_ok queue_ok low_int) w w' → inv w → locks_free w → fits w' → inv w'.
Proof.
  induction 1 as [w|w1 w2 w3 Hs Hr IH]; intros Hi Hl Hfit; [done|].
  destruct (step_evolves calloc_ok queue_ok low_int w1 w2 Hs (inv_wf _ Hi) Hl) as [H12 Hl2].
  destruct (run_evolves calloc_ok queue_ok low_int w2 w3 Hr (ev_wf _ _ H12) Hl2) as [H23 _].
  apply IH; [|done|done]. apply (step_inv w1); [done..|]. pose proof (ev_fresh _ _ H23). unfold fits in *. lia.
Qed.

End Handlers.

(** ** The start *)

Definition keeps_inv {A} (m : M World A) : Prop := ∀ w a w', inv w → m w = Ok (a, w') → inv w'.

Lemma keeps_inv_bind {A B} (m : M World A) (f : A → M World B) :
  keeps_inv m → (∀ a, keeps_inv (f a)) → keeps_inv (m ≫= f).
Proof. intros Hm Hf w b w' Hi (a & w1 & E1 & E2)%M_bind_Ok. eapply Hf; [|exact E2]. by eapply Hm. Qed.

Lemma keeps_inv_quiet {A} (m : M World A) : (∀ T n, quiet T n m (λ _ _, True)) → keeps_inv m.
Proof. intros Hq w a w' Hi E. by apply (inv_quiet m (λ _ _ _, True) w a w'). Qed.

(** The client of a listening socket, after the string of its name. *)
Lemma keeps_inv_listener {B} bs fd ka (k : loc → M World B) : (∀ c, keeps_inv (k c)) →
  keeps_inv (id ← malloc (bs : list Z); c ← malloc (listener id fd ka); k c).
Proof.
  intros Hk w b w' (T & ow & R & g & Hi) E. pose proof (ti_guarded _ _ _ _ _ Hi) as Hg.
  set (w1 := alloc bs w).
  assert (Hq : quiet (T ∪ R) (fresh_loc w) (malloc bs) (λ l n', loose (T ∪ R) n' (Some l))) by (by apply quiet_malloc).
  destruct (Hq w _ w1 Hg (Pos.le_refl _) (malloc_run bs w)) as (Hg1 & [Hu1 Hr1] & Hl1).
  assert (Hi1 : topics_inv T ow R w1 g).
  { apply (inv_unmoved T T ow ow R None w); try done; [apply Hi|apply Hi|left; apply aside_None]. }
  erewrite M_bind_run in E by exact (malloc_run bs w). fold w1 in E.
  erewrite M_bind_run in E by apply malloc_run. eapply Hk; [|exact E].
  exists (T ∪ {[fresh_loc w1]}), ow, R, g. by apply topics_inv_alloc.
Qed.

Lemma keeps_inv_listen epfd bepfd fd bfd port : keeps_inv (listen_all epfd bepfd fd bfd port).
Proof.
  assert (Hd : ∀ f, (∀ w, w_heap (f w) = w_heap w ∧ topics (db (f w)) = topics (db w) ∧ peers (db (f w)) = peers (db w)) →
    keeps_inv (modify f)).
  { intros f Hf w u w' Hi [= _ <-]. destruct (Hf w) as (? & ? & ?). by apply (inv_same w). }
  unfold listen_all. apply keeps_inv_bind; [by apply Hd|intros _].
  apply keeps_inv_bind; [apply keeps_inv_quiet; intros; apply quiet_get|intros w].
  do 2 (apply keeps_inv_bind; [apply keeps_inv_quiet; intros; apply quiet_epoll_ctl|intros _]).
  apply keeps_inv_listener. intros server. apply keeps_inv_listener. intros bus.
  do 2 (apply keeps_inv_bind; [apply keeps_inv_quiet; intros; apply quiet_add_epoll|intros _]).
  by apply Hd.
Qed.

Lemma init_inv run_fd w w' : cells (w_heap w) = ∅ → init_server run_fd w = Ok ((), w') → inv w'.
Proof.
  intros Hc. unfold init_server. erewrite M_bind_run by done. unfold list_create.
  erewrite M_bind_run; [|by run_malloc]. set (w0 := mk_world _ _ _ _ _ _). intros [= <-].
  set (l := fresh_loc w0). set (lst := mk_list None None 0). set (w1 := alloc lst w0).
  assert (Hn : ∀ y, at_loc w0 y = None).
  { intros y. unfold at_loc. cbn. rewrite Hc. apply lookup_empty. }
  assert (Hat : ∀ y o, at_loc w1 y = Some o → y = l ∧ o = OList lst).
  { intros y o. unfold w1. rewrite at_alloc, Hn. case_decide; [by intros [= <-]|done]. }
  exists {[l]}, ∅, ∅, ∅. split; [split| | | |].
  - unfold topics_repr. apply create_repr.
  - intros i e He Hu. change (replicate INITIAL_SIZE (no_entry (K:=key) (V:=loc)) !! i = Some e) in He. by apply lookup_replicate in He as [-> _].
  - intros s t. by rewrite lookup_empty.
  - intros y z. by rewrite lookup_empty.
  - intros l' [= <-]. set_solver.
  - rewrite union_empty_r_L. apply (guarded_heap _ w1); [done|]. split.
    + apply alloc_wf. intros y o. by rewrite Hn.
    + intros y ->%elem_of_singleton. exists (OList lst). split; [exact (at_alloc_eq lst w0)|done].
    + intros y o [-> _]%Hat _. set_solver.
    + by intros y o [_ ->]%Hat.
  - set_solver.
  - intros t tp m Ht Hm. by apply Hat in Ht as [_ ?].
  - intros t1 t2 y (tp & m & Ht & _). by apply Hat in Ht as [_ ?].
Qed.
