(* ===== verification/Reachable.v ===== *)
(** The states that a broker can reach.

    They are those that the two worker threads and the keepalive loop lead to from the
    start of the server, whatever the clients send, before 2^64 objects were allocated.
    The invariant of the topics holds in them, so that what the theorems on single
    exchanges assume of the topics, of their lists and of the retained messages is true:
    distribution and subscriptions are served.  The runs at the end instantiate this; the
    last of them reaches the fault of [retained_reply_dangles]. *)
From stdpp Require Import base numbers option list gmap.
From Stdlib Require Import ZArith Lia.
From S2P Require Import Prelude Memory Ringbuf Buffer Protocol Hashmap Chain Lists Queues Network Receive.
From S2P Require Import Util Sizigy Demo Server Broker Publish Subscribe Steps Delivery Retained Guard Invariant.

Local Open Scope Z_scope.

(** A state that a broker can reach from its start, before it allocated 2^64 objects. *)
Definition reachable (calloc_ok : Z → bool) (queue_ok : bool) (low_int : loc → Z) (w : World) : Prop :=
  ∃ run_fd epfd bepfd fd bfd port w0 w1, cells (w_heap w0) = ∅
    ∧ (init_server run_fd;; listen_all epfd bepfd fd bfd port) w0 = Ok ((), w1)
    ∧ rtc (step calloc_ok queue_ok low_int) w1 w ∧ fits w.

Lemma reachable_inv calloc_ok queue_ok low_int w : reachable calloc_ok queue_ok low_int w → inv w ∧ locks_free w.
Proof.
  intros (run_fd & epfd & bepfd & fd & bfd & port & w0 & w1 & Hc & Hs & Hr & Hfit).
  assert (Hwf0 : heap_wf w0).
  { intros l o. unfold at_loc. change (get_heap w0) with (w_heap w0). by rewrite Hc, lookup_empty. }
  destruct (start_locks_free _ _ _ _ _ _ _ _ Hwf0 Hs) as [Hwf1 Hl1].
  assert (Hi1 : inv w1).
  { apply M_bind_Ok in Hs as ([] & wi & Ei & El). eapply keeps_inv_listen; [|exact El]. by eapply init_inv. }
  split; [by eapply run_inv|]. by destruct (run_evolves calloc_ok queue_ok low_int w1 w Hr Hwf1 Hl1).
Qed.

(** * Lemmas *)

Lemma keeps_holds w m sd tl pl q s p : keeps_msg w m sd tl pl q s p → holds w m q s p.
Proof. intros (d & r & ts & Hm & _ & _ & Ht & Hp & Hs & Hq). by exists d, r, ts, (Some sd), tl, pl. Qed.

(** A message is retained, or the string of its sender freed; the topic keeps its
    subscribers. *)
Lemma publish_prepared T ow R w g s t tp l xs cs msg p name :
  topics_inv T ow R w g → g !! s = Some t → topic_named w s t tp l xs → Forall2 (subscriber w) xs cs →
  cstr (p_topic msg) = Ok s → cstr (p_message msg) = Ok p →
  let sd := Some (fresh_loc w) in
  ∃ w1 tp' fds, (if decide (p_retain msg ≠ 0) then retain_message (Some t) msg sd else free sd) (alloc (cobj name) w)
      = Ok ((), w1)
    ∧ topic_subs w1 t tp' l xs cs fds.
Proof.
  intros Hi Hst Hn Hsubs Hs Hp sd. pose proof (ti_guarded _ _ _ _ _ Hi) as Hg. pose proof (gd_wf _ _ Hg) as Hwf.
  pose proof Hn as (Ht & _). case_decide.
  - destruct (retain_swaps T ow R w g t tp msg name s p Hi Ht Hs Hp) as (w1 & old & E1 & Hsw & Hold & Holdo & _).
    destruct (swapped_guard T R ow w w1 g t tp _ old _ Hi Hsw Hold Holdo) as (Hg0 & _ & Hu & _).
    destruct (topic_subs_kept _ w w1 s t tp l xs cs Hg0 Hu Hn Hsubs) as (tp' & fds & Hts). by exists w1, tp', fds.
  - assert (Hx : extends w (alloc (cobj name) w)) by (by apply extends_alloc).
    destruct (subscriber_fds w xs cs Hsubs) as [fds Hfds].
    pose proof (topic_named_extends _ _ s t tp l xs Hx Hn) as (Hto & _ & Hl & Hlst).
    assert (Hat : at_loc (alloc (cobj name) w) (fresh_loc w) = Some (OStr (cobj name))) by exact (at_alloc_eq (cobj name) w).
    exists (remove (fresh_loc w) (alloc (cobj name) w)), tp, fds. split; [by eapply free_run|].
    eapply topic_subs_remove; [exact Hat|]. split; [done..| |].
    + eapply Forall2_impl; [exact Hsubs|]. intros x c (sb & sub & cl & Hxs & Hsx & Hsc & Hc).
      exists sb, sub, cl. split_and!; [done|by apply Hx|done|by apply Hx].
    + eapply Forall2_impl; [exact Hfds|]. intros c fd (cl & Hc & Hfd). exists cl. split; [by apply Hx|done].
Qed.

(** * Properties *)

Section Reachable.
Context (calloc_ok : Z → bool) (queue_ok : bool) (low_int : loc → Z).

(** C3. Whatever the clients send and in whatever order the events are handled, the topics
    of a running broker stay sound: the map of topics is a finite map from names; each of
    its topics is a live object with the name it is found under and an intact list of
    subscribers, which is neither the list of another topic nor that of the peers; every
    subscription in it leads to a client that is still there; and the message a topic
    retains is live, has its name and owns its strings, which no other topic retains. *)
Theorem topics_stay_sound w : reachable calloc_ok queue_ok low_int w →
  ∃ g, topics_repr w g
    ∧ (∀ s t, g !! s = Some t → ∃ tp l xs cs, topic_named w s t tp l xs ∧ peers (db w) ≠ Some l
         ∧ Forall2 (subscriber w) xs cs
         ∧ ∀ m, t_retained tp = Some m → ∃ sd tl pl q p, keeps_msg w m sd tl pl q s p)
    ∧ (∀ s1 t1 s2 t2 l, g !! s1 = Some t1 → g !! s2 = Some t2 → owns w t1 l → owns w t2 l → s1 = s2)
    ∧ (∀ t1 t2 y, retains_obj w t1 y → retains_obj w t2 y → t1 = t2).
Proof.
  intros [(T & ow & R & g & Hi) _]%reachable_inv. exists g. split; [apply (ti_repr _ _ _ _ Hi)|]. split; [|split].
  - intros s t Ht. destruct (ti_topics _ _ _ _ Hi s t Ht) as (tp & nm & l & xs & cs & Hn & _ & _ & Hp & Hs & _).
    exists tp, l, xs, cs. split_and!; [done..|]. intros m Hm. pose proof Hn as (Htp & _).
    destruct (ti_kept _ _ _ _ _ Hi t tp m Htp Hm) as (sd & tl & pl & q & s' & p & Hmsg & _ & Hs').
    rewrite (Hs' s Ht). by exists sd, tl, pl, q, p.
  - intros s1 t1 s2 t2 l H1 H2 Ho1 Ho2. pose proof (one_owner T ow w g s1 t1 s2 t2 l Hi H1 H2 Ho1 Ho2) as ->.
    destruct (ti_topics _ _ _ _ Hi s1 t2 H1) as (tp1 & ? & ? & ? & ? & (Ht1 & (n1 & Hn1 & Hs1) & _) & _).
    destruct (ti_topics _ _ _ _ Hi s2 t2 H2) as (tp2 & ? & ? & ? & ? & (Ht2 & (n2 & Hn2 & Hs2) & _) & _).
    congruence.
  - intros t1 t2 y. apply (ti_single _ _ _ _ _ Hi).
Qed.

(** C4. Distribution cannot fault on a running broker: when a message that fits its header
    is published on a topic that exists, the topic is found, the message is retained if it
    is to be, in place of whatever the topic retained, and the message is offered to the
    client of every subscription, in the order of the list; no subscription, client or
    list that the walk reads was freed. *)
Theorem distribution_safe w msg topic message k sp bs name :
  reachable calloc_ok queue_ok low_int w →
  cstr (p_topic msg) = Ok topic → cstr (p_message msg) = Ok message →
  let buf := publish_buffer msg topic message k in
  hsize (p_header msg) = Z.of_nat (b_size buf) → Z.of_nat (b_size buf) < 2 ^ 31 →
  at_loc w sp = Some (OStr bs) → cstr bs = Ok name →
  ∃ g, topics_repr w g ∧ ∀ t, g !! topic = Some t → ∃ tp l xs cs w1, topic_named w topic t tp l xs
    ∧ (let sd := Some (fresh_loc w) in
       (if decide (p_retain msg ≠ 0) then retain_message (Some t) msg sd else free sd) (alloc (cobj name) w) = Ok ((), w1))
    ∧ Forall2 (subscriber w) xs cs ∧ Forall2 (subscriber w1) xs cs
    ∧ (t ← find_or_create_topic calloc_ok queue_ok (p_topic msg); sender ← strdup (Some sp); publish_message t msg sender) w
      = Ok (foldl (publish_step buf) (0, w1) cs).
Proof.
  intros [(T & ow & R & g & Hi) _]%reachable_inv Ht Hm buf Hsz Hlt Hs Hbs. exists g. split; [apply (ti_repr _ _ _ _ Hi)|].
  intros t Hg. destruct (ti_topics _ _ _ _ Hi topic t Hg) as (tp & nm & l & xs & cs & Hn & _ & _ & _ & Hsubs & _).
  destruct (publish_prepared T ow R w g topic t tp l xs cs msg message name Hi Hg Hn Hsubs Ht Hm) as (w1 & tp' & fds & E1 & Hts).
  exists tp, l, xs, cs, w1. split; [done|]. split; [done|]. split; [done|]. split; [apply Hts|].
  unfold find_or_create_topic. erewrite M_bind_run; last first.
  { rewrite (M_bind_run _ _ _ _ _ (topics_get_run w g _ topic (ti_repr _ _ _ _ Hi) (str_of_key w _ _ Ht))), Hg.
    by rewrite decide_False. }
  unfold strdup. erewrite M_bind_run; last first.
  { erewrite M_bind_run by (eapply (@deref_run); exact Hs). exact (strdup_of_run w bs name Hbs). }
  by apply (publish_message_from _ w1 t tp' l xs cs fds).
Qed.

End Reachable.

(** What a topic retains fits a packet. *)
Definition retains_fitting (w : World) (t : list Z) : Prop := ∀ g tl tp mp q m, topics_repr w g → g !! t = Some tl →
  at_loc w tl = Some (OTopic tp) → t_retained tp = Some mp → holds w mp q t m →
  is_byte q ∧ Z.of_nat (16 + length t + length m) < 2 ^ 31.

(** C5. On every state a broker can reach, a SUBSCRIBE to a name that has a topic, or
    that the map of topics can take, is served: as [subscribe_outcome] says where the topic
    retains nothing, and as [late_outcome] says, with the retained message sent after the
    acknowledgement, where it retains a message that fits a packet.  What this needs of
    the topics, of the retained message, of the lock and of the length of the lists always
    holds. *)
Theorem subscribe_always_served calloc_ok low_int w c cl so q t slack more :
  reachable calloc_ok true low_int w → at_loc w c = Some (OClient cl) → get_sock w (cl_fd cl) = Some so →
  carries so SUBSCRIBE (sub_payload q t slack) more → is_byte q → is_str t → t ≠ [] →
  Forall is_byte slack → Z.of_nat (length t) < 2 ^ 16 → Z.of_nat (length (sub_payload q t slack)) ≤ ONEMB * 2 →
  (∀ g, topics_repr w g → enterable w g t) → retains_fitting w t → is_Some (armed w (cl_fd cl)) →
  ∃ g xs ret, topics_repr w g ∧ topic_state w g t xs ret
    ∧ match ret with
      | None => subscribe_outcome calloc_ok w g c cl so q t xs
      | Some mp => ∃ qm m, holds w mp qm t m ∧ late_outcome calloc_ok w g c cl so q t xs mp qm m
      end.
Proof.
  intros Hreach Hc Hso Hcar Hq Ht Hne Hsl Hl Hmax Hent Hfitr Hia.
  pose proof Hreach as (_ & _ & _ & _ & _ & _ & _ & _ & _ & _ & _ & Hfit).
  destruct (reachable_inv _ _ _ _ Hreach) as [(T & ow & R & g & Hi) [Hlock _]].
  pose proof (gd_wf _ _ (ti_guarded _ _ _ _ _ Hi)) as Hwf. pose proof (ti_repr _ _ _ _ Hi) as Hr.
  assert (∃ xs ret, topic_state w g t xs ret ∧ Z.of_nat (length xs) + 1 < 2 ^ 64
    ∧ ∀ mp, ret = Some mp → ∃ qm m, holds w mp qm t m ∧ is_byte qm ∧ Z.of_nat (16 + length t + length m) < 2 ^ 31)
    as (xs & ret & Hst & Hlen & Hret).
  { unfold topic_state. destruct (g !! t) as [tl|] eqn:Hg; [|by exists [], None].
    destruct (ti_topics _ _ _ _ Hi t tl Hg) as (tp & nm & l & xs & cs & Hn & _).
    pose proof Hn as (Htl & _ & _ & (hd & _ & Hseg & Hnd)). apply NoDup_cons in Hnd as [_ Hnd].
    exists xs, (t_retained tp). split; [by exists tp, l|]. split; [by apply (chain_fits w hd)|]. intros mp Hmp.
    destruct (ti_kept _ _ _ _ _ Hi tl tp mp Htl Hmp) as (sd & sl & pl & qm & s & m & Hmsg & _ & Hs). rewrite <- (Hs t Hg) in Hmsg.
    exists qm, m. pose proof (keeps_holds _ _ _ _ _ _ _ _ Hmsg) as Hh. split; [done|].
    by apply (Hfitr g tl tp mp qm m). }
  assert (Hready : topic_ready w g t xs ret) by (split; [done|done|by apply Hent|done|done]).
  exists g, xs, ret. split; [done|]. split; [done|]. destruct ret as [mp|].
  - destruct (Hret mp eq_refl) as (qm & m & Hh & Hqm & Hsz). exists qm, m. split; [done|].
    by apply (late_exchange calloc_ok w g c cl so q t slack more).
  - by apply (subscribe_exchange calloc_ok w g c cl so q t slack more).
Qed.

(** * Witnesses *)

Local Open Scope positive_scope.

(** Events on the connections of the broker, in this order; before each, the random numbers
    are new. *)
Definition refreshed (w : World) : World := mk_world (w_heap w) (w_kernel w) (db w) (config w) (now w) (rands demo_started).
Fixpoint demo_play (evs : list (accept_env * loc)) (w : World) : res World :=
  match evs with
  | [] => Ok w
  | (env, l) :: evs =>
      '(go, w') ← worker_event (λ _, true) true (λ _, 0%Z) 10 env (mk_event EPOLLIN (DataPtr l)) (refreshed w);
      demo_play evs w'
  end.
Definition demo_played (evs : list (accept_env * loc)) : World :=
  match demo_play evs demo_started with Ok w => w | Err _ => demo_boot end.

Lemma demo_play_run evs w w' : demo_play evs w = Ok w' → rtc (step (λ _, true) true (λ _, 0%Z)) w w'.
Proof.
  revert w. induction evs as [|[env l] evs IH]; intros w; cbn [demo_play]; [by intros [= ->]|].
  destruct (worker_event _ _ _ _ _ _ _) as [[go w1]|] eqn:E; [|done]. intros Hr%IH.
  eapply rtc_l; [apply step_environment|]. eapply rtc_l; [eapply step_event; exact E|exact Hr].
Qed.

Definition demo_plays (evs : list (accept_env * loc)) : bool :=
  match demo_play evs demo_started with Ok w => Pos.to_nat (fresh_loc w) <? 1000 | Err _ => false end%nat.

Lemma demo_reachable evs : demo_plays evs = true → reachable (λ _, true) true (λ _, 0%Z) (demo_played evs).
Proof.
  unfold demo_plays, demo_played. destruct (demo_play evs demo_started) as [w|] eqn:E; [|done].
  intros Hf%Nat.ltb_lt. exists 9%Z, demo_epoll, 4%Z, 5%Z, 6%Z, 9090%Z, demo_boot, demo_started.
  split_and!; [done| |by eapply demo_play_run|unfold fits; lia]. apply final_run. vm_compute. reflexivity.
Qed.

(** The name of the topic of the runs. *)
Definition demo_name : list Z := [116%Z].

(** A client is accepted and subscribes to [t]; another publishes [y] there, to be retained;
    a third is accepted. *)
Definition demo_client_at (fd : Z) (so : Sock) : accept_env :=
  mk_accept fd so true true (Some (cobj [49; 46; 49]%Z)) (Some 9090%Z).
Definition demo_subscriber : accept_env := demo_client_at 7 (demo_sock SUBSCRIBE [0; 1; 1; 116]%Z).
Definition demo_publisher : accept_env := demo_client_at 8 (demo_sock PUBLISH (pub_payload 1 1 0 demo_name [121] [0; 0])%Z).
Definition demo_latecomer : accept_env := demo_client_at 10 (demo_sock SUBSCRIBE [0; 1; 1; 116]%Z).
Definition demo_evs : list (accept_env * loc) :=
  [(demo_subscriber, 52); (demo_subscriber, 55); (demo_subscriber, 55);
   (demo_publisher, 52); (demo_publisher, 68); (demo_publisher, 68); (demo_latecomer, 52)].
Definition demo_retained : World := demo_played demo_evs.

Lemma demo_retained_reachable : reachable (λ _, true) true (λ _, 0%Z) demo_retained.
Proof. apply demo_reachable. vm_compute. reflexivity. Qed.

Lemma demo_retained_found g : topics_repr demo_retained g → g !! demo_name = @Some loc 59.
Proof.
  intros Hr. assert (E : fst <$> topics_get (KField (cobj demo_name)) demo_retained = Ok (Some 59)) by (vm_compute; reflexivity).
  rewrite (topics_get_run demo_retained g _ demo_name Hr) in E by (by apply str_of_key). by injection E.
Qed.

Definition demo_topic : Topic := mk_topic (Some 60) (Some 61) (Some 62) (Some 74).
Lemma demo_retained_topic : at_loc demo_retained 59 = Some (OTopic demo_topic).
Proof. vm_compute. reflexivity. Qed.

Lemma topics_stay_sound_witness : ∃ g tp l xs cs sd tl pl q p, topics_repr demo_retained g ∧ g !! demo_name = Some 59
  ∧ topic_named demo_retained demo_name 59 tp l xs ∧ Forall2 (subscriber demo_retained) xs cs
  ∧ keeps_msg demo_retained 74 sd tl pl q demo_name p.
Proof.
  destruct (topics_stay_sound (λ _, true) true (λ _, 0%Z) demo_retained demo_retained_reachable) as (g & Hr & Ht & _).
  destruct (Ht demo_name 59 (demo_retained_found g Hr)) as (tp & l & xs & cs & Hn & _ & Hs & Hm).
  assert (Htp : tp = demo_topic).
  { destruct Hn as (Htp & _). rewrite demo_retained_topic in Htp. injection Htp as <-. reflexivity. }
  rewrite Htp in Hm. destruct (Hm 74 eq_refl) as (sd & tl & pl & q & p & Hk). exists g, tp, l, xs, cs, sd, tl, pl, q, p.
  split; [exact Hr|]. split; [exact (demo_retained_found g Hr)|]. split; [exact Hn|]. split; [exact Hs|exact Hk].
Defined.

Definition demo_msg : Publish := mk_publish (mk_header PUBLISH 17) 1 2 0 1 0 (cobj demo_name) (cobj [104; 105]%Z).

(** A message that takes the place of the retained one, from the second client. *)
Lemma distribution_safe_witness : ∃ cs w1, retain_message (Some 59) demo_msg (Some 80) (alloc (cobj (replicate 16 100%Z)) demo_retained)
    = Ok ((), w1)
  ∧ (t ← find_or_create_topic (λ _, true) true (p_topic demo_msg); sender ← strdup (Some 70); publish_message t demo_msg sender)
      demo_retained
    = Ok (foldl (publish_step (publish_buffer demo_msg demo_name [104; 105]%Z 0)) (0%Z, w1) cs).
Proof.
  destruct (distribution_safe (λ _, true) true (λ _, 0%Z) demo_retained demo_msg demo_name [104; 105]%Z 0 70
    (cobj (replicate 16 100%Z)) (replicate 16 100%Z) demo_retained_reachable eq_refl eq_refl eq_refl eq_refl
    ltac:(vm_compute; reflexivity) eq_refl) as (g & Hr & Hg).
  destruct (Hg 59 (demo_retained_found g Hr)) as (tp & l & xs & cs & w1 & _ & E1 & _ & _ & E). exists cs, w1.
  split; [|exact E]. assert (Hf : fresh_loc demo_retained = 80) by (vm_compute; reflexivity).
  cbv zeta in E1. rewrite (decide_True (P := p_retain demo_msg ≠ 0%Z)), Hf in E1 by discriminate. exact E1.
Defined.

Lemma demo_retained_holds q m : holds demo_retained 74 q demo_name m → q = 1%Z ∧ m = [121%Z].
Proof.
  intros (d & r & ts & sd & tl & pl & Hm & _ & Hp & _ & Hno).
  assert (E : at_loc demo_retained 74 = Some (OMessage (mk_message 1 0 1 1000 (Some 73) (Some 75) (Some 76)))) by (vm_compute; reflexivity).
  assert (E2 : at_loc demo_retained 76 = Some (OStr (cobj [121%Z]))) by (vm_compute; reflexivity).
  rewrite E in Hm. injection Hm as <- _ _ _ _ _ <-. rewrite E2 in Hp. injection Hp as Hp. split; [reflexivity|].
  unfold cobj in Hp. destruct m as [|x [|y m]]; cbn in Hp; [discriminate Hp|injection Hp as <-; reflexivity|].
  injection Hp as _ _ Hp. destruct m; discriminate Hp.
Qed.

Lemma demo_retained_enterable g : topics_repr demo_retained g → enterable demo_retained g demo_name.
Proof. intros Hr Hn. rewrite (demo_retained_found g Hr) in Hn. discriminate Hn. Qed.

Lemma demo_retained_fitting : retains_fitting demo_retained demo_name.
Proof.
  intros g tl tp mp q m Hr Hg Htp Hmp Hh. rewrite (demo_retained_found g Hr) in Hg. injection Hg as <-.
  rewrite demo_retained_topic in Htp. injection Htp as <-. injection Hmp as <-.
  by destruct (demo_retained_holds q m Hh) as [-> ->].
Qed.

(** The third client is sent the SUBACK and the retained message. *)
Lemma subscribe_always_served_witness : ∃ g xs qm m,
  late_outcome (λ _, true) demo_retained g 77 (mk_client 0 60 1000 (Some 78) 10 RequestHandler (Some 79) None None)
    (demo_sock SUBSCRIBE [0; 1; 1; 116]%Z) 1 demo_name xs 74 qm m.
Proof.
  destruct (subscribe_always_served (λ _, true) (λ _, 0%Z) demo_retained 77
    (mk_client 0 60 1000 (Some 78) 10 RequestHandler (Some 79) None None) (demo_sock SUBSCRIBE [0; 1; 1; 116]%Z) 1 demo_name [] []
    demo_retained_reachable ltac:(vm_compute; reflexivity) ltac:(vm_compute; reflexivity) (demo_sock_carries _ _)
    ltac:(done) ltac:(by repeat constructor) ltac:(done) ltac:(constructor) ltac:(done) ltac:(done)
    demo_retained_enterable demo_retained_fitting ltac:(eexists; vm_compute; reflexivity))
    as (g & xs & ret & Hr & Hst & Hout).
  unfold topic_state in Hst. rewrite (demo_retained_found g Hr) in Hst. destruct Hst as (tp & l & (Htp & _) & Hret).
  rewrite demo_retained_topic in Htp. injection Htp as <-. cbn in Hret. rewrite <- Hret in Hout.
  destruct Hout as (qm & m & _ & Hl). exists g, xs, qm, m. exact Hl.
Defined.

(** ** A fault that a broker can reach *)

(** The third client has sent its SUBSCRIBE and waits for the answer; another client
    publishes [z] to [t], to be retained, and is answered. *)
Definition demo_publisher2 : accept_env := demo_client_at 11 (demo_sock PUBLISH (pub_payload 1 1 0 demo_name [122] [0; 0])%Z).
Definition demo_stale_evs : list (accept_env * loc) :=
  (demo_evs ++ [(demo_latecomer, 77); (demo_publisher2, 52); (demo_publisher2, 85); (demo_publisher2, 85)])%list.

(** The answer to the third client then reads the message that was freed. *)
Lemma stale_reply_reachable : reachable (λ _, true) true (λ _, 0%Z) (demo_played demo_stale_evs)
  ∧ worker_event (λ _, true) true (λ _, 0%Z) 10 demo_latecomer (mk_event EPOLLOUT (DataPtr 77)) (demo_played demo_stale_evs)
    = Err Dangling.
Proof. split; [apply demo_reachable|]; vm_compute; reflexivity. Qed.
