(* ===== verification/Cleanup.v ===== *)
(** The end of the server: releasing the topics.

    Every object of a topic belongs to it alone ([topics_inv]), so that releasing the map
    of topics frees each of them once.  [parts] gathers the objects of an entry of the map
    in the order of [destroy_topics]; the lists of all entries have no object in common.
    (The map of clients has no such invariant, see [Takeover].) *)
From stdpp Require Import base numbers option list gmap.
From Stdlib Require Import ZArith Lia.
From S2P Require Import Prelude Memory Ringbuf Buffer Protocol Hashmap Chain Lists Queues Network Receive.
From S2P Require Import Util Sizigy Demo Server Broker Publish Subscribe Steps Delivery Guard Invariant Reachable.

Local Open Scope Z_scope.

(** * Releasing one topic *)

(** [w'] is [w] without the objects at [fp]. *)
Definition without (fp : list loc) (w w' : World) : Prop :=
  ∀ y, at_loc w' y = if decide (y ∈ fp) then None else at_loc w y.

Lemma without_app fp1 fp2 w1 w2 w3 : without fp1 w1 w2 → without fp2 w2 w3 → without (fp1 ++ fp2) w1 w3.
Proof. intros H1 H2 y. rewrite H2, H1. repeat case_decide; set_solver. Qed.

Lemma without_nil w : without [] w w.
Proof. intros y. by rewrite decide_False by apply not_elem_of_nil. Qed.

Lemma without_out fp w w' y : without fp w w' → y ∉ fp → at_loc w' y = at_loc w y.
Proof. intros H Hy. by rewrite H, decide_False. Qed.

Lemma free_without w y o : at_loc w y = Some o → ∃ w', free (Some y) w = Ok ((), w') ∧ without [y] w w'.
Proof.
  intros Hy. exists (remove y w). split; [by eapply free_run|]. intros z. rewrite at_remove.
  repeat case_decide; set_solver.
Qed.

Lemma release_queue_without w q fuel : at_loc w q = Some (OQueue (mk_queue 0 None None)) →
  ∃ w', release_queue fuel (Some q) w = Ok ((), w') ∧ without [q] w w'.
Proof.
  intros Hq. unfold release_queue. rewrite decide_False by done.
  erewrite M_bind_run; [by eapply free_without|].
  destruct fuel; cbn [release_queue_loop]; run_deref; by rewrite decide_True.
Qed.

Lemma queue_without w q n : empty_queue_at w q →
  ∃ w', when (bool_decide (q ≠ None)) (release_queue n q) w = Ok ((), w') ∧ without (option_list q) w w'.
Proof.
  intros Hq. destruct q as [q|].
  - rewrite bool_decide_eq_true_2 by done. by apply release_queue_without, Hq.
  - rewrite bool_decide_eq_false_2 by naive_solver. exists w. split; [done|apply without_nil].
Qed.

Lemma destroy_retained_without w tp objs : retained_objs w tp objs →
  ∃ w', when (bool_decide (t_retained tp ≠ None)) (destroy_message (t_retained tp)) w = Ok ((), w')
    ∧ without objs w w'.
Proof. intros Ho. destruct (destroy_retained_run w w tp objs Ho) as (w' & E & _ & _ & _ & Hw); [done|]. by exists w'. Qed.

(** The objects of a topic, at [t] with the key [k], in the order in which they are freed. *)
Record parts (w : World) (k t : loc) (fp : list loc) : Prop := {
  pt_shape : ∃ tp nm bs l xs objs kb, at_loc w t = Some (OTopic tp) ∧ t_name tp = Some nm ∧ at_loc w nm = Some (OStr bs)
    ∧ t_subscribers tp = Some l ∧ list_wf w l xs ∧ Z.of_nat (length xs) < 2 ^ 64
    ∧ (∀ y, y ∈ owned 1 xs → is_Some (at_loc w y)) ∧ empty_queue_at w (t_messages tp) ∧ retained_objs w tp objs
    ∧ at_loc w k = Some (OStr kb)
    ∧ fp = nm :: (l :: owned 1 xs) ++ option_list (t_messages tp) ++ objs ++ [t; k];
  pt_once : NoDup fp
}.

(** They are looked at only. *)
Lemma retained_objs_frame w w' tp objs : (∀ y, y ∈ objs → at_loc w' y = at_loc w y) →
  retained_objs w tp objs → retained_objs w' tp objs.
Proof.
  unfold retained_objs. destruct (t_retained tp) as [m|]; [|done]. intros Hx (sd & tl & pl & (q & d & r & ts & Hm & Hnd & Hf) & ->).
  exists sd, tl, pl. split; [|done]. exists q, d, r, ts. split_and!; [by rewrite Hx by set_solver|done|].
  rewrite Forall_forall in Hf |- *. intros y Hy. destruct (Hf y Hy) as [bs Hbs]. exists bs. rewrite Hx; [done|set_solver].
Qed.

Lemma list_wf_frame (w w' : World) l xs : (∀ y, y ∈ l :: xs.*1 → at_loc w' y = at_loc w y) → list_wf w l xs → list_wf w' l xs.
Proof.
  intros Hx (hd & Hl & Hseg & Hnd). exists hd. split_and!; [by rewrite Hx by left| |done].
  apply (chain_frame _ w); [|done]. intros y Hy. apply Hx. by right.
Qed.

Lemma parts_frame w w' k t fp : (∀ y, y ∈ fp → at_loc w' y = at_loc w y) → parts w k t fp → parts w' k t fp.
Proof.
  intros Hx [(tp & nm & bs & l & xs & objs & kb & Ht & Hnm & Hs & Hl & Hlst & Hlen & Hown & Hq & Hobjs & Hk & ->) Hnd].
  split; [|done]. exists tp, nm, bs, l, xs, objs, kb. split_and!; try done.
  - by rewrite Hx by set_solver.
  - by rewrite Hx by set_solver.
  - apply (list_wf_frame w); [|done]. intros y [->|Hy]%elem_of_cons; apply Hx; [set_solver|].
    apply (owned_nodes 1) in Hy. set_solver.
  - intros y Hy. rewrite Hx by set_solver. by apply Hown.
  - intros q Hqm. rewrite Hx; [by apply Hq|]. rewrite Hqm. set_solver.
  - apply (retained_objs_frame w); [|done]. intros y Hy. apply Hx. set_solver.
  - by rewrite Hx by set_solver.
Qed.

Lemma destroy_topic_run w k t fp : parts w k t fp →
  ∃ fp' w', fp = fp' ++ [k] ∧ destroy_topic (Some t) w = Ok ((), w') ∧ without fp' w w'.
Proof.
  intros [(tp & nm & bs & l & xs & objs & kb & Ht & Hnm & Hs & Hl & Hlst & Hlen & Hown & Hq & Hobjs & Hk & ->) Hnd].
  rewrite NoDup_cons, !NoDup_app in Hnd. destruct Hnd as (Hnm' & HA & HAd & HB & HBd & HC & HCd & Htk).
  set (A := l :: owned 1 xs) in *. rewrite !not_elem_of_app in Hnm'. destruct Hnm' as (HnA & HnB & HnC & Hntk).
  assert (HtA : t ∉ A ∧ k ∉ A) by (split; intros Hy; destruct (HAd _ Hy); set_solver).
  assert (HtB : t ∉ option_list (t_messages tp) ∧ k ∉ option_list (t_messages tp)) by (split; intros Hy; destruct (HBd _ Hy); set_solver).
  assert (HtC : t ∉ objs ∧ k ∉ objs) by (split; intros Hy; destruct (HCd _ Hy); set_solver).
  assert (t ≠ k) by (apply NoDup_cons in Htk as [? _]; set_solver).
  unfold destroy_topic. rewrite decide_False by done. run_deref. rewrite Hnm. run_free.
  assert (Ht1 : at_loc (remove nm w) t = Some (OTopic tp)) by (rewrite at_remove_ne; [done|set_solver]). run_modify.
  set (w2 := update t _ (remove nm w)).
  assert (H2 : ∀ y, y ≠ t → at_loc w2 y = if decide (y = nm) then None else at_loc w y).
  { intros y Hy. unfold w2. rewrite at_update_ne by congruence. rewrite at_remove. repeat case_decide; congruence. }
  rewrite Hl, (bool_decide_eq_true_2 (Some l ≠ None)) by done. cbn [when].
  destruct (list_release_frees w2 l xs 1) as (w3 & E3 & H3).
  { apply (list_wf_frame w); [|done]. intros y Hy. assert (y ∈ A).
    { apply elem_of_cons in Hy as [->|Hy]; [by left|right; by apply owned_nodes]. }
    rewrite H2, decide_False; [done|set_solver..]. }
  { done. } { done. }
  { intros y Hy. assert (y ∈ A) by (by right). rewrite H2, decide_False; [by apply Hown|set_solver..]. }
  rewrite (M_bind_run _ _ _ _ _ E3). erewrite M_bind_run by done. fold A in H3. change (without A w2 w3) in H3.
  assert (Hout3 : ∀ y, y ∉ A → y ≠ t → y ≠ nm → at_loc w3 y = at_loc w y).
  { intros y HyA Hyt Hyn. by rewrite (without_out A w2) , H2, decide_False. }
  destruct (queue_without w3 (t_messages tp) (S (size (cells (w_heap w3))))) as (w4 & E4 & H4).
  { intros q Hqm. rewrite Hqm in *. rewrite Hout3; [by apply Hq| |set_solver..].
    intros HqA. by destruct (HAd q HqA); left. }
  rewrite (M_bind_run _ _ _ _ _ E4). destruct (destroy_retained_without w4 tp objs) as (w5 & E5 & H5).
  { apply (retained_objs_frame w); [|done]. intros y Hy. rewrite (without_out _ _ _ _ H4), Hout3; [done|set_solver..]. }
  rewrite (M_bind_run _ _ _ _ _ E5).
  assert (Ht5 : is_Some (at_loc w5 t)).
  { rewrite (without_out _ _ _ _ H5), (without_out _ _ _ _ H4), (without_out _ _ _ _ H3) by set_solver.
    unfold w2. rewrite at_update_eq. by eexists. }
  destruct Ht5 as [o Ht5]. destruct (free_without w5 t o Ht5) as (w6 & E6 & H6).
  exists (nm :: A ++ option_list (t_messages tp) ++ objs ++ [t]), w6. split.
  { cbn [app]. by rewrite <- !app_assoc. }
  split; [exact E6|]. intros y. rewrite H6. destruct (decide (y ∈ [t])) as [Hyt|Hyt].
  { rewrite decide_True; [done|set_solver]. }
  rewrite H5, H4, H3, H2 by set_solver. repeat case_decide; set_solver.
Qed.

(** The callback of the release, on an entry. *)
Lemma destroy_topics_run w k t fp : parts w k t fp →
  ∃ w', destroy_topics (mk_entry (Some (KPtr k)) (Some t) true) w = Ok (HASHMAP_OK, w') ∧ without fp w w'.
Proof.
  intros Hp. destruct (destroy_topic_run w k t fp Hp) as (fp' & w1 & -> & E1 & H1). unfold destroy_topics. cbn [e_val e_key].
  rewrite (M_bind_run _ _ _ _ _ E1).
  destruct Hp as [(tp & nm & bs & l & xs & objs & kb & _ & _ & _ & _ & _ & _ & _ & _ & _ & Hk & _) Hnd].
  apply NoDup_app in Hnd as (_ & Hd & _). assert (k ∉ fp') by (intros Hk'; apply (Hd k Hk'); left).
  destruct (free_without w1 k (OStr kb)) as (w2 & E2 & H2); [by rewrite (without_out _ _ _ _ H1)|].
  erewrite M_bind_run by exact E2. exists w2. split; [done|by eapply without_app].
Qed.

(** * Releasing the map *)

(** The objects of the entries in use, one list for each entry. *)
Definition entry_parts (w : World) (e : hashmap_entry key loc) (fp : list loc) : Prop :=
  if e_in_use e then ∃ k t, e = mk_entry (Some (KPtr k)) (Some t) true ∧ parts w k t fp else fp = [].

Lemma release_entries es fps w : Forall2 (entry_parts w) es fps → NoDup (mjoin fps) →
  ∃ w', iterate_loop destroy_topics es w = Ok (HASHMAP_OK, w') ∧ without (mjoin fps) w w'.
Proof.
  intros H. revert w H. induction es as [|e es IH] in fps |- *; intros w H Hnd.
  { apply Forall2_nil_inv_l in H as ->. exists w. split; [done|apply without_nil]. }
  apply Forall2_cons_inv_l in H as (fp & fps' & He & Hes & ->). cbn [mjoin list_join] in *.
  apply NoDup_app in Hnd as (Hnd & Hd & Hnds). cbn [iterate_loop]. unfold entry_parts in He.
  destruct (e_in_use e); [|subst fp; exact (IH fps' w Hes Hnds)].
  destruct He as (k & t & -> & Hp). destruct (destroy_topics_run w k t fp Hp) as (w1 & E1 & H1).
  rewrite (M_bind_run _ _ _ _ _ E1), decide_False by tauto.
  destruct (IH fps' w1) as (w2 & E2 & H2); [|done|exists w2; split; [exact E2|by eapply without_app]].
  apply Forall2_same_length_lookup_2; [by eapply Forall2_length|]. intros i e' fp' He' Hfp'.
  pose proof (Forall2_lookup_lr _ _ _ _ _ _ Hes He' Hfp') as Hep. unfold entry_parts in *.
  destruct (e_in_use e'); [|done]. destruct Hep as (k' & t' & -> & Hp'). exists k', t'. split; [done|].
  apply (parts_frame w); [|done]. intros y Hy. apply (without_out fp); [done|]. intros Hyf. apply (Hd y Hyf).
  apply list_elem_of_join. exists fp'. split; [done|]. by eapply list_elem_of_lookup_2.
Qed.

(** * What the invariant gives *)

Lemma slot_lookup {K V} (str : K → option (list Z)) (m : Hashmap K V) g i e s :
  hm_repr str m g → m_entries m !! i = Some e → slot_str str m i = Some s → g !! s = Some (e_val e).
Proof.
  intros Hr He Hs. destruct (g !! s) as [v|] eqn:Hg; [|by destruct (repr_absent _ _ _ i s Hr Hg)].
  pose proof (repr_lookup _ _ _ Hr s) as Hl. rewrite Hg in Hl. unfold mlookup in Hl.
  destruct (found str m s) as [j|] eqn:Hf; [|done]. cbn in Hl. apply found_entry in Hf.
  pose proof (repr_unique _ _ _ Hr i j s Hs Hf) as <-. rewrite He in Hl. by injection Hl as <-.
Qed.

Lemma owned_1 xs y : y ∈ owned 1 xs ↔ y ∈ xs.*1 ∨ Some y ∈ xs.*2.
Proof.
  unfold owned. rewrite list_elem_of_bind. split.
  - intros ([x d] & Hy & Hin). unfold owned_node in Hy. rewrite decide_True in Hy by done. cbn in Hy.
    apply elem_of_cons in Hy as [->|Hy]; [left|right].
    + by apply (list_elem_of_fmap_2 fst) in Hin.
    + apply (list_elem_of_fmap_2 snd) in Hin. destruct d as [d|]; [|by apply elem_of_nil in Hy].
      by apply list_elem_of_singleton in Hy as ->.
  - intros [([x d] & -> & Hin)%list_elem_of_fmap|([x d] & Hd & Hin)%list_elem_of_fmap]; exists (x, d); (split; [|done]);
      unfold owned_node; rewrite decide_True by done; cbn in *; [by left|]. subst d. right. by left.
Qed.

Lemma owned_NoDup xs : NoDup xs.*1 → NoDup xs.*2 → (∀ y, y ∈ xs.*1 → Some y ∈ xs.*2 → False) → NoDup (owned 1 xs).
Proof.
  induction xs as [|[x d] xs IH]; [by constructor|]. cbn [fmap list_fmap fst snd].
  intros [Hx H1]%NoDup_cons [Hd H2]%NoDup_cons Hne. change (owned 1 ((x, d) :: xs)) with (owned_node 1 (x, d) ++ owned 1 xs).
  apply NoDup_app. split_and!.
  - unfold owned_node. rewrite decide_True by done. cbn [fst snd]. destruct d as [d|]; [|apply NoDup_singleton].
    apply NoDup_cons_2; [|apply NoDup_singleton]. intros ->%list_elem_of_singleton. apply (Hne d); left.
  - intros y Hy Hin%owned_1. unfold owned_node in Hy. rewrite decide_True in Hy by done. cbn [fst snd] in Hy.
    apply elem_of_cons in Hy as [->|Hy].
    + destruct Hin as [Hin|Hin]; [done|]. apply (Hne x); [left|by right].
    + destruct d as [d|]; [|by apply elem_of_nil in Hy]. apply list_elem_of_singleton in Hy as ->.
      destruct Hin as [Hin|Hin]; [|done]. apply (Hne d); [by right|left].
  - apply IH; [done|done|]. intros y Hy1 Hy2. apply (Hne y); by right.
Qed.

(** The objects of a topic. *)
Definition belongs (w : World) (t y : loc) : Prop :=
  ∃ tp l xs, at_loc w t = Some (OTopic tp) ∧ t_subscribers tp = Some l ∧ list_wf w l xs
    ∧ (y = t ∨ t_name tp = Some y ∨ y = l ∨ y ∈ xs.*1 ∨ Some y ∈ xs.*2 ∨ t_messages tp = Some y ∨ retains_obj w t y).

Lemma lseg_fun (w : World) xs ys h : lseg w h xs None → lseg w h ys None → xs = ys.
Proof.
  revert h ys. induction xs as [|[x d] xs IH]; intros h [|[y d'] ys]; cbn; [done|naive_solver|naive_solver|].
  intros (-> & n & Hx & Hxs) ([= <-] & n' & Hy & Hys). rewrite Hx in Hy. injection Hy as -> ->. by rewrite (IH n' ys).
Qed.

Lemma list_wf_fun (w : World) l xs ys : list_wf w l xs → list_wf w l ys → xs = ys.
Proof.
  intros (h & Hl & Hx & _) (h' & Hl' & Hy & _). rewrite Hl in Hl'. injection Hl' as <- _ _. by apply (lseg_fun w _ _ h).
Qed.

Lemma Forall_choose {A B} (P : A → B → Prop) xs : (∀ x, x ∈ xs → ∃ y, P x y) → ∃ ys, Forall2 P xs ys.
Proof.
  induction xs as [|x xs IH]; intros H; [by exists []|]. destruct (H x) as [y Hy]; [left|].
  destruct IH as [ys Hys]; [intros z Hz; apply H; by right|]. exists (y :: ys). by constructor.
Qed.

Lemma join_NoDup {A} (ls : list (list A)) : (∀ i l, ls !! i = Some l → NoDup l) →
  (∀ i j l1 l2 y, ls !! i = Some l1 → ls !! j = Some l2 → y ∈ l1 → y ∈ l2 → i = j) → NoDup (mjoin ls).
Proof.
  induction ls as [|l ls IH]; intros H1 H2; [constructor|]. cbn [mjoin list_join]. apply NoDup_app. split_and!.
  - by apply (H1 0%nat).
  - intros y Hy (l' & Hy' & Hl')%list_elem_of_join. apply list_elem_of_lookup in Hl' as [i Hi].
    by specialize (H2 0%nat (S i) l l' y eq_refl Hi Hy Hy').
  - apply IH; [intros i; apply (H1 (S i))|]. intros i j l1 l2 y Hi Hj Hy1 Hy2.
    specialize (H2 (S i) (S j) l1 l2 y Hi Hj Hy1 Hy2). congruence.
Qed.

(** What the map of topics holds: the strings of its keys and the topics. *)
Definition topic_obj (w : World) (g : gmap (list Z) loc) (y : loc) : Prop :=
  (∃ i e, m_entries (topics (db w)) !! i = Some e ∧ e_in_use e = true ∧ e_key e = Some (KPtr y))
  ∨ ∃ s t, g !! s = Some t ∧ belongs w t y.

(** They are told apart by their types and by their roles. *)
Definition not_topic (w : World) (y : loc) : Prop := ∀ tq, at_loc w y ≠ Some (OTopic tq).

Section Owned.
Context (T : gset loc) (ow : owners) (R : gset loc) (w : World) (g : gmap (list Z) loc).
Context (Hi : topics_inv T ow R w g) (Hfit : fits w).

(** An entry of the map, with the name it is found under. *)
Lemma entry_topic i e : m_entries (topics (db w)) !! i = Some e → e_in_use e = true →
  ∃ k t s kb, e = mk_entry (Some (KPtr k)) (Some t) true ∧ slot_str (str_of w) (topics (db w)) i = Some s
    ∧ g !! s = Some t ∧ ow !! k = Some (t, RKey) ∧ at_loc w k = Some (OStr kb).
Proof.
  intros He Hu. destruct (ti_keys _ _ _ _ Hi i e He Hu) as (k & t & -> & HkT & Hk).
  destruct (hm_keys _ _ (repr_wf _ _ _ (ti_repr _ _ _ _ Hi)) i _ He Hu) as (k' & s & [= <-] & Hs & _).
  assert (Hslot : slot_str (str_of w) (topics (db w)) i = Some s) by (unfold slot_str; by rewrite He).
  pose proof (slot_lookup _ _ _ i _ s (ti_repr _ _ _ _ Hi) He Hslot) as Hg.
  rewrite lookup_fmap in Hg. destruct (g !! s) as [t'|] eqn:Hgs; [|done]. injection Hg as ->.
  apply str_at_inv in Hs as (kb & Hkb & _). by exists k, t, s, kb.
Qed.

(** Entries in use have topics of their own. *)
Lemma entry_once i j k1 k2 t : m_entries (topics (db w)) !! i = Some (mk_entry (Some (KPtr k1)) (Some t) true) →
  m_entries (topics (db w)) !! j = Some (mk_entry (Some (KPtr k2)) (Some t) true) → i = j.
Proof.
  intros H1 H2. destruct (entry_topic i _ H1 eq_refl) as (? & ? & s1 & ? & [= <- <-] & Hs1 & Hg1 & _).
  destruct (entry_topic j _ H2 eq_refl) as (? & ? & s2 & ? & [= <- <-] & Hs2 & Hg2 & _).
  pose proof (one_name _ _ _ _ s1 s2 t (ti_core _ _ _ _ _ Hi) Hg1 Hg2) as ->.
  by apply (repr_unique _ _ _ (ti_repr _ _ _ _ Hi) i j s1).
Qed.

(** The objects of an entry and its topic, and why they are no other topic's. *)
Definition placed (t y : loc) : Prop :=
  y = t ∨ ((∃ r, ow !! y = Some (t, r)) ∨ retains_obj w t y ∧ y ∈ R) ∧ not_topic w y.

Lemma placed_once s1 s2 t1 t2 y : g !! s1 = Some t1 → g !! s2 = Some t2 → placed t1 y → placed t2 y → t1 = t2.
Proof.
  intros (tp1 & ? & ? & ? & ? & (Ht1 & _) & _)%(ti_topics _ _ _ _ Hi) (tp2 & ? & ? & ? & ? & (Ht2 & _) & _)%(ti_topics _ _ _ _ Hi).
  assert (HTR : ∀ z t r, ow !! z = Some (t, r) → z ∉ R).
  { intros z t r Hz%(ti_owned _ _ _ _ Hi) HR. by apply (ti_apart _ _ _ _ _ Hi z). }
  intros [->|[Hy1 Hn1]] [Hy|[Hy2 Hn2]]; try done; [by destruct (Hn2 tp1)|subst; by destruct (Hn1 tp2)|].
  destruct Hy1 as [[r1 Hr1]|[Hr1 HR1]], Hy2 as [[r2 Hr2]|[Hr2 HR2]].
  - congruence.
  - by destruct (HTR y t1 r1).
  - by destruct (HTR y t2 r2).
  - by apply (ti_single _ _ _ _ _ Hi t1 t2 y).
Qed.

(** The members of the subscriber list of a topic. *)
Lemma owned_at t tp l xs cs y : list_wf w l xs → Forall2 (subscriber w) xs cs → topic_owns ow w t tp l xs → y ∈ owned 1 xs →
  ((∃ nd, at_loc w y = Some (ONode nd)) ∨ ∃ sub, at_loc w y = Some (OSubscription sub)) ∧
  (ow !! y = Some (t, RNode) ∨ ow !! y = Some (t, RSub)).
Proof.
  intros (hd & _ & Hseg & _) Hsubs Hto [Hy|Hy]%owned_1.
  - split; [left|left; by apply Hto]. apply list_elem_of_fmap in Hy as ([x d] & -> & Hx).
    destruct (chain_at _ _ _ _ _ _ _ Hseg Hx) as [n Hn]. by eexists.
  - split; [right|right]; [|by destruct (to_subs _ _ _ _ _ _ Hto _ Hy) as (? & [= <-] & ?)].
    apply list_elem_of_fmap in Hy as (x & Hd & Hx). apply list_elem_of_lookup in Hx as [i Hx].
    destruct (Forall2_lookup_l _ _ _ _ _ Hsubs Hx) as (c & _ & (sb & sub & cl & Hsb & Hs & _)).
    rewrite Hsb in Hd. injection Hd as ->. by exists sub.
Qed.

Lemma topic_parts s t k kb : g !! s = Some t → ow !! k = Some (t, RKey) → at_loc w k = Some (OStr kb) →
  ∃ fp, parts w k t fp ∧ (∀ y, y ∈ fp → placed t y) ∧ ∀ y, y ∈ fp ↔ y = k ∨ belongs w t y.
Proof.
  intros Hg Hk Hkb. destruct (ti_topics _ _ _ _ Hi s t Hg) as (tp & nm & l & xs & cs & Hn & Hnm & _ & _ & Hsubs & Hto).
  pose proof Hn as (Ht & (nm' & Hnm' & Hs) & Hl & Hlst). assert (nm' = nm) as -> by congruence.
  apply str_at_inv in Hs as (bs & Hnb & _). destruct (list_wf_at _ _ _ Hlst) as [lst Hlo].
  destruct (kept_objs T ow R w g t tp Hi Ht) as (objs & Hobjs & HobjR & Hobjo & HobjN & Hobja).
  pose proof (λ y, owned_at t tp l xs cs y Hlst Hsubs Hto) as Hown.
  assert (HRn : ∀ y, y ∈ objs → ow !! y = None).
  { intros y [HR _]%HobjR. destruct (ow !! y) eqn:Hy; [|done]. apply (ti_owned _ _ _ _ Hi) in Hy.
    by destruct (ti_apart _ _ _ _ _ Hi y Hy). }
  assert (Hqs : ∀ y, y ∈ option_list (t_messages tp) → ow !! y = Some (t, RQueue) ∧ at_loc w y = Some (OQueue (mk_queue 0 None None))).
  { intros y Hy. destruct (t_messages tp) as [q|] eqn:Hqm; [|by apply elem_of_nil in Hy].
    apply list_elem_of_singleton in Hy as ->. split; [by apply (to_queue _ _ _ _ _ _ Hto)|].
    by apply (to_empty _ _ _ _ _ _ Hto). }
  pose proof (to_name _ _ _ _ _ _ Hto nm Hnm) as Hnmo. pose proof (to_list _ _ _ _ _ _ Hto) as Hlow.
  exists (nm :: (l :: owned 1 xs) ++ option_list (t_messages tp) ++ objs ++ [t; k]). split; [split|split].
  - exists tp, nm, bs, l, xs, objs, kb. split_and!; try done; [| |by apply Hto].
    + destruct Hlst as (hd & _ & Hseg & Hnd). apply NoDup_cons in Hnd as [_ Hnd].
      pose proof (chain_fits w hd xs (gd_wf _ _ (ti_guarded _ _ _ _ _ Hi)) Hseg Hnd Hfit). lia.
    + intros y [[[? Hy]|[? Hy]] _]%Hown; by eexists.
  - assert (Hd1 : ∀ y, y ∈ owned 1 xs → y ≠ nm ∧ y ≠ l ∧ y ≠ t ∧ y ≠ k ∧ y ∉ objs ∧ y ∉ option_list (t_messages tp)).
    { intros y [Hat Ho]%Hown. split_and!; try (destruct Hat as [[? ?]|[? ?]], Ho; congruence);
        [intros Hy%HRn|intros [Hy _]%Hqs]; destruct Ho; congruence. }
    assert (Hd2 : ∀ y, y ∈ option_list (t_messages tp) → y ≠ nm ∧ y ≠ l ∧ y ≠ t ∧ y ≠ k ∧ y ∉ objs).
    { intros y [Hyo Hya]%Hqs. split_and!; try congruence. intros Hy%HRn. congruence. }
    assert (Hd3 : ∀ y, y ∈ objs → y ≠ nm ∧ y ≠ l ∧ y ≠ t ∧ y ≠ k).
    { intros y Hy. pose proof (HRn y Hy). destruct (Hobjo y Hy) as (o & Ho & Hr). split_and!; try congruence.
      intros ->. rewrite Ht in Ho. by injection Ho as <-. }
    assert (nm ≠ l ∧ nm ≠ t ∧ nm ≠ k ∧ l ≠ t ∧ l ≠ k ∧ t ≠ k) as (? & ? & ? & ? & ? & ?) by (split_and!; congruence).
    rewrite NoDup_cons, !NoDup_app. split_and!.
    + set_solver.
    + apply NoDup_cons_2; [set_solver|]. destruct Hlst as (hd & _ & _ & Hnd). apply NoDup_cons in Hnd as [_ Hnd].
      apply owned_NoDup; [done|apply Hto|]. intros y Hy1%(to_nodes _ _ _ _ _ _ Hto) Hy2.
      destruct (to_subs _ _ _ _ _ _ Hto _ Hy2) as (? & [= <-] & ?). congruence.
    + set_solver.
    + destruct (t_messages tp); [apply NoDup_singleton|constructor].
    + set_solver.
    + done.
    + set_solver.
    + apply NoDup_cons_2; [set_solver|apply NoDup_singleton].
  - assert (Hrole : ∀ y r, ow !! y = Some (t, r) → not_topic w y → placed t y) by (intros y r ? ?; right; split; [left; by eexists|done]).
    intros y. rewrite elem_of_cons, !elem_of_app, !elem_of_cons, elem_of_nil.
    intros [->|[[->|Hy]|[Hy|[Hy|[->|[->|[]]]]]]].
    + eapply Hrole; [done|]. intros tq. congruence.
    + eapply Hrole; [done|]. intros tq. congruence.
    + destruct (Hown y Hy) as [Hat [Ho|Ho]]; (eapply Hrole; [done|]; intros tq; destruct Hat as [[? ?]|[? ?]]; congruence).
    + destruct (Hqs y Hy). eapply Hrole; [done|]. intros tq. congruence.
    + right. split; [right; by destruct (HobjR y Hy)|]. intros tq Htq. destruct (Hobjo y Hy) as (o & Ho & Hr). simplify_eq.
    + by left.
    + eapply Hrole; [done|]. intros tq. congruence.
  - intros y. rewrite elem_of_cons, !elem_of_app, !elem_of_cons, elem_of_nil, owned_1. split.
    + intros Hy. destruct (decide (y = k)) as [|Hyk]; [by left|right]. exists tp, l, xs. split_and!; [done..|].
      destruct Hy as [->|[[->|[Hy|Hy]]|[Hy|[Hy|[->|[->|[]]]]]]]; try tauto.
      * destruct (t_messages tp); [|by apply elem_of_nil in Hy]. apply list_elem_of_singleton in Hy as ->. tauto.
      * apply HobjR in Hy. tauto.
    + intros [->|(tp' & l' & xs' & Ht' & Hl' & Hlst' & Hy)]; [tauto|].
      assert (tp' = tp) as -> by congruence. assert (l' = l) as -> by congruence.
      pose proof (list_wf_fun w l xs' xs Hlst' Hlst) as ->.
      destruct Hy as [->|[Hy|[->|[Hy|[Hy|[Hy|Hy]]]]]]; try tauto.
      * assert (y = nm) by congruence. tauto.
      * rewrite Hy. set_solver.
      * apply Hobja in Hy. tauto.
Qed.

Lemma topic_entry s t : g !! s = Some t →
  ∃ i k, m_entries (topics (db w)) !! i = Some (mk_entry (Some (KPtr k)) (Some t) true).
Proof.
  intros Hg. pose proof (repr_lookup _ _ _ (ti_repr _ _ _ _ Hi) s) as Hl. rewrite lookup_fmap, Hg in Hl. unfold mlookup in Hl.
  destruct (found _ _ s) as [i|] eqn:Hf; [|done]. cbn in Hl. apply found_entry in Hf.
  destruct (slot_str_Some _ _ _ _ Hf) as (e & k & He & Hu & _). rewrite He in Hl. cbn in Hl. injection Hl as Hv.
  destruct (entry_topic i e He Hu) as (k' & t' & _ & _ & -> & _). injection Hv as ->. by exists i, k'.
Qed.

(** The objects of an entry, or none. *)
Definition located (e : hashmap_entry key loc) (fp : list loc) : Prop :=
  entry_parts w e fp ∧ (∀ y, y ∈ fp → ∃ k t s, e = mk_entry (Some (KPtr k)) (Some t) true ∧ g !! s = Some t ∧ placed t y)
  ∧ ∀ k t, e = mk_entry (Some (KPtr k)) (Some t) true → ∀ y, y ∈ fp ↔ y = k ∨ belongs w t y.

Lemma entry_located e : e ∈ m_entries (topics (db w)) → ∃ fp, located e fp.
Proof.
  intros [i He]%list_elem_of_lookup. unfold located, entry_parts. destruct (e_in_use e) eqn:Hu.
  - destruct (entry_topic i e He Hu) as (k & t & s & kb & -> & _ & Hg & Hk & Hkb).
    destruct (topic_parts s t k kb Hg Hk Hkb) as (fp & Hp & Hpl & Hb). exists fp. split_and!.
    + by exists k, t.
    + intros y Hy. exists k, t, s. by split_and!; [..|apply Hpl].
    + by intros ? ? [= <- <-].
  - exists []. split_and!; [done|by intros y ?%elem_of_nil|]. intros k t ->. done.
Qed.

Lemma entries_located : ∃ fps, Forall2 (entry_parts w) (m_entries (topics (db w))) fps ∧ NoDup (mjoin fps)
  ∧ ∀ y, y ∈ mjoin fps ↔ topic_obj w g y.
Proof.
  destruct (Forall_choose located (m_entries (topics (db w))) entry_located) as [fps Hall]. exists fps. split_and!.
  - eapply Forall2_impl; [exact Hall|]. by intros e fp [].
  - apply join_NoDup.
    + intros i fp Hf. destruct (Forall2_lookup_r _ _ _ _ _ Hall Hf) as (e & _ & Hp & _). unfold entry_parts in Hp.
      destruct (e_in_use e); [|subst fp; constructor]. by destruct Hp as (k & t & _ & []).
    + intros i j fp1 fp2 y Hf1 Hf2 Hy1 Hy2.
      destruct (Forall2_lookup_r _ _ _ _ _ Hall Hf1) as (e1 & He1 & _ & H1 & _).
      destruct (Forall2_lookup_r _ _ _ _ _ Hall Hf2) as (e2 & He2 & _ & H2 & _).
      destruct (H1 y Hy1) as (k1 & t1 & s1 & -> & Hg1 & Hp1). destruct (H2 y Hy2) as (k2 & t2 & s2 & -> & Hg2 & Hp2).
      pose proof (placed_once s1 s2 t1 t2 y Hg1 Hg2 Hp1 Hp2) as <-. by apply (entry_once i j k1 k2 t1).
  - intros y. rewrite list_elem_of_join. split.
    + intros (fp & Hy & [i Hf]%list_elem_of_lookup).
      destruct (Forall2_lookup_r _ _ _ _ _ Hall Hf) as (e & He & _ & H1 & H2). destruct (H1 y Hy) as (k & t & s & -> & Hg & _).
      apply (H2 k t eq_refl) in Hy as [->|Hy]; [left; by eexists _, _|right; by exists s, t].
    + intros [(i & e & He & Hu & Hk)|(s & t & Hg & Hb)].
      * destruct (entry_topic i e He Hu) as (k & t & _ & _ & -> & _). injection Hk as ->.
        destruct (Forall2_lookup_l _ _ _ _ _ Hall He) as (fp & Hf & _ & _ & H2). exists fp.
        split; [apply (H2 y t eq_refl); by left|by eapply list_elem_of_lookup_2].
      * destruct (topic_entry s t Hg) as (i & k & He).
        destruct (Forall2_lookup_l _ _ _ _ _ Hall He) as (fp & Hf & _ & _ & H2). exists fp.
        split; [apply (H2 k t eq_refl); by right|by eapply list_elem_of_lookup_2].
Qed.

Lemma release_topics_run : ∃ w', hashmap_release_map (topics (db w)) destroy_topics w = Ok ((), w')
  ∧ (∀ y, topic_obj w g y → at_loc w' y = None) ∧ (∀ y, ¬ topic_obj w g y → at_loc w' y = at_loc w y).
Proof.
  destruct entries_located as (fps & Hall & Hnd & Hobj). destruct (release_entries _ _ _ Hall Hnd) as (w' & E & Hw).
  assert (∃ w' r, hashmap_iterate2 (topics (db w)) destroy_topics w = Ok (r, w') ∧ without (mjoin fps) w w') as (w2 & r & E2 & Hw2).
  { unfold hashmap_iterate2. case_decide as Hsz; [|by exists w', HASHMAP_OK]. exists w, HASHMAP_ERR. split; [done|].
    assert (mjoin fps = []) as ->; [|apply without_nil].
    destruct (mjoin fps) as [|y ys] eqn:Hf; [done|exfalso]. assert (Hy : y ∈ y :: ys) by left. rewrite <- Hf in Hy.
    apply list_elem_of_join in Hy as (fp & Hy & [i Hi']%list_elem_of_lookup).
    destruct (Forall2_lookup_r _ _ _ _ _ Hall Hi') as (e & He & Hp). unfold entry_parts in Hp.
    destruct (e_in_use e) eqn:Hu; [|subst fp; by apply elem_of_nil in Hy].
    rewrite (hm_size _ _ (repr_wf _ _ _ (ti_repr _ _ _ _ Hi))) in Hsz. unfold in_use_count in Hsz.
    assert (e ∈ filter (λ e, e_in_use e = true) (m_entries (topics (db w)))) as Hin.
    { apply list_elem_of_filter. split; [done|by eapply list_elem_of_lookup_2]. }
    destruct (filter _ _); [by apply elem_of_nil in Hin|cbn in Hsz; lia]. }
  exists w2. split; [unfold hashmap_release_map; by rewrite (M_bind_run _ _ _ _ _ E2)|]. split; intros y Hy; rewrite Hw2.
  - by rewrite decide_True by (by apply Hobj).
  - by rewrite decide_False by (by intros ?%Hobj).
Qed.

End Owned.

(** * Properties *)

(** C6. When a broker that was running is stopped, releasing the map of topics frees every
    object of every topic exactly once: no freed object is read or freed again, whatever
    happened before; the strings of the keys and all that belongs to a topic (its name,
    its list with the nodes and the subscriptions, its queue, its retained message with
    its strings) are gone, and every other object is as it was. *)
Theorem topics_released calloc_ok queue_ok low_int w : reachable calloc_ok queue_ok low_int w →
  ∃ g w', topics_repr w g ∧ hashmap_release_map (topics (db w)) destroy_topics w = Ok ((), w')
    ∧ (∀ y, topic_obj w g y → at_loc w' y = None) ∧ (∀ y, ¬ topic_obj w g y → at_loc w' y = at_loc w y).
Proof.
  intros Hr. pose proof Hr as (_ & _ & _ & _ & _ & _ & _ & _ & _ & _ & _ & Hfit).
  destruct (reachable_inv _ _ _ _ Hr) as [(T & ow & R & g & Hi) _]. exists g.
  destruct (release_topics_run T ow R w g Hi Hfit) as (w' & ? & ? & ?). exists w'. split; [apply (ti_repr _ _ _ _ Hi)|done].
Qed.

Lemma topics_released_witness : ∃ g w', topics_repr demo_retained g
  ∧ hashmap_release_map (topics (db demo_retained)) destroy_topics demo_retained = Ok ((), w') ∧ at_loc w' 59%positive = None.
Proof.
  destruct (topics_released (λ _, true) true (λ _, 0) demo_retained demo_retained_reachable) as (g & w' & Hr & E & Hgone & _).
  exists g, w'. split; [exact Hr|]. split; [exact E|]. apply Hgone. right. exists demo_name, 59%positive.
  split; [exact (demo_retained_found g Hr)|].
  destruct (reachable_inv _ _ _ _ demo_retained_reachable) as [(T & ow & R & g2 & Hi) _].
  destruct (ti_topics _ _ _ _ Hi demo_name 59%positive (demo_retained_found g2 (ti_repr _ _ _ _ Hi)))
    as (tp & nm & l & xs & cs & (Htp & _ & Hl & Hlst) & _).
  exists tp, l, xs. split; [exact Htp|]. split; [exact Hl|]. split; [exact Hlst|]. left. reflexivity.
Defined.
