(* ===== verification/Takeover.v ===== *)
(** Names that are taken over.

    The map of clients keeps the string of a client's name as the key, and a change of name
    takes the first entry of that name out of the map, then frees the string.  When another
    client was entered under the same name in an earlier slot, the entry taken out is the
    other's: the client's own stays, with a key that was freed ([stale]).  The first section
    is on the map, the second on a broker that is stopped with a client twice in its map;
    then a CONNECT that leaves such an entry, from its bytes, and a run from the start that
    reaches it. *)
From stdpp Require Import base numbers option list gmap.
From Stdlib Require Import ZArith Lia.
From S2P Require Import Prelude Memory Ringbuf Buffer Protocol Crc Hashmap Chain Lists Queues Network Receive.
From S2P Require Import Util Sizigy Demo Server Calm Broker Publish Subscribe Steps Delivery Connect Guard Invariant Reachable.

Local Open Scope Z_scope.

(** * A map with a key that was freed *)

Section Stale.
Context {K V : Type} (cstr_of str : K → option (list Z)) (m : Hashmap K V).
(** [str] is what the keys designated when they were entered. *)
Context (Hwf : hm_wf str m).

(** Where the chain of a string goes. *)
Definition probed (s : list Z) (d : nat) : nat := pos m (hash_str (m_table_size m) s) d.

Lemma hash_key_str k s : cstr_of k = Some s → no_nul s → hash_key cstr_of m k = Ok (Z.of_nat (probed s 0)).
Proof.
  intros Hk Hs. pose proof (hash_key_pos (λ _, Some s) m k s) as H. unfold hash_key, key_string in *. rewrite Hk.
  unfold probed. destruct (hashmap_hash_int_Ok (m_table_size m) s Hs) as [E Hh].
  { pose proof (hm_range _ _ Hwf). lia. }
  cbn. rewrite E. f_equal. unfold pos. rewrite Z.add_0_r, Z.mod_small, Z2Nat.id by lia. done.
Qed.

(** A slot that a lookup of [s] passes. *)
Definition passed (s : list Z) (i : nat) : Prop := ∃ e, m_entries m !! i = Some e ∧
  (e_in_use e = false ∨ ∃ k s', e_key e = Some k ∧ cstr_of k = Some s' ∧ s' ≠ s).

(** A slot whose key was freed. *)
Definition stale (i : nat) : Prop := ∃ e k, m_entries m !! i = Some e ∧ e_in_use e = true ∧ e_key e = Some k ∧ cstr_of k = None.

Lemma probe_key_stale k s dj d n : cstr_of k = Some s → (d ≤ dj < d + n)%nat → stale (probed s dj) →
  (∀ d', (d ≤ d' < dj)%nat → passed s (probed s d')) →
  probe_key cstr_of m k (Z.of_nat (probed s d)) n = Err Dangling.
Proof.
  intros Hk Hd (e & k0 & He & Hu & Hek & Hk0) Hpass. induction n as [|n IH] in d, Hd, Hpass |- *; [lia|].
  cbn [probe_key]. unfold probed. rewrite entry_at_nat. fold (probed s d). destruct (decide (d = dj)) as [->|Hne].
  - rewrite He. cbn [of_option mbind res_bind]. rewrite Hu. unfold key_equals, key_string. rewrite Hek. cbn. by rewrite Hk0.
  - destruct (Hpass d ltac:(lia)) as (e' & He' & Hor). rewrite He'. cbn [of_option mbind res_bind].
    assert (E : (if e_in_use e' then key_equals cstr_of e' k else Ok false) = Ok false).
    { destruct (e_in_use e'); [|done]. destruct Hor as [?|(k' & s' & Hk' & Hs' & Hne')]; [done|].
      unfold key_equals, key_string. rewrite Hk'. cbn. rewrite Hs', Hk. cbn. by rewrite bool_decide_eq_false_2. }
    rewrite E. cbn [mbind res_bind]. unfold probed. rewrite (next_slot_pos str) by done. apply IH; [lia|].
    intros d' Hd'. apply Hpass. lia.
Qed.

End Stale.

Section Operations.
Context {K V : Type} (cstr_of str : K → option (list Z)) (m : Hashmap K V).
Context (Hwf : hm_wf str m) (Hl : m_lock m = false).

(** A removal that comes upon the slot reads the key. *)
Lemma del_stale k s d : cstr_of k = Some s → no_nul s → (d < MAX_CHAIN_LENGTH)%nat → stale cstr_of m (probed m s d) →
  (∀ d', (d' < d)%nat → passed cstr_of m s (probed m s d')) → hashmap_del cstr_of m k = Err Dangling.
Proof.
  intros Hk Hs Hd Hst Hpass. unfold hashmap_del. rewrite mutex_lock_free by done. cbn [mbind res_bind].
  pose proof (with_lock_wf str m true Hwf) as Hwf'.
  rewrite (hash_key_str cstr_of str (with_lock m true) Hwf' k s Hk Hs). cbn [mbind res_bind].
  rewrite (probe_key_stale cstr_of str (with_lock m true) Hwf' k s d 0 MAX_CHAIN_LENGTH Hk); [done|lia|done|].
  intros d' Hd'. apply Hpass. lia.
Qed.

(** An insertion whose chain avoids it does not notice. *)
Context (k : K) (s : list Z) (j : nat).
Context (Hk : cstr_of k = Some s) (Hks : key_is str k s).
Context (Hsame : ∀ i e k', m_entries m !! i = Some e → e_in_use e = true → e_key e = Some k' → i ≠ j → cstr_of k' = str k').
Context (Havoid : ∀ d, (d < MAX_CHAIN_LENGTH)%nat → probed m s d ≠ j).

Lemma probe_free_avoiding d n : (d + n ≤ MAX_CHAIN_LENGTH)%nat →
  probe_free cstr_of (with_lock m true) k (Z.of_nat (probed m s d)) n
  = probe_free str (with_lock m true) k (Z.of_nat (probed m s d)) n.
Proof.
  induction n as [|n IH] in d |- *; intros Hd; [done|]. cbn [probe_free]. rewrite entry_at_nat.
  pose proof (next_slot_pos str (with_lock m true) (hash_str (m_table_size m) s) d (with_lock_wf str m true Hwf)) as Hnext.
  change (pos (with_lock m true)) with (pos m) in Hnext. fold (probed m s d) (probed m s (S d)) in Hnext.
  cbn [with_lock m_entries]. destruct (m_entries m !! probed m s d) as [e|] eqn:He; [|done]. cbn [of_option mbind res_bind].
  destruct (e_in_use e) eqn:Hu; [|done]. destruct (hm_keys _ _ Hwf _ _ He Hu) as (k' & s' & Hek & [Hk' _]). cbn [negb].
  assert (key_equals cstr_of e k = key_equals str e k) as ->.
  { unfold key_equals, key_string. rewrite Hek. cbn. rewrite (Hsame _ _ _ He Hu Hek) by (apply Havoid; lia).
    by rewrite Hk, (proj1 Hks). }
  rewrite Hnext, IH by lia. done.
Qed.

Lemma put_avoiding calloc_ok n v l : place str m s = Some l →
  hashmap_put cstr_of calloc_ok (S (S n)) m k v = Ok (HASHMAP_OK, after_put str m l k v).
Proof.
  intros Hp. pose proof (with_lock_wf str m true Hwf) as Hwf'. pose proof (hashmap_put_cases str calloc_ok n m k s v Hwf Hl Hks) as E.
  rewrite Hp in E. rewrite <- E. cbn [hashmap_put]. rewrite mutex_lock_free by done. cbn [mbind res_bind].
  assert (hashmap_hash cstr_of (with_lock m true) k = Ok (Z.of_nat l)) as ->.
  { assert (Hs : hashmap_hash str (with_lock m true) k = Ok (Z.of_nat l)).
    { rewrite (hashmap_hash_place str (with_lock m true) k s Hwf' Hks). by change (place str (with_lock m true) s) with (place str m s); rewrite Hp. }
    rewrite <- Hs. unfold hashmap_hash. case_decide; [done|].
    rewrite (hash_key_str cstr_of str _ Hwf' k s Hk (proj2 Hks)), (hash_key_str str str _ Hwf' k s (proj1 Hks) (proj2 Hks)).
    cbn [mbind res_bind]. exact (probe_free_avoiding 0 MAX_CHAIN_LENGTH (Nat.le_refl _)). }
  rewrite (hashmap_hash_place str (with_lock m true) k s Hwf' Hks). change (place str (with_lock m true) s) with (place str m s).
  rewrite Hp. cbn [mbind res_bind]. unfold grow_loop. rewrite !decide_True by (unfold HASHMAP_FULL; lia). done.
Qed.

End Operations.

(** * A broker that is stopped *)

Lemma moves_free_client G b c : moves G b b (free_client c).
Proof. unfold free_client. moves. Qed.
Lemma moves_destroy_clients G b e : moves G b b (destroy_clients e).
Proof. unfold destroy_clients. pose proof moves_free_client. moves. Qed.
Lemma moves_destroy_topics G b e : moves G b b (destroy_topics e).
Proof. unfold destroy_topics. moves. Qed.

Lemma destroy_clients_status e w r w' : destroy_clients e w = Ok (r, w') → r = HASHMAP_OK.
Proof.
  unfold destroy_clients. destruct (e_val e); [|by intros [= <- _]]. by intros ([] & w1 & _ & [= <- _])%M_bind_Ok.
Qed.

(** A client is freed by its release, and must have been there. *)
Lemma destroy_clients_gone e c w r w' : e_val e = Some c → destroy_clients e w = Ok (r, w') →
  is_Some (at_loc w c) ∧ at_loc w' c = None.
Proof.
  intros Hv. unfold destroy_clients. rewrite Hv. intros ([] & w1 & E & [= <- <-])%M_bind_Ok.
  unfold free_client in E. rewrite decide_False in E by done.
  apply M_bind_Ok in E as (cl & w2 & E1 & E). apply deref_inv in E1 as (l & [= <-] & Hc & ->). split; [by eexists|].
  do 5 (apply M_bind_Ok in E as (? & ? & _ & E)). apply M_bind_Ok in E as (? & w3 & _ & E). unfold free in E.
  destruct (at_loc w3 c) as [o|]; [|done]. cbn [of_option mbind res_bind] in E.
  assert (w1 = remove c w3) as -> by congruence. by rewrite at_remove, decide_True.
Qed.

(** The release goes through all entries. *)
Lemma destroy_cons e es w r w' : heap_wf w → iterate_loop destroy_clients (e :: es) w = Ok (r, w') →
  ∃ w1, heap_wf w1 ∧ iterate_loop destroy_clients es w1 = Ok (r, w')
    ∧ (∀ c, (c < fresh_loc w)%positive → at_loc w c = None → (c < fresh_loc w1)%positive ∧ at_loc w1 c = None)
    ∧ ∀ c, e_in_use e = true → e_val e = Some c → is_Some (at_loc w c) ∧ (c < fresh_loc w1)%positive ∧ at_loc w1 c = None.
Proof.
  intros Hwf E. cbn [iterate_loop] in E. destruct (e_in_use e) eqn:Hu; [|exists w; by split_and!].
  apply M_bind_Ok in E as (s & w1 & E1 & E). rewrite decide_False in E by (apply destroy_clients_status in E1; tauto).
  destruct (moves_ok (moves_destroy_clients False (db_lock (db w)) e) Hwf eq_refl E1) as [He _].
  pose proof (ev_fresh _ _ He) as Hf. exists w1. split_and!; [apply He|done| |].
  - intros c Hc Hn. split; [lia|by apply (ev_dead _ _ He)].
  - intros c _ Hv. destruct (destroy_clients_gone e c w s w1 Hv E1) as [[o Ho] Hn]. split_and!; [by eexists| |done].
    apply Hwf in Ho. change (next_loc (get_heap w)) with (fresh_loc w) in Ho. lia.
Qed.

Lemma destroy_dead es c w r w' i e : heap_wf w → (c < fresh_loc w)%positive → at_loc w c = None →
  es !! i = Some e → e_in_use e = true → e_val e = Some c → iterate_loop destroy_clients es w ≠ Ok (r, w').
Proof.
  induction es as [|e0 es IH] in w, i |- *; intros Hwf Hc Hn He Hu Hv E; [done|].
  destruct (destroy_cons e0 es w r w' Hwf E) as (w1 & Hwf1 & E1 & Hdead & Hgone). destruct i as [|i].
  - injection He as ->. destruct (Hgone c Hu Hv) as ([o Ho] & _). congruence.
  - destruct (Hdead c Hc Hn) as [Hc1 Hn1]. by apply (IH w1 i).
Qed.

Lemma destroy_twice es c w r w' i j e1 e2 : heap_wf w → (i < j)%nat → es !! i = Some e1 → es !! j = Some e2 →
  e_in_use e1 = true → e_in_use e2 = true → e_val e1 = Some c → e_val e2 = Some c →
  iterate_loop destroy_clients es w ≠ Ok (r, w').
Proof.
  induction es as [|e0 es IH] in w, i, j |- *; intros Hwf Hij H1 H2 Hu1 Hu2 Hv1 Hv2 E; [done|].
  destruct (destroy_cons e0 es w r w' Hwf E) as (w1 & Hwf1 & E1 & _ & Hgone). destruct j as [|j]; [lia|]. destruct i as [|i].
  - injection H1 as ->. destruct (Hgone c Hu1 Hv1) as (_ & Hc1 & Hn1). by apply (destroy_dead es c w1 r w' j e2).
  - apply (IH w1 i j); try done. lia.
Qed.

(** A client that is in the map twice is freed twice. *)
Lemma cleanup_twice w c i j e1 e2 : heap_wf w → 0 < m_size (clients (db w)) → i ≠ j →
  m_entries (clients (db w)) !! i = Some e1 → m_entries (clients (db w)) !! j = Some e2 →
  e_in_use e1 = true → e_in_use e2 = true → e_val e1 = Some c → e_val e2 = Some c → ∀ r, cleanup w ≠ Ok r.
Proof.
  intros Hwf Hsz Hij H1 H2 Hu1 Hu2 Hv1 Hv2 [[] w'] (w0 & w1 & [= <- <-] & E)%M_bind_Ok.
  apply M_bind_Ok in E as ([] & w1 & E1 & E). apply M_bind_Ok in E as ([] & w2 & E2 & _).
  assert (Hwf1 : heap_wf w1).
  { unfold hashmap_release_map in E1. apply M_bind_Ok in E1 as (s & w3 & E1 & [= <-]). unfold hashmap_iterate2 in E1.
    case_decide; [by injection E1 as _ <-|].
    apply (moves_ok (moves_iterate_loop False (db_lock (db w)) _ _ (moves_destroy_topics False _)) Hwf eq_refl E1). }
  apply M_bind_Ok in E2 as (s & w3 & E2 & _). unfold hashmap_iterate2 in E2. rewrite decide_False in E2 by lia.
  destruct (decide (i < j)%nat).
  - by apply (destroy_twice _ c w1 s w3 i j e1 e2) in E2.
  - apply (destroy_twice _ c w1 s w3 j i e2 e1) in E2; [done|done|lia|done..].
Qed.

(** * A CONNECT that leaves a freed key *)

(** The client [c], named [s0] by the string at [il], is in the map under its own name at
    slot [j], but the first entry of that name is another's, at slot [i], and nothing else
    under that name comes before on the way to [j]. *)
Record shadowed (w : World) (c il : loc) (s0 : list Z) (i j : nat) : Prop := {
  sh_own : m_entries (clients (db w)) !! j = Some (mk_entry (Some (KPtr il)) (Some c) true);
  sh_once p e : m_entries (clients (db w)) !! p = Some e → e_in_use e = true → e_key e = Some (KPtr il) → p = j;
  sh_first : found (str_of w) (clients (db w)) s0 = Some i;
  sh_other : i ≠ j;
  sh_chain : ∃ d, (d < MAX_CHAIN_LENGTH)%nat ∧ probed (clients (db w)) s0 d = j
    ∧ ∀ d', (d' < d)%nat → probed (clients (db w)) s0 d' ≠ i →
        slot_str (str_of w) (clients (db w)) (probed (clients (db w)) s0 d') ≠ Some s0
}.

(** There is room for the new name, away from the slot. *)
Definition roomy (w : World) (id : list Z) (i j l : nat) : Prop :=
  place (str_of w) (after_del (clients (db w)) i) id = Some l
  ∧ ∀ d, (d < MAX_CHAIN_LENGTH)%nat → probed (clients (db w)) id d ≠ j.

(** The strings of the keys, with the one that was freed. *)
Definition entered (w : World) (il : loc) (s0 : list Z) (k : key) : option (list Z) :=
  match k with
  | KPtr y => if decide (y = il) then Some s0 else str_at w y
  | KField bs => str_of w (KField bs)
  end.

(** The map after the change of name. *)
Definition renamed_map (w w' : World) (il : loc) (s0 : list Z) (i l : nat) (nid c : loc) : Hashmap key loc :=
  after_put (entered w' il s0) (after_del (clients (db w)) i) l (KPtr nid) (Some c).

(** What a taken over name leaves: the client [c] twice in the map, at [j] under a key that
    was freed and at [l] under its new name; no client that still has the name can take
    another, and the broker cannot be stopped any more. *)
Record left_behind (calloc_ok : Z → bool) (w : World) (c il : loc) (s0 id : list Z) (j l : nat) : Prop := {
  lb_apart : l ≠ j;
  lb_own : m_entries (clients (db w)) !! j = Some (mk_entry (Some (KPtr il)) (Some c) true);
  lb_freed : at_loc w il = None;
  lb_new : ∃ nid, m_entries (clients (db w)) !! l = Some (mk_entry (Some (KPtr nid)) (Some c) true)
    ∧ str_at w nid = Some id;
  lb_faults c2 cl2 il2 p : at_loc w c2 = Some (OClient cl2) → named w cl2 il2 s0 → c_idlen p ≠ 0 →
    c_clean_session p = 1 → connect_client calloc_ok (Some c2) cl2 p w = Err Dangling;
  lb_stop r : cleanup w ≠ Ok r
}.

Section Rename.
Context (w : World) (c : loc) (cl : Client) (il : loc) (s0 id : list Z) (i j l : nat).
Context (Hwf : heap_wf w) (Hm : hm_wf (str_of w) (clients (db w))) (Hl : m_lock (clients (db w)) = false).
Context (Hc : at_loc w c = Some (OClient cl)) (Hnm : named w cl il s0) (Hsh : shadowed w c il s0 i j).
Context (Hroom : roomy w id i j l).

Lemma name_string : str_at w il = Some s0 ∧ no_nul s0.
Proof. destruct Hnm as (bs & _ & Hil & Hbs). unfold str_at. rewrite Hil, Hbs. split; [done|by eapply cstr_no_nul]. Qed.

(** The strings of the heap but the one are kept. *)
Definition forgets (w' : World) : Prop := ∀ y bs, y ≠ il → at_loc w y = Some (OStr bs) → at_loc w' y = Some (OStr bs).

Lemma entered_stored w' k : forgets w' → stored_key (clients (db w)) k → entered w' il s0 k = str_of w k.
Proof.
  intros Hf (p & e & He & Hu & Hk). destruct (hm_keys _ _ Hm p e He Hu) as (k' & s & Hk' & [Hs _]).
  assert (k' = k) as -> by congruence. destruct k as [y|bs]; [|done]. cbn. case_decide as Hy; [subst y; symmetry; apply name_string|].
  apply str_at_inv in Hs as (bs & Hbs & Hcs). unfold str_at. by rewrite Hbs, (Hf _ _ Hy Hbs).
Qed.

Lemma stored_after_del k : stored_key (after_del (clients (db w)) i) k → stored_key (clients (db w)) k.
Proof.
  intros (p & e & He & Hu & Hk). cbn in He. rewrite list_lookup_alter in He. case_decide; [|by exists p, e].
  subst p. destruct (m_entries (clients (db w)) !! i); [|done]. injection He as <-. discriminate Hu.
Qed.

Lemma after_del_entered w' : forgets w' → hm_wf (entered w' il s0) (after_del (clients (db w)) i).
Proof.
  intros Hf. apply (hm_wf_frame (str_of w)).
  - intros k Hk. by apply entered_stored, stored_after_del.
  - eapply after_del_wf; [exact Hm|]. apply found_entry, (sh_first _ _ _ _ _ _ Hsh).
Qed.

Lemma place_entered w' : forgets w' → place (entered w' il s0) (after_del (clients (db w)) i) id = Some l.
Proof.
  intros Hf. rewrite (place_frame (str_of w)); [apply Hroom|]. intros k Hk. by apply entered_stored, stored_after_del.
Qed.

Lemma l_apart w' : forgets w' → l ≠ j ∧ (l < length (m_entries (after_del (clients (db w)) i)))%nat.
Proof.
  intros Hf. destruct (place_lt _ _ _ _ (after_del_entered w' Hf) (place_entered w' Hf)) as (Hlt & _ & _ & d & Hd & Hld & _).
  split; [|done].
  destruct Hroom as [_ Hav]. intros Heq. apply (Hav d Hd). rewrite <- Heq. by symmetry.
Qed.

(** The client gives up its name: the other's entry is taken out and its own key freed. *)
Lemma shadowed_rename calloc_ok pkt : cstr (c_id pkt) = Ok id → c_idlen pkt ≠ 0 → c_clean_session pkt = 1 →
  let nid := fresh_loc w in
  ∃ w', connect_client calloc_ok (Some c) cl pkt w = Ok (0, w') ∧ heap_wf w' ∧ fresh_loc w' = Pos.succ nid
    ∧ at_loc w' c = Some (OClient (with_id (Some nid) cl)) ∧ at_loc w' nid = Some (OStr (cobj id)) ∧ at_loc w' il = None
    ∧ (∀ y, y ≠ c → y ≠ nid → y ≠ il → at_loc w' y = at_loc w y) ∧ clients_env w w' ∧ forgets w'
    ∧ clients (db w') = renamed_map w w' il s0 i l nid c.
Proof.
  intros Hid Hlen Hcl nid. pose proof Hnm as (bs & Hidl & Hil & Hbs). pose proof (proj1 name_string) as Hsil.
  unfold connect_client. rewrite (decide_False (P := c_idlen pkt = 0)), (decide_True (P := c_clean_session pkt = 1)) by done.
  assert (E1 : del_client (Some c) w = Ok ((), set_clients (after_del (clients (db w)) i) w)).
  { unfold del_client. run_deref. rewrite Hidl. cbn [to_key of_option mbind res_bind lift]. erewrite M_bind_run by done.
    unfold clients_del. unfold mbind at 1, M_bind. rewrite (hashmap_del_found _ _ (KPtr il) s0 Hm Hl) by (by apply key_of).
    by rewrite (sh_first _ _ _ _ _ _ Hsh). }
  destruct (rename_half calloc_ok w _ c cl il bs (c_id pkt) id Hwf Hc Hidl Hil Hid E1)
    as (w4 & E4 & Hwf4 & Hf4 & Hm4 & Hc4 & Hn4 & Hil4 & Ho4 & He4). fold nid in Hf4, Hc4, Hn4, Ho4.
  assert (Hfg : forgets w4).
  { intros y bs' Hy Hbs'. rewrite Ho4; [done|congruence| |done]. by eapply (old_loc w). }
  assert (Hput : add_client calloc_ok (Some c) w4 = Ok ((), set_clients (renamed_map w w4 il s0 i l nid c) w4)).
  { unfold add_client. run_deref. cbn [with_id cl_id to_key of_option mbind res_bind lift]. erewrite M_bind_run by done.
    unfold clients_put. unfold mbind at 1, M_bind. rewrite Hm4.
    assert (Hkid : str_at w4 nid = Some id) by (by apply (str_at_cobj _ _ (c_id pkt))).
    assert (nid ≠ il) by congruence.
    enough (hashmap_put (str_of w4) calloc_ok 3 (after_del (clients (db w)) i) (KPtr nid) (Some c)
      = Ok (HASHMAP_OK, renamed_map w w4 il s0 i l nid c)) as -> by done.
    apply (put_avoiding (str_of w4) (entered w4 il s0) _ (after_del_entered w4 Hfg) Hl (KPtr nid) id j Hkid);
      [| |apply Hroom|by apply place_entered].
    - split; [cbn; by rewrite decide_False|]. by eapply cstr_no_nul.
    - intros p e k' He Hu Hk Hpj. destruct k' as [y|]; [|done]. cbn. rewrite decide_False; [done|]. intros ->.
      apply Hpj. cbn in He. rewrite list_lookup_alter in He. case_decide as Hpi; [|by apply (sh_once _ _ _ _ _ _ Hsh p e)].
      subst p. destruct (m_entries (clients (db w)) !! i); [|done]. injection He as <-. discriminate Hu. }
  rewrite E4. rewrite (M_bind_run _ _ _ _ _ Hput). eexists. split; [done|]. split_and!; try done.
  unfold clients_env. destruct He4 as [Hk Hd Hcf Hn Hrs]. split; [exact Hk| |exact Hcf|exact Hn|exact Hrs].
  cbn [set_clients set_db db clients]. by rewrite Hd.
Qed.

(** What is left, in any state [w2] with that map, in which the other strings are there. *)
Section Left.
Context (w' w2 : World) (nid : loc).
Context (Hf : forgets w') (Hf2 : forgets w2) (Hmap : clients (db w2) = renamed_map w w' il s0 i l nid c).
Context (Hn' : at_loc w' nid = Some (OStr (cobj id))) (Hn2 : at_loc w2 nid = Some (OStr (cobj id))) (Hil2 : at_loc w2 il = None) (Hid : no_nul id).

Lemma own_entry : m_entries (clients (db w2)) !! j = Some (mk_entry (Some (KPtr il)) (Some c) true).
Proof.
  destruct (l_apart w' Hf) as [Hlj _]. rewrite Hmap. cbn. rewrite list_lookup_insert_ne by done.
  rewrite list_lookup_alter, decide_False by apply (sh_other _ _ _ _ _ _ Hsh). apply (sh_own _ _ _ _ _ _ Hsh).
Qed.

Lemma new_entry : m_entries (clients (db w2)) !! l = Some (mk_entry (Some (KPtr nid)) (Some c) true).
Proof. destruct (l_apart w' Hf) as [_ Hll]. rewrite Hmap. cbn. by rewrite list_lookup_insert_eq. Qed.

Lemma size_left : 0 < m_size (clients (db w2)).
Proof.
  rewrite Hmap. cbn. rewrite (hm_size _ _ Hm). pose proof (found_entry _ _ _ _ (sh_first _ _ _ _ _ _ Hsh)) as Hi.
  apply slot_str_Some in Hi as (e & _ & He & Hu & _).
  pose proof (in_use_distinct (m_entries (clients (db w))) [i; j]) as Hc2. cbn [length] in Hc2.
  assert (2 ≤ in_use_count (m_entries (clients (db w))))%nat; [|case_decide; lia]. apply Hc2.
  - apply NoDup_cons_2; [|apply NoDup_singleton]. intros ->%list_elem_of_singleton. by apply (sh_other _ _ _ _ _ _ Hsh).
  - intros p [->|[->|Hp]%elem_of_cons]%elem_of_cons; [by exists e| |by apply elem_of_nil in Hp].
    eexists. split; [apply (sh_own _ _ _ _ _ _ Hsh)|done].
Qed.

(** A slot on the way to the client's own does not hold the name. *)
Lemma slot_passed p : id ≠ s0 → (p ≠ i → slot_str (str_of w) (clients (db w)) p ≠ Some s0) →
  is_Some (m_entries (clients (db w)) !! p) → passed (str_of w2) (clients (db w2)) s0 p.
Proof.
  intros Hne Hp [e He]. destruct (decide (p = l)) as [->|Hpl].
  { eexists. split; [apply new_entry|]. right. exists (KPtr nid), id. split_and!; [done| |done].
    cbn. unfold str_at. by rewrite Hn2, cstr_cobj_nul. }
  unfold passed. rewrite Hmap. cbn. rewrite list_lookup_insert_ne by done. rewrite list_lookup_alter.
  destruct (decide (i = p)) as [<-|Hip]; [rewrite He; eexists; split; [done|by left]|].
  exists e. split; [done|]. destruct (e_in_use e) eqn:Hu; [right|by left]. specialize (Hp ltac:(done)).
  destruct (hm_keys _ _ Hm p e He Hu) as (k & s & Hk & [Hs _]). exists k, s.
  assert (Hslot : slot_str (str_of w) (clients (db w)) p = Some s) by (unfold slot_str; rewrite He; cbn; by rewrite Hu, Hk).
  assert (s ≠ s0) by congruence. split_and!; [done| |done]. destruct k as [y|]; [|done]. cbn in Hs |- *.
  assert (y ≠ il) by (intros ->; rewrite (proj1 name_string) in Hs; congruence).
  apply str_at_inv in Hs as (bs & Hbs & Hcs). unfold str_at. by rewrite (Hf2 y bs), Hcs.
Qed.

(** A client that still has the name cannot connect any more. *)
Lemma name_dangles calloc_ok c2 cl2 il2 pkt2 : at_loc w2 c2 = Some (OClient cl2) → named w2 cl2 il2 s0 →
  c_idlen pkt2 ≠ 0 → c_clean_session pkt2 = 1 → connect_client calloc_ok (Some c2) cl2 pkt2 w2 = Err Dangling.
Proof.
  intros Hc2 (bs & Hid2 & Hil2' & Hbs) Hlen Hcl. unfold connect_client.
  rewrite (decide_False (P := c_idlen pkt2 = 0)), (decide_True (P := c_clean_session pkt2 = 1)) by done.
  apply M_bind_err. unfold del_client. run_deref. rewrite Hid2. cbn [to_key of_option mbind res_bind lift].
  erewrite M_bind_run by done. apply M_bind_err. unfold clients_del.
  enough (hashmap_del (str_of w2) (clients (db w2)) (KPtr il2) = Err Dangling) as -> by done.
  destruct (sh_chain _ _ _ _ _ _ Hsh) as (d & Hd & Hdj & Hway).
  assert (nid ≠ il) by congruence. destruct (l_apart w' Hf) as [_ Hll].
  assert (Hwfm : hm_wf (entered w' il s0) (clients (db w2))).
  { rewrite Hmap. apply (after_put_wf _ _ _ _ id); [by apply after_del_entered|done|]. split; [|done].
    cbn. rewrite decide_False by done. unfold str_at. by rewrite Hn', cstr_cobj_nul. }
  assert (Hprobed : ∀ d, probed (clients (db w2)) s0 d = probed (clients (db w)) s0 d) by (intros; by rewrite Hmap).
  apply (del_stale _ _ _ Hwfm) with (s := s0) (d := d); [by rewrite Hmap| |apply name_string|done| |].
  - cbn. unfold str_at. by rewrite Hil2', Hbs.
  - rewrite Hprobed, Hdj. eexists _, _. split; [apply own_entry|]. split_and!; [done|done|]. cbn. unfold str_at. by rewrite Hil2.
  - intros d' Hd'. rewrite Hprobed. apply slot_passed; [|by apply Hway|].
    + intros ->. by apply (proj2 Hroom d).
    + apply lookup_lt_is_Some_2. by apply (pos_lt (str_of w)).
Qed.

Lemma left_over calloc_ok : heap_wf w2 → left_behind calloc_ok w2 c il s0 id j l.
Proof.
  intros Hwf2. destruct (l_apart w' Hf) as [Hlj _]. split; [done|apply own_entry|done| | |].
  - exists nid. split; [apply new_entry|]. unfold str_at. by rewrite Hn2, cstr_cobj_nul.
  - by apply name_dangles.
  - intros r. by apply (cleanup_twice w2 c l j _ _ Hwf2 size_left Hlj new_entry own_entry).
Qed.

End Left.

End Rename.

(** The strings of the keys are all that these conditions take from the heap. *)
Lemma stored_same w w' k : hm_wf (str_of w) (clients (db w)) → strings_kept w w' → stored_key (clients (db w)) k →
  str_of w' k = str_of w k.
Proof.
  intros Hm Hs Hk. destruct (stored_key_str w (clients (db w)) k Hm Hk) as [s Hks]. rewrite Hks. by apply (strings_kept_of w).
Qed.

Lemma shadowed_same w w' c il s0 i j : hm_wf (str_of w) (clients (db w)) → strings_kept w w' → db w' = db w →
  shadowed w c il s0 i j → shadowed w' c il s0 i j.
Proof.
  intros Hm Hs Hd [Hown Honce Hfirst Hother (d & Hd8 & Hdj & Hway)].
  assert (Hk : ∀ k, stored_key (clients (db w)) k → str_of w' k = str_of w k) by (intros; by apply stored_same).
  split; rewrite ?Hd; try done.
  - unfold found. by rewrite (scan_frame (str_of w)).
  - exists d. split_and!; [done..|]. intros d' ??. rewrite (slot_str_frame (str_of w)) by done. by apply Hway.
Qed.

Lemma roomy_same w w' id i j l : hm_wf (str_of w) (clients (db w)) → strings_kept w w' → db w' = db w →
  roomy w id i j l → roomy w' id i j l.
Proof.
  intros Hm Hs Hd [Hp Hav]. unfold roomy. rewrite Hd. split; [|done]. rewrite (place_frame (str_of w)); [done|].
  intros k Hk. apply stored_same; [done|done|by apply (stored_after_del w i)].
Qed.

(** Receiving the packet keeps what was there. *)
Lemma received_shadowed w wb fd so c cl cl2 il s0 id i j l : heap_wf w → hm_wf (str_of w) (clients (db w)) →
  at_loc w c = Some (OClient cl) → env_eq (set_sock fd so w) wb →
  (∀ y, y ≠ c → y ≠ fresh_loc w → at_loc wb y = at_loc w y) → cl_id cl2 = cl_id cl →
  named w cl il s0 → shadowed w c il s0 i j → roomy w id i j l →
  db wb = db w ∧ hm_wf (str_of wb) (clients (db wb)) ∧ named wb cl2 il s0 ∧ shadowed wb c il s0 i j ∧ roomy wb id i j l.
Proof.
  intros Hwf Hm Hc Heb Hob Hid (bs & Hidl & Hil & Hbs) Hsh Hroom.
  assert (Hdb : db wb = db w) by exact (env_db _ _ Heb).
  assert (Hks : strings_kept w wb).
  { apply kept_heap. intros y bs' Hy. rewrite Hob; [done|congruence|by eapply (old_loc w)]. }
  split_and!; [done| | |by apply (shadowed_same w)|by apply (roomy_same w)].
  - rewrite Hdb. apply (hm_wf_frame (str_of w)); [|done]. intros k Hk. by apply stored_same.
  - exists bs. split_and!; [congruence| |done]. rewrite Hob; [done|congruence|by eapply (old_loc w)].
Qed.

(** * Properties *)

Section Exchange.
Context (calloc_ok : Z → bool) (queue_ok : bool).

(** C25. When a client whose name another client has taken over renames itself, the freed
    string of its old name stays behind as a key.  [shadowed] says what was there before:
    the client's own entry at slot [j], and at a slot [i] that is probed first an entry of
    the same name.  The CONNECT (a clean session under another identifier, for which there
    is room away from [j]) is answered, but takes the entry at [i] out of the map and
    frees the key of the one at [j].  After it the client is in the map twice; every client
    that still has the old name runs into the freed key at its next CONNECT with a clean
    session; and [cleanup], which frees a client for every entry, does not return a result. *)
Theorem takeover_leaves_freed_key w c cl il so s0 id ka slack more i j l :
  heap_wf w → hm_wf (str_of w) (clients (db w)) → locks_free w →
  at_loc w c = Some (OClient cl) → named w cl il s0 → get_sock w (cl_fd cl) = Some so →
  carries so CONNECT (con_payload 1 ka id slack) more → urange 16 ka → is_str id → id ≠ [] →
  Forall is_byte slack → Z.of_nat (length id) < 2 ^ 16 → Z.of_nat (length (con_payload 1 ka id slack)) ≤ ONEMB * 2 →
  is_Some (armed w (cl_fd cl)) → shadowed w c il s0 i j → roomy w id i j l →
  ∃ w1 w2, request_handler calloc_ok queue_ok (length (rx so)) (Some c) w = Ok (0, w1)
    ∧ reply_handler calloc_ok queue_ok (Some c) w1 = Ok (if decide (tx_accepts (tx so) 8 = 8) then 0 else -1, w2)
    ∧ left_behind calloc_ok w2 c il s0 id j l.
Proof.
  intros Hwf Hm [Hdl [_ Hl]] Hc Hnm Hso Hcar Hka Hid Hne Hsl Hlen Hmax Hi Hsh Hroom.
  destruct (ack_exchange calloc_ok queue_ok (con_packet 1 ka id slack) w c cl so _ _ more Hwf Hc Hso Hcar Hmax)
    as (rest & wb & Heb & Hwfb & Hfb & Hcb & Hpb & Hob & Hdone); [|done|done|].
  { intros ws. by apply unpack_con_packet. }
  set (p := fresh_loc w) in *. set (cl2 := with_ptr _ _) in Hcb. pose proof Hnm as (bs & Hidl & Hil & Hbs).
  destruct (received_shadowed w wb _ _ c cl cl2 il s0 id i j l Hwf Hm Hc Heb Hob eq_refl Hnm Hsh Hroom)
    as (Hdb & Hmb & Hnb & Hshb & Hroomb). assert (Hlb : m_lock (clients (db wb)) = false) by (by rewrite Hdb).
  assert (il ≠ c) by congruence. assert (Hilp : il ≠ p) by (by eapply (old_loc w)).
  destruct (shadowed_rename wb c cl2 il s0 id i j l Hwfb Hmb Hlb Hcb Hnb Hshb Hroomb calloc_ok (con_packet 1 ka id slack))
    as (w3 & E3 & Hwf3 & Hf3 & Hc3 & Hn3 & Hil3 & Ho3 & He3 & Hfg3 & Hmap3); [by apply cstr_cobj|destruct id; [done|cbn; lia]|done|].
  set (nid := fresh_loc wb) in *. assert (p ≠ c ∧ p ≠ nid) as [Hpc Hpn] by (rewrite Hfb; split; [by apply not_eq_sym; eapply (old_loc w)|lia]).
  assert (Hp3 : at_loc w3 p = Some (OConnect (con_packet 1 ka id slack))) by (by rewrite Ho3).
  destruct (connack_run w3 c _ p _ 0 Hwf3 Hc3 Hp3 ltac:(done)) as (w4 & E4 & He4 & Hwf4 & Hc4 & Hr4 & Hb4 & Hp4 & Ho4).
  set (b := fresh_loc w3) in *. set (r := Pos.succ b) in *.
  assert (Hk4 : w_kernel w4 = w_kernel wb) by (rewrite (env_kernel _ _ He4); exact (env_kernel _ _ He3)).
  assert (Hep4 : epollfd (db w4) = epollfd (db w)) by (by rewrite (env_db _ _ He4), (env_db _ _ He3), <- Hdb).
  assert (Er : run_commands (commands_hashmap calloc_ok queue_ok) CONNECT (Some c) (-1) false wb = Ok (0, true, w4)).
  { rewrite run_connect. rewrite M_bind_run with (a := 0) (s1 := w4); [done|]. unfold connect_handler. run_deref.
    cbn [cl2 with_ptr cl_ptr]. run_deref. by rewrite (M_bind_run _ _ _ _ _ E3). }
  destruct (Hdone 0 _ w4 r b CONNACK 0 None Er Hc4 eq_refl eq_refl Hr4 Hb4 ltac:(done) ltac:(done) Hk4 Hep4)
    as (w5 & w6 & E5 & _ & _ & E6 & Hc6 & Hr6 & Hb6 & Ho6 & _ & Hs6). clear Hdone.
  exists w5, w6. split; [exact E5|]. split; [exact E6|].
  assert (Hkey : ∀ y bs', at_loc w3 y = Some (OStr bs') → at_loc w6 y = Some (OStr bs')).
  { intros y bs' Hy. assert (y ≠ b) by (by eapply (old_loc w3)).
    assert (y ≠ r) by (eapply (old_loc w3); [done|exact Hy|unfold r, b; lia]). rewrite Ho6, Ho4; [done|congruence..]. }
  assert (Hwf6 : heap_wf w6).
  { destruct (moves_ok (moves_request calloc_ok queue_ok False (False_ind _) _ _) Hwf Hdl E5) as [H5 Hl5].
    by destruct (moves_ok (moves_reply calloc_ok queue_ok False (False_ind _) _) (ev_wf _ _ H5) Hl5 E6) as [[? _ _ _ _ _] _]. }
  assert (Hil6 : at_loc w6 il = None).
  { assert (il < p)%positive by (by apply Hwf in Hil). rewrite Ho6, Ho4; [exact Hil3|..]; try done; unfold r, b; lia. }
  eapply (left_over wb c cl2 il s0 id i j l); try done.
  - intros y bs' Hy Hbs'. by apply Hkey, Hfg3.
  - assert (db w6 = db w4) as -> by exact (sbi_db _ _ _ Hs6). rewrite (env_db _ _ He4). exact Hmap3.
  - by apply Hkey.
  - by apply is_str_no_nul.
Qed.

End Exchange.

(** * A run *)

(** A connection on which CONNECTs with clean sessions arrive, one at each event. *)
Definition demo_names (fd : Z) (ids : list (list Z)) : accept_env :=
  demo_client_at fd (mk_sock (ids ≫= λ id, rx (demo_sock CONNECT (con_payload 1 30 id [0]))) [TxAccept 99; TxAccept 99] []).

(** [ab] and [ar] hash to the same slot; [yy] and [zz] are elsewhere. *)
Definition id_ab : list Z := [97; 98].
Definition id_ar : list Z := [97; 114].
Definition id_yy : list Z := [121; 121].
Definition id_zz : list Z := [122; 122].

Local Open Scope positive_scope.

(** Three clients are accepted; a client's request, the answer to it, and the look for
    more that finds nothing are three events. *)
Definition demo_exchange (c : loc) : list (accept_env * loc) := replicate 3 (demo_latecomer, c).
Definition takeover_evs : list (accept_env * loc) :=
  ([(demo_names 7 [id_ab; id_zz], 52); (demo_names 8 [id_ar; id_yy], 52); (demo_names 10 [id_ar; id_ar], 52)]
  ++ demo_exchange 55 ++ demo_exchange 58 ++ demo_exchange 55 ++ demo_exchange 61 ++ demo_exchange 58)%list.

(** The broker before the last exchange, in which the second client takes the name [yy]. *)
Definition demo_shadowed : World := demo_played (take 15 takeover_evs).

Lemma demo_shadowed_reachable : reachable (λ _, true) true (λ _, 0%Z) demo_shadowed.
Proof. apply demo_reachable. vm_compute. reflexivity. Qed.

(** A table is well formed when its entries in use have live keys. *)
Definition live_key (w : World) (e : hashmap_entry key loc) : bool :=
  negb (e_in_use e) || match e_key e with
                       | Some k => match str_of w k with Some s => bool_decide (no_nul s) | None => false end
                       | None => false
                       end.

Lemma hm_wf_live w m : m_table_size m = Z.of_nat (length (m_entries m)) → (8 <= m_table_size m <= 2 ^ 31)%Z →
  m_size m = Z.of_nat (in_use_count (m_entries m)) → forallb (live_key w) (m_entries m) = true → hm_wf (str_of w) m.
Proof.
  intros Ht Hr Hs Hk. split; [done..|]. intros p e He Hu. rewrite forallb_forall in Hk.
  specialize (Hk e (proj1 (list_elem_of_In _ _) (list_elem_of_lookup_2 _ _ _ He))). unfold live_key in Hk. rewrite Hu in Hk. cbn in Hk.
  destruct (e_key e) as [k|]; [|done]. destruct (str_of w k) as [s|] eqn:Hs'; [|done].
  apply bool_decide_eq_true_1 in Hk. by exists k, s.
Qed.

Definition keyed_by (il : loc) (e : hashmap_entry key loc) : bool :=
  e_in_use e && match e_key e with Some (KPtr y) => Pos.eqb y il | _ => false end.

Lemma keyed_once (es : list (hashmap_entry key loc)) il j : forallb (λ '(p, e), negb (keyed_by il e) || Nat.eqb p j) (imap pair es) = true →
  ∀ p e, es !! p = Some e → e_in_use e = true → e_key e = Some (KPtr il) → p = j.
Proof.
  intros Hf p e He Hu Hk. rewrite forallb_forall in Hf. specialize (Hf (p, e)). cbv beta in Hf.
  assert (keyed_by il e = true) as E by (unfold keyed_by; rewrite Hu, Hk; apply Pos.eqb_refl).
  cbn beta iota in Hf. rewrite E in Hf. apply Nat.eqb_eq, Hf, list_elem_of_In, (list_elem_of_lookup_2 _ p).
  by rewrite list_lookup_imap, He.
Qed.

Definition demo_names_client : Client := mk_client 0 60 1000 (Some 59) 8 RequestHandler (Some 69) None (Some 68).

Lemma demo_is_shadowed : shadowed demo_shadowed 58 69 id_ar 185 186.
Proof.
  split.
  - vm_compute. reflexivity.
  - apply keyed_once. vm_compute. reflexivity.
  - vm_compute. reflexivity.
  - discriminate.
  - exists 1%nat. split; [unfold MAX_CHAIN_LENGTH; lia|]. split; [vm_compute; reflexivity|]. intros d' Hd.
    assert (d' = 0%nat) as -> by lia. intros []. vm_compute. reflexivity.
Qed.

Lemma demo_is_roomy : roomy demo_shadowed id_yy 185 186 95.
Proof.
  split; [vm_compute; reflexivity|].
  assert (H : forallb (λ d, negb (Nat.eqb (probed (clients (db demo_shadowed)) id_yy d) 186)) (seq 0 8) = true) by (vm_compute; reflexivity).
  intros d Hd Heq. rewrite forallb_forall in H. specialize (H d). rewrite Heq in H. discriminate H.
  apply list_elem_of_In, elem_of_seq. unfold MAX_CHAIN_LENGTH in Hd. lia.
Qed.

Lemma demo_shadowed_live : hm_wf (str_of demo_shadowed) (clients (db demo_shadowed)).
Proof. apply hm_wf_live; vm_compute; done. Qed.

(** The second client renames itself to [yy]; the third is still named [ar]. *)
Lemma takeover_leaves_freed_key_witness : reachable (λ _, true) true (λ _, 0%Z) demo_shadowed
  ∧ ∃ w1 w2, request_handler (λ _, true) true 2 (Some 58) demo_shadowed = Ok (0%Z, w1)
    ∧ reply_handler (λ _, true) true (Some 58) w1 = Ok (0%Z, w2)
    ∧ left_behind (λ _, true) w2 58 69 id_ar id_yy 186 95.
Proof.
  split; [exact demo_shadowed_reachable|].
  destruct (reachable_inv _ _ _ _ demo_shadowed_reachable) as [Hi Hl].
  apply (takeover_leaves_freed_key (λ _, true) true demo_shadowed 58 demo_names_client 69
    (mk_sock (rx (demo_sock CONNECT (con_payload 1 30 id_yy [0%Z]))) [TxAccept 99] (Some <$> ack_bytes CONNACK 0))
    id_ar id_yy 30 [0%Z] [] 185 186 95 (inv_wf _ Hi) demo_shadowed_live Hl).
  - vm_compute. reflexivity.
  - exists (cobj id_ar). split; [reflexivity|]. split; vm_compute; reflexivity.
  - vm_compute. reflexivity.
  - eexists CONNECT, _, [], []. split; [reflexivity|]. split; [constructor|]. cbn. reflexivity.
  - done.
  - by repeat constructor.
  - discriminate.
  - by repeat constructor.
  - done.
  - vm_compute. discriminate.
  - eexists. vm_compute. reflexivity.
  - exact demo_is_shadowed.
  - exact demo_is_roomy.
Defined.

(** After that exchange the third client sends its CONNECT, and the worker runs into the
    freed key; a broker that is stopped instead frees the second client twice. *)
Lemma takeover_run : reachable (λ _, true) true (λ _, 0%Z) (demo_played takeover_evs)
  ∧ worker_event (λ _, true) true (λ _, 0%Z) 10 demo_latecomer (mk_event EPOLLIN (DataPtr 61)) (demo_played takeover_evs)
    = Err Dangling
  ∧ cleanup (demo_played takeover_evs) = Err Dangling.
Proof. split; [apply demo_reachable; vm_compute; reflexivity|]. split; vm_compute; reflexivity. Qed.
