(* ===== verification/Readline.v ===== *)
(** The command line clients: reading a line.

    [readline] is the one function of sizigypub.c that does not depend on a protocol the
    library no longer has.  Its state is the block it reads into, [line_block], with the bytes
    written so far, and [len], which counts down to the next growth; [alloc] says which
    requests for memory succeed, and the standard input is the list of its bytes. *)
From stdpp Require Import base numbers option list.
From Stdlib Require Import ZArith Lia.
From S2P Require Import Prelude.

Local Open Scope Z_scope.

Definition BUFSIZE : Z := 2048.

(** [line] points after the last byte written. *)
Record line_block := mk_line_block { lenmax : Z; written : list Z }.

Definition put_char (c : Z) (b : line_block) : res line_block :=
  if decide (Z.of_nat (length (written b)) < lenmax b) then Ok (mk_line_block (lenmax b) (written b ++ [c]))
  else Err OutOfBounds.

(** A store at an index of type [size_t]. *)
Definition store_at (i c : Z) (s : list Z) : res (list Z) :=
  if decide (i < Z.of_nat (length s)) then Ok (<[Z.to_nat i := c]> s) else Err OutOfBounds.

Section Reading.
Context (alloc : Z → bool).

(** A block that cannot grow is freed. *)
Fixpoint read_loop (input : list Z) (b : line_block) (len : Z) : res (option line_block * list Z) :=
  match input with
  | [] => Ok (Some b, [])
  | c :: input =>
      let len := len - 1 in
      let grown := mk_line_block (wrap64 (lenmax b * 2)) (written b) in
      if decide (len = 0 ∧ alloc (lenmax grown) = false) then Ok (None, input) else
      let '(b, len) := if decide (len = 0) then (grown, lenmax b) else (b, len) in
      b ← put_char c b;
      if decide (c = 10) then Ok (Some b, input) else read_loop input b len
  end.

(** The end of the string is written, and the last byte before it cut. *)
Definition cut_line (b : line_block) : res (list Z) :=
  b ← put_char 0 b;
  n ← strlen (written b);
  store_at (wrap64 (Z.of_nat n - 1)) 0 (written b).

(** What is returned is the block, if any, and what is left of the input. *)
Definition readline (input : list Z) : res (option (list Z) * list Z) :=
  if alloc BUFSIZE then
    '(b, rest) ← read_loop input (mk_line_block BUFSIZE []) BUFSIZE;
    match b with
    | None => Ok (None, rest)
    | Some b =>
        s ← cut_line b;
        Ok (Some s, rest)
    end
  else Ok (None, input).

(** * Lemmas *)

(** The block has room for [len] bytes, one of them for the end of the string, and its
    size is small enough to be doubled. *)
Definition roomy (b : line_block) (len : Z) : Prop :=
  1 ≤ len ∧ len + Z.of_nat (length (written b)) = lenmax b ∧ lenmax b ≤ 2 * Z.of_nat (length (written b)) + BUFSIZE.

Context (Halloc : ∀ n, alloc n = true).

(** The byte is written. *)
Lemma read_loop_cons c input b len : roomy b len → Z.of_nat (length (written b)) < 2 ^ 61 →
  ∃ b' len', written b' = written b ++ [c] ∧ roomy b' len'
    ∧ read_loop (c :: input) b len = if decide (c = 10) then Ok (Some b', input) else read_loop input b' len'.
Proof.
  destruct b as [m w]. unfold roomy. cbn [lenmax written]. intros (Hl & Hm & Hb) Hw. unfold BUFSIZE in *.
  assert (Hg : wrap64 (m * 2) = m * 2) by (apply (wrap_small 64); unfold urange; lia).
  cbn [read_loop lenmax written]. rewrite Hg, Halloc, (decide_False (P := _ ∧ _)) by naive_solver.
  assert (Hlen : length (w ++ [c]) = S (length w)) by (rewrite length_app; cbn; lia).
  case_decide as Hd; unfold put_char; cbn [lenmax written]; rewrite decide_True by lia; cbn [mbind res_bind];
    eexists (mk_line_block _ _), _; cbn [lenmax written]; rewrite Hlen; (split; [done|]); (split; [|done]); lia.
Qed.

(** The bytes of a line are. *)
Lemma read_loop_line line tail b len : roomy b len → Forall (λ c, c ≠ 10) line →
  Z.of_nat (length (written b) + length line) < 2 ^ 61 →
  ∃ b' len', written b' = written b ++ line ∧ roomy b' len' ∧ read_loop (line ++ tail) b len = read_loop tail b' len'.
Proof.
  revert b len. induction line as [|c line IH]; intros b len Hr Hn Hsz.
  { exists b, len. by rewrite app_nil_r. }
  apply Forall_cons in Hn as [Hc Hn]. cbn [length] in Hsz.
  destruct (read_loop_cons c (line ++ tail) b len Hr) as (b1 & len1 & Hw1 & Hr1 & E1); [lia|].
  destruct (IH b1 len1 Hr1 Hn) as (b2 & len2 & Hw2 & Hr2 & E2); [rewrite Hw1, length_app; cbn; lia|].
  exists b2, len2. rewrite Hw2, Hw1, <- app_assoc. split; [done|]. split; [done|].
  cbn [app]. by rewrite E1, decide_False.
Qed.

(** The last byte before the end of the string is cut. *)
Lemma cut_last b len s c : roomy b len → written b = s ++ [c] → no_nul (written b) →
  Z.of_nat (length (written b)) < 2 ^ 61 →
  cut_line b = Ok (s ++ [0; 0]).
Proof.
  intros (Hl & Hm & _) Hw Hno Hsz. unfold cut_line, put_char. rewrite decide_True by lia. cbn [mbind res_bind written].
  change (written b ++ [0]) with (cobj (written b)). rewrite strlen_nul by done. cbn [mbind res_bind].
  rewrite Hw in *. rewrite length_app in *. cbn [length] in *.
  rewrite (wrap_small 64) by (unfold urange; lia). unfold store_at, cobj. rewrite !length_app. cbn [length].
  rewrite decide_True by lia. f_equal.
  replace (Z.to_nat (Z.of_nat (length s + 1) - 1)) with (length s + 0)%nat by lia.
  by rewrite <- app_assoc, insert_app_r.
Qed.

(** * Properties *)

(** C36. What [readline] gives depends on how the input ends, not on its length: as long as
    memory does not run out, a line that ends with a newline is returned without it, and
    the input after it is left; the block always has room, however often it grows.  A last
    line that the end of the input cuts short loses its last byte; and at the end of the
    input the function writes before its block. *)
Theorem readline_reads line : Forall (λ c, c ≠ 10) line → no_nul line → Z.of_nat (length line) < 2 ^ 60 →
  (∀ rest, readline (line ++ 10 :: rest) = Ok (Some (line ++ [0; 0]), rest))
  ∧ (∀ s c, line = s ++ [c] → readline line = Ok (Some (s ++ [0; 0]), []))
  ∧ readline [] = Err OutOfBounds.
Proof.
  intros Hn Hno Hsz. unfold readline. rewrite Halloc. set (b0 := mk_line_block BUFSIZE []).
  assert (Hr0 : roomy b0 BUFSIZE) by (unfold roomy; cbn; unfold BUFSIZE; lia).
  split; [intros rest|split; [intros s c Hs|done]].
  - destruct (read_loop_line line (10 :: rest) b0 BUFSIZE Hr0 Hn) as (b1 & len1 & Hw1 & Hr1 & E1); [cbn; lia|].
    cbn [written b0 app] in Hw1.
    destruct (read_loop_cons 10 rest b1 len1 Hr1) as (b2 & len2 & Hw2 & Hr2 & E2); [rewrite Hw1; lia|].
    rewrite E1, E2, decide_True by done. cbn [mbind res_bind]. rewrite Hw1 in Hw2.
    rewrite (cut_last b2 len2 line 10); [done|done|done| |]; rewrite Hw2.
    + apply Forall_app. split; [done|]. by repeat constructor.
    + rewrite length_app. cbn. lia.
  - destruct (read_loop_line line [] b0 BUFSIZE Hr0 Hn) as (b1 & len1 & Hw1 & Hr1 & E1); [cbn; lia|].
    cbn [written b0 app] in Hw1. rewrite app_nil_r in E1. rewrite E1. cbn [read_loop mbind res_bind].
    rewrite (cut_last b1 len1 s c); [done|done|congruence|by rewrite Hw1|rewrite Hw1; lia].
Qed.

End Reading.

(** * Witnesses *)

(** A line that makes the block grow, and one that the end of the input cuts. *)
Definition demo_line : list Z := replicate 3000 97.

Lemma readline_reads_witness : readline (λ _, true) (demo_line ++ [10; 98]) = Ok (Some (demo_line ++ [0; 0]), [98])
  ∧ readline (λ _, true) [97; 98] = Ok (Some [97; 0; 0], []).
Proof.
  destruct (readline_reads (λ _, true) (λ _, eq_refl) demo_line) as (Hline & _ & _).
  - apply Forall_replicate. discriminate.
  - apply Forall_replicate. discriminate.
  - unfold demo_line. rewrite length_replicate. reflexivity.
  - split; [exact (Hline [98])|].
    destruct (readline_reads (λ _, true) (λ _, eq_refl) [97; 98]) as (_ & Hcut & _).
    + repeat constructor; discriminate.
    + repeat constructor; discriminate.
    + reflexivity.
    + exact (Hcut [97] 98 eq_refl).
Defined.
