(* ===== verification/Main.v ===== *)
(** The entry point of [main.c]: the options, the node to join, and the configuration the
    server is started with.

    getopt(3) gives the sequence of options, with their arguments, and the words left
    over; make_connection is the network's. *)
From Stdlib Require Import ZArith Lia Ascii String List.
From stdpp Require Import base numbers option list.
From S2P Require Import Prelude Util.

Local Open Scope Z_scope.

(** * Definitions *)

(** What getopt(3) returns, and [optarg]. *)
Record cli_option := mk_option { opt : Z; optarg : list Z }.

Record settings := mk_settings {
  addr : list Z; port : list Z; debug : Z; nworkers : Z; node_fd : Z
}.

Definition defaults : settings :=
  mk_settings (cobj (bytes "127.0.0.1")) (cobj (bytes "9090")) 1 4 (-1).

Definition letter (s : string) : Z := from_option id 0 (head (bytes s)).

(** atoi(3): white space, a sign, digits; a value no [int] holds has no defined result. *)
Definition is_space (c : Z) : bool := bool_decide (c = 32 ∨ 9 ≤ c ≤ 13).

Fixpoint skip_space (s : list Z) : list Z :=
  match s with
  | c :: s' => if is_space c then skip_space s' else s
  | [] => []
  end.

Fixpoint digits (s : list Z) (n : Z) : Z :=
  match s with
  | c :: s => if decide (48 ≤ c ≤ 57) then digits s (n * 10 + (c - 48)) else n
  | [] => n
  end.

Definition atoi (str : list Z) : res Z :=
  s ← cstr str;
  let s := skip_space s in
  let v := match s with
           | c :: s' => if decide (c = 45) then - digits s' 0
                        else if decide (c = 43) then digits s' 0 else digits s 0
           | [] => 0
           end in
  if decide (- 2 ^ 31 ≤ v < 2 ^ 31) then Ok v else Err IntOverflow.

(** The switch on an option: [-n] has no [break], and the default case exits. *)
Definition option_step (s : settings) (o : cli_option) : res settings :=
  if decide (opt o = letter "a") then Ok (mk_settings (optarg o) (port s) (debug s) (nworkers s) (node_fd s))
  else if decide (opt o = letter "p") then Ok (mk_settings (addr s) (optarg o) (debug s) (nworkers s) (node_fd s))
  else if decide (opt o = letter "v") then Ok (mk_settings (addr s) (port s) 1 (nworkers s) (node_fd s))
  else if decide (opt o = letter "n") then _ ← atoi (optarg o); Err Aborted
  else Err Aborted.

Fixpoint parse_options (s : settings) (opts : list cli_option) : res settings :=
  match opts with
  | [] => Ok s
  | o :: opts => s ← option_step s o; parse_options s opts
  end.

(** strncasecmp(3) of a word with "join", up to the length of the word. *)
Definition lower (c : Z) : Z := if decide (65 ≤ c ≤ 90) then c + 32 else c.
Definition is_join (word : list Z) : bool :=
  bool_decide ((length word ≤ 4)%nat ∧ lower <$> word = take (length word) (bytes "join")).

Section Main.
(** make_connection of a host, which is [argv[argc]], NULL, when words are missing. *)
Context (make_connection : list Z → Z → Z).

(** The words from [optind] on; [argv] ends with NULL. *)
Definition join_node (rest : list (list Z)) (fd : Z) : res Z :=
  match rest with
  | [] => Ok fd
  | word :: args =>
      w ← cstr word;
      if is_join w then
        match args with
        | [] => Err OutOfBounds
        | [_] => Err NullDeref
        | target :: tport :: _ =>
            p ← atoi tport;
            p ← int_add p 10000;
            Ok (make_connection target p)
        end
      else Ok fd
  end.

(** The configuration and the arguments of start_server. *)
Record start_args := mk_start { loglevel : Z; workers : Z; s_addr : list Z; s_port : list Z; s_node : Z }.

Definition main (opts : list cli_option) (rest : list (list Z)) : res start_args :=
  s ← parse_options defaults opts;
  fd ← join_node rest (node_fd s);
  Ok (mk_start (if decide (debug s = 1) then 2 else 0) (nworkers s) (addr s) (port s) fd).

End Main.

(** The argument of the last occurrence of an option. *)
Definition last_arg (c : Z) (default : list Z) (opts : list cli_option) : list Z :=
  foldl (λ a o, if decide (opt o = c) then optarg o else a) default opts.

Definition known (o : cli_option) : Prop :=
  opt o = letter "a" ∨ opt o = letter "p" ∨ opt o = letter "v".
#[global] Instance known_dec o : Decision (known o).
Proof. unfold known. apply _. Defined.

(** * Lemmas *)

Lemma option_step_unknown s o : ¬ known o → (∀ n, atoi (optarg o) ≠ Err n) → option_step s o = Err Aborted.
Proof.
  unfold known, option_step. intros Hk Ha. rewrite !decide_False by naive_solver. case_decide; [|done].
  destruct (atoi (optarg o)) as [v|e]; [done|]. by destruct (Ha e).
Qed.

(** An option that is known is parsed, and the debug flag stays set. *)
Lemma option_step_known s o : debug s = 1 → known o → ∃ s', option_step s o = Ok s'
  ∧ debug s' = 1 ∧ nworkers s' = nworkers s ∧ node_fd s' = node_fd s
  ∧ addr s' = (if decide (opt o = letter "a") then optarg o else addr s)
  ∧ port s' = (if decide (opt o = letter "p") then optarg o else port s).
Proof.
  intros Hd Hk. unfold option_step.
  destruct Hk as [-> | [-> | ->]]; rewrite ?(decide_False (P := letter _ = letter _)) by done;
    rewrite decide_True by done; eexists; split_and!; try done; by rewrite ?decide_True by done.
Qed.

Lemma parse_options_known s opts : debug s = 1 → Forall known opts →
  parse_options s opts = Ok (mk_settings (last_arg (letter "a") (addr s) opts)
    (last_arg (letter "p") (port s) opts) 1 (nworkers s) (node_fd s)).
Proof.
  revert s. induction opts as [|o opts IH]; intros s Hd Hk; [cbn; by destruct s; cbn in *; subst|].
  apply Forall_cons in Hk as [Ho Hk]. cbn [parse_options].
  destruct (option_step_known s o Hd Ho) as (s' & -> & Hd' & Hw & Hf & Ha & Hp).
  cbn [mbind res_bind]. rewrite IH by done. unfold last_arg. cbn [foldl]. by rewrite Ha, Hp, Hw, Hf.
Qed.

(** The options up to the first that stops the program. *)
Lemma parse_options_stops s pre o post : debug s = 1 → Forall known pre → ¬ known o →
  (∀ e, atoi (optarg o) ≠ Err e) → parse_options s (pre ++ o :: post) = Err Aborted.
Proof.
  revert s. induction pre as [|o' pre IH]; intros s Hd Hk Ho Ha; cbn [app parse_options].
  - by rewrite option_step_unknown.
  - apply Forall_cons in Hk as [Ho' Hk].
    destruct (option_step_known s o' Hd Ho') as (s' & -> & Hd' & _). by apply IH.
Qed.

(** * Properties *)

(** C37. Of the options only the last [-a] and the last [-p] have an effect: the server is
    always started with four workers and the log level of debugging, whether [-v] is
    given or not, and any other option, [-n] with a number included, ends the program
    with its usage. *)
Theorem options_effect make_connection opts :
  (Forall known opts → main make_connection opts []
     = Ok (mk_start 2 4 (last_arg (letter "a") (addr defaults) opts)
             (last_arg (letter "p") (port defaults) opts) (-1)))
  ∧ ∀ pre o post rest, opts = pre ++ o :: post → Forall known pre → ¬ known o →
      (∀ e, atoi (optarg o) ≠ Err e) → main make_connection opts rest = Err Aborted.
Proof.
  unfold main. split.
  - intros Hk. by rewrite parse_options_known.
  - intros pre o post rest -> Hk Ho Ha. by rewrite parse_options_stops.
Qed.

Lemma options_effect_witness :
  main (λ _ p, p) [mk_option (letter "p") (cobj (bytes "1883")); mk_option (letter "v") []] []
    = Ok (mk_start 2 4 (cobj (bytes "127.0.0.1")) (cobj (bytes "1883")) (-1))
  ∧ main (λ _ p, p) [mk_option (letter "n") (cobj (bytes "8"))] [] = Err Aborted.
Proof.
  split.
  - apply (proj1 (options_effect (λ _ p, p)
      [mk_option (letter "p") (cobj (bytes "1883")); mk_option (letter "v") []])).
    apply (bool_decide_unpack _). by vm_compute.
  - apply (proj2 (options_effect (λ _ p, p) [mk_option (letter "n") (cobj (bytes "8"))]) []
      (mk_option (letter "n") (cobj (bytes "8"))) [] []); [done|constructor| |by intros e].
    apply (bool_decide_unpack _). by vm_compute.
Defined.

(** A first word that is any prefix of [join], in upper or lower case, the empty word
    included, needs two more words: with one, [atoi] is called on NULL, and with none
    the program reads beyond [argv]. *)
Theorem join_needs_words make_connection opts word w args :
  Forall known opts → cstr word = Ok w → is_join w = true →
  main make_connection opts (word :: args) =
    match args with
    | [] => Err OutOfBounds
    | [_] => Err NullDeref
    | target :: tport :: _ =>
        p ← atoi tport; p ← int_add p 10000;
        Ok (mk_start 2 4 (last_arg (letter "a") (addr defaults) opts)
              (last_arg (letter "p") (port defaults) opts) (make_connection target p))
    end.
Proof.
  intros Hk Hw Hj. unfold main. rewrite parse_options_known by done. cbn [mbind res_bind join_node].
  rewrite Hw. cbn [mbind res_bind]. rewrite Hj.
  destruct args as [|target [|tport args]]; [done..|].
  destruct (atoi tport) as [p|]; [|done]. cbn. by destruct (int_add p 10000).
Qed.

Lemma join_needs_words_witness :
  main (λ _ p, p) [] [cobj (bytes "J"); cobj (bytes "host")] = Err NullDeref
  ∧ main (λ _ p, p) [] [cobj (bytes "join"); cobj (bytes "host"); cobj (bytes " 9091")]
    = Ok (mk_start 2 4 (cobj (bytes "127.0.0.1")) (cobj (bytes "9090")) 19091).
Proof.
  split.
  - exact (join_needs_words (λ _ p, p) [] (cobj (bytes "J")) (bytes "J") [cobj (bytes "host")]
      (Forall_nil_2 _) eq_refl eq_refl).
  - exact (join_needs_words (λ _ p, p) [] (cobj (bytes "join")) (bytes "join")
      [cobj (bytes "host"); cobj (bytes " 9091")] (Forall_nil_2 _) eq_refl eq_refl).
Defined.
